(* ===== verification/_CoqProject ===== *)
-Q . S2P
Prelude.v
GoStrings.v
Codec.v
Sha256.v
Encoding.v
Checksum.v
Sequence.v
Store.v
RateLimit.v
Dns.v
Relay.v
Crypto.v
Engine.v
SendParallel.v
Backoff.v
Delivery.v
Split.v
Races.v
MediaClient.v
Queue.v
Daemon.v
Messages.v
Transfers.v
DaemonSteps.v
EndToEnd.v
Entry.v
MediaFlow.v
