(* ===== verification/Prelude.v ===== *)
(** * VRGram: a messenger over DNS

    VRGram carries messages as DNS queries.  A client splits an encrypted
    message into chunks, writes each chunk into the labels of a DNS name and
    asks a relay for that name; the relay stores the chunks, and the recipient
    polls the relay for its messages and asks for their chunks.  Files travel
    over HTTP to a media server of the relay, and only their description and
    key travel as a message.  The Go code is under src/go; this library models
    its relay, its client engine and its client daemon, and proves what they
    promise to each other.

    ** Files, in the order they depend on each other

    - [Prelude]: bytes, the [result] monad, machine integers with their wrap-
      around, iteration order of maps as a class ([IterOrder]), the order of
      SQL queries ([SqlOrder]), tactics, hints and shared lemmas.
    - [GoStrings], [Codec], [Sha256]: what the code uses of Go's standard
      library (strings, strconv, net, path/filepath, base32, base64, hex,
      binary, sha256), with their round trips.
    - [Encoding]: internal/encoding/encoding.go.  [ChunkMessage] and
      [ReassembleMessage], the label format, CRC-16.
    - [Checksum]: the remainder of polynomial division that the CRC of
      [Encoding] is measured against.
    - [Sequence], [Store]: internal/store.  The counter of a recipient's
      messages over a key-value bucket, the interface [SequenceSource] it
      offers, and the store of chunks that uses it: buffers, owners, counts per
      peer and the collector.
    - [RateLimit]: internal/ratelimit/ratelimit.go.  Token buckets over
      rationals, with float64 operations rounded by any monotone rounding that
      keeps small integers ([Rounding]).
    - [Dns]: internal/dns/dns.go.  Building queries, the modes TCP, UDP and
      Auto, parsing answers, over a network [Network] that answers or not.
    - [Relay]: internal/relay/server.go and the relay cmd/relayd/main.go
      starts.  The DNS handler composed of limiter, codec and store; the media
      server in [Media]; the atomic steps [relay_step].
    - [Crypto]: internal/crypto.  Keys, messages, signatures, the identity
      file, group keys, invitations; the primitives are the class [CryptoLib]
      with the laws [CryptoLaws].
    - [Engine], [SendParallel]: internal/client/dns_engine.go.  Configuration,
      polling and fetching as functions on a world; the goroutines of
      [sendParallel] as a transition system: the moves [pmove], and [pstep],
      which adds the ticks of the watching loop that find nothing to do.
    - [Backoff]: the random waits of [sendWithRetry] and [SendMessage].
    - [Delivery]: engine and relay put together over a network that loses
      queries and replies, with other clients and the collector at work
      between the exchanges ([visit]).
    - [Split]: the same with two relays, and messages whose chunks are
      scattered over them.
    - [Races]: calls of [PollMessages] and of [AddRelay] that overlap, their
      locked sections as steps ([call_step], [poll_step]).
    - [MediaClient]: internal/media.  File encryption, the table of transfers,
      the two media transports, and the relay's media server behind an HTTP
      exchange that may lose a request or its reply ([http_fault]).
    - [Queue]: internal/client/queue.go and detector.go, and [processQueue];
      the relation [attempts] ties every row to the result of its send.
    - [Daemon], [Messages], [Transfers]: internal/client/daemon.go,
      daemon_state.go and daemon_groups.go.  The state of the daemon is the
      record [Daemon]; every gRPC handler is a function from it to the next
      state and a result.  The handlers see the engine through the class
      [Transport].
    - [DaemonSteps]: the daemon over time.  The handlers and the loops
      [RunDaemon] starts are the steps of one relation [daemon_step]; every
      step is broken down into single changes ([change]), against which
      invariants are checked.
    - [EndToEnd]: the daemon on top of the real engine.  The class
      [EngineTransport] says what a [Transport] made of the engine of
      [SendParallel] and [Engine] promises; [client_transport] is one.
    - [MediaFlow]: the same for files: [MediaTransport] says what a transport
      made of the HTTP client and the relay's media server promises.
    - [Entry]: cmd/relayd/main.go, mobile/bridge.go, cmd/gomobile/bridge.go and
      mobileso/main.go.  The flag package, the command line, and the call of
      [RunDaemon] each way in makes.

    ** What the theorems show

    - Delivery: a message that is split is put together again from its chunks
      in any order, and from nothing else ([reassemble_chunks],
      [reassemble_iff]); the checksum is the remainder of a division
      ([crc16_is_remainder]); a chunk survives its labels ([labels_roundtrip]) and
      the relay ([relay_returns_chunk], [store_delivers]); whatever the
      interleaving of goroutines, the losses of the network and the other
      clients of the relay, a message
      reported as sent to a relay is received from it ([sent_is_received],
      [parallel_delivery]); the goroutines make a bounded number of moves and
      are never stuck ([parallel_terminates]).
    - Conversation: what one daemon sends, its peer's daemon shows
      ([conversation]), and through engine, network and relay as well
      ([end_to_end]); invitations connect two daemons ([invite_connects]);
      messages are sent or queued, and queued ones are sent, kept or given up
      after twenty tries ([send_or_queue], [queue_no_silent_loss],
      [queue_gives_up]).
    - The daemon over time: its maps stay keyed, its queue and its table of
      transfers keep distinct identifiers ([daemon_invariant]); a daemon that
      stops at any point and starts again has the peers, groups, profile,
      identity and token it had ([crash_safe]), unless a peer names itself
      after one of its files ([bio_overwrites_peers]) or a write of one of them
      was cut short ([torn_save_loses_peers]).
    - Ways in: the flags printed for a configuration are read back as it
      ([cli_roundtrip]), and command line, bridges and JNI make the same call,
      up to the directory used when none is given ([entry_points_agree]).
    - Relay and client state: the counts per peer ([peer_accounting]), the
      stored chunks ([relay_invariant]), the sequence numbers
      ([sequence_monotonic]), the buckets ([bucket_invariant], [burst_bound]),
      independence of the iteration order of maps ([store_order_free]),
      messages handed over once ([poll_messages_once], [polls_overlap]), waits
      between attempts ([backoff_bounds]), groups
      ([leave_group], [remove_member]), restarts ([restart_preserves]),
      authentication ([auth_exact]).
    - Media: a file one daemon sends is saved by the other
      ([media_end_to_end]); a file uploaded is downloaded intact
      ([tcp_media_delivery], [upload_download], [download_integrity]); a
      transfer ends, and a call to cancel it changes nothing
      ([send_media_terminal]); a stream is assembled from what the disk takes
      of its chunks ([stream_assembles]).
    - Behaviour that the code's comments do not promise, or deny: the sender
      shown is the sender claimed ([spoofed_sender]), a message spread over
      relays is reported as sent ([split_delivery]), the largest chunk size
      makes names too long ([chunk_size_names]), limits and edits that have no
      effect ([quota_not_enforced], [relay_edits_ignored]), overlapping calls
      that repeat a message or lose a relay ([overlapping_polls_duplicate],
      [relay_lost_update]), retries that never send ([retry_never_sends]),
      media settings a client cannot meet ([media_token_refused],
      [media_port_fixed]), and others beside the definitions they are about.

    ** Choices

    - Bytes and strings are lists of [ascii].  Integers are [Z], with [u16],
      [u64], [i32] and [i64] where the code converts or overflows.
    - Errors are values of [result]; a panic of the code is an error of its
      own.  Texts of errors of the standard library are replaced by names.
    - Time, random bytes and the success of database statements and file
      writes are arguments.  Locks are not modelled: an operation that holds
      one is one step, and where two such steps follow each other the theorems
      allow others between them ([relay_step], [pstep], [poll_step],
      [SendMedia]).  In [daemon_step] the other handlers are single steps.
    - A file write has one of three outcomes ([write_result]): all is written,
      the file could not be opened and is as before, or the file was truncated
      and holds a part of the data.  The files a start-up wrote before it
      failed are not part of its result.
    - File writes may fail in [daemon_invariant]; [crash_safe] is about runs in
      which the daemon's own files can be written, since the code ignores
      errors of these writes.
    - Recursion is structural everywhere, the flag parser and the number
      parsers of [Entry] included.  The numbers of steps that appear as
      [nat] arguments are the code's own: the three attempts of
      [sendWithRetry], the chunks announced in [fetch_rest], and the sixteen
      digits of a 64-bit number in [format_x] and twenty in [Itoa].
    - JSON, gRPC, the DNS and HTTP libraries, SQLite, bbolt and the
      cryptographic primitives are parameters, with the documented laws the
      theorems use as class fields or hypotheses; each has an instance on which
      the theorems are applied.

    ** Not modelled

    Generated gRPC code (pkg/relaypb), whose messages are the arguments and
    results of the handlers; logging and debug files; the server loops of the
    DNS, HTTP and gRPC libraries; the goroutine a bridge starts and the recovery
    that prints its panic; closing databases; the Flutter application.  Further
    work: handlers of the daemon interleaved at each of their locks, other
    clients at work while a poll is under way, and the life of a group over
    several members' daemons.
*)

From stdpp Require Export base gmap sets list strings.
From Stdlib Require Export ZArith Lia Sorted.
From Stdlib Require Ascii String.

#[export] Set Warnings "-clear-no-such-hyp".

#[global] Open Scope Z_scope.

(** ** Bytes and byte strings

    A Go [byte] is an [Ascii.ascii] (eight bits); both Go's [string] and
    [[]byte] are lists of bytes, so the conversions between them are the
    identity. *)
Abbreviation byte := Ascii.ascii.
Abbreviation bytes := (list Ascii.ascii).

Declare Scope go_scope.
Delimit Scope go_scope with go.

(** A Go string literal. *)
Definition str (s : string) : bytes := String.list_ascii_of_string s.

Notation "$ s" := (str s%string) (at level 1, s at level 0, format "$ s") : go_scope.
#[global] Open Scope go_scope.

(** The double quote, which the JSON templates of the daemon contain. *)
Definition dquote : byte := Ascii.ascii_of_nat 34.
Definition newline : byte := Ascii.ascii_of_nat 10.
Definition comma : byte := Ascii.ascii_of_nat 44.
Definition dot : byte := Ascii.ascii_of_nat 46.
Definition colon : byte := Ascii.ascii_of_nat 58.
Definition backslash : byte := Ascii.ascii_of_nat 92.
Definition byte_val (b : byte) : Z := Z.of_N (Ascii.N_of_ascii b).
Definition byte_of (z : Z) : byte := Ascii.ascii_of_N (Z.to_N (z mod 256)).

(** ** Machine integers: a w-bit word is a [Z]; these are Go's conversions. *)
Definition u16 (z : Z) : Z := z mod 2 ^ 16.
Definition u32 (z : Z) : Z := z mod 2 ^ 32.
Definition u64 (z : Z) : Z := z mod 2 ^ 64.
Definition i32 (z : Z) : Z := (z + 2 ^ 31) mod 2 ^ 32 - 2 ^ 31.
Definition i64 (z : Z) : Z := (z + 2 ^ 63) mod 2 ^ 64 - 2 ^ 63.

(** Length of a Go slice or string, as the [int] that [len] returns. *)
Definition len {A} (l : list A) : Z := Z.of_nat (length l).

(** ** Errors as values: Go's [(T, error)] results. *)
Inductive result (E A : Type) : Type :=
| Ok (a : A)
| Err (e : E).
Arguments Ok {_ _} _.
Arguments Err {_ _} _.

#[export] Instance result_ret {E} : MRet (result E) := fun _ a => Ok a.
#[export] Instance result_bind {E} : MBind (result E) := fun _ _ f r =>
  match r with Ok a => f a | Err e => Err e end.
#[export] Instance result_fmap {E} : FMap (result E) := fun _ _ f r =>
  match r with Ok a => Ok (f a) | Err e => Err e end.

#[export] Instance result_eq_dec {E A} `{!EqDecision E, !EqDecision A} : EqDecision (result E A).
Proof. solve_decision. Defined.

(** [if err != nil { return wrap(err) }] on an optional value. *)
Definition or_err {E A} (e : E) (o : option A) : result E A :=
  match o with Some a => Ok a | None => Err e end.

(** A guard: [if !b { return e }]. *)
Definition check {E} (b : bool) (e : E) : result E unit := if b then Ok tt else Err e.

(** What [os.WriteFile] can do: write the whole file; fail to open it, and
    leave what was there; or, having truncated it, write only a part. *)
Inductive write_result := Written | NotOpened | Partial (n : nat).

#[export] Instance write_result_eq_dec : EqDecision write_result.
Proof. solve_decision. Defined.

(** Whether the error is nil. *)
Definition wrote (r : write_result) : bool := match r with Written => true | _ => false end.

(** A slice [s[a:b]] with bounds in range. *)
Definition slice {A} (a b : nat) (l : list A) : list A := take (b - a) (drop a l).

(** Consecutive groups of [n] elements ([for i := 0; i < len(l); i += n]);
    [length l] is always enough fuel when [n > 0]. *)
Fixpoint groups {A} (fuel n : nat) (l : list A) : list (list A) :=
  match fuel with
  | O => []
  | S f => match l with [] => [] | _ => take n l :: groups f n (drop n l) end
  end.

(** ** Go map iteration

    The order in which [range] visits a Go map is unspecified: programs that
    iterate over a map take the order as a parameter, of which only this law
    is known. *)
Class IterOrder := {
  iter_order : forall {A : Type}, list A -> list A;
  iter_order_perm : forall {A : Type} (l : list A), iter_order l ≡ₚ l
}.

(** Two orders, for closed examples. *)
Definition forward_order : IterOrder :=
  {| iter_order := fun _ l => l; iter_order_perm := fun _ l => Permutation_refl l |}.
Definition backward_order : IterOrder :=
  {| iter_order := fun _ l => rev l;
     iter_order_perm := fun _ l => Permutation_sym (Permutation_rev l) |}.

(** ** SQL ordering

    [ORDER BY] leaves the order of rows with equal keys open. *)
Class SqlOrder := {
  order_by : forall {A}, (A -> Z) -> list A -> list A;
  order_by_perm : forall {A} (f : A -> Z) l, order_by f l ≡ₚ l;
  order_by_sorted : forall {A} (f : A -> Z) l, StronglySorted (fun x y => f x <= f y) (order_by f l)
}.

(** Insertion sort, for closed examples. *)
Fixpoint insert_by {A} (f : A -> Z) (x : A) (l : list A) : list A :=
  match l with
  | [] => [x]
  | y :: rest => if f x <=? f y then x :: l else y :: insert_by f x rest
  end.

Lemma insert_by_perm {A} (f : A -> Z) x l : insert_by f x l ≡ₚ x :: l.
Proof.
  induction l as [|y l IH]; simpl; [done|]. destruct (f x <=? f y); [done|].
  rewrite IH. apply Permutation_swap.
Qed.

Lemma insert_by_sorted {A} (f : A -> Z) x l :
  StronglySorted (fun a b => f a <= f b) l -> StronglySorted (fun a b => f a <= f b) (insert_by f x l).
Proof.
  induction 1 as [|y l Hs IH Hall]; simpl; [repeat constructor|]. destruct (f x <=? f y) eqn:Hxy.
  - apply Z.leb_le in Hxy. constructor; [by constructor|]. constructor; [done|].
    eapply Forall_impl; [exact Hall|]. simpl. lia.
  - apply Z.leb_gt in Hxy. constructor; [done|]. rewrite (insert_by_perm f x l). constructor; [simpl; lia|done].
Qed.

Definition insertion_order : SqlOrder.
Proof.
  refine {| order_by := fun A f l => foldr (insert_by f) [] l |}.
  - intros A f l. induction l as [|x l IH]; simpl; [done|]. by rewrite insert_by_perm, IH.
  - intros A f l. induction l as [|x l IH]; simpl; [constructor|]. by apply insert_by_sorted.
Defined.

(** ** Automation of the development *)
Create HintDb vrgram discriminated.
Create Rewrite HintDb vrgram_norm.

(** Split a hypothesis about a successful monadic computation. *)
Ltac ok_inv :=
  repeat match goal with
  | H : Ok _ = Ok _ |- _ => injection H as H; try subst
  | H : Err _ = Err _ |- _ => injection H as H; try subst
  | H : Ok _ = Err _ |- _ => discriminate H
  | H : Err _ = Ok _ |- _ => discriminate H
  | H : Some _ = None |- _ => discriminate H
  | H : None = Some _ |- _ => discriminate H
  | H : Some _ = Some _ |- _ => injection H as H; try subst
  end.

(** Case on every [match] and [if] that blocks a hypothesis, closing the
    impossible branches. *)
Ltac split_matches H :=
  repeat (match type of H with
  | context [match ?x with _ => _ end] => destruct x eqn:?
  end; ok_inv; try discriminate H).

(** Case on every [match] and [if] of the goal. *)
Ltac case_goal :=
  repeat match goal with
  | |- context [match ?x with _ => _ end] => destruct x eqn:?
  end.

(** ** Generic lemmas *)
Section ResultLemmas.
Context {E A B : Type}.

Lemma bind_Ok (r : result E A) (f : A -> result E B) b :
  r ≫= f = Ok b <-> exists a, r = Ok a /\ f a = Ok b.
Proof.
  destruct r as [a|e]; simpl; split.
  - eauto.
  - by intros (a' & [= ->] & H).
  - done.
  - by intros (a' & H & _).
Qed.

Lemma or_err_Ok (e : E) (o : option A) a : or_err e o = Ok a <-> o = Some a.
Proof. destruct o; simpl; naive_solver. Qed.

Lemma check_Ok (e : E) (b : bool) u : check b e = Ok u <-> b = true.
Proof. destruct b, u; simpl; naive_solver. Qed.

End ResultLemmas.

Section Bytes.

Lemma byte_of_val b : byte_of (byte_val b) = b.
Proof.
  unfold byte_of, byte_val.
  assert (Ascii.N_of_ascii b < 256)%N by apply Ascii.N_ascii_bounded.
  rewrite Z.mod_small by lia. rewrite N2Z.id. apply Ascii.ascii_N_embedding.
Qed.

Lemma byte_val_of z : byte_val (byte_of z) = z mod 256.
Proof.
  unfold byte_of, byte_val. assert (0 <= z mod 256 < 256) by (apply Z.mod_pos_bound; lia).
  rewrite Ascii.N_ascii_embedding by lia. lia.
Qed.

Lemma byte_val_range b : 0 <= byte_val b < 256.
Proof. unfold byte_val. pose proof (Ascii.N_ascii_bounded b). lia. Qed.

Lemma byte_val_inj b c : byte_val b = byte_val c -> b = c.
Proof. intros H. rewrite <- (byte_of_val b), <- (byte_of_val c). by f_equal. Qed.

End Bytes.

Section Widths.

Lemma u16_range z : 0 <= u16 z < 65536.
Proof. apply Z.mod_pos_bound. lia. Qed.

Lemma u16_small z : 0 <= z < 65536 -> u16 z = z.
Proof. apply Z.mod_small. Qed.

Lemma u64_small z : 0 <= z < 2 ^ 64 -> u64 z = z.
Proof. apply Z.mod_small. Qed.

Lemma i64_small z : - 2 ^ 63 <= z < 2 ^ 63 -> i64 z = z.
Proof. intros H. unfold i64. rewrite Z.mod_small; lia. Qed.

Lemma i64_u64 z : i64 (u64 z) = i64 z.
Proof. unfold i64, u64. rewrite Zplus_mod_idemp_l. done. Qed.

Lemma i32_small z : - 2 ^ 31 <= z < 2 ^ 31 -> i32 z = z.
Proof. intros H. unfold i32. rewrite Z.mod_small; lia. Qed.

End Widths.

Section Lists.
Context {A : Type}.
Implicit Types l : list A.

Lemma len_app l k : len (l ++ k) = len l + len k.
Proof. unfold len. rewrite length_app. lia. Qed.

Lemma len_nonneg l : 0 <= len l.
Proof. unfold len. lia. Qed.

Lemma length_slice a b l : (b <= length l)%nat -> length (slice a b l) = (b - a)%nat.
Proof. intros H. unfold slice. rewrite length_take, length_drop. lia. Qed.

Lemma slice_app_adjacent a b c l :
  (a <= b <= c)%nat -> slice a b l ++ slice b c l = slice a c l.
Proof.
  intros [H1 H2]. unfold slice.
  rewrite <- (take_drop (b - a) (take (c - a) (drop a l))).
  rewrite take_take, skipn_firstn_comm, drop_drop.
  replace ((b - a) `min` (c - a))%nat with (b - a)%nat by lia.
  replace (a + (b - a))%nat with b by lia.
  by replace (c - a - (b - a))%nat with (c - b)%nat by lia.
Qed.

Lemma slice_full n l : (length l <= n)%nat -> slice 0 n l = l.
Proof. intros H. unfold slice. rewrite drop_0. apply take_ge. lia. Qed.

Lemma mapM_app_Some {B} (f : A -> option B) l k (l' k' : list B) :
  mapM f l = Some l' -> mapM f k = Some k' -> mapM f (l ++ k) = Some (l' ++ k').
Proof. rewrite !mapM_Some. apply Forall2_app. Qed.

Lemma groups_concat fuel n l :
  (length l <= fuel)%nat -> (0 < n)%nat -> concat (groups fuel n l) = l.
Proof.
  revert l. induction fuel as [|f IH]; intros l Hf Hn; [by destruct l; simpl in *; [|lia]|].
  destruct l as [|x l]; [done|]. cbn [groups concat].
  rewrite IH, take_drop; [done| |done]. rewrite length_drop. simpl in *. lia.
Qed.

Lemma groups_length fuel n l :
  (0 < n)%nat -> Forall (fun g => g <> [] /\ (length g <= n)%nat) (groups fuel n l).
Proof.
  intros Hn. revert l. induction fuel as [|f IH]; intros l; [constructor|].
  destruct l as [|x l]; [constructor|]. cbn [groups]. constructor; [|apply IH].
  rewrite length_take. destruct n; [lia|]. split; [done|lia].
Qed.

Lemma groups_elements fuel n l g x : g ∈ groups fuel n l -> x ∈ g -> x ∈ l.
Proof.
  revert l. induction fuel as [|f IH]; intros l Hg Hx; [by apply not_elem_of_nil in Hg|].
  destruct l as [|y l]; [by apply not_elem_of_nil in Hg|]. cbn [groups] in Hg.
  rewrite <- (take_drop n (y :: l)). apply elem_of_app.
  apply elem_of_cons in Hg as [->|Hg]; [by left|right; eauto].
Qed.

(** The number of groups, [ceil (length l / n)]. *)
Lemma groups_count fuel n l :
  (length l <= fuel)%nat -> (0 < n)%nat -> length (groups fuel n l) = ((length l + n - 1) / n)%nat.
Proof.
  revert l. induction fuel as [|f IH]; intros l Hf Hn.
  - destruct l; simpl in *; [|lia]. rewrite Nat.div_small; lia.
  - destruct l as [|x l]; [simpl; rewrite Nat.div_small; lia|]. cbn [groups length].
    rewrite IH; [|rewrite length_drop; simpl in *; lia|done]. rewrite length_drop. cbn [length] in *.
    destruct (decide (S (length l) <= n)%nat) as [Hs|Hs].
    + replace (S (length l) - n)%nat with 0%nat by lia.
      rewrite (Nat.div_small (0 + n - 1)) by lia.
      replace (S (length l) + n - 1)%nat with (length l + 1 * n)%nat by lia.
      rewrite Nat.div_add, Nat.div_small by lia. done.
    + replace (S (length l) + n - 1)%nat with ((S (length l) - n + n - 1) + 1 * n)%nat by lia.
      rewrite Nat.div_add by lia. lia.
Qed.

Lemma length_1_inv l : length l = 1%nat -> exists x, l = [x].
Proof. destruct l as [|x [|y l]]; naive_solver. Qed.

End Lists.

(** ** Lists with distinct keys *)
Lemma NoDup_map_inj {A B} (f : A -> B) l x y :
  NoDup (map f l) -> x ∈ l -> y ∈ l -> f x = f y -> x = y.
Proof.
  induction l as [|a l IH]; [by intros _ []%elem_of_nil|]. intros [Hn Hl]%NoDup_cons.
  assert (forall z, z ∈ l -> f z ∈ map f l) as Hin by (intros z; apply list_elem_of_fmap_2).
  intros [-> |Hx]%elem_of_cons [-> |Hy]%elem_of_cons Hf; [done|..|by apply IH].
  - exfalso. apply Hn. rewrite Hf. by apply Hin.
  - exfalso. apply Hn. rewrite <- Hf. by apply Hin.
Qed.

Lemma NoDup_map_sublist {A B} (f : A -> B) l1 l2 : l1 `sublist_of` l2 -> NoDup (map f l2) -> NoDup (map f l1).
Proof.
  induction 1 as [|x l1 l2 Hs IH|x l1 l2 Hs IH]; intros Hn; [done|..]; apply NoDup_cons in Hn as [Hx Hn]; [|by apply IH].
  apply NoDup_cons. split; [|by apply IH]. intros (y & Hy & Hin)%list_elem_of_fmap. apply Hx. rewrite Hy.
  apply list_elem_of_fmap_2. by eapply elem_of_sublist.
Qed.

(** Folding steps that commute does not depend on the order. *)
Lemma fold_left_perm {A B} (f : A -> B -> A) l1 l2 :
  (forall a x y, f (f a x) y = f (f a y) x) -> l1 ≡ₚ l2 -> forall a, fold_left f l1 a = fold_left f l2 a.
Proof.
  intros Hf. induction 1 as [|x l1 l2 _ IH|x y l|l1 l2 l3 _ IH1 _ IH2]; intros a; simpl; [done|apply IH|by rewrite Hf|].
  by rewrite IH1, IH2.
Qed.

#[export] Hint Resolve byte_val_range u16_range len_nonneg : vrgram.
#[export] Hint Rewrite @len_app byte_of_val byte_val_of : vrgram_norm.
