(* ===== verification/GoStrings.v ===== *)
(** * The functions of Go's [strings] package that VRGram calls

    Separators are single bytes everywhere in the program ([.], [:], [,] and
    the newline), so [Split] and [SplitN] take a byte.  [TrimSpace] and
    [ToLower] are modelled on ASCII text, which is all the program feeds
    them (mode names, base64 key files, relay addresses).  The lemmas are the
    inversions of [Join] that the label and payload codecs rest on. *)

From S2P Require Import Prelude.

Fixpoint Join (sep : byte) (parts : list bytes) : bytes :=
  match parts with
  | [] => []
  | [p] => p
  | p :: rest => p ++ sep :: Join sep rest
  end.

Fixpoint Split (sep : byte) (s : bytes) : list bytes :=
  match s with
  | [] => [[]]
  | x :: s' =>
      if decide (x = sep) then [] :: Split sep s'
      else match Split sep s' with
           | h :: t => (x :: h) :: t
           | [] => [[x]]
           end
  end.

(** [SplitN s sep n] for [n > 0]: at most [n] parts, the last unsplit. *)
Fixpoint SplitN (sep : byte) (n : nat) (s : bytes) {struct s} : list bytes :=
  match n with
  | O => []
  | S O => [s]
  | S (S _ as n') =>
      match s with
      | [] => [[]]
      | x :: s' =>
          if decide (x = sep) then [] :: SplitN sep n' s'
          else match SplitN sep n s' with
               | h :: t => (x :: h) :: t
               | [] => [[x]]
               end
      end
  end.

Definition HasPrefix (s pre : bytes) : bool := bool_decide (take (length pre) s = pre).
Definition TrimPrefix (s pre : bytes) : bytes :=
  if HasPrefix s pre then drop (length pre) s else s.

Definition HasSuffix (s suf : bytes) : bool :=
  (length suf <=? length s)%nat && bool_decide (drop (length s - length suf) s = suf).
Definition TrimSuffix (s suf : bytes) : bytes :=
  if HasSuffix s suf then take (length s - length suf) s else s.

Fixpoint Contains (s sub : bytes) : bool :=
  HasPrefix s sub || match s with [] => false | _ :: s' => Contains s' sub end.

Definition is_space (b : byte) : bool :=
  let v := byte_val b in ((9 <=? v) && (v <=? 13)) || (v =? 32).
Fixpoint trim_left (s : bytes) : bytes :=
  match s with [] => [] | x :: s' => if is_space x then trim_left s' else s end.
Definition TrimSpace (s : bytes) : bytes := rev (trim_left (rev (trim_left s))).

Definition to_lower (b : byte) : byte :=
  let v := byte_val b in if (65 <=? v) && (v <=? 90) then byte_of (v + 32) else b.
Definition ToLower (s : bytes) : bytes := map to_lower s.

(** [ReplaceAll s old new] where [old] is one byte. *)
Definition ReplaceAll (old : byte) (new : bytes) (s : bytes) : bytes :=
  concat (map (fun x => if decide (x = old) then new else [x]) s).

(** ** Paths ([path/filepath])

    [Clean] of a relative path: empty and [.] elements are dropped, and [..]
    removes the element before it, unless there is none left to remove. *)
Definition slash : byte := Ascii.ascii_of_nat 47.
Definition dotdot : bytes := [Ascii.ascii_of_nat 46; Ascii.ascii_of_nat 46].

Fixpoint clean_parts (stack parts : list bytes) : list bytes :=
  match parts with
  | [] => rev stack
  | p :: rest =>
      if decide (p = [] \/ p = [Ascii.ascii_of_nat 46]) then clean_parts stack rest
      else if decide (p = dotdot) then
        match stack with
        | [] => clean_parts [dotdot] rest
        | top :: below => if decide (top = dotdot) then clean_parts (dotdot :: stack) rest else clean_parts below rest
        end
      else clean_parts (p :: stack) rest
  end.

Definition Clean (path : bytes) : bytes :=
  match clean_parts [] (Split slash path) with
  | [] => [Ascii.ascii_of_nat 46]
  | parts => Join slash parts
  end.

(** [filepath.Join(dir, name)] of two non-empty elements. *)
Definition JoinPath (dir name : bytes) : bytes := Clean (dir ++ slash :: name).

(** ** Decimal numbers ([%d], [strconv.Atoi]) *)

Definition digit (d : Z) : byte := byte_of (48 + d).

(** The digits of [n] in front of [acc]; 20 steps suffice for a 64-bit number. *)
Fixpoint digits (fuel : nat) (n : Z) (acc : bytes) : bytes :=
  match fuel with
  | O => acc
  | S f => let acc := digit (n mod 10) :: acc in if n / 10 =? 0 then acc else digits f (n / 10) acc
  end.
Definition minus : byte := Ascii.ascii_of_nat 45.
Definition plus : byte := Ascii.ascii_of_nat 43.
Definition Itoa (z : Z) : bytes := if z <? 0 then minus :: digits 20 (- z) [] else digits 20 z [].

Fixpoint parse_digits (acc : Z) (s : bytes) : option Z :=
  match s with
  | [] => Some acc
  | c :: rest =>
      let v := byte_val c - 48 in
      if (0 <=? v) && (v <=? 9) then parse_digits (acc * 10 + v) rest else None
  end.

(** [None] is an error: not a decimal number, or outside [int64]. *)
Definition Atoi (s : bytes) : option Z :=
  let '(neg, ds) := match s with
    | c :: rest => if decide (c = minus) then (true, rest) else if decide (c = plus) then (false, rest) else (false, s)
    | [] => (false, s)
    end in
  n ← (if decide (ds = []) then None else parse_digits 0 ds);
  let z := if neg then - n else n in
  if (- 2 ^ 63 <=? z) && (z <? 2 ^ 63) then Some z else None.

(** ** Host and port ([net.SplitHostPort], [net.JoinHostPort]) *)

Definition lbracket : byte := Ascii.ascii_of_nat 91.
Definition rbracket : byte := Ascii.ascii_of_nat 93.

(** The text before and after the last [c]. *)
Definition split_last (c : byte) (s : bytes) : option (bytes * bytes) :=
  match SplitN c 2 (rev s) with
  | [port; host] => Some (rev host, rev port)
  | _ => None
  end.

(** [None] is an error: no port, too many colons or stray brackets. *)
Definition SplitHostPort (s : bytes) : option (bytes * bytes) :=
  match split_last colon s with
  | None => None
  | Some (before, port) =>
      if decide (head before = Some lbracket) then
        match SplitN rbracket 2 (tail before) with
        | [host; []] =>
            if bool_decide (lbracket ∈ host) || bool_decide (lbracket ∈ port) || bool_decide (rbracket ∈ port)
            then None else Some (host, port)
        | _ => None
        end
      else if bool_decide (colon ∈ before) || bool_decide (lbracket ∈ s) || bool_decide (rbracket ∈ s)
      then None else Some (before, port)
  end.

Definition JoinHostPort (host port : bytes) : bytes :=
  if bool_decide (colon ∈ host) then lbracket :: host ++ [rbracket; colon] ++ port
  else host ++ colon :: port.

(** ** Splitting inverts joining *)

Lemma Split_nosep sep s : sep ∉ s -> Split sep s = [s].
Proof.
  induction s as [|x s IH]; intros Hn; simpl; [done|].
  rewrite not_elem_of_cons in Hn. destruct Hn as [Hx Hs].
  rewrite decide_False by congruence. by rewrite IH.
Qed.

Lemma Split_app sep p s : sep ∉ p -> Split sep (p ++ sep :: s) = p :: Split sep s.
Proof.
  induction p as [|x p IH]; intros Hn; simpl.
  - by rewrite decide_True.
  - rewrite not_elem_of_cons in Hn. destruct Hn as [Hx Hs].
    rewrite decide_False by congruence. by rewrite IH.
Qed.

Lemma Split_Join sep parts :
  parts <> [] -> Forall (fun p => sep ∉ p) parts -> Split sep (Join sep parts) = parts.
Proof.
  intros Hne Hall. induction Hall as [|p parts Hp Hall IH]; [done|].
  destruct parts as [|q parts].
  - by apply Split_nosep.
  - change (Join sep (p :: q :: parts)) with (p ++ sep :: Join sep (q :: parts)).
    rewrite Split_app by done. by rewrite IH.
Qed.

Lemma SplitN_1 sep s : SplitN sep 1 s = [s].
Proof. by destruct s. Qed.

Lemma SplitN_app sep n p s :
  sep ∉ p -> SplitN sep (S (S n)) (p ++ sep :: s) = p :: SplitN sep (S n) s.
Proof.
  induction p as [|x p IH]; intros Hn.
  - simpl. by rewrite decide_True.
  - rewrite not_elem_of_cons in Hn. destruct Hn as [Hx Hs].
    cbn [app SplitN]. rewrite decide_False by congruence. by rewrite IH.
Qed.

Lemma SplitN_nosep sep n s : sep ∉ s -> SplitN sep (S n) s = [s].
Proof.
  destruct n as [|n]; [intros _; apply SplitN_1|].
  induction s as [|x s IH]; intros Hn; [done|].
  rewrite not_elem_of_cons in Hn. destruct Hn as [Hx Hs].
  cbn [SplitN]. rewrite decide_False by congruence. by rewrite IH.
Qed.

Lemma SplitN_length sep n s : (length (SplitN sep (S n) s) <= S n)%nat.
Proof.
  revert n. induction s as [|x s IH]; intros n; destruct n as [|n]; simpl; try lia.
  case_decide; simpl; [apply le_n_S, IH|].
  specialize (IH (S n)). destruct (SplitN sep (S (S n)) s); simpl in *; lia.
Qed.

(** ** Suffix trimming *)

Lemma HasSuffix_app s suf : HasSuffix (s ++ suf) suf = true.
Proof.
  unfold HasSuffix. rewrite length_app, bool_decide_eq_true_2.
  - rewrite Bool.andb_true_r. apply Nat.leb_le. lia.
  - replace (length s + length suf - length suf)%nat with (length s) by lia.
    apply drop_app_length.
Qed.

Lemma TrimSuffix_app s suf : TrimSuffix (s ++ suf) suf = s.
Proof.
  unfold TrimSuffix. rewrite HasSuffix_app, length_app.
  replace (length s + length suf - length suf)%nat with (length s) by lia.
  apply take_app_length.
Qed.

Lemma TrimPrefix_app pre s : TrimPrefix (pre ++ s) pre = s.
Proof.
  unfold TrimPrefix, HasPrefix. rewrite take_app_length.
  rewrite bool_decide_eq_true_2 by done. apply drop_app_length.
Qed.

Lemma Join_last sep parts z :
  parts <> [] -> Join sep (parts ++ [z]) = Join sep parts ++ sep :: z.
Proof.
  induction parts as [|p parts IH]; intros Hne; [done|].
  destruct parts as [|q parts]; [done|].
  change (Join sep ((p :: q :: parts) ++ [z])) with (p ++ sep :: Join sep ((q :: parts) ++ [z])).
  change (Join sep (p :: q :: parts)) with (p ++ sep :: Join sep (q :: parts)).
  rewrite IH by done. by rewrite <- app_assoc.
Qed.

Lemma Join_not_nil sep parts : Exists (fun p => p <> []) parts -> Join sep parts <> [].
Proof.
  intros Hex. destruct parts as [|p [|q parts]]; simpl.
  - by apply Exists_nil in Hex.
  - inversion Hex as [? ? H|? ? H]; [done|by apply Exists_nil in H].
  - by destruct p.
Qed.

(** ** Paths without [..] stay below their directory *)

Lemma clean_parts_prefix parts : forall stack, dotdot ∉ parts -> exists rest, clean_parts stack parts = rev stack ++ rest.
Proof.
  induction parts as [|p parts IH]; intros stack Hd; simpl; [exists []; by rewrite app_nil_r|].
  apply not_elem_of_cons in Hd as [Hp Hd]. case_decide; [by apply IH|]. rewrite decide_False by congruence.
  destruct (IH (p :: stack) Hd) as [rest ->]. exists (p :: rest). simpl. by rewrite <- app_assoc.
Qed.

Lemma JoinPath_prefix dir name :
  slash ∉ dir -> dir <> [] -> dir <> [Ascii.ascii_of_nat 46] -> dir <> dotdot -> dotdot ∉ Split slash name ->
  exists rest, JoinPath dir name = dir ++ rest.
Proof.
  intros Hs H0 H1 H2 Hd. unfold JoinPath, Clean. rewrite Split_app by done. cbn [clean_parts].
  rewrite !decide_False by tauto. destruct (clean_parts_prefix (Split slash name) [dir] Hd) as [rest ->].
  cbn [rev app]. destruct rest as [|q rest]; [exists []; by rewrite app_nil_r|].
  change (Join slash (dir :: q :: rest)) with (dir ++ slash :: Join slash (q :: rest)). eauto.
Qed.

(** A suffix changes the last element only. *)
Lemma Split_suffix sep s suf : sep ∉ suf ->
  exists front l, Split sep s = front ++ [l] /\ Split sep (s ++ suf) = front ++ [l ++ suf].
Proof.
  intros Hn. induction s as [|x s (front & l & H1 & H2)]; [exists [], []; split; [done|by apply Split_nosep]|].
  cbn [app Split]. rewrite H1, H2. case_decide; [by exists ([] :: front), l|].
  destruct front as [|f front]; [by exists [], (x :: l)|by exists ((x :: f) :: front), l].
Qed.

Lemma Split_suffix_dotdot s suf :
  slash ∉ suf -> (2 < length suf)%nat -> dotdot ∉ Split slash s -> dotdot ∉ Split slash (s ++ suf).
Proof.
  intros Hn Hl. destruct (Split_suffix slash s suf Hn) as (front & l & -> & ->). rewrite !elem_of_app. intros Hd [H|H].
  - apply Hd. by left.
  - apply list_elem_of_singleton in H. apply (f_equal length) in H. rewrite length_app in H. unfold dotdot in H. simpl in H. lia.
Qed.

#[export] Hint Rewrite TrimSuffix_app HasSuffix_app TrimPrefix_app SplitN_1 : vrgram_norm.
