(* ===== verification/Codec.v ===== *)
(** * Byte codecs of the Go standard library used on the wire

    [encoding/base32] (hex alphabet, no padding), [encoding/base64] (standard
    alphabet, padded), [encoding/hex] and the big-endian accessors of
    [encoding/binary].  Decoders follow the library: newlines are skipped, an
    unpadded base32 quantum of 1, 3 or 6 characters yields no byte, trailing
    bits are not checked.  The round trips and the alphabets of the encoders
    are what the wire formats of the program rely on. *)

From S2P Require Import Prelude.
From Stdlib Require Import Ascii.

(** ** Position of a byte in an alphabet *)
Fixpoint index_of (c : byte) (l : bytes) : option nat :=
  match l with
  | [] => None
  | x :: l' => if decide (x = c) then Some 0%nat else S <$> index_of c l'
  end.

Definition is_newline (b : byte) : bool := (byte_val b =? 10) || (byte_val b =? 13).
Definition strip_newlines (s : bytes) : bytes := List.filter (fun b => negb (is_newline b)) s.
Definition zero_byte : byte := Ascii false false false false false false false false.

Module Base32Hex.

Definition alphabet : bytes := $"0123456789ABCDEFGHIJKLMNOPQRSTUV".

(** A 5-bit group, most significant bit first, and its character. *)
Definition enc5 (b4 b3 b2 b1 b0 : bool) : byte :=
  nth (N.to_nat (N_of_ascii (Ascii b0 b1 b2 b3 b4 false false false))) alphabet zero_byte.

(** The group of a character: a byte below 32. *)
Definition dec5 (c : byte) : option byte :=
  (fun n => ascii_of_nat n) <$> index_of c alphabet.

(** The eight groups of five bytes. *)
Definition g1 (a : byte) : byte := let '(Ascii _ _ _ a3 a4 a5 a6 a7) := a in enc5 a7 a6 a5 a4 a3.
Definition g2 (a b : byte) : byte :=
  let '(Ascii a0 a1 a2 _ _ _ _ _) := a in let '(Ascii _ _ _ _ _ _ b6 b7) := b in
  enc5 a2 a1 a0 b7 b6.
Definition g3 (b : byte) : byte := let '(Ascii _ b1 b2 b3 b4 b5 _ _) := b in enc5 b5 b4 b3 b2 b1.
Definition g4 (b c : byte) : byte :=
  let '(Ascii b0 _ _ _ _ _ _ _) := b in let '(Ascii _ _ _ _ c4 c5 c6 c7) := c in
  enc5 b0 c7 c6 c5 c4.
Definition g5 (c d : byte) : byte :=
  let '(Ascii c0 c1 c2 c3 _ _ _ _) := c in let '(Ascii _ _ _ _ _ _ _ d7) := d in
  enc5 c3 c2 c1 c0 d7.
Definition g6 (d : byte) : byte := let '(Ascii _ _ d2 d3 d4 d5 d6 _) := d in enc5 d6 d5 d4 d3 d2.
Definition g7 (d e : byte) : byte :=
  let '(Ascii d0 d1 _ _ _ _ _ _) := d in let '(Ascii _ _ _ _ _ e5 e6 e7) := e in
  enc5 d1 d0 e7 e6 e5.
Definition g8 (e : byte) : byte := let '(Ascii e0 e1 e2 e3 e4 _ _ _) := e in enc5 e4 e3 e2 e1 e0.

Fixpoint EncodeToString (s : bytes) : bytes :=
  match s with
  | [] => []
  | [a] => [g1 a; g2 a zero_byte]
  | [a; b] => [g1 a; g2 a b; g3 b; g4 b zero_byte]
  | [a; b; c] => [g1 a; g2 a b; g3 b; g4 b c; g5 c zero_byte]
  | [a; b; c; d] => [g1 a; g2 a b; g3 b; g4 b c; g5 c d; g6 d; g7 d zero_byte]
  | a :: b :: c :: d :: e :: s' =>
      g1 a :: g2 a b :: g3 b :: g4 b c :: g5 c d :: g6 d :: g7 d e :: g8 e :: EncodeToString s'
  end.

(** The five bytes of eight groups. *)
Definition o1 (x1 x2 : byte) : byte :=
  let '(Ascii p0 p1 p2 p3 p4 _ _ _) := x1 in let '(Ascii _ _ q2 q3 q4 _ _ _) := x2 in
  Ascii q2 q3 q4 p0 p1 p2 p3 p4.
Definition o2 (x2 x3 x4 : byte) : byte :=
  let '(Ascii p0 p1 _ _ _ _ _ _) := x2 in let '(Ascii q0 q1 q2 q3 q4 _ _ _) := x3 in
  let '(Ascii _ _ _ _ r4 _ _ _) := x4 in Ascii r4 q0 q1 q2 q3 q4 p0 p1.
Definition o3 (x4 x5 : byte) : byte :=
  let '(Ascii p0 p1 p2 p3 _ _ _ _) := x4 in let '(Ascii _ q1 q2 q3 q4 _ _ _) := x5 in
  Ascii q1 q2 q3 q4 p0 p1 p2 p3.
Definition o4 (x5 x6 x7 : byte) : byte :=
  let '(Ascii p0 _ _ _ _ _ _ _) := x5 in let '(Ascii q0 q1 q2 q3 q4 _ _ _) := x6 in
  let '(Ascii _ _ _ r3 r4 _ _ _) := x7 in Ascii r3 r4 q0 q1 q2 q3 q4 p0.
Definition o5 (x7 x8 : byte) : byte :=
  let '(Ascii p0 p1 p2 _ _ _ _ _) := x7 in let '(Ascii q0 q1 q2 q3 q4 _ _ _) := x8 in
  Ascii q0 q1 q2 q3 q4 p0 p1 p2.

Fixpoint dec_quanta (l : list byte) : bytes :=
  match l with
  | x1 :: x2 :: x3 :: x4 :: x5 :: x6 :: x7 :: x8 :: l' =>
      o1 x1 x2 :: o2 x2 x3 x4 :: o3 x4 x5 :: o4 x5 x6 x7 :: o5 x7 x8 :: dec_quanta l'
  | [x1; x2; x3; x4; x5; x6; x7] => [o1 x1 x2; o2 x2 x3 x4; o3 x4 x5; o4 x5 x6 x7]
  | [x1; x2; x3; x4; x5] => [o1 x1 x2; o2 x2 x3 x4; o3 x4 x5]
  | [x1; x2; x3; x4] => [o1 x1 x2; o2 x2 x3 x4]
  | [x1; x2] => [o1 x1 x2]
  | _ => []
  end.

Definition DecodeString (s : bytes) : option bytes :=
  dec_quanta <$> mapM dec5 (strip_newlines s).

End Base32Hex.

Module Base64.

Definition alphabet : bytes :=
  $"ABCDEFGHIJKLMNOPQRSTUVWXYZabcdefghijklmnopqrstuvwxyz0123456789+/".
Definition pad : byte := "="%char.

Definition enc6 (b5 b4 b3 b2 b1 b0 : bool) : byte :=
  nth (N.to_nat (N_of_ascii (Ascii b0 b1 b2 b3 b4 b5 false false))) alphabet zero_byte.
Definition dec6 (c : byte) : option byte :=
  (fun n => ascii_of_nat n) <$> index_of c alphabet.

Definition g1 (a : byte) : byte :=
  let '(Ascii _ _ a2 a3 a4 a5 a6 a7) := a in enc6 a7 a6 a5 a4 a3 a2.
Definition g2 (a b : byte) : byte :=
  let '(Ascii a0 a1 _ _ _ _ _ _) := a in let '(Ascii _ _ _ _ b4 b5 b6 b7) := b in
  enc6 a1 a0 b7 b6 b5 b4.
Definition g3 (b c : byte) : byte :=
  let '(Ascii b0 b1 b2 b3 _ _ _ _) := b in let '(Ascii _ _ _ _ _ _ c6 c7) := c in
  enc6 b3 b2 b1 b0 c7 c6.
Definition g4 (c : byte) : byte :=
  let '(Ascii c0 c1 c2 c3 c4 c5 _ _) := c in enc6 c5 c4 c3 c2 c1 c0.

Fixpoint EncodeToString (s : bytes) : bytes :=
  match s with
  | [] => []
  | [a] => [g1 a; g2 a zero_byte; pad; pad]
  | [a; b] => [g1 a; g2 a b; g3 b zero_byte; pad]
  | a :: b :: c :: s' => g1 a :: g2 a b :: g3 b c :: g4 c :: EncodeToString s'
  end.

Definition o1 (x1 x2 : byte) : byte :=
  let '(Ascii p0 p1 p2 p3 p4 p5 _ _) := x1 in let '(Ascii _ _ _ _ q4 q5 _ _) := x2 in
  Ascii q4 q5 p0 p1 p2 p3 p4 p5.
Definition o2 (x2 x3 : byte) : byte :=
  let '(Ascii p0 p1 p2 p3 _ _ _ _) := x2 in let '(Ascii _ _ q2 q3 q4 q5 _ _) := x3 in
  Ascii q2 q3 q4 q5 p0 p1 p2 p3.
Definition o3 (x3 x4 : byte) : byte :=
  let '(Ascii p0 p1 _ _ _ _ _ _) := x3 in let '(Ascii q0 q1 q2 q3 q4 q5 _ _) := x4 in
  Ascii q0 q1 q2 q3 q4 q5 p0 p1.

(** [Decode]: the bytes written, and whether no error was returned.  On an
    error the library still returns the bytes decoded so far. *)
Fixpoint decode (s : bytes) : bytes * bool :=
  match s with
  | [] => ([], true)
  | c1 :: c2 :: c3 :: c4 :: s' =>
      match dec6 c1, dec6 c2 with
      | Some x1, Some x2 =>
          if decide (c3 = pad) then
            if decide (c4 = pad) then ([o1 x1 x2], bool_decide (s' = [])) else ([], false)
          else match dec6 c3 with
          | None => ([], false)
          | Some x3 =>
              if decide (c4 = pad) then ([o1 x1 x2; o2 x2 x3], bool_decide (s' = []))
              else match dec6 c4 with
              | None => ([], false)
              | Some x4 =>
                  let '(t, ok) := decode s' in (o1 x1 x2 :: o2 x2 x3 :: o3 x3 x4 :: t, ok)
              end
          end
      | _, _ => ([], false)
      end
  | _ => ([], false)
  end.

(** [DecodeString]'s bytes whatever the error, and its success. *)
Definition DecodePartial (s : bytes) : bytes := fst (decode (strip_newlines s)).
Definition DecodeString (s : bytes) : option bytes :=
  let '(b, ok) := decode (strip_newlines s) in if ok then Some b else None.

End Base64.

Module Hex.

Definition digits : bytes := $"0123456789abcdef".
Definition enc4 (b3 b2 b1 b0 : bool) : byte :=
  nth (N.to_nat (N_of_ascii (Ascii b0 b1 b2 b3 false false false false))) digits zero_byte.
Definition hi (a : byte) : byte := let '(Ascii _ _ _ _ a4 a5 a6 a7) := a in enc4 a7 a6 a5 a4.
Definition lo (a : byte) : byte := let '(Ascii a0 a1 a2 a3 _ _ _ _) := a in enc4 a3 a2 a1 a0.

Definition dec4 (c : byte) : option byte :=
  (fun n => ascii_of_nat n) <$>
    match index_of c digits with
    | Some n => Some n
    | None => (fun n => 10 + n)%nat <$> index_of c $"ABCDEF"
    end.
Definition join_nibbles (h l : byte) : byte :=
  let '(Ascii h0 h1 h2 h3 _ _ _ _) := h in let '(Ascii l0 l1 l2 l3 _ _ _ _) := l in
  Ascii l0 l1 l2 l3 h0 h1 h2 h3.

Fixpoint EncodeToString (s : bytes) : bytes :=
  match s with [] => [] | a :: s' => hi a :: lo a :: EncodeToString s' end.
Fixpoint DecodeString (s : bytes) : option bytes :=
  match s with
  | [] => Some []
  | [_] => None
  | c :: d :: s' =>
      match dec4 c, dec4 d with
      | Some h, Some l => cons (join_nibbles h l) <$> DecodeString s'
      | _, _ => None
      end
  end.

End Hex.

Module BigEndian.

(** [PutUint16]/[PutUint64]/[AppendUint16] write [n] bytes, [Uint16]/[Uint64]
    read them. *)
Fixpoint put (n : nat) (z : Z) : bytes :=
  match n with
  | O => []
  | S k => byte_of (Z.shiftr z (8 * Z.of_nat k)) :: put k z
  end.
Definition get (s : bytes) : Z := fold_left (fun acc b => acc * 256 + byte_val b) s 0.

Definition PutUint16 (z : Z) : bytes := put 2 z.
Definition PutUint64 (z : Z) : bytes := put 8 z.

End BigEndian.

(** ** Round trips *)

Section Alphabets.

Lemma alphabet32_no_newline c : c ∈ Base32Hex.alphabet -> is_newline c = false.
Proof.
  rewrite list_elem_of_In. intros H. apply Bool.negb_true_iff.
  revert c H. apply List.forallb_forall. vm_compute. reflexivity.
Qed.

Lemma strip_newlines_id s : Forall (fun c => is_newline c = false) s -> strip_newlines s = s.
Proof.
  induction 1 as [|c s Hc Hs IH]; [done|]. unfold strip_newlines in *. simpl. rewrite Hc. simpl.
  by rewrite IH.
Qed.

End Alphabets.

(** Induction in steps of five, three and two bytes, as the encoders recurse. *)
Section StepInduction.
Context {A : Type}.

Lemma list_step_ind (n : nat) (P : list A -> Prop) :
  (forall l, (length l < S n)%nat -> P l) ->
  (forall l k, length l = S n -> P k -> P (l ++ k)) -> forall l, P l.
Proof.
  intros Hsmall Hstep l. remember (length l) as m eqn:Hm. revert l Hm.
  induction m as [m IH] using lt_wf_ind. intros l ->.
  destruct (decide (length l < S n)%nat) as [Hl|Hl]; [by apply Hsmall|].
  rewrite <- (take_drop (S n) l). apply Hstep; [rewrite length_take; lia|].
  eapply IH; [|reflexivity]. rewrite length_drop. lia.
Qed.

End StepInduction.

Module Base32HexFacts.
Import Base32Hex.

Lemma dec5_enc5 b4 b3 b2 b1 b0 :
  dec5 (enc5 b4 b3 b2 b1 b0) = Some (Ascii b0 b1 b2 b3 b4 false false false).
Proof. destruct b4, b3, b2, b1, b0; vm_compute; reflexivity. Qed.

Lemma enc5_alphabet b4 b3 b2 b1 b0 : enc5 b4 b3 b2 b1 b0 ∈ alphabet.
Proof. apply list_elem_of_In. destruct b4, b3, b2, b1, b0; vm_compute; tauto. Qed.

Ltac alpha := repeat first [apply Forall_nil_2 | apply Forall_cons_2]; unfold g1, g2, g3, g4, g5, g6, g7, g8, zero_byte;
  repeat match goal with |- context [match ?x with Ascii _ _ _ _ _ _ _ _ => _ end] => destruct x end;
  apply enc5_alphabet.

Lemma b32_encode_app (l k : bytes) :
  length l = 5%nat -> EncodeToString (l ++ k) = EncodeToString l ++ EncodeToString k.
Proof. destruct l as [|a [|b [|c [|d [|e [|]]]]]]; intros; simplify_eq/=; done. Qed.

Lemma b32_encode_alphabet s : Forall (fun c => c ∈ alphabet) (EncodeToString s).
Proof.
  induction s as [l Hl|l k Hl IH] using (list_step_ind 4).
  - destruct l as [|a [|b [|c [|d [|e l]]]]]; simpl in Hl |- *; try lia; alpha.
  - rewrite b32_encode_app by done. apply Forall_app. split; [|done].
    destruct l as [|a [|b [|c [|d [|e [|]]]]]]; simplify_eq/=; alpha.
Qed.

Lemma b32_encode_no_newline s : Forall (fun c => is_newline c = false) (EncodeToString s).
Proof. eapply Forall_impl; [apply b32_encode_alphabet|]. apply alphabet32_no_newline. Qed.

Ltac bits := unfold g1, g2, g3, g4, g5, g6, g7, g8, zero_byte;
  repeat match goal with |- context [match ?x with Ascii _ _ _ _ _ _ _ _ => _ end] => destruct x end;
  simpl; rewrite ?dec5_enc5; simpl.

Lemma b32_decode_small l : (length l < 5)%nat -> dec_quanta <$> mapM dec5 (EncodeToString l) = Some l.
Proof. destruct l as [|a [|b [|c [|d [|e l]]]]]; simpl; intros; try lia; [done|..]; bits; done. Qed.

Lemma b32_decode_quantum l : length l = 5%nat ->
  exists q, mapM dec5 (EncodeToString l) = Some q /\ length q = 8%nat /\ dec_quanta q = l.
Proof.
  destruct l as [|a [|b [|c [|d [|e [|]]]]]]; intros; simplify_eq/=.
  bits. eexists. split; [reflexivity|]. done.
Qed.

Lemma dec_quanta_app q r : length q = 8%nat -> dec_quanta (q ++ r) = dec_quanta q ++ dec_quanta r.
Proof. do 8 (destruct q as [|? q]; [done|]). destruct q; done. Qed.

Lemma b32_decode_encode_quanta s : dec_quanta <$> mapM dec5 (EncodeToString s) = Some s.
Proof.
  induction s as [l Hl|l k Hl IH] using (list_step_ind 4); [by apply b32_decode_small|].
  destruct (b32_decode_quantum l Hl) as (q & Hq & Hlen & Hdec).
  rewrite fmap_Some in IH. destruct IH as (r & Hr & Hk).
  rewrite b32_encode_app, (mapM_app_Some dec5 _ _ q r) by done. simpl.
  by rewrite dec_quanta_app, Hdec, <- Hk.
Qed.

Lemma b32_decode_encode s : DecodeString (EncodeToString s) = Some s.
Proof.
  unfold DecodeString. rewrite strip_newlines_id by apply b32_encode_no_newline.
  apply b32_decode_encode_quanta.
Qed.

Lemma b32_encode_inj s t : EncodeToString s = EncodeToString t -> s = t.
Proof. intros H. apply (inj Some). by rewrite <- !b32_decode_encode, H. Qed.

(** Length of the text: eight fifths, rounded up. *)
Lemma b32_encode_length s : length (EncodeToString s) = ((8 * length s + 4) / 5)%nat.
Proof.
  induction s as [l Hl|l k Hl IH] using (list_step_ind 4).
  - destruct l as [|a [|b [|c [|d [|e l]]]]]; simpl in Hl |- *; try lia.
  - rewrite b32_encode_app, !length_app, IH, Hl by done.
    destruct l as [|a [|b [|c [|d [|e [|]]]]]]; try discriminate Hl.
    replace (8 * (5 + length k) + 4)%nat with ((8 * length k + 4) + 8 * 5)%nat by lia.
    rewrite Nat.div_add by lia. simpl length. lia.
Qed.

Lemma b32_encode_notin c s : c ∉ alphabet -> c ∉ EncodeToString s.
Proof. intros Hc Hin. pose proof (b32_encode_alphabet s) as H. rewrite Forall_forall in H. by apply Hc, H. Qed.

(** No decoded text contains a byte outside the alphabet and the newlines. *)
Lemma b32_decode_alphabet s b :
  DecodeString s = Some b -> Forall (fun c => c ∈ alphabet \/ is_newline c = true) s.
Proof.
  unfold DecodeString. intros H. rewrite fmap_Some in H. destruct H as (q & H & _).
  apply mapM_Some in H. revert q H. induction s as [|c s IH]; intros q H; [constructor|].
  unfold strip_newlines in H. simpl in H. destruct (is_newline c) eqn:Hc; simpl in H.
  - constructor; [by right|]. eapply IH. exact H.
  - inversion H as [|? ? ? q' Hd Hr]; subst. constructor; [left|by eapply IH].
    unfold dec5 in Hd. rewrite fmap_Some in Hd. destruct Hd as (n & Hn & _). clear -Hn.
    revert n Hn. generalize alphabet as l.
    induction l as [|x l IH]; intros n Hn; simpl in Hn; [done|].
    case_decide; subst; [left|]. rewrite fmap_Some in Hn. destruct Hn as (m & Hm & _).
    right. by eapply IH.
Qed.

End Base32HexFacts.

Module Base64Facts.
Import Base64.

Lemma dec6_enc6 b5 b4 b3 b2 b1 b0 :
  dec6 (enc6 b5 b4 b3 b2 b1 b0) = Some (Ascii b0 b1 b2 b3 b4 b5 false false).
Proof. destruct b5, b4, b3, b2, b1, b0; vm_compute; reflexivity. Qed.

Lemma enc6_pad b5 b4 b3 b2 b1 b0 : enc6 b5 b4 b3 b2 b1 b0 <> pad.
Proof. destruct b5, b4, b3, b2, b1, b0; vm_compute; discriminate. Qed.

Lemma enc6_alphabet b5 b4 b3 b2 b1 b0 : enc6 b5 b4 b3 b2 b1 b0 ∈ pad :: alphabet.
Proof. apply list_elem_of_In. destruct b5, b4, b3, b2, b1, b0; vm_compute; tauto. Qed.

Lemma pad_alphabet : pad ∈ pad :: alphabet.
Proof. left. Qed.

Ltac groups := unfold g1, g2, g3, g4, zero_byte;
  repeat match goal with |- context [match ?x with Ascii _ _ _ _ _ _ _ _ => _ end] => destruct x end.
Ltac alpha := repeat first [apply Forall_nil_2 | apply Forall_cons_2]; groups;
  first [apply enc6_alphabet | apply pad_alphabet].

Lemma b64_encode_app (l k : bytes) :
  length l = 3%nat -> EncodeToString (l ++ k) = EncodeToString l ++ EncodeToString k.
Proof. destruct l as [|a [|b [|c [|]]]]; intros; simplify_eq/=; done. Qed.

(** Every character of the text is the padding or of the alphabet: no
    newline, no double quote, no backslash. *)
Lemma b64_encode_alphabet s : Forall (fun c => c ∈ pad :: alphabet) (EncodeToString s).
Proof.
  induction s as [l Hl|l k Hl IH] using (list_step_ind 2).
  - destruct l as [|a [|b [|c l]]]; simpl in Hl |- *; try lia; alpha.
  - rewrite b64_encode_app by done. apply Forall_app. split; [|done].
    destruct l as [|a [|b [|c [|]]]]; simplify_eq/=; alpha.
Qed.

Lemma b64_encode_length s : length (EncodeToString s) = (4 * ((length s + 2) / 3))%nat.
Proof.
  induction s as [l Hl|l k Hl IH] using (list_step_ind 2).
  - destruct l as [|a [|b [|c l]]]; simpl in Hl |- *; try lia; done.
  - rewrite b64_encode_app, !length_app, IH, Hl by done. replace (3 + length k + 2)%nat with (length k + 2 + 1 * 3)%nat by lia.
    rewrite Nat.div_add by lia. destruct l as [|a [|b [|c [|]]]]; simplify_eq/=. lia.
Qed.

Lemma b64_encode_notin c s : c ∉ pad :: alphabet -> c ∉ EncodeToString s.
Proof. intros Hc Hin. pose proof (b64_encode_alphabet s) as H. rewrite Forall_forall in H. by apply Hc, H. Qed.

Lemma b64_encode_no_newline s : Forall (fun c => is_newline c = false) (EncodeToString s).
Proof.
  eapply Forall_impl; [apply b64_encode_alphabet|]. intros c H%list_elem_of_In.
  apply Bool.negb_true_iff. revert c H. apply List.forallb_forall. vm_compute. reflexivity.
Qed.

Ltac bits := groups; simpl; rewrite ?dec6_enc6; simpl;
  repeat (rewrite decide_False by apply enc6_pad); rewrite ?dec6_enc6; simpl;
  repeat (rewrite decide_False by apply enc6_pad).

Lemma b64_decode_encode_raw s : decode (EncodeToString s) = (s, true).
Proof.
  induction s as [l Hl|l k Hl IH] using (list_step_ind 2).
  - destruct l as [|a [|b [|c l]]]; simpl in Hl |- *; try lia; [done|..]; bits; done.
  - rewrite b64_encode_app by done. destruct l as [|a [|b [|c [|]]]]; simplify_eq/=.
    bits. by rewrite IH.
Qed.

Lemma b64_decode_encode s : DecodeString (EncodeToString s) = Some s.
Proof.
  unfold DecodeString. rewrite strip_newlines_id by apply b64_encode_no_newline.
  by rewrite b64_decode_encode_raw.
Qed.

Lemma b64_decode_partial_encode s : DecodePartial (EncodeToString s) = s.
Proof.
  unfold DecodePartial. rewrite strip_newlines_id by apply b64_encode_no_newline.
  by rewrite b64_decode_encode_raw.
Qed.

Lemma b64_encode_inj s t : EncodeToString s = EncodeToString t -> s = t.
Proof. intros H. apply (inj Some). by rewrite <- !b64_decode_encode, H. Qed.

Lemma b64_encode_nil s : EncodeToString s = [] -> s = [].
Proof. intros H. by apply b64_encode_inj. Qed.

End Base64Facts.

Module HexFacts.
Import Hex.

Lemma dec4_enc4 b3 b2 b1 b0 :
  dec4 (enc4 b3 b2 b1 b0) = Some (Ascii b0 b1 b2 b3 false false false false).
Proof. destruct b3, b2, b1, b0; vm_compute; reflexivity. Qed.

Lemma hex_decode_encode s : DecodeString (EncodeToString s) = Some s.
Proof.
  induction s as [|a s IH]; [done|]. simpl. destruct a. simpl.
  by rewrite !dec4_enc4, IH.
Qed.

Lemma hex_encode_length s : length (EncodeToString s) = (2 * length s)%nat.
Proof. induction s as [|a s IH]; simpl; [done|]. rewrite IH. lia. Qed.

Lemma hex_notin c s : (forall b3 b2 b1 b0, c <> enc4 b3 b2 b1 b0) -> c ∉ EncodeToString s.
Proof.
  intros He. induction s as [|a s IH]; [apply not_elem_of_nil|]. destruct a. cbn [EncodeToString].
  apply not_elem_of_cons. split; [apply He|]. apply not_elem_of_cons. split; [apply He|exact IH].
Qed.

(** A hex string is a plain file name: no slash and no dot. *)
Lemma hex_plain c s : c = Ascii.ascii_of_nat 46 \/ c = Ascii.ascii_of_nat 47 -> c ∉ EncodeToString s.
Proof.
  intros Hc. apply hex_notin. intros b3 b2 b1 b0.
  destruct Hc as [-> | ->]; destruct b3, b2, b1, b0; vm_compute; discriminate.
Qed.

Lemma hex_encode_inj s t : EncodeToString s = EncodeToString t -> s = t.
Proof. intros H. apply (inj Some). by rewrite <- !hex_decode_encode, H. Qed.

End HexFacts.

Module BigEndianFacts.
Import BigEndian.

Lemma length_put n z : length (put n z) = n.
Proof. induction n; simpl; congruence. Qed.

Lemma fold_get s acc : fold_left (fun acc b => acc * 256 + byte_val b) s acc =
  acc * 256 ^ len s + get s.
Proof.
  unfold get. revert acc. induction s as [|b s IH]; intros acc; simpl.
  - unfold len. simpl. lia.
  - rewrite IH, (IH (0 * 256 + byte_val b)). unfold len. simpl length. rewrite Nat2Z.inj_succ, Z.pow_succ_r by lia.
    lia.
Qed.

Lemma get_cons b s : get (b :: s) = byte_val b * 256 ^ len s + get s.
Proof. unfold get at 1. simpl. rewrite fold_get. lia. Qed.

Lemma get_put n z : get (put n z) = z mod 256 ^ Z.of_nat n.
Proof.
  induction n as [|n IH]; [by rewrite Z.mod_1_r|].
  cbn [put]. rewrite get_cons, IH, byte_val_of. unfold len. rewrite length_put.
  rewrite Z.shiftr_div_pow2, Nat2Z.inj_succ, Z.pow_succ_r by lia.
  replace (2 ^ (8 * Z.of_nat n)) with (256 ^ Z.of_nat n) by (rewrite Z.pow_mul_r by lia; done).
  rewrite (Z.mul_comm 256), Z.rem_mul_r by lia. lia.
Qed.

Lemma get_range s : 0 <= get s < 256 ^ len s.
Proof.
  induction s as [|b s IH]; [done|]. rewrite get_cons. pose proof (byte_val_range b).
  unfold len in *. simpl length. rewrite Nat2Z.inj_succ, Z.pow_succ_r by lia. nia.
Qed.

Lemma pow256 n : 2 ^ (8 * Z.of_nat n) = 256 ^ Z.of_nat n.
Proof. rewrite Z.pow_mul_r by lia. done. Qed.

Lemma put_ext n z w : z mod 256 ^ Z.of_nat n = w mod 256 ^ Z.of_nat n -> put n z = put n w.
Proof.
  induction n as [|n IH]; intros H; [done|]. cbn [put].
  rewrite Nat2Z.inj_succ, Z.pow_succ_r, (Z.mul_comm 256) in H by lia.
  rewrite !(Z.rem_mul_r _ (256 ^ Z.of_nat n)) in H by lia.
  assert (0 < 256 ^ Z.of_nat n) by lia.
  destruct (Z.div_mod_unique (256 ^ Z.of_nat n)
    ((z / 256 ^ Z.of_nat n) mod 256) ((w / 256 ^ Z.of_nat n) mod 256)
    (z mod 256 ^ Z.of_nat n) (w mod 256 ^ Z.of_nat n)) as [Hq Hr];
    [left; by apply Z.mod_pos_bound..|lia|].
  f_equal; [|by apply IH].
  apply byte_val_inj. rewrite !byte_val_of, !Z.shiftr_div_pow2, pow256 by lia. done.
Qed.

Lemma put_get s : put (length s) (get s) = s.
Proof.
  induction s as [|b s IH]; [done|]. simpl length. cbn [put]. f_equal.
  - rewrite get_cons, Z.shiftr_div_pow2, pow256 by lia. fold (len s).
    rewrite Z.div_add_l by (pose proof (get_range s); lia).
    rewrite Z.div_small, Z.add_0_r by apply get_range. apply byte_of_val.
  - etrans; [|exact IH]. apply put_ext. rewrite get_cons. fold (len s).
    by rewrite Z.add_comm, Z_mod_plus_full.
Qed.

Lemma get_PutUint16 z : get (PutUint16 z) = u16 z.
Proof. apply (get_put 2). Qed.

Lemma get_PutUint64 z : get (PutUint64 z) = u64 z.
Proof. apply (get_put 8). Qed.

End BigEndianFacts.

#[export] Hint Rewrite Base32HexFacts.b32_decode_encode Base64Facts.b64_decode_encode HexFacts.hex_decode_encode
  BigEndianFacts.get_PutUint16 BigEndianFacts.get_PutUint64 BigEndianFacts.length_put : vrgram_norm.
