(* ===== verification/Sha256.v ===== *)
(** * SHA-256, as [crypto/sha256.Sum256] computes it

    The relay indexes messages by the digest of the recipient's key, and the
    media server names files by the digest of their content, so the digest is
    modelled as the standard defines it (FIPS 180-4) and checked against the
    published test vectors.  The only fact the other files use is its length. *)

From S2P Require Import Prelude Codec.

Module Sha256.

(** The constants are the first 32 bits of the fractional parts of the cube
    roots (square roots, for the initial state) of the first primes. *)
Definition first_primes : list Z :=
  filter (fun n => Forall (fun d => n mod d <> 0) (seqZ 2 (n - 2))) (seqZ 2 310).

(** The integer [k]-th root of [n], bit by bit from bit [b - 1] down. *)
Fixpoint iroot (b : nat) (k n r : Z) : Z :=
  match b with
  | O => r
  | S b' => let t := r + 2 ^ Z.of_nat b' in iroot b' k n (if t ^ k <=? n then t else r)
  end.

Definition k_table : list Z :=
  Eval vm_compute in map (fun p => u32 (iroot 40 3 (Z.shiftl p 96) 0)) first_primes.
Definition h_init : list Z :=
  Eval vm_compute in map (fun p => u32 (iroot 40 2 (Z.shiftl p 64) 0)) (take 8 first_primes).

Definition rotr (n : Z) (x : Z) : Z := u32 (Z.lor (Z.shiftr x n) (Z.shiftl x (32 - n))).
Definition big_sigma0 (x : Z) : Z := Z.lxor (Z.lxor (rotr 2 x) (rotr 13 x)) (rotr 22 x).
Definition big_sigma1 (x : Z) : Z := Z.lxor (Z.lxor (rotr 6 x) (rotr 11 x)) (rotr 25 x).
Definition small_sigma0 (x : Z) : Z := Z.lxor (Z.lxor (rotr 7 x) (rotr 18 x)) (Z.shiftr x 3).
Definition small_sigma1 (x : Z) : Z := Z.lxor (Z.lxor (rotr 17 x) (rotr 19 x)) (Z.shiftr x 10).
Definition ch (x y z : Z) : Z := Z.lxor (Z.land x y) (Z.land (Z.lxor x (2 ^ 32 - 1)) z).
Definition maj (x y z : Z) : Z := Z.lxor (Z.lxor (Z.land x y) (Z.land x z)) (Z.land y z).

(** The padded message: a one bit, zeros up to 56 mod 64, the bit length. *)
Definition padding (s : bytes) : bytes :=
  s ++ byte_of 128 :: repeat (byte_of 0) (Z.to_nat ((55 - len s) mod 64))
    ++ BigEndian.PutUint64 (8 * len s).

(** The message schedule, kept newest first. *)
Fixpoint schedule (n : nat) (w : list Z) : list Z :=
  match n with
  | O => w
  | S k =>
      let x := u32 (small_sigma1 (nth 1 w 0) + nth 6 w 0 + small_sigma0 (nth 14 w 0) + nth 15 w 0) in
      schedule k (x :: w)
  end.

Record regs := Regs { ra : Z; rb : Z; rc : Z; rd : Z; re : Z; rf : Z; rg : Z; rh : Z }.

Definition round (r : regs) (kw : Z * Z) : regs :=
  let t1 := rh r + big_sigma1 (re r) + ch (re r) (rf r) (rg r) + fst kw + snd kw in
  let t2 := big_sigma0 (ra r) + maj (ra r) (rb r) (rc r) in
  Regs (u32 (t1 + t2)) (ra r) (rb r) (rc r) (u32 (rd r + t1)) (re r) (rf r) (rg r).

Definition compress (r : regs) (block : bytes) : regs :=
  let w := rev (schedule 48 (rev (map BigEndian.get (groups 16 4 block)))) in
  let r' := fold_left round (combine k_table w) r in
  Regs (u32 (ra r + ra r')) (u32 (rb r + rb r')) (u32 (rc r + rc r')) (u32 (rd r + rd r'))
       (u32 (re r + re r')) (u32 (rf r + rf r')) (u32 (rg r + rg r')) (u32 (rh r + rh r')).

Definition init_regs : regs :=
  Regs (nth 0 h_init 0) (nth 1 h_init 0) (nth 2 h_init 0) (nth 3 h_init 0)
       (nth 4 h_init 0) (nth 5 h_init 0) (nth 6 h_init 0) (nth 7 h_init 0).

Definition output (r : regs) : bytes :=
  concat (map (BigEndian.put 4) [ra r; rb r; rc r; rd r; re r; rf r; rg r; rh r]).

Definition Sum256 (s : bytes) : bytes :=
  let p := padding s in output (fold_left compress (groups (length p) 64 p) init_regs).

Lemma Sum256_length s : length (Sum256 s) = 32%nat.
Proof. unfold Sum256, output. generalize (fold_left compress (groups (length (padding s)) 64 (padding s)) init_regs).
  intros r. cbn [map concat]. rewrite !length_app, !BigEndianFacts.length_put. done.
Qed.

(** The vectors of FIPS 180-4: the empty string and "abc". *)
Example Sum256_empty :
  Hex.EncodeToString (Sum256 []) = $"e3b0c44298fc1c149afbf4c8996fb92427ae41e4649b934ca495991b7852b855".
Proof. vm_compute. reflexivity. Qed.

Example Sum256_abc :
  Hex.EncodeToString (Sum256 $"abc") = $"ba7816bf8f01cfea414140de5dae2223b00361a396177a9cb410ff61f20015ad".
Proof. vm_compute. reflexivity. Qed.

(** A two-block message. *)
Example Sum256_two_blocks :
  Hex.EncodeToString (Sum256 $"abcdbcdecdefdefgefghfghighijhijkijkljklmklmnlmnomnopnopq")
  = $"248d6a61d20638b8e5c026930c3e6039a33ce45964ff2167f6ecedd419db06c1".
Proof. vm_compute. reflexivity. Qed.

End Sha256.

#[global] Arguments Sha256.Sum256 : simpl never.
#[export] Hint Rewrite Sha256.Sum256_length : vrgram_norm.
