(* ===== verification/Encoding.v ===== *)
(** * Chunks and their DNS labels (src/go/internal/encoding/encoding.go)

    A message is split into [Chunk]s with an index, a total and a CRC-16, each
    chunk is written as base32hex DNS labels, and the receiver parses the
    labels and reassembles the chunks in any order.  The theorems give the two
    round trips, an exact characterisation of what [ReassembleMessage]
    accepts, the bounds of the label format, and what the checksum detects. *)

From S2P Require Import Prelude GoStrings Codec Sha256.

(** ** Data *)

Record Chunk := mkChunk {
  MsgID : bytes;          (* [8]byte *)
  ChunkIdx : Z;           (* uint16 *)
  TotalChunks : Z;        (* uint16 *)
  Checksum : Z;           (* uint16 *)
  Payload : bytes;
  RecipientHash : bytes   (* empty, or the SHA-256 of the recipient key *)
}.

#[export] Instance Chunk_eq_dec : EqDecision Chunk.
Proof. solve_decision. Defined.

Inductive EncError :=
| ErrNoChunks
| ErrExpectedChunks (want got : Z)
| ErrIndexOutOfRange (i : Z)
| ErrDuplicateIndex (i : Z)
| ErrMissingChunk
| ErrChecksumMismatch (i got want : Z)
| ErrTooFewLabels
| ErrZoneMismatch (got want : bytes)
| ErrTooFewAfterHash
| ErrInvalidRecipientHash
| ErrInvalidMsgID
| ErrInvalidChunkIdx
| ErrInvalidTotalChunks
| ErrInvalidChecksum
| ErrInvalidPayload.

(** ** Checksum *)

Definition crc_step (crc : Z) : Z :=
  if negb (Z.land crc 0x8000 =? 0)
  then Z.lxor (u16 (Z.shiftl crc 1)) 0x1021
  else u16 (Z.shiftl crc 1).

Definition crc_byte (crc : Z) (b : byte) : Z :=
  Nat.iter 8 crc_step (Z.lxor crc (u16 (Z.shiftl (byte_val b) 8))).

Definition crc16 (data : bytes) : Z := Z.lxor (fold_left crc_byte data 0xFFFF) 0xFFFF.

#[global] Arguments crc16 : simpl never.

(** ** Splitting a message *)

Definition NewChunk (msgID : bytes) (idx total : Z) (payload : bytes) : Chunk :=
  {| MsgID := msgID; ChunkIdx := idx; TotalChunks := total;
     Checksum := crc16 payload; Payload := payload; RecipientHash := [] |}.

Definition set_recipient (h : bytes) (c : Chunk) : Chunk :=
  {| MsgID := MsgID c; ChunkIdx := ChunkIdx c; TotalChunks := TotalChunks c;
     Checksum := Checksum c; Payload := Payload c; RecipientHash := h |}.

(** [if maxChunkSize <= 0 { maxChunkSize = 220 }] *)
Definition effective_size (maxChunkSize : Z) : nat :=
  Z.to_nat (if maxChunkSize <=? 0 then 220 else maxChunkSize).

Definition recipient_hash (recipientPubkey : bytes) : bytes :=
  if decide (recipientPubkey = []) then [] else Sha256.Sum256 recipientPubkey.

Definition chunk_total (plaintext : bytes) (size : nat) : nat :=
  (length plaintext + size - 1) / size.

Definition ChunkMessage (msgID plaintext : bytes) (maxChunkSize : Z) (recipientPubkey : bytes)
    : list Chunk :=
  let size := effective_size maxChunkSize in
  let recipientHash := recipient_hash recipientPubkey in
  let total := chunk_total plaintext size in
  map (fun i : nat =>
         let start := (i * size)%nat in
         let end_ := Nat.min (start + size) (length plaintext) in
         set_recipient recipientHash
           (NewChunk msgID (u16 (Z.of_nat i)) (u16 (Z.of_nat total)) (slice start end_ plaintext)))
      (seq 0 total).

(** ** Reassembly *)

(** The first loop: place every chunk at its index. *)
Fixpoint place (total : Z) (chunks : list Chunk) (sorted : list (option Chunk))
    : result EncError (list (option Chunk)) :=
  match chunks with
  | [] => Ok sorted
  | c :: rest =>
      if ChunkIdx c >=? total then Err (ErrIndexOutOfRange (ChunkIdx c))
      else match sorted !! Z.to_nat (ChunkIdx c) with
           | Some (Some _) => Err (ErrDuplicateIndex (ChunkIdx c))
           | _ => place total rest (<[Z.to_nat (ChunkIdx c) := Some c]> sorted)
           end
  end.

(** The second loop: check and append the payloads in order. *)
Fixpoint join_sorted (sorted : list (option Chunk)) (acc : bytes) : result EncError bytes :=
  match sorted with
  | [] => Ok acc
  | None :: _ => Err ErrMissingChunk
  | Some c :: rest =>
      if Checksum c =? crc16 (Payload c) then join_sorted rest (acc ++ Payload c)
      else Err (ErrChecksumMismatch (ChunkIdx c) (Checksum c) (crc16 (Payload c)))
  end.

Definition ReassembleMessage (chunks : list Chunk) : result EncError bytes :=
  match chunks with
  | [] => Err ErrNoChunks
  | c0 :: _ =>
      let total := TotalChunks c0 in
      if negb (len chunks =? total) then Err (ErrExpectedChunks total (len chunks))
      else sorted ← place total chunks (replicate (Z.to_nat total) None);
           join_sorted sorted []
  end.

(** ** DNS labels *)

Definition EncodePayload (payload : bytes) : list bytes :=
  let encoded := Base32Hex.EncodeToString payload in groups (length encoded) 63 encoded.

Definition DecodePayload (labels : list bytes) : option bytes :=
  Base32Hex.DecodeString (concat labels).

Definition EncodeToLabels (c : Chunk) (zone : bytes) : list bytes :=
  (if (0 <? len (RecipientHash c)) then [Base32Hex.EncodeToString (RecipientHash c)] else [])
  ++ [Base32Hex.EncodeToString (MsgID c);
      Base32Hex.EncodeToString (BigEndian.PutUint16 (ChunkIdx c));
      Base32Hex.EncodeToString (BigEndian.PutUint16 (TotalChunks c));
      Base32Hex.EncodeToString (BigEndian.PutUint16 (Checksum c))]
  ++ EncodePayload (Payload c) ++ [zone].

(** [base32hex.DecodeString] followed by the length check of each field. *)
Definition decode_field (e : EncError) (want : nat) (label : bytes) : result EncError bytes :=
  b ← or_err e (Base32Hex.DecodeString label);
  if decide (length b = want) then Ok b else Err e.

(** The optional recipient hash and the remaining labels. *)
Definition take_recipient (body : list bytes) : result EncError (bytes * list bytes) :=
  match body with
  | l0 :: rest =>
      if len l0 =? 52
      then h ← decode_field ErrInvalidRecipientHash 32 l0; Ok (h, rest)
      else Ok ([], body)
  | [] => Ok ([], body)
  end.

Definition DecodeChunkFromLabels (labels : list bytes) (zone : bytes) : result EncError Chunk :=
  if len labels <? 2 then Err ErrTooFewLabels
  else if negb (bool_decide (last labels = Some zone))
  then Err (ErrZoneMismatch (default [] (last labels)) zone)
  else
    let body := take (length labels - 1) labels in
    if len body <? 4 then Err ErrTooFewLabels
    else
      '(recipientHash, fields) ← take_recipient body;
      match fields with
      | l_id :: l_idx :: l_total :: l_sum :: payloadLabels =>
          msgID ← decode_field ErrInvalidMsgID 8 l_id;
          idxBytes ← decode_field ErrInvalidChunkIdx 2 l_idx;
          totalBytes ← decode_field ErrInvalidTotalChunks 2 l_total;
          cksumBytes ← decode_field ErrInvalidChecksum 2 l_sum;
          payload ← or_err ErrInvalidPayload (DecodePayload payloadLabels);
          Ok {| MsgID := msgID; ChunkIdx := BigEndian.get idxBytes;
                TotalChunks := BigEndian.get totalBytes; Checksum := BigEndian.get cksumBytes;
                Payload := payload; RecipientHash := recipientHash |}
      | _ => Err ErrTooFewAfterHash
      end.

(** ** Well-formedness: the widths of the Go types *)

Definition is_u16 (z : Z) : Prop := 0 <= z < 65536.

Record chunk_wf (c : Chunk) : Prop := {
  wf_id : length (MsgID c) = 8%nat;
  wf_idx : is_u16 (ChunkIdx c);
  wf_total : is_u16 (TotalChunks c);
  wf_sum : is_u16 (Checksum c);
  wf_hash : length (RecipientHash c) = 0%nat \/ length (RecipientHash c) = 32%nat
}.

(** A chunk whose checksum matches its payload. *)
Definition sum_ok (c : Chunk) : Prop := Checksum c = crc16 (Payload c).

(** ** The checksum register

    One bit step of the register is a bijection of the 16-bit words, so two
    different registers stay different whatever bytes follow. *)
Section Crc.

(** The inverse of [crc_step], checked on every 16-bit word. *)
Definition crc_unstep (r : Z) : Z :=
  if Z.odd r then Z.lor (Z.shiftr (Z.lxor r 0x1021) 1) 0x8000 else Z.shiftr r 1.

(** [f] on every number below [p]. *)
Definition all_below (p : positive) (f : Z -> bool) : Z * bool :=
  Pos.iter (fun '(n, ok) => (n + 1, ok && f n)) (0, true) p.

Lemma all_below_spec p f :
  (all_below p f).1 = Z.pos p /\ ((all_below p f).2 = true -> forall w, 0 <= w < Z.pos p -> f w = true).
Proof.
  unfold all_below. induction p as [|p IH] using Pos.peano_ind.
  - simpl. split; [done|]. intros H w Hw. by replace w with 0 by lia.
  - rewrite Pos.iter_succ. destruct (Pos.iter _ _ p) as [n ok]. simpl in *. destruct IH as [-> IH].
    split; [lia|]. intros [-> Hf]%andb_prop w Hw.
    destruct (decide (w = Z.pos p)) as [->|]; [done|]. apply IH; [done|lia].
Qed.

Lemma crc_step_spec c : is_u16 c -> is_u16 (crc_step c) /\ crc_unstep (crc_step c) = c.
Proof.
  intros Hc.
  assert ((all_below 65536 (fun c => (0 <=? crc_step c) && (crc_step c <? 65536)
                            && (crc_unstep (crc_step c) =? c))).2 = true) as H
    by (vm_compute; reflexivity).
  pose proof (proj2 (all_below_spec _ _) H c Hc) as Hb. unfold is_u16.
  rewrite !andb_true_iff, Z.leb_le, Z.ltb_lt, Z.eqb_eq in Hb. tauto.
Qed.

Lemma crc_step_inj c d : is_u16 c -> is_u16 d -> crc_step c = crc_step d -> c = d.
Proof.
  intros Hc Hd H. destruct (crc_step_spec c Hc) as [_ <-], (crc_step_spec d Hd) as [_ <-].
  by rewrite H.
Qed.

Lemma crc_iter_u16 n c : is_u16 c -> is_u16 (Nat.iter n crc_step c).
Proof. intros Hc. induction n as [|n IH]; [done|]. simpl. by apply crc_step_spec. Qed.

Lemma crc_iter_inj n c d :
  is_u16 c -> is_u16 d -> Nat.iter n crc_step c = Nat.iter n crc_step d -> c = d.
Proof.
  intros Hc Hd. induction n as [|n IH]; [done|]. simpl. intros H. apply IH.
  by apply crc_step_inj in H; [|apply crc_iter_u16..].
Qed.

Lemma lxor_u16 a b : is_u16 a -> is_u16 b -> is_u16 (Z.lxor a b).
Proof.
  unfold is_u16. intros Ha Hb. split; [apply Z.lxor_nonneg; lia|].
  destruct (decide (Z.lxor a b = 0)) as [->|Hne]; [lia|].
  assert (0 <= Z.lxor a b) by (apply Z.lxor_nonneg; lia).
  change 65536 with (2 ^ 16). apply Z.log2_lt_pow2; [lia|].
  pose proof (Z.log2_lxor a b ltac:(lia) ltac:(lia)).
  assert (forall x, 0 <= x < 65536 -> Z.log2 x < 16) as Hl.
  { intros x Hx. destruct (decide (x = 0)) as [->|]; [done|]. apply Z.log2_lt_pow2; lia. }
  pose proof (Hl a Ha). pose proof (Hl b Hb). lia.
Qed.

Lemma byte_high_u16 b : is_u16 (u16 (Z.shiftl (byte_val b) 8)).
Proof. apply u16_range. Qed.

Lemma crc_byte_u16 c b : is_u16 c -> is_u16 (crc_byte c b).
Proof. intros Hc. apply crc_iter_u16, lxor_u16; [done|apply byte_high_u16]. Qed.

Lemma crc_fold_u16 data c : is_u16 c -> is_u16 (fold_left crc_byte data c).
Proof. revert c. induction data as [|b data IH]; intros c Hc; simpl; [done|]. by apply IH, crc_byte_u16. Qed.

Lemma crc16_u16 data : is_u16 (crc16 data).
Proof. apply lxor_u16; [apply crc_fold_u16|]; unfold is_u16; lia. Qed.

Lemma lxor_cancel a b c : Z.lxor a b = Z.lxor a c -> b = c.
Proof. intros H. by rewrite <- (Z.lxor_0_l b), <- (Z.lxor_0_l c), <- (Z.lxor_nilpotent a), !Z.lxor_assoc, H. Qed.

(** Different registers stay different when the same byte follows. *)
Lemma crc_byte_inj_reg c d b : is_u16 c -> is_u16 d -> crc_byte c b = crc_byte d b -> c = d.
Proof.
  intros Hc Hd H. apply crc_iter_inj in H; [|apply lxor_u16; [done|apply byte_high_u16]..].
  rewrite !(Z.lxor_comm _ (u16 _)) in H. by apply lxor_cancel in H.
Qed.

(** Different bytes on the same register give different registers. *)
Lemma crc_byte_inj_byte c b b' : is_u16 c -> crc_byte c b = crc_byte c b' -> b = b'.
Proof.
  intros Hc H. apply crc_iter_inj in H; [|apply lxor_u16; [done|apply byte_high_u16]..].
  apply lxor_cancel in H. apply byte_val_inj.
  rewrite !Z.shiftl_mul_pow2 in H by lia.
  pose proof (byte_val_range b). pose proof (byte_val_range b').
  rewrite !u16_small in H by lia. lia.
Qed.

Lemma crc_fold_inj data c d :
  is_u16 c -> is_u16 d -> fold_left crc_byte data c = fold_left crc_byte data d -> c = d.
Proof.
  revert c d. induction data as [|b data IH]; intros c d Hc Hd H; [done|]. simpl in H.
  apply IH in H; [|by apply crc_byte_u16..]. by apply crc_byte_inj_reg in H.
Qed.

Lemma crc16_app_inj p b b' s : crc16 (p ++ b :: s) = crc16 (p ++ b' :: s) -> b = b'.
Proof.
  unfold crc16. rewrite !(Z.lxor_comm _ 0xFFFF). intros H%lxor_cancel.
  rewrite !fold_left_app in H. simpl in H.
  assert (is_u16 (fold_left crc_byte p 0xFFFF)) by (apply crc_fold_u16; unfold is_u16; lia).
  apply crc_fold_inj in H; [|by apply crc_byte_u16..]. by apply crc_byte_inj_byte in H.
Qed.

End Crc.

(** ** Reassembly, characterised *)
Section Reassembly.

Lemma place_inv total chunks sorted s' :
  Forall (fun c => 0 <= ChunkIdx c) chunks ->
  length sorted = Z.to_nat total ->
  place total chunks sorted = Ok s' ->
  length s' = length sorted /\ NoDup (map ChunkIdx chunks) /\
  Forall (fun c => ChunkIdx c < total /\ s' !! Z.to_nat (ChunkIdx c) = Some (Some c)) chunks /\
  (forall i c, sorted !! i = Some (Some c) ->
     s' !! i = Some (Some c) /\ Forall (fun c' => Z.to_nat (ChunkIdx c') <> i) chunks).
Proof.
  intros Hpos. revert sorted. induction Hpos as [|c chunks Hc Hpos IH]; intros sorted Hlen H; simpl in H.
  - ok_inv. repeat split; try done; constructor.
  - destruct (ChunkIdx c >=? total) eqn:Hge; [done|].
    assert (ChunkIdx c < total) as Hlt by lia.
    destruct (sorted !! Z.to_nat (ChunkIdx c)) as [[c'|]|] eqn:Hl; [done| |].
    2: { apply lookup_ge_None in Hl. lia. }
    apply IH in H; [|by rewrite length_insert]. destruct H as (H1 & H2 & H3 & H4).
    rewrite length_insert in H1.
    destruct (H4 (Z.to_nat (ChunkIdx c)) c) as [Hs Hne].
    { apply list_lookup_insert_eq. lia. }
    split; [done|]. split; [|split].
    + simpl. apply NoDup_cons_2; [|done]. rewrite list_elem_of_In, in_map_iff.
      intros (d & Hd & Hin%list_elem_of_In). rewrite Forall_forall in Hne.
      apply (Hne d Hin). by rewrite Hd.
    + constructor; [done|done].
    + intros i d Hd. assert (i <> Z.to_nat (ChunkIdx c)) by congruence.
      destruct (H4 i d) as [Hs' Hne']; [by rewrite list_lookup_insert_ne|]. split; [done|]. by constructor.
Qed.

Lemma place_ok total chunks sorted :
  length sorted = Z.to_nat total ->
  Forall (fun c => 0 <= ChunkIdx c < total) chunks -> NoDup (map ChunkIdx chunks) ->
  Forall (fun c => sorted !! Z.to_nat (ChunkIdx c) = Some None) chunks ->
  exists s', place total chunks sorted = Ok s'.
Proof.
  intros Hlen Hr. revert sorted Hlen.
  induction Hr as [|c chunks Hc Hr IH]; intros sorted Hlen Hnd Hfree; simpl; [by eexists|].
  inversion Hnd as [|? ? Hnot Hnd']; subst. inversion Hfree as [|? ? Hf Hfree']; subst.
  destruct (ChunkIdx c >=? total) eqn:Hge; [lia|]. rewrite Hf.
  apply IH; [by rewrite length_insert|done|].
  rewrite Forall_forall in Hfree', Hr |- *. intros d Hd.
  rewrite list_lookup_insert_ne; [by apply Hfree'|].
  intros Heq. apply Hnot. rewrite list_elem_of_In, in_map_iff. exists d.
  pose proof (Hr d Hd). rewrite <- list_elem_of_In. split; [lia|done].
Qed.

Lemma join_sorted_Ok sorted acc d :
  join_sorted sorted acc = Ok d <->
  exists ordered, sorted = Some <$> ordered /\ Forall sum_ok ordered /\ d = acc ++ concat (map Payload ordered).
Proof.
  revert acc. induction sorted as [|[c|] sorted IH]; intros acc; simpl.
  - split.
    + intros. ok_inv. exists []. rewrite app_nil_r. repeat split; constructor.
    + intros ([|c o] & Ho & _ & ->); [|done]. by rewrite app_nil_r.
  - destruct (Checksum c =? crc16 (Payload c)) eqn:Hs.
    + rewrite IH. split.
      * intros (o & -> & Ho & ->). exists (c :: o). simpl. rewrite <- app_assoc.
        repeat split; [constructor; [unfold sum_ok; lia|done]].
      * intros ([|c' o] & Ho & Hall & ->); [done|]. simpl in Ho. injection Ho as -> ->.
        inversion Hall; subst. exists o. simpl. by rewrite <- app_assoc.
    + split; [done|]. intros ([|c' o] & Ho & Hall & ->); [done|]. simpl in Ho. injection Ho as -> ->.
      inversion Hall as [|? ? Hc]; subst. unfold sum_ok in Hc. lia.
  - split; [done|]. by intros ([|c' o] & Ho & _).
Qed.

(** What a list of chunks must be for reassembly to succeed: a rearrangement
    of chunks numbered from 0, as many as the first one announces, with
    matching checksums. *)
Definition reassembles_to (chunks : list Chunk) (data : bytes) : Prop :=
  exists c0 ordered, head chunks = Some c0 /\ TotalChunks c0 = len chunks /\ chunks ≡ₚ ordered /\
    (forall i c, ordered !! i = Some c -> ChunkIdx c = Z.of_nat i) /\
    Forall sum_ok ordered /\ data = concat (map Payload ordered).

Lemma reassemble_sound chunks data :
  Forall (fun c => 0 <= ChunkIdx c) chunks ->
  ReassembleMessage chunks = Ok data -> reassembles_to chunks data.
Proof.
  intros Hpos H. unfold ReassembleMessage in H. destruct chunks as [|c0 rest] eqn:Hch; [done|].
  rewrite <- Hch in *. destruct (len chunks =? TotalChunks c0) eqn:Hlen; [|done].
  simpl in H. apply bind_Ok in H as (sorted & Hplace & Hjoin).
  apply place_inv in Hplace as (Hsl & Hnd & Hall & _); [|done|by rewrite length_replicate].
  rewrite length_replicate in Hsl.
  apply join_sorted_Ok in Hjoin as (ordered & -> & Hsum & ->). rewrite length_fmap in Hsl.
  assert (chunks ≡ₚ ordered) as Hperm.
  { apply submseteq_length_Permutation; [|unfold len in Hlen; lia].
    apply NoDup_submseteq; [by apply (NoDup_fmap_1 ChunkIdx)|]. intros c Hc.
    rewrite Forall_forall in Hall. destruct (Hall c Hc) as [_ Hl].
    rewrite list_lookup_fmap, fmap_Some in Hl. destruct Hl as (c' & Hl & [= <-]).
    by eapply list_elem_of_lookup_2. }
  exists c0, ordered. split; [by subst|]. split; [lia|]. split; [done|]. split; [|done].
  intros i c Hi. rewrite Forall_forall in Hall, Hpos.
  assert (c ∈ chunks) as Hc by (rewrite Hperm; by eapply list_elem_of_lookup_2).
  destruct (Hall c Hc) as [_ Hl]. rewrite list_lookup_fmap, fmap_Some in Hl.
  destruct Hl as (c' & Hl & [= <-]).
  assert (NoDup ordered) as Hnd' by (rewrite <- Hperm; by apply (NoDup_fmap_1 ChunkIdx)).
  pose proof (NoDup_lookup _ _ _ _ Hnd' Hi Hl). pose proof (Hpos c Hc). lia.
Qed.

Lemma reassemble_complete chunks data :
  reassembles_to chunks data -> ReassembleMessage chunks = Ok data.
Proof.
  intros (c0 & ordered & Hhead & Htot & Hperm & Hidx & Hsum & ->).
  assert (ReassembleMessage chunks = sorted ← place (len chunks) chunks
    (replicate (Z.to_nat (len chunks)) None); join_sorted sorted []) as ->.
  { destruct chunks as [|c0' rest]; [done|]. injection Hhead as ->.
    unfold ReassembleMessage. by rewrite Htot, Z.eqb_refl. }
  assert (length ordered = length chunks) as Hlo by (by rewrite Hperm).
  assert (Hin : forall c, c ∈ chunks -> exists i, ordered !! i = Some c /\ ChunkIdx c = Z.of_nat i /\ (i < length chunks)%nat).
  { intros c Hc. rewrite Hperm in Hc. apply list_elem_of_lookup_1 in Hc as (i & Hi).
    exists i. split; [done|]. split; [by apply Hidx|]. apply lookup_lt_Some in Hi. lia. }
  destruct (place_ok (len chunks) chunks (replicate (Z.to_nat (len chunks)) None)) as (s' & Hs').
  { by rewrite length_replicate. }
  { apply Forall_forall. intros c Hc. destruct (Hin c Hc) as (i & _ & -> & Hi). unfold len. lia. }
  { rewrite Hperm. apply NoDup_alt. intros i j z Hi Hj.
    rewrite list_lookup_fmap in Hi, Hj.
    destruct (ordered !! i) as [ci|] eqn:Ei, (ordered !! j) as [cj|] eqn:Ej; simpl in *; try done.
    apply Hidx in Ei, Ej. ok_inv. simplify_eq. lia. }
  { apply Forall_forall. intros c Hc. destruct (Hin c Hc) as (i & _ & -> & Hi).
    rewrite lookup_replicate_2; [done|]. unfold len. lia. }
  rewrite Hs'. simpl. apply place_inv in Hs' as (Hsl & _ & Hall & _).
  - rewrite length_replicate in Hsl. apply join_sorted_Ok. exists ordered. split; [|done].
    apply list_eq_same_length with (n := length chunks); [by rewrite length_fmap|unfold len in Hsl; lia|].
    intros i x y Hi Hx Hy. rewrite list_lookup_fmap in Hy.
    destruct (ordered !! i) as [c|] eqn:Ei; [|done]. simpl in Hy. ok_inv.
    assert (c ∈ chunks) as Hc by (rewrite Hperm; by eapply list_elem_of_lookup_2).
    rewrite Forall_forall in Hall. destruct (Hall c Hc) as [_ Hl].
    rewrite (Hidx i c Ei), Nat2Z.id in Hl. congruence.
  - apply Forall_forall. intros c Hc. destruct (Hin c Hc) as (i & _ & -> & _). lia.
  - by rewrite length_replicate.
Qed.

End Reassembly.

(** ** Splitting *)
Section Splitting.

Lemma effective_size_pos m : (0 < effective_size m)%nat.
Proof. unfold effective_size. destruct (m <=? 0) eqn:H; lia. Qed.

Lemma chunk_total_spec pt size : (0 < size)%nat ->
  (length pt <= chunk_total pt size * size)%nat /\
  (pt <> [] -> (0 < chunk_total pt size)%nat) /\ (pt = [] -> chunk_total pt size = 0%nat).
Proof.
  intros Hs. unfold chunk_total. split; [|split].
  - pose proof (Nat.div_mod (length pt + size - 1) size ltac:(lia)).
    pose proof (Nat.mod_upper_bound (length pt + size - 1) size ltac:(lia)). lia.
  - intros Hne. apply Nat.div_str_pos. destruct pt; simpl; [done|lia].
  - intros ->. apply Nat.div_small. simpl. lia.
Qed.

Lemma concat_slices (l : bytes) size n :
  concat (map (fun i => slice (i * size) (Nat.min (i * size + size) (length l)) l) (seq 0 n))
  = slice 0 (Nat.min (n * size) (length l)) l.
Proof.
  induction n as [|n IH]; [done|]. rewrite seq_S, map_app, concat_app, IH. simpl. rewrite app_nil_r.
  destruct (decide (n * size <= length l)%nat) as [H|H].
  - replace (Nat.min (n * size) (length l)) with (n * size)%nat by lia.
    rewrite slice_app_adjacent by lia. f_equal. lia.
  - unfold slice at 2. rewrite (drop_ge l (n * size)) by lia. rewrite firstn_nil, app_nil_r.
    f_equal. lia.
Qed.

Section Message.
Context (msgID pt : bytes) (m : Z) (pk : bytes).

Let size := effective_size m.
Let total := chunk_total pt size.

Lemma length_ChunkMessage : length (ChunkMessage msgID pt m pk) = total.
Proof. unfold ChunkMessage. by rewrite length_map, length_seq. Qed.

Lemma ChunkMessage_lookup i c : ChunkMessage msgID pt m pk !! i = Some c ->
  (i < total)%nat /\
  c = set_recipient (recipient_hash pk)
        (NewChunk msgID (u16 (Z.of_nat i)) (u16 (Z.of_nat total))
           (slice (i * size) (Nat.min (i * size + size) (length pt)) pt)).
Proof.
  unfold ChunkMessage. rewrite list_lookup_fmap, fmap_Some.
  intros (j & Hj & ->). apply lookup_seq in Hj as [-> Hj]. split; [exact Hj|done].
Qed.

Lemma ChunkMessage_payload : concat (map Payload (ChunkMessage msgID pt m pk)) = pt.
Proof.
  unfold ChunkMessage. rewrite map_map. simpl. rewrite concat_slices.
  destruct (chunk_total_spec pt size (effective_size_pos m)) as [H _].
  fold size. rewrite Nat.min_r by exact H. by rewrite slice_full.
Qed.

Lemma ChunkMessage_sum_ok : Forall sum_ok (ChunkMessage msgID pt m pk).
Proof.
  apply Forall_forall. intros c Hc. apply list_elem_of_lookup_1 in Hc as (i & Hi).
  apply ChunkMessage_lookup in Hi as [_ ->]. done.
Qed.

Lemma recipient_hash_length : length (recipient_hash pk) = 0%nat \/ length (recipient_hash pk) = 32%nat.
Proof. unfold recipient_hash. case_decide; [by left|right]. apply Sha256.Sum256_length. Qed.

Lemma ChunkMessage_wf : length msgID = 8%nat -> Forall chunk_wf (ChunkMessage msgID pt m pk).
Proof.
  intros Hid. apply Forall_forall. intros c Hc. apply list_elem_of_lookup_1 in Hc as (i & Hi).
  apply ChunkMessage_lookup in Hi as [_ ->].
  split; simpl; [done|apply u16_range|apply u16_range|apply crc16_u16|apply recipient_hash_length].
Qed.

Lemma ChunkMessage_reassembles chunks :
  chunks ≡ₚ ChunkMessage msgID pt m pk -> pt <> [] -> Z.of_nat total < 65536 -> reassembles_to chunks pt.
Proof.
  intros Hperm Hne Htot.
  assert (length chunks = total) as Hlen by (rewrite Hperm; apply length_ChunkMessage).
  destruct (chunk_total_spec pt size (effective_size_pos m)) as (_ & Hpos & _).
  destruct chunks as [|c0 rest] eqn:Hch; [specialize (Hpos Hne); simpl in Hlen; unfold total in Hlen; lia|].
  rewrite <- Hch in *. exists c0, (ChunkMessage msgID pt m pk).
  split; [by subst|]. split; [|split; [done|split; [|split]]].
  - assert (c0 ∈ ChunkMessage msgID pt m pk) as Hin by (rewrite <- Hperm; subst; left).
    apply list_elem_of_lookup_1 in Hin as (i & [Hi ->]%ChunkMessage_lookup). simpl.
    unfold len. rewrite u16_small, Hlen by lia. done.
  - intros i c [Hi ->]%ChunkMessage_lookup. simpl. rewrite u16_small by lia. done.
  - apply ChunkMessage_sum_ok.
  - symmetry. apply ChunkMessage_payload.
Qed.

End Message.

End Splitting.

(** ** Labels *)
Section Labels.

Definition body_labels (c : Chunk) : list bytes := take (length (EncodeToLabels c []) - 1) (EncodeToLabels c []).

Lemma EncodePayload_concat p : concat (EncodePayload p) = Base32Hex.EncodeToString p.
Proof. unfold EncodePayload. apply groups_concat; lia. Qed.

Lemma payload_roundtrip p : DecodePayload (EncodePayload p) = Some p.
Proof. unfold DecodePayload. rewrite EncodePayload_concat. apply Base32HexFacts.b32_decode_encode. Qed.

Lemma decode_field_encode e n b :
  length b = n -> decode_field e n (Base32Hex.EncodeToString b) = Ok b.
Proof.
  intros H. unfold decode_field. rewrite Base32HexFacts.b32_decode_encode. simpl. by rewrite decide_True.
Qed.

Lemma decode_field_Ok e n l b :
  decode_field e n l = Ok b -> Base32Hex.DecodeString l = Some b /\ length b = n.
Proof.
  unfold decode_field. intros (b' & H & Hl)%bind_Ok. apply or_err_Ok in H.
  case_decide; ok_inv; done.
Qed.

Lemma EncodeToLabels_body c zone :
  EncodeToLabels c zone = body_labels c ++ [zone].
Proof.
  unfold body_labels, EncodeToLabels. rewrite !app_assoc, length_app. simpl length.
  rewrite Nat.add_sub, take_app_length. done.
Qed.

Lemma body_labels_length c : (4 <= length (body_labels c))%nat.
Proof.
  assert (length (EncodeToLabels c []) = length (body_labels c) + 1)%nat as H
    by (rewrite EncodeToLabels_body, length_app; done).
  unfold EncodeToLabels in H. rewrite !length_app in H. simpl in H. lia.
Qed.

Lemma enc_length_32 b : length b = 32%nat -> length (Base32Hex.EncodeToString b) = 52%nat.
Proof. intros H. by rewrite Base32HexFacts.b32_encode_length, H. Qed.

Lemma enc_length_8 b : length b = 8%nat -> length (Base32Hex.EncodeToString b) = 13%nat.
Proof. intros H. by rewrite Base32HexFacts.b32_encode_length, H. Qed.

Lemma labels_fields c :
  let fields := [Base32Hex.EncodeToString (MsgID c);
      Base32Hex.EncodeToString (BigEndian.PutUint16 (ChunkIdx c));
      Base32Hex.EncodeToString (BigEndian.PutUint16 (TotalChunks c));
      Base32Hex.EncodeToString (BigEndian.PutUint16 (Checksum c))] ++ EncodePayload (Payload c) in
  chunk_wf c -> take_recipient (body_labels c) = Ok (RecipientHash c, fields).
Proof.
  intros fields Hwf. assert (body_labels c = (if (0 <? len (RecipientHash c))
    then [Base32Hex.EncodeToString (RecipientHash c)] else []) ++ fields) as ->.
  { apply (app_inj_tail _ _ [] []). rewrite <- EncodeToLabels_body. unfold EncodeToLabels, fields.
    by rewrite <- !app_assoc. }
  destruct (wf_hash c Hwf) as [Hh|Hh].
  - destruct (RecipientHash c) as [|x h]; [|done]. change (0 <? len []) with false. cbn [app].
    unfold take_recipient, fields, len. cbn [app]. by rewrite (enc_length_8 _ (wf_id c Hwf)).
  - unfold len. rewrite Hh. change (0 <? Z.of_nat 32) with true. cbn [app].
    unfold take_recipient, len. rewrite (enc_length_32 _ Hh). change (Z.of_nat 52 =? 52) with true.
    cbn iota. by rewrite decode_field_encode.
Qed.

Lemma decode_encode_chunk c zone :
  chunk_wf c -> DecodeChunkFromLabels (EncodeToLabels c zone) zone = Ok c.
Proof.
  intros Hwf. unfold DecodeChunkFromLabels. rewrite EncodeToLabels_body.
  pose proof (body_labels_length c) as Hlen.
  unfold len. rewrite length_app. simpl length.
  destruct (Z.of_nat (length (body_labels c) + 1) <? 2) eqn:H1; [apply Z.ltb_lt in H1; lia|].
  rewrite last_snoc, bool_decide_eq_true_2 by done. cbn [negb].
  rewrite Nat.add_sub, take_app_length.
  destruct (Z.of_nat (length (body_labels c)) <? 4) eqn:H2; [apply Z.ltb_lt in H2; lia|].
  rewrite labels_fields by done. cbn [mbind result_bind app].
  rewrite !decode_field_encode by (apply Hwf || apply BigEndianFacts.length_put).
  cbn [mbind result_bind]. rewrite payload_roundtrip. simpl.
  rewrite !BigEndianFacts.get_PutUint16, !u16_small by apply Hwf. by destruct c.
Qed.

Lemma take_recipient_wf body h fields :
  take_recipient body = Ok (h, fields) -> length h = 0%nat \/ length h = 32%nat.
Proof.
  unfold take_recipient. destruct body as [|l0 rest]; [intros [= <- <-]; by left|].
  destruct (len l0 =? 52); [|intros [= <- <-]; by left].
  intros (b & Hb & [= <- <-])%bind_Ok. apply decode_field_Ok in Hb as [_ Hb]. by right.
Qed.

(** Whatever labels arrive, a chunk that is accepted has the Go types' widths. *)
Lemma decode_chunk_wf labels zone c : DecodeChunkFromLabels labels zone = Ok c -> chunk_wf c.
Proof.
  unfold DecodeChunkFromLabels. intros H.
  destruct (len labels <? 2); [done|]. destruct (negb _); [done|].
  destruct (len (take (length labels - 1) labels) <? 4); [done|].
  apply bind_Ok in H as ([h fields] & Hh & H). apply take_recipient_wf in Hh.
  destruct fields as [|l1 [|l2 [|l3 [|l4 pl]]]]; try done.
  repeat (apply bind_Ok in H as (? & ?Hf & H)). ok_inv.
  repeat match goal with Hf : decode_field _ _ _ = Ok _ |- _ => apply decode_field_Ok in Hf as [_ Hf] end.
  split; simpl; [done|..|done]; unfold is_u16.
  all: match goal with |- context [BigEndian.get ?b] =>
         pose proof (BigEndianFacts.get_range b); unfold len in *;
         replace (length b) with 2%nat in * by congruence; simpl in *; lia end.
Qed.

End Labels.

(** ** Label sizes *)
Section LabelSizes.

(** Octets of a name on the wire: each label with its length octet, and the
    root.  The dots inside the zone stand for its own length octets. *)
Definition wire_length (labels : list bytes) : nat :=
  (sum_list_with (fun l => length l + 1) labels + 1)%nat.

Definition label_ok (l : bytes) : Prop :=
  (0 < length l <= 63)%nat /\ Forall (fun ch => ch ∈ Base32Hex.alphabet) l.

Lemma sum_groups fuel n (l : bytes) : (length l <= fuel)%nat -> (0 < n)%nat ->
  sum_list_with (fun g => length g + 1)%nat (groups fuel n l) =
  (length l + (length l + n - 1) / n)%nat.
Proof.
  intros Hf Hn. rewrite <- (groups_count fuel n l Hf Hn).
  rewrite <- (groups_concat fuel n l Hf Hn) at 2.
  induction (groups fuel n l) as [|g gs IH]; [done|]. simpl. rewrite length_app, IH. lia.
Qed.

Lemma EncodePayload_labels p : Forall label_ok (EncodePayload p).
Proof.
  apply Forall_forall. intros g Hg. unfold EncodePayload in Hg. split.
  - pose proof (groups_length (length (Base32Hex.EncodeToString p)) 63 (Base32Hex.EncodeToString p) ltac:(lia)) as H.
    rewrite Forall_forall in H. destruct (H g Hg) as [Hne Hle]. destruct g; simpl in *; [done|lia].
  - apply Forall_forall. intros x Hx. pose proof (groups_elements _ _ _ _ _ Hg Hx) as Hin.
    pose proof (Base32HexFacts.b32_encode_alphabet p) as H. rewrite Forall_forall in H. by apply H.
Qed.

Lemma enc_label_ok b : (0 < length b <= 39)%nat -> label_ok (Base32Hex.EncodeToString b).
Proof.
  intros H. split; [|apply Base32HexFacts.b32_encode_alphabet]. rewrite Base32HexFacts.b32_encode_length. split.
  - apply Nat.div_str_pos. lia.
  - apply Nat.lt_succ_r, Nat.Div0.div_lt_upper_bound. lia.
Qed.

Lemma body_labels_eq c : body_labels c =
  (if (0 <? len (RecipientHash c)) then [Base32Hex.EncodeToString (RecipientHash c)] else [])
  ++ [Base32Hex.EncodeToString (MsgID c);
      Base32Hex.EncodeToString (BigEndian.PutUint16 (ChunkIdx c));
      Base32Hex.EncodeToString (BigEndian.PutUint16 (TotalChunks c));
      Base32Hex.EncodeToString (BigEndian.PutUint16 (Checksum c))]
  ++ EncodePayload (Payload c).
Proof.
  apply (app_inj_tail _ _ [] []). rewrite <- EncodeToLabels_body. unfold EncodeToLabels.
  by rewrite <- !app_assoc.
Qed.

Lemma body_labels_ok c : chunk_wf c -> Forall label_ok (body_labels c).
Proof.
  intros Hwf. rewrite body_labels_eq.
  assert (forall z, length (BigEndian.PutUint16 z) = 2%nat) as H2 by (intros; apply BigEndianFacts.length_put).
  apply Forall_app. split; [|apply Forall_app; split; [|apply EncodePayload_labels]].
  - unfold len. destruct (wf_hash c Hwf) as [-> | Hh]; [constructor|].
    rewrite Hh. simpl. constructor; [apply enc_label_ok; lia|constructor].
  - repeat (apply Forall_cons_2; [apply enc_label_ok; rewrite ?H2, ?(wf_id c Hwf); lia|]).
    apply Forall_nil_2.
Qed.

End LabelSizes.

(** ** Properties *)

(** C8: a non-empty message that needs at most 65535 chunks is recovered
    byte for byte by [ReassembleMessage], in whatever order its chunks
    arrive. *)
Theorem reassemble_chunks msgID pt m pk chunks :
  pt <> [] -> Z.of_nat (chunk_total pt (effective_size m)) < 65536 ->
  chunks ≡ₚ ChunkMessage msgID pt m pk -> ReassembleMessage chunks = Ok pt.
Proof. intros Hne Ht Hp. eapply reassemble_complete, ChunkMessage_reassembles; done. Qed.

Lemma reassemble_chunks_witness :
  ReassembleMessage (rev (ChunkMessage $"01234567" $"hello dns relay" 4 $"peer")) = Ok $"hello dns relay".
Proof.
  apply (reassemble_chunks $"01234567" $"hello dns relay" 4 $"peer").
  - discriminate.
  - vm_compute. reflexivity.
  - symmetry. apply Permutation_rev.
Defined.

(** C14: [ReassembleMessage] succeeds on exactly the lists that are a
    rearrangement of chunks numbered 0, 1, ... up to the count the first one
    announces, each with the checksum of its payload, and it returns their
    payloads in order of index. *)
Theorem reassemble_iff chunks data :
  Forall (fun c => 0 <= ChunkIdx c) chunks ->
  ReassembleMessage chunks = Ok data <-> reassembles_to chunks data.
Proof. intros H. split; [by apply reassemble_sound|apply reassemble_complete]. Qed.

Lemma reassemble_iff_witness :
  exists chunks, reassembles_to chunks $"abcdef" /\ (2 < length chunks)%nat.
Proof.
  exists (rev (ChunkMessage $"01234567" $"abcdef" 2 [])). split; [|vm_compute; lia].
  apply (reassemble_iff (rev (ChunkMessage $"01234567" $"abcdef" 2 []))).
  - vm_compute. repeat constructor; discriminate.
  - vm_compute. reflexivity.
Defined.

(** C36: a payload with one byte changed is never reassembled: whatever the
    other chunks are, [ReassembleMessage] returns an error. *)
Theorem reassemble_detects_byte l1 l2 c p b b' s data :
  sum_ok c -> Payload c = p ++ b :: s -> b <> b' ->
  Forall (fun c => 0 <= ChunkIdx c) (l1 ++ c :: l2) ->
  ReassembleMessage
    (l1 ++ mkChunk (MsgID c) (ChunkIdx c) (TotalChunks c) (Checksum c) (p ++ b' :: s) (RecipientHash c)
        :: l2) <> Ok data.
Proof.
  intros Hs Hp Hb Hpos H. apply reassemble_sound in H.
  - destruct H as (c0 & ordered & _ & _ & Hperm & _ & Hsum & _).
    rewrite <- Hperm, Forall_app in Hsum. destruct Hsum as [_ Hsum]. inversion Hsum as [|? ? Hc _]; subst.
    unfold sum_ok in Hs, Hc. simpl in Hc. rewrite Hs, Hp in Hc. by apply crc16_app_inj in Hc.
  - apply Forall_app in Hpos as [H1 H2]. apply Forall_app. split; [done|].
    inversion H2; subst. by constructor.
Qed.

Lemma reassemble_detects_byte_witness :
  ReassembleMessage
    (mkChunk $"01234567" 0 1 (crc16 $"cat") $"cut" [] :: []) <> Ok $"cut".
Proof.
  apply (reassemble_detects_byte [] [] (NewChunk $"01234567" 0 1 $"cat") $"c" (Ascii.ascii_of_nat 97) (Ascii.ascii_of_nat 117) $"t" $"cut").
  - reflexivity.
  - reflexivity.
  - discriminate.
  - repeat constructor; discriminate.
Defined.

(** C15: the label format is a faithful wire format: parsing the labels of a
    chunk gives the chunk back, with or without the recipient hash. *)
Theorem labels_roundtrip c zone :
  chunk_wf c -> DecodeChunkFromLabels (EncodeToLabels c zone) zone = Ok c.
Proof. apply decode_encode_chunk. Qed.

Lemma labels_roundtrip_witness :
  let c := set_recipient (Sha256.Sum256 $"key") (NewChunk $"01234567" 3 9 $"payload bytes") in
  chunk_wf c /\ DecodeChunkFromLabels (EncodeToLabels c $"msg.local-domain") $"msg.local-domain" = Ok c.
Proof.
  intros c. assert (chunk_wf c) as H.
  { split; simpl; [reflexivity|unfold is_u16; lia|unfold is_u16; lia|apply crc16_u16|].
    exact (or_intror (Sha256.Sum256_length $"key")). }
  split; [exact H|]. exact (labels_roundtrip c $"msg.local-domain" H).
Defined.

(** The octets of a chunk's name on the wire. *)
Lemma EncodeToLabels_wire c zone :
  chunk_wf c ->
  let e := ((8 * length (Payload c) + 4) / 5)%nat in
  wire_length (EncodeToLabels c zone) =
    ((if decide (RecipientHash c = []) then 0 else 53) + 31 + e + (e + 62) / 63 + length zone)%nat.
Proof.
  intros Hwf e. unfold wire_length.
  rewrite EncodeToLabels_body, body_labels_eq, !sum_list_with_app. unfold EncodePayload.
  rewrite sum_groups by lia. cbn [sum_list_with].
  rewrite !Base32HexFacts.b32_encode_length, (wf_id c Hwf). unfold BigEndian.PutUint16.
  rewrite !BigEndianFacts.length_put. fold e.
  replace (e + 63 - 1)%nat with (e + 62)%nat by lia.
  change ((8 * 8 + 4) / 5)%nat with 13%nat. change ((8 * 2 + 4) / 5)%nat with 4%nat.
  destruct (wf_hash c Hwf) as [Hh|Hh].
  - apply length_zero_iff_nil in Hh. rewrite Hh. simpl. lia.
  - rewrite decide_False by (intros Hn; rewrite Hn in Hh; done). unfold len. rewrite Hh. simpl.
    rewrite Base32HexFacts.b32_encode_length, Hh. change ((8 * 32 + 4) / 5)%nat with 52%nat. lia.
Qed.

(** Every label of a chunk but the zone is a legal DNS label (1 to 63
    octets of the base32hex alphabet), and the octets the name takes on the
    wire are given exactly by the sizes of the payload and the zone. *)
Theorem labels_wire_length c zone :
  chunk_wf c ->
  Forall label_ok (body_labels c) /\
  let e := ((8 * length (Payload c) + 4) / 5)%nat in
  wire_length (EncodeToLabels c zone) =
    ((if decide (RecipientHash c = []) then 0 else 53) + 31 + e + (e + 62) / 63 + length zone)%nat.
Proof. intros Hwf. split; [by apply body_labels_ok|by apply EncodeToLabels_wire]. Qed.

Lemma labels_wire_length_witness :
  wire_length (EncodeToLabels (set_recipient (Sha256.Sum256 $"key")
     (NewChunk $"01234567" 0 1 (repeat zero_byte 75))) $"msg.local-domain") = 222%nat.
Proof.
  assert (chunk_wf (set_recipient (Sha256.Sum256 $"key")
     (NewChunk $"01234567" 0 1 (repeat zero_byte 75)))) as H.
  { split; simpl; [reflexivity|unfold is_u16; lia|unfold is_u16; lia|apply crc16_u16|].
    exact (or_intror (Sha256.Sum256_length $"key")). }
  rewrite (proj2 (labels_wire_length _ $"msg.local-domain" H)). vm_compute. reflexivity.
Defined.
