(* ===== verification/Checksum.v ===== *)
(** * The checksum as a polynomial remainder (crc16 of encoding.go)

    The code runs a 16-bit register over the bytes.  The reference is the
    textbook definition: read the message as a polynomial over the field of
    two elements, followed by sixteen zero coefficients and with its first
    sixteen complemented, and take the remainder by the generator
    x^16 + x^12 + x^5 + 1, one coefficient at a time. *)

From S2P Require Import Prelude GoStrings Codec Sha256 Encoding.

(** ** The reference *)

Definition generator : Z := 0x11021.

(** One step of long division: multiply the remainder by x, add the next
    coefficient, and subtract the generator if the degree has reached 16. *)
Definition divide_step (r : Z) (b : bool) : Z :=
  let v := Z.lxor (Z.shiftl r 1) (Z.b2z b) in
  if Z.testbit v 16 then Z.lxor v generator else v.

Definition run (r : Z) (bits : list bool) : Z := fold_left divide_step bits r.
Definition remainder (bits : list bool) : Z := run 0 bits.

(** The bits of a byte, the most significant first. *)
Definition bits_of (b : byte) : list bool := map (fun i => Z.testbit (byte_val b) (Z.of_nat i)) (rev (seq 0 8)).
Definition message_bits (data : bytes) : list bool := concat (map bits_of data).

Definition zeros (n : nat) : list bool := replicate n false.
Definition ones (n : nat) : list bool := replicate n true.

Definition crc_reference (data : bytes) : Z :=
  let message := zip_with xorb (ones 16 ++ zeros (8 * length data)) (message_bits data ++ zeros 16) in
  Z.lxor (remainder message) 0xFFFF.

(** ** The register is linear *)

Lemma divide_step_xor r s a b :
  divide_step (Z.lxor r s) (xorb a b) = Z.lxor (divide_step r a) (divide_step s b).
Proof.
  unfold divide_step. set (v := Z.lxor (Z.shiftl r 1) (Z.b2z a)). set (u := Z.lxor (Z.shiftl s 1) (Z.b2z b)).
  assert (Z.lxor (Z.shiftl (Z.lxor r s) 1) (Z.b2z (xorb a b)) = Z.lxor v u) as ->.
  { unfold v, u. rewrite Z.shiftl_lxor. apply Z.bits_inj'. intros n Hn. rewrite !Z.lxor_spec.
    assert (Z.testbit (Z.b2z (xorb a b)) n = xorb (Z.testbit (Z.b2z a) n) (Z.testbit (Z.b2z b) n)) as ->
      by (destruct a, b; simpl; rewrite ?Z.testbit_0_l; by destruct (Z.testbit 1 n)).
    by destruct (Z.testbit (Z.shiftl r 1) n), (Z.testbit (Z.shiftl s 1) n), (Z.testbit (Z.b2z a) n), (Z.testbit (Z.b2z b) n). }
  rewrite Z.lxor_spec. apply Z.bits_inj'. intros n Hn.
  destruct (Z.testbit v 16), (Z.testbit u 16); cbn [xorb]; rewrite !Z.lxor_spec;
    by destruct (Z.testbit v n), (Z.testbit u n), (Z.testbit generator n).
Qed.

Lemma run_xor l : forall k r s, length l = length k ->
  run (Z.lxor r s) (zip_with xorb l k) = Z.lxor (run r l) (run s k).
Proof.
  induction l as [|a l IH]; intros [|b k] r s Hlen; try done. unfold run in *. cbn [zip_with fold_left].
  rewrite divide_step_xor. apply IH. by injection Hlen.
Qed.

Lemma run_app r l k : run r (l ++ k) = run (run r l) k.
Proof. apply fold_left_app. Qed.

Lemma run_zeros_split n m r : run r (zeros (n + m)) = run (run r (zeros n)) (zeros m).
Proof. unfold zeros. by rewrite replicate_add, run_app. Qed.

(** Starting with a register is adding its effect. *)
Lemma run_split r l : run r l = Z.lxor (run r (zeros (length l))) (run 0 l).
Proof.
  rewrite <- run_xor by (unfold zeros; by rewrite length_replicate). rewrite Z.lxor_0_r. f_equal.
  unfold zeros. clear. induction l as [|a l IH]; [done|]. cbn [length replicate zip_with]. by rewrite <- IH; destruct a.
Qed.

(** ** The code's steps are division steps *)

Lemma crc_step_divide c : is_u16 c -> crc_step c = divide_step c false.
Proof.
  intros Hc. assert ((all_below 65536 (fun c => crc_step c =? divide_step c false)).2 = true) as H by (vm_compute; reflexivity).
  apply Z.eqb_eq. exact (proj2 (all_below_spec _ _) H c Hc).
Qed.

Lemma crc_iter_run n c : is_u16 c -> Nat.iter n crc_step c = run c (zeros n).
Proof.
  revert c. induction n as [|n IH]; intros c Hc; [done|]. rewrite Nat.iter_succ_r. rewrite IH by (by apply crc_step_spec).
  by rewrite crc_step_divide.
Qed.

(** Reading a byte costs no reduction, and neither does shifting it up. *)
Lemma run_byte b : run 0 (bits_of b) = byte_val b /\ run (byte_val b) (zeros 8) = u16 (Z.shiftl (byte_val b) 8).
Proof. destruct b as [[] [] [] [] [] [] [] []]; vm_compute; done. Qed.

Lemma crc_byte_run c b : is_u16 c ->
  crc_byte c b = Z.lxor (run c (zeros 8)) (run (byte_val b) (zeros 16)).
Proof.
  intros Hc. unfold crc_byte. rewrite crc_iter_run by (apply lxor_u16; [done|apply byte_high_u16]).
  change 16%nat with (8 + 8)%nat. rewrite run_zeros_split, (proj2 (run_byte b)).
  rewrite <- (run_xor (zeros 8) (zeros 8)) by done. done.
Qed.

Lemma length_message_bits data : length (message_bits data) = (8 * length data)%nat.
Proof.
  induction data as [|b data IH]; [done|]. unfold message_bits in *. cbn [map concat]. rewrite length_app, IH.
  change (length (bits_of b)) with 8%nat. cbn [length]. lia.
Qed.

(** The register after some bytes: what it started with, shifted, plus the
    remainder of the bytes. *)
Lemma crc_fold_run data : forall c, is_u16 c ->
  fold_left crc_byte data c = Z.lxor (run c (zeros (8 * length data))) (run 0 (message_bits data ++ zeros 16)).
Proof.
  induction data as [|b data IH]; intros c Hc.
  - cbn [fold_left length message_bits map concat app]. change (run 0 (zeros 16)) with 0. by rewrite Z.lxor_0_r.
  - cbn [fold_left]. rewrite IH by (by apply crc_byte_u16). set (n := (8 * length data)%nat).
    replace (8 * length (b :: data))%nat with (8 + n)%nat by (cbn [length]; lia).
    assert (run 0 (message_bits (b :: data) ++ zeros 16) =
            Z.lxor (run (byte_val b) (zeros (16 + n))) (run 0 (message_bits data ++ zeros 16))) as ->.
    { change (message_bits (b :: data)) with (bits_of b ++ message_bits data).
      rewrite <- app_assoc, run_app, (proj1 (run_byte b)), run_split. f_equal. f_equal. f_equal.
      rewrite length_app, length_message_bits. unfold zeros. rewrite length_replicate. lia. }
    rewrite !run_zeros_split, crc_byte_run by done. rewrite <- Z.lxor_assoc. f_equal.
    rewrite <- (run_xor (zeros n) (zeros n)) by done. f_equal.
    unfold zeros. clear. induction n as [|n IHn]; [done|]. cbn [replicate zip_with]. by rewrite <- IHn.
Qed.

(** C9: the checksum is the remainder it should be: on every byte string,
    the code's [crc16] equals the complemented remainder, by the generator
    x^16 + x^12 + x^5 + 1, of the message with its first sixteen coefficients
    complemented and sixteen zeros after it. *)
Theorem crc16_is_remainder data : crc16 data = crc_reference data.
Proof.
  unfold crc16, crc_reference, remainder. f_equal. rewrite crc_fold_run by (unfold is_u16; lia).
  pose proof (run_xor (ones 16 ++ zeros (8 * length data)) (message_bits data ++ zeros 16) 0 0) as E.
  change (Z.lxor 0 0) with 0 in E. rewrite E; [by rewrite run_app|].
  rewrite !length_app, length_message_bits. unfold ones, zeros. rewrite !length_replicate. lia.
Qed.

(** ** Two neighbouring bytes *)

(** Two bytes read as one number. *)
Lemma run_two a b : run 0 (bits_of a ++ bits_of b) = byte_val a * 256 + byte_val b.
Proof.
  rewrite run_app, (proj1 (run_byte a)), run_split. change (length (bits_of b)) with 8%nat.
  rewrite (proj2 (run_byte a)), (proj1 (run_byte b)). pose proof (byte_val_range a). pose proof (byte_val_range b).
  rewrite Z.shiftl_mul_pow2, u16_small by lia. symmetry. apply Z.add_nocarry_lxor. apply Z.bits_inj'. intros n Hn.
  rewrite Z.land_spec, Z.testbit_0_l. destruct (Z.ltb_spec n 8).
  - by rewrite Z.mul_pow2_bits_low.
  - rewrite (Z.bits_above_log2 (byte_val b)), Bool.andb_false_r; [done|lia|].
    destruct (decide (byte_val b = 0)) as [->|]; [simpl; lia|]. apply Z.log2_lt_pow2; [lia|]. change (2 ^ 8) with 256 in *.
    assert (2 ^ 8 <= 2 ^ n) by (apply Z.pow_le_mono_r; lia). lia.
Qed.

Lemma message_bits_two a b : message_bits [a; b] = bits_of a ++ bits_of b.
Proof. unfold message_bits. cbn [map concat]. by rewrite app_nil_r. Qed.

(** Damage to two neighbouring bytes is always noticed. *)
Theorem crc16_detects_two_bytes p a b a' b' s :
  crc16 (p ++ a :: b :: s) = crc16 (p ++ a' :: b' :: s) -> a = a' /\ b = b'.
Proof.
  change (a :: b :: s) with ([a; b] ++ s). change (a' :: b' :: s) with ([a'; b'] ++ s).
  unfold crc16. rewrite !(Z.lxor_comm _ 0xFFFF). intros H%lxor_cancel. rewrite !fold_left_app in H.
  assert (is_u16 (fold_left crc_byte p 0xFFFF)) as Hc by (apply crc_fold_u16; unfold is_u16; lia).
  set (c := fold_left crc_byte p 0xFFFF) in *. clearbody c. apply crc_fold_inj in H; [|by apply crc_fold_u16..].
  rewrite !crc_fold_run in H by done. apply lxor_cancel in H.
  rewrite !message_bits_two, (run_app 0 (bits_of a ++ _)), (run_app 0 (bits_of a' ++ _)), !run_two in H.
  pose proof (byte_val_range a). pose proof (byte_val_range b). pose proof (byte_val_range a'). pose proof (byte_val_range b').
  rewrite <- !crc_iter_run in H by (unfold is_u16; lia). apply crc_iter_inj in H; [|unfold is_u16; lia..].
  split; apply byte_val_inj; lia.
Qed.
