(* ===== verification/Sequence.v ===== *)
(** * Per-recipient sequence numbers (src/go/internal/store/sequence.go)

    The counter lives in one bucket of a bbolt file.  bbolt is not part of the
    repository, so the bucket is an interface: reading a key, and writing one
    inside a transaction that commits or fails and then changes nothing.  The
    counter's contract is the class [SequenceSource] that the chunk store is
    verified against. *)

From S2P Require Import Prelude Codec.

(** ** The bucket *)

(** [b.Get] and [db.Update(... b.Put ...)]; [None] is a failed transaction,
    which is rolled back. *)
Class KVBucket (DB : Type) := {
  kv_get : bytes -> DB -> option bytes;
  kv_put : bytes -> bytes -> DB -> option DB
}.

Class KVBucketLaws (DB : Type) `{KVBucket DB} := {
  kv_get_put k v db db' : kv_put k v db = Some db' ->
    forall k', kv_get k' db' = if decide (k' = k) then Some v else kv_get k' db
}.

(** ** Operations *)

Section Sequence.
Context {DB : Type} `{KVBucket DB}.

(** [NewSequenceCounter]: the bucket of the database file, or [fresh] when
    there was none; [None] when the file or the bucket cannot be made. *)
Definition NewSequenceCounter (open_ok bucket_ok : bool) (file : option DB) (fresh : DB) : option DB :=
  if open_ok && bucket_ok then Some (default fresh file) else None.

(** [binary.BigEndian.Uint64] panics on fewer than eight bytes.  The counter
    is the only one to write its bucket, and never writes such a value
    ([Next_safe]), so the operations below are those of a call that does not
    panic. *)
Definition Next_panics (peerID : bytes) (db : DB) : bool :=
  match kv_get peerID db with Some current => len current <? 8 | None => false end.
Definition bucket_ok (db : DB) : Prop := forall k v, kv_get k db = Some v -> length v = 8%nat.

(** [if current != nil { seq = binary.BigEndian.Uint64(current) }] *)
Definition stored_seq (peerID : bytes) (db : DB) : Z :=
  match kv_get peerID db with
  | Some current => BigEndian.get (take 8 current)
  | None => 0
  end.

(** [Next]: the database after it, the number, and whether it was committed. *)
Definition Next (peerID : bytes) (db : DB) : DB * Z * bool :=
  let seq := u64 (stored_seq peerID db + 1) in
  match kv_put peerID (BigEndian.PutUint64 seq) db with
  | Some db' => (db', seq, true)
  | None => (db, seq, false)
  end.

Definition GetLast (peerID : bytes) (db : DB) : Z := stored_seq peerID db.

End Sequence.

(** [PeerIDFromPubkey]: at most the first eight bytes. *)
Definition PeerIDFromPubkey (pubkey : bytes) : bytes :=
  if 8 <? len pubkey then take 8 pubkey else pubkey.

(** ** What the counter promises to its client *)

Class SequenceSource (DB : Type) := {
  seq_last : bytes -> DB -> Z;
  seq_next : bytes -> DB -> DB * Z * bool;
  seq_next_ok k db db' n : seq_next k db = (db', n, true) ->
    n = u64 (seq_last k db + 1) /\
    forall k', seq_last k' db' = if decide (k' = k) then n else seq_last k' db;
  seq_next_fail k db db' n : seq_next k db = (db', n, false) -> db' = db
}.

Section Implementation.
Context {DB : Type} `{KVBucketLaws DB}.

Lemma Next_spec k db db' n : Next k db = (db', n, true) ->
  n = u64 (GetLast k db + 1) /\
  forall k', GetLast k' db' = if decide (k' = k) then n else GetLast k' db.
Proof.
  unfold Next, GetLast. destruct (kv_put _ _ db) as [db0|] eqn:Hp; intros [= -> <-].
  split; [done|]. intros k'. unfold stored_seq at 1. rewrite (kv_get_put _ _ _ _ Hp k').
  case_decide; [|done]. rewrite take_ge by (unfold BigEndian.PutUint64; rewrite BigEndianFacts.length_put; lia).
  rewrite BigEndianFacts.get_PutUint64. unfold u64. by rewrite Z.mod_mod.
Qed.

Lemma Next_fail k db db' n : Next k db = (db', n, false) -> db' = db.
Proof. unfold Next. destruct (kv_put _ _ db); by intros [= -> <-]. Qed.

(** The values of the bucket keep their eight bytes, so no call panics. *)
Lemma Next_safe k db : bucket_ok db -> Next_panics k db = false /\ bucket_ok (Next k db).1.1.
Proof.
  intros Hok. split.
  - unfold Next_panics. destruct (kv_get k db) as [v|] eqn:Hv; [|done]. unfold len. by rewrite (Hok _ _ Hv).
  - unfold Next. destruct (kv_put _ _ db) as [db'|] eqn:Hp; [|exact Hok]. cbn [fst]. intros k' v.
    rewrite (kv_get_put _ _ _ _ Hp k'). case_decide; [|apply Hok]. intros [= <-]. apply BigEndianFacts.length_put.
Qed.

(** The bbolt-backed counter implements the interface. *)
#[export] Instance bolt_sequence : SequenceSource DB := {|
  seq_last := GetLast;
  seq_next := Next;
  seq_next_ok := Next_spec;
  seq_next_fail := Next_fail
|}.

End Implementation.

(** A bucket in memory, for closed examples: no transaction fails. *)
#[export] Instance mem_bucket : KVBucket (gmap bytes bytes) := {|
  kv_get k db := db !! k;
  kv_put k v db := Some (<[k := v]> db)
|}.

#[export] Instance mem_bucket_laws : KVBucketLaws (gmap bytes bytes).
Proof.
  constructor. intros k v db db' [= <-] k'. simpl. rewrite lookup_insert.
  repeat case_decide; congruence.
Qed.

(** ** Runs of the counter *)
Section Runs.
Context {DB : Type} `{SequenceSource DB}.

(** [Next] called for each peer of a list, all transactions committed: the
    numbers handed out, with their peer. *)
Fixpoint run_next (ps : list bytes) (db : DB) : option (DB * list (bytes * Z)) :=
  match ps with
  | [] => Some (db, [])
  | p :: rest =>
      match seq_next p db with
      | (db', n, true) =>
          match run_next rest db' with
          | Some (db'', out) => Some (db'', (p, n) :: out)
          | None => None
          end
      | (_, _, false) => None
      end
  end.

Definition numbers_of (p : bytes) (out : list (bytes * Z)) : list Z :=
  map snd (filter (fun x => x.1 = p) out).

Lemma run_next_numbers ps db db' out p :
  run_next ps db = Some (db', out) ->
  0 <= seq_last p db -> seq_last p db + len (filter (fun q => q = p) ps) < 2 ^ 64 ->
  numbers_of p out = seqZ (seq_last p db + 1) (len (filter (fun q => q = p) ps)) /\
  seq_last p db' = seq_last p db + len (filter (fun q => q = p) ps).
Proof.
  revert db out. induction ps as [|q ps IH]; intros db out Hrun Hpos Hlt; simpl in Hrun.
  - ok_inv. simplify_eq. unfold len. simpl. split; [done|lia].
  - destruct (seq_next q db) as [[db1 n] []] eqn:Hn; [|done].
    destruct (run_next ps db1) as [[db2 out']|] eqn:Hr; [|done]. simplify_eq.
    destruct (seq_next_ok _ _ _ _ Hn) as [-> Hlast]. specialize (Hlast p).
    unfold numbers_of in *. rewrite !filter_cons in *. simpl.
    destruct (decide (q = p)) as [->|Hqp].
    + rewrite decide_True in Hlast by done. unfold len in *. cbn [length] in *.
      rewrite Nat2Z.inj_succ in *.
      rewrite u64_small in Hlast by lia.
      destruct (IH _ _ Hr) as [IH1 IH2]; [lia|lia|].
      cbn [map snd]. rewrite IH1, IH2, Hlast, u64_small by lia.
      split; [|lia]. rewrite (seqZ_cons (seq_last p db + 1)) by lia. f_equal; f_equal; lia.
    + rewrite decide_False in Hlast by congruence.
      rewrite <- Hlast in *. by apply IH.
Qed.

End Runs.

(** C34: however the calls of [Next] for different recipients interleave, the
    numbers a recipient is given are consecutive and increasing, starting
    after the last one stored, for as long as 64 bits allow. *)
Theorem sequence_monotonic {DB} `{KVBucketLaws DB} ps (db db' : DB) out p :
  run_next ps db = Some (db', out) ->
  0 <= GetLast p db -> GetLast p db + len (filter (fun q => q = p) ps) < 2 ^ 64 ->
  numbers_of p out = seqZ (GetLast p db + 1) (len (filter (fun q => q = p) ps)) /\
  GetLast p db' = GetLast p db + len (filter (fun q => q = p) ps).
Proof. exact (run_next_numbers ps db db' out p). Qed.

Lemma sequence_monotonic_witness :
  exists (db : gmap bytes bytes) out,
    run_next [$"alice"; $"bob"; $"alice"; $"alice"; $"bob"] ∅ = Some (db, out) /\
    numbers_of $"alice" out = [1; 2; 3].
Proof.
  assert (snd <$> run_next [$"alice"; $"bob"; $"alice"; $"alice"; $"bob"] (∅ : gmap bytes bytes)
    = Some [($"alice", 1); ($"bob", 1); ($"alice", 2); ($"alice", 3); ($"bob", 2)]) as Hr
    by (vm_compute; reflexivity).
  apply fmap_Some in Hr as ([db out] & Hrun & _).
  exists db, out. split; [exact Hrun|].
  destruct (sequence_monotonic _ (∅ : gmap bytes bytes) db out $"alice" Hrun) as [H _].
  - vm_compute. discriminate.
  - vm_compute. reflexivity.
  - rewrite H. vm_compute. reflexivity.
Defined.
