(* ===== verification/Store.v ===== *)
(** * The relay's chunk store (src/go/internal/store/store.go)

    Message buffers by id, the owner of every message and the number of
    messages per owner, with garbage collection of expired buffers.  Every
    exported method that changes the store holds a mutex for its whole body,
    so it is one atomic transition; the DNS handler calls [Store] and
    [SetMessageOwner] separately, and the collector may run in between.
    [GetCompleteMessage] lets go of the lock before it reads the chunks of the
    buffer it found: the model is that of a call during which no other call
    stores a chunk of the same message.
    Times are nanoseconds since the Unix epoch. *)

From S2P Require Import Prelude Codec Encoding Sequence.

(** ** State *)

Record messageBuf := mkBuf {
  chunks : gmap Z Chunk;
  total : Z;
  createdAt : Z;
  serverTimestamp : Z;   (* UnixMilli *)
  sequenceNumber : Z
}.

Record ChunkStore (DB : Type) := mkStore {
  messages : gmap bytes messageBuf;
  gcInterval : Z;
  ttl : Z;
  peerMessages : gmap bytes Z;
  messageOwner : gmap bytes bytes;
  maxPerPeer : Z;
  sequenceCounter : option DB
}.
Arguments mkStore {DB} _ _ _ _ _ _ _.
Arguments messages {DB} _.
Arguments gcInterval {DB} _.
Arguments ttl {DB} _.
Arguments peerMessages {DB} _.
Arguments messageOwner {DB} _.
Arguments maxPerPeer {DB} _.
Arguments sequenceCounter {DB} _.

Definition second : Z := 1000000000.
Definition DefaultTTL : Z := 7 * 24 * 3600 * second.
Definition DefaultGCInterval : Z := 60 * second.

(** [time.Time.UnixMilli]. *)
Definition UnixMilli (now : Z) : Z := now / 1000000.

Section Operations.
Context {DB : Type} {SS : SequenceSource DB} {IO : IterOrder}.
Implicit Types (s : ChunkStore DB) (id p q msgID peerID : bytes).

Definition NewChunkStore (gcInterval ttl : Z) : ChunkStore DB :=
  mkStore ∅ gcInterval ttl ∅ ∅ 100 None.

Definition SetMaxPerPeer (limit : Z) s : ChunkStore DB :=
  mkStore (messages s) (gcInterval s) (ttl s) (peerMessages s) (messageOwner s) limit (sequenceCounter s).

Definition SetSequenceCounter (sc : DB) s : ChunkStore DB :=
  mkStore (messages s) (gcInterval s) (ttl s) (peerMessages s) (messageOwner s) (maxPerPeer s) (Some sc).

Definition set_messages (m : gmap bytes messageBuf) s : ChunkStore DB :=
  mkStore m (gcInterval s) (ttl s) (peerMessages s) (messageOwner s) (maxPerPeer s) (sequenceCounter s).

Definition set_owners (pm : gmap bytes Z) (mo : gmap bytes bytes) s : ChunkStore DB :=
  mkStore (messages s) (gcInterval s) (ttl s) pm mo (maxPerPeer s) (sequenceCounter s).

(** [s.peerMessages[peerID]], zero when absent. *)
Definition PeerMessageCount (peerID : bytes) s : Z := default 0 (peerMessages s !! peerID).

Definition SetMessageOwner (msgID peerID : bytes) s : ChunkStore DB :=
  match messageOwner s !! msgID with
  | Some _ => s
  | None => set_owners (<[peerID := PeerMessageCount peerID s + 1]> (peerMessages s))
                       (<[msgID := peerID]> (messageOwner s)) s
  end.

Definition TotalPeers s : Z := Z.of_nat (size (peerMessages s)).

Definition ListPeerMessages (peerID : bytes) s : list bytes :=
  map fst (filter (fun x => x.2 = peerID) (iter_order (map_to_list (messageOwner s)))).

(** The buffer [Store] creates for an unknown message, and the counter after
    it: a failed transaction leaves the number at zero. *)
Definition new_buffer (chunk : Chunk) (now : Z) s : messageBuf * option DB :=
  let buf seq := mkBuf ∅ (TotalChunks chunk) now (UnixMilli now) seq in
  match sequenceCounter s with
  | Some sc =>
      if 0 <? len (RecipientHash chunk) then
        match seq_next (PeerIDFromPubkey (RecipientHash chunk)) sc with
        | (sc', seq, true) => (buf seq, Some sc')
        | (sc', _, false) => (buf 0, Some sc')
        end
      else (buf 0, Some sc)
  | None => (buf 0, None)
  end.

Definition add_chunk (chunk : Chunk) (buf : messageBuf) : messageBuf :=
  mkBuf (<[ChunkIdx chunk := chunk]> (chunks buf)) (total buf) (createdAt buf)
        (serverTimestamp buf) (sequenceNumber buf).

(** [Store]: the new store and whether the message is complete; the error is
    always nil. *)
Definition Store (chunk : Chunk) (now : Z) s : ChunkStore DB * bool :=
  let '(buf, sc) :=
    match messages s !! MsgID chunk with
    | Some buf => (buf, sequenceCounter s)
    | None => new_buffer chunk now s
    end in
  let buf' := add_chunk chunk buf in
  (mkStore (<[MsgID chunk := buf']> (messages s)) (gcInterval s) (ttl s)
           (peerMessages s) (messageOwner s) (maxPerPeer s) sc,
   Z.of_nat (size (chunks buf')) =? total buf').

Definition GetMessageMeta (msgID : bytes) s : option (Z * Z) :=
  (fun buf => (serverTimestamp buf, sequenceNumber buf)) <$> messages s !! msgID.

(** [nil, nil] when the message or the chunk is unknown. *)
Definition GetChunk (msgID : bytes) (chunkIdx : Z) s : option Chunk :=
  buf ← messages s !! msgID; chunks buf !! chunkIdx.

Definition GetCompleteMessage (msgID : bytes) s : option (result EncError bytes) :=
  (fun buf => ReassembleMessage (map snd (iter_order (map_to_list (chunks buf))))) <$> messages s !! msgID.

Definition PendingCount s : Z := Z.of_nat (size (messages s)).

(** Removal of one expired message, with its owner's count. *)
Definition gc_one (id : bytes) s : ChunkStore DB :=
  let s := set_messages (delete id (messages s)) s in
  match messageOwner s !! id with
  | Some peerID =>
      let n := PeerMessageCount peerID s - 1 in
      set_owners (if n <=? 0 then delete peerID (peerMessages s) else <[peerID := n]> (peerMessages s))
                 (delete id (messageOwner s)) s
  | None => s
  end.

Definition expired (now ttl : Z) (buf : messageBuf) : bool := ttl <? now - createdAt buf.

Definition gc (now : Z) s : ChunkStore DB :=
  fold_left (fun st x => if expired now (ttl s) x.2 then gc_one x.1 st else st)
            (iter_order (map_to_list (messages s))) s.

(** [gcLoop] on the events its [select] receives. *)
Inductive gc_event := Tick (now : Z) | Done.

Fixpoint gcLoop (events : list gc_event) s : ChunkStore DB :=
  match events with
  | [] => s
  | Tick now :: rest => gcLoop rest (gc now s)
  | Done :: _ => s
  end.

(** ** Runs: any interleaving of the methods that change the store *)
Inductive store_op :=
| OpStore (chunk : Chunk) (now : Z)
| OpOwner (msgID peerID : bytes)
| OpGC (now : Z)
| OpMax (limit : Z)
| OpCounter (sc : DB).

Definition apply_op s (op : store_op) : ChunkStore DB :=
  match op with
  | OpStore c now => (Store c now s).1
  | OpOwner id p => SetMessageOwner id p s
  | OpGC now => gc now s
  | OpMax n => SetMaxPerPeer n s
  | OpCounter sc => SetSequenceCounter sc s
  end.

Definition run_ops (ops : list store_op) s : ChunkStore DB := fold_left apply_op ops s.

(** ** Invariants *)

(** The messages a peer owns. *)
Definition owned_in (peerID : bytes) (mo : gmap bytes bytes) : list bytes :=
  map fst (filter (fun x => x.2 = peerID) (map_to_list mo)).
Definition owned (peerID : bytes) s : list bytes := owned_in peerID (messageOwner s).

(** The per-peer counts are exactly the numbers of owned messages, and a peer
    with none has no entry. *)
Definition accounting s : Prop :=
  forall p, peerMessages s !! p = if decide (owned p s = []) then None else Some (len (owned p s)).

(** Buffers hold at least one chunk, under its own id and index. *)
Definition buffers_ok s : Prop :=
  forall id buf, messages s !! id = Some buf ->
    chunks buf <> ∅ /\
    forall i c, chunks buf !! i = Some c -> MsgID c = id /\ ChunkIdx c = i.

End Operations.
Arguments store_op DB : clear implicits.

(** ** Ownership accounting *)
Section Accounting.
Context {DB : Type} {SS : SequenceSource DB} {IO : IterOrder}.
Implicit Types (s : ChunkStore DB) (id p q msgID peerID : bytes).

Lemma owned_in_insert p id q (mo : gmap bytes bytes) : mo !! id = None ->
  length (owned_in p (<[id := q]> mo)) = (length (owned_in p mo) + if decide (q = p) then 1 else 0)%nat.
Proof.
  intros H. unfold owned_in. rewrite !length_map.
  rewrite (map_to_list_insert _ _ _ H), filter_cons. simpl. case_decide; simpl; lia.
Qed.

Lemma owned_in_delete p id q (mo : gmap bytes bytes) : mo !! id = Some q ->
  length (owned_in p mo) = (length (owned_in p (delete id mo)) + if decide (q = p) then 1 else 0)%nat.
Proof.
  intros H. rewrite <- (insert_delete_id mo id q H) at 1.
  apply owned_in_insert, lookup_delete_eq.
Qed.

Lemma owned_in_elem p id (mo : gmap bytes bytes) : id ∈ owned_in p mo <-> mo !! id = Some p.
Proof.
  unfold owned_in. rewrite list_elem_of_In, in_map_iff. split.
  - intros ([i q] & <- & Hin%list_elem_of_In). apply list_elem_of_filter in Hin as [Hq Hin]. simpl in *. subst.
    by apply elem_of_map_to_list.
  - intros H. exists (id, p). split; [done|]. apply list_elem_of_In, list_elem_of_filter.
    split; [done|]. by apply elem_of_map_to_list.
Qed.

(** The entry of a peer, as a count with zero meaning absent. *)
Definition entry (n : Z) : option Z := if 0 <? n then Some n else None.

Lemma accounting_entry s : accounting s <-> forall p, peerMessages s !! p = entry (len (owned p s)).
Proof.
  unfold accounting, entry, len. split; intros H p; rewrite H.
  - destruct (owned p s); [done|]. by rewrite decide_False.
  - destruct (owned p s); [done|]. by rewrite decide_False.
Qed.

Lemma accounting_count s p : accounting s -> PeerMessageCount p s = len (owned p s).
Proof.
  intros H. apply (accounting_entry s) with (p := p) in H. unfold PeerMessageCount. rewrite H.
  unfold entry. pose proof (len_nonneg (owned p s)). destruct (0 <? len (owned p s)) eqn:E; simpl; lia.
Qed.

Lemma SetMessageOwner_accounting id p s : accounting s -> accounting (SetMessageOwner id p s).
Proof.
  intros H. unfold SetMessageOwner. destruct (messageOwner s !! id) eqn:Ho; [done|].
  rewrite (accounting_count _ _ H). rewrite accounting_entry in *. intros q. simpl.
  unfold owned in *. simpl. unfold len in *. rewrite (owned_in_insert _ _ _ _ Ho).
  destruct (decide (p = q)) as [->|Hne].
  - rewrite lookup_insert_eq. unfold entry. destruct (0 <? _) eqn:E; [f_equal; lia|].
    apply Z.ltb_ge in E. lia.
  - by rewrite lookup_insert_ne, H, Nat.add_0_r.
Qed.

Lemma gc_one_accounting id s : accounting s -> accounting (gc_one id s).
Proof.
  intros H. unfold gc_one. simpl. destruct (messageOwner s !! id) as [p|] eqn:Ho; [|done].
  unfold PeerMessageCount. simpl. fold (PeerMessageCount p s). rewrite (accounting_count _ _ H).
  rewrite accounting_entry in *. intros q. simpl. specialize (H q). unfold owned, len in *. simpl.
  pose proof (owned_in_delete q _ _ _ Ho) as Hq. pose proof (owned_in_delete p _ _ _ Ho) as Hp.
  rewrite decide_True in Hp by done.
  destruct (_ <=? 0) eqn:E.
  - destruct (decide (p = q)) as [->|Hpq].
    + rewrite lookup_delete_eq. unfold entry. destruct (0 <? _) eqn:E'; [lia|done].
    + rewrite lookup_delete_ne, H by done. f_equal. lia.
  - destruct (decide (p = q)) as [->|Hpq].
    + rewrite lookup_insert_eq. unfold entry. destruct (0 <? _) eqn:E'; [f_equal; lia|lia].
    + rewrite lookup_insert_ne, H by done. f_equal. lia.
Qed.

Lemma fold_gc_ind (P : ChunkStore DB -> Prop) (f : bytes * messageBuf -> bool) l s :
  (forall id s, P s -> P (gc_one id s)) -> P s ->
  P (fold_left (fun st x => if f x then gc_one x.1 st else st) l s).
Proof.
  intros Hstep. revert s. induction l as [|x l IH]; intros s Hs; simpl; [done|].
  apply IH. destruct (f x); auto.
Qed.

Lemma gc_accounting now s : accounting s -> accounting (gc now s).
Proof. apply fold_gc_ind. intros; by apply gc_one_accounting. Qed.

Lemma Store_owners c now s :
  messageOwner (Store c now s).1 = messageOwner s /\ peerMessages (Store c now s).1 = peerMessages s.
Proof.
  unfold Store. destruct (match messages s !! _ with Some _ => _ | None => _ end) as [buf sc]. done.
Qed.

Lemma accounting_ext s s' :
  messageOwner s' = messageOwner s -> peerMessages s' = peerMessages s -> accounting s -> accounting s'.
Proof. intros H1 H2 H p. unfold owned. rewrite H1, H2. apply H. Qed.

Lemma apply_op_accounting s op : accounting s -> accounting (apply_op s op).
Proof.
  intros H. destruct op; simpl.
  - destruct (Store_owners chunk now s). by eapply accounting_ext.
  - by apply SetMessageOwner_accounting.
  - by apply gc_accounting.
  - by eapply accounting_ext.
  - by eapply accounting_ext.
Qed.

Lemma run_ops_inv (P : ChunkStore DB -> Prop) ops s :
  (forall s op, P s -> P (apply_op s op)) -> P s -> P (run_ops ops s).
Proof. intros Hstep. revert s. induction ops as [|op ops IH]; intros s Hs; simpl; [done|]. auto. Qed.

Lemma new_store_accounting gci ttl : accounting (NewChunkStore (DB := DB) gci ttl).
Proof. intros p. done. Qed.

Lemma ListPeerMessages_elem p id s : id ∈ ListPeerMessages p s <-> messageOwner s !! id = Some p.
Proof.
  rewrite <- owned_in_elem. unfold ListPeerMessages, owned_in.
  by rewrite (iter_order_perm (map_to_list (messageOwner s))).
Qed.

Lemma ListPeerMessages_owned p s : ListPeerMessages p s ≡ₚ owned p s.
Proof.
  unfold ListPeerMessages, owned, owned_in. by rewrite (iter_order_perm (map_to_list (messageOwner s))).
Qed.

End Accounting.

(** ** Garbage collection *)
Section Collection.
Context {DB : Type} {SS : SequenceSource DB} {IO : IterOrder}.
Implicit Types (s : ChunkStore DB) (id p q msgID peerID : bytes).

Lemma gc_one_messages id s : messages (gc_one id s) = delete id (messages s).
Proof. unfold gc_one. simpl. by destruct (messageOwner s !! id). Qed.

Lemma gc_one_owner id s : messageOwner (gc_one id s) = delete id (messageOwner s).
Proof.
  unfold gc_one. simpl. destruct (messageOwner s !! id) eqn:Ho; [done|]. simpl. by rewrite delete_id.
Qed.

Lemma gc_one_ttl id s : ttl (gc_one id s) = ttl s.
Proof. unfold gc_one. simpl. by destruct (messageOwner s !! id). Qed.

Lemma fold_gc_lookup (f : bytes * messageBuf -> bool) l s id :
  let s' := fold_left (fun st x => if f x then gc_one x.1 st else st) l s in
  let gone := existsb (fun x => bool_decide (x.1 = id) && f x) l in
  messages s' !! id = (if gone then None else messages s !! id) /\
  messageOwner s' !! id = (if gone then None else messageOwner s !! id).
Proof.
  revert s. induction l as [|x l IH]; intros s; simpl; [done|].
  destruct (IH (if f x then gc_one x.1 s else s)) as [H1 H2]. rewrite H1, H2. clear H1 H2 IH.
  destruct (f x) eqn:Hf; rewrite ?Bool.andb_false_r, ?Bool.andb_true_r; [|done]. simpl.
  rewrite gc_one_messages, gc_one_owner, !lookup_delete.
  destruct (decide (x.1 = id)) as [->|Hne];
    [rewrite bool_decide_eq_true_2 by done|rewrite bool_decide_eq_false_2 by done]; simpl; [|done].
  by destruct (existsb _ l).
Qed.

Lemma gc_lookup now s id :
  let gone := match messages s !! id with Some buf => expired now (ttl s) buf | None => false end in
  messages (gc now s) !! id = (if gone then None else messages s !! id) /\
  messageOwner (gc now s) !! id = (if gone then None else messageOwner s !! id).
Proof.
  intros gone. pose proof (fold_gc_lookup (fun x => expired now (ttl s) x.2)
    (iter_order (map_to_list (messages s))) s id) as H. cbv beta zeta in H.
  assert (existsb (fun x => bool_decide (x.1 = id) && expired now (ttl s) x.2)
            (iter_order (map_to_list (messages s))) = gone) as Hg; [|by rewrite Hg in H].
  apply eq_true_iff_eq. rewrite existsb_exists. unfold gone. split.
  - intros ([i buf] & Hin & [Hi He]%andb_prop). apply bool_decide_eq_true in Hi. simpl in *. subst.
    apply list_elem_of_In in Hin. rewrite iter_order_perm, elem_of_map_to_list in Hin. by rewrite Hin.
  - destruct (messages s !! id) as [buf|] eqn:Hm; [|done]. intros He. exists (id, buf).
    rewrite <- list_elem_of_In, iter_order_perm, elem_of_map_to_list. simpl.
    by rewrite bool_decide_eq_true_2, He.
Qed.

Lemma gc_ttl now s : ttl (gc now s) = ttl s.
Proof. apply (fold_gc_ind (fun s' => ttl s' = ttl s)); [|done]. intros id s' <-. apply gc_one_ttl. Qed.

End Collection.

(** ** Delivery: the chunks of one message among any other traffic *)
Section Delivery.
Context {DB : Type} {SS : SequenceSource DB} {IO : IterOrder}.
Implicit Types (s : ChunkStore DB) (id p q msgID peerID : bytes).

(** The message that is followed, the time it starts at, and the traffic. *)
Context (id pt : bytes) (m : Z) (pk : bytes) (t0 lifetime : Z).
Let cs := ChunkMessage id pt m pk.
Let n := chunk_total pt (effective_size m).
Hypothesis Hn : Z.of_nat n < 65536.

(** An operation that may occur while the message is in flight: chunks under
    its id are its own, and nothing is collected past its lifetime. *)
Definition in_flight (op : store_op DB) : Prop :=
  match op with
  | OpStore c now => t0 <= now /\ (MsgID c = id -> c ∈ cs)
  | OpGC now => now <= t0 + lifetime
  | _ => True
  end.

(** The chunks of the message stored by a run. *)
Definition stored_of (ops : list (store_op DB)) : list Chunk :=
  omap (fun op => match op with
                  | OpStore c _ => if decide (MsgID c = id) then Some c else None
                  | _ => None
                  end) ops.

Definition holds (seen : list Chunk) s : Prop :=
  ttl s = lifetime /\
  match messages s !! id with
  | None => seen = []
  | Some buf => t0 <= createdAt buf /\ total buf = Z.of_nat n /\
      forall i c, chunks buf !! i = Some c <-> c ∈ seen /\ ChunkIdx c = i
  end.

Lemma cs_total c : c ∈ cs -> TotalChunks c = Z.of_nat n.
Proof.
  intros Hc. apply list_elem_of_lookup_1 in Hc as (i & [Hi ->]%ChunkMessage_lookup). simpl.
  apply u16_small. lia.
Qed.

Lemma cs_idx_inj c c' : c ∈ cs -> c' ∈ cs -> ChunkIdx c = ChunkIdx c' -> c = c'.
Proof.
  intros Hc Hc' He. apply list_elem_of_lookup_1 in Hc as (i & Hi), Hc' as (j & Hj).
  pose proof (ChunkMessage_lookup _ _ _ _ _ _ Hi) as [Hi' Ei].
  pose proof (ChunkMessage_lookup _ _ _ _ _ _ Hj) as [Hj' Ej].
  rewrite Ei, Ej in He. simpl in He. fold n in Hi', Hj'. rewrite !u16_small in He by lia.
  assert (i = j) as -> by lia. congruence.
Qed.

Lemma holds_store seen s c now :
  holds seen s -> seen ⊆ cs -> t0 <= now -> c ∈ cs -> MsgID c = id -> holds (c :: seen) (Store c now s).1.
Proof.
  intros [Httl Hm] Hsub Hnow Hc Hid. unfold Store. rewrite Hid.
  destruct (messages s !! id) as [buf|] eqn:Hb; simpl.
  - destruct Hm as (H1 & H2 & H3). split; [done|]. simpl. rewrite lookup_insert_eq. simpl.
    split; [done|]. split; [done|]. intros i c'. rewrite lookup_insert_Some, H3, elem_of_cons. split.
    + intros [[<- <-]|[Hne [Hin He]]]; tauto.
    + intros [[->|Hin] He]; [tauto|]. destruct (decide (ChunkIdx c = i)) as [Hi|]; [left|tauto].
      split; [done|]. apply cs_idx_inj; [done|by apply Hsub|congruence].
  - destruct (new_buffer c now s) as [buf sc] eqn:Hnew. simpl.
    assert (buf = mkBuf ∅ (TotalChunks c) now (UnixMilli now) (sequenceNumber buf)) as Hbuf.
    { unfold new_buffer in Hnew. destruct (sequenceCounter s) as [d|]; [|by simplify_eq].
      destruct (0 <? len (RecipientHash c)); [|by simplify_eq].
      destruct (seq_next _ d) as [[d' k] []]; by simplify_eq. }
    subst seen. split; [done|]. simpl. rewrite lookup_insert_eq, Hbuf. simpl.
    split; [done|]. split; [by apply cs_total|]. intros i c'.
    rewrite lookup_insert_Some, lookup_empty, list_elem_of_singleton. naive_solver.
Qed.

Lemma holds_frame seen s s' : messages s' !! id = messages s !! id -> ttl s' = ttl s -> holds seen s -> holds seen s'.
Proof. unfold holds. by intros -> ->. Qed.

Lemma Store_other c now s : MsgID c <> id ->
  messages (Store c now s).1 !! id = messages s !! id /\ ttl (Store c now s).1 = ttl s.
Proof.
  intros H. unfold Store. destruct (match messages s !! MsgID c with Some _ => _ | None => _ end) as [buf sc].
  simpl. by rewrite lookup_insert_ne.
Qed.

Lemma holds_gc seen s now : now <= t0 + lifetime -> holds seen s -> holds seen (gc now s).
Proof.
  intros Hnow Hh. pose proof (gc_lookup now s id) as [Hg _]. cbv zeta in Hg.
  eapply holds_frame; [|apply gc_ttl|exact Hh]. rewrite Hg. destruct Hh as [Httl Hm].
  destruct (messages s !! id) as [buf|]; [|done]. destruct Hm as (H1 & _).
  unfold expired. destruct (_ <? _) eqn:E; [|done]. apply Z.ltb_lt in E. lia.
Qed.

Lemma holds_run ops seen s : Forall in_flight ops -> seen ⊆ cs -> holds seen s ->
  exists seen', holds seen' (run_ops ops s) /\ (forall c, c ∈ seen' <-> c ∈ seen \/ c ∈ stored_of ops).
Proof.
  intros Hall. revert seen s. induction Hall as [|op ops Hop Hall IH]; intros seen s Hsub Hh.
  { exists seen. split; [done|]. intros c. unfold stored_of. simpl. rewrite elem_of_nil. tauto. }
  assert (forall k, stored_of (op :: ops) = k ++ stored_of ops ->
            (k = [] /\ holds seen (apply_op s op)) \/
            (exists c, k = [c] /\ c ∈ cs /\ holds (c :: seen) (apply_op s op)) ->
            exists seen', holds seen' (run_ops ops (apply_op s op)) /\
              forall c, c ∈ seen' <-> c ∈ seen \/ c ∈ stored_of (op :: ops)) as Hstep.
  { intros k -> [[-> Hh']|(c & -> & Hc & Hh')].
    - apply IH; done.
    - destruct (IH (c :: seen) _ ltac:(set_solver) Hh') as (seen' & H1 & H2). exists seen'.
      split; [done|]. intros d. rewrite H2. set_solver. }
  destruct op as [c now|i p|now|l|sc]; simpl in Hop.
  - destruct Hop as [Hnow Hc]. destruct (decide (MsgID c = id)) as [Hid|Hid].
    + apply (Hstep [c]); [unfold stored_of; simpl; by rewrite decide_True|right].
      exists c. split; [done|]. split; [auto|]. apply holds_store; auto.
    + apply (Hstep []); [unfold stored_of; simpl; by rewrite decide_False|left].
      split; [done|]. destruct (Store_other c now s Hid). by eapply holds_frame.
  - apply (Hstep []); [done|left]. split; [done|]. simpl. unfold SetMessageOwner.
    by destruct (messageOwner s !! i).
  - apply (Hstep []); [done|left]. split; [done|]. by apply holds_gc.
  - by apply (Hstep []); [|left].
  - by apply (Hstep []); [|left].
Qed.

Lemma holds_complete seen s : pt <> [] -> (forall c, c ∈ seen <-> c ∈ cs) -> holds seen s ->
  exists buf, messages s !! id = Some buf /\ map snd (iter_order (map_to_list (chunks buf))) ≡ₚ cs.
Proof.
  intros Hne Hseen [_ Hm]. destruct (messages s !! id) as [buf|].
  - exists buf. split; [done|]. destruct Hm as (_ & _ & Hch).
    rewrite (iter_order_perm (map_to_list (chunks buf))). apply NoDup_Permutation.
    + apply NoDup_fmap_2_strong; [|apply NoDup_map_to_list].
      intros [i c] [j d] Hi Hj He. simpl in He. subst d.
      apply elem_of_map_to_list in Hi, Hj. apply Hch in Hi as [_ <-], Hj as [_ <-]. done.
    + apply NoDup_alt. intros i j c Hi Hj.
      pose proof (ChunkMessage_lookup _ _ _ _ _ _ Hi) as [Hi' Ei].
      pose proof (ChunkMessage_lookup _ _ _ _ _ _ Hj) as [Hj' Ej]. rewrite Ei in Ej.
      apply (f_equal ChunkIdx) in Ej. simpl in Ej. fold n in Hi', Hj'. rewrite !u16_small in Ej by lia. lia.
    + intros c. rewrite <- Hseen. rewrite list_elem_of_fmap. split.
      * intros ([i d] & -> & Hi). apply elem_of_map_to_list, Hch in Hi. simpl. tauto.
      * intros Hc. exists (ChunkIdx c, c). split; [done|]. apply elem_of_map_to_list, Hch. done.
  - subst seen. exfalso. destruct (chunk_total_spec pt (effective_size m) (effective_size_pos m)) as (_ & H & _).
    specialize (H Hne). pose proof (length_ChunkMessage id pt m pk) as Hl. fold cs in Hl.
    destruct cs as [|c l]; [simpl in Hl; lia|]. specialize (Hseen c). rewrite elem_of_nil in Hseen.
    apply Hseen. left.
Qed.

End Delivery.

(** ** Owners recorded one after the other *)
Section OwnerRuns.
Context {DB : Type} {SS : SequenceSource DB} {IO : IterOrder}.

Lemma count_owner_run ids (s : ChunkStore DB) (p : bytes) :
  NoDup ids -> (forall id, id ∈ ids -> messageOwner s !! id = None) ->
  let s' := run_ops (map (fun id => OpOwner id p) ids) s in
  maxPerPeer s' = maxPerPeer s /\ PeerMessageCount p s' = PeerMessageCount p s + len ids.
Proof.
  intros Hnd. revert s. induction Hnd as [|id ids Hid Hnd IH]; intros s Hfree; cbn [map run_ops fold_left].
  { unfold len. simpl. split; [done|lia]. }
  assert (apply_op s (OpOwner id p) = set_owners (<[p := PeerMessageCount p s + 1]> (peerMessages s))
    (<[id := p]> (messageOwner s)) s) as ->.
  { simpl. unfold SetMessageOwner. rewrite Hfree by left. done. }
  destruct (IH (set_owners (<[p := PeerMessageCount p s + 1]> (peerMessages s))
    (<[id := p]> (messageOwner s)) s)) as [H1 H2].
  { intros id' Hin. simpl. rewrite lookup_insert_ne by (intros ->; done). apply Hfree. by right. }
  unfold run_ops in *. rewrite H1, H2. split; [done|]. unfold PeerMessageCount at 1. simpl.
  rewrite lookup_insert_eq. simpl. unfold len. simpl. lia.
Qed.

End OwnerRuns.

(** ** Iteration order *)
Section Orders.
Context {DB : Type}.
Implicit Types s : ChunkStore DB.

(** Two counts down commute, for one peer or for two. *)
Definition count_down (p : bytes) (pm : gmap bytes Z) : gmap bytes Z :=
  let n := default 0 (pm !! p) - 1 in if n <=? 0 then delete p pm else <[p := n]> pm.

Lemma count_down_lookup p pm q :
  count_down p pm !! q = if decide (p = q) then
    (let n := default 0 (pm !! p) - 1 in if n <=? 0 then None else Some n) else pm !! q.
Proof.
  unfold count_down. cbv zeta. case_decide as Hq; [subst|]; destruct (_ <=? 0);
    by rewrite ?lookup_delete_eq, ?lookup_insert_eq, ?lookup_delete_ne, ?lookup_insert_ne.
Qed.

Lemma count_down_comm p q pm : count_down p (count_down q pm) = count_down q (count_down p pm).
Proof.
  apply map_eq. intros k. rewrite !count_down_lookup. cbv zeta.
  repeat case_decide; subst; try done; congruence.
Qed.

Lemma gc_one_comm i j s : gc_one j (gc_one i s) = gc_one i (gc_one j s).
Proof.
  destruct (decide (i = j)) as [->|Hij]; [done|].
  assert (forall i s, gc_one i s = match messageOwner s !! i with
    | Some p => set_owners (count_down p (peerMessages s)) (delete i (messageOwner s)) (set_messages (delete i (messages s)) s)
    | None => set_messages (delete i (messages s)) s end) as E by done.
  rewrite (E i s), (E j s).
  destruct (messageOwner s !! i) as [p|] eqn:Hi, (messageOwner s !! j) as [q|] eqn:Hj; rewrite !E;
    cbn [messageOwner set_owners set_messages]; rewrite ?lookup_delete_ne, ?Hi, ?Hj by done;
    unfold set_owners, set_messages; cbn [messages gcInterval ttl peerMessages messageOwner maxPerPeer sequenceCounter];
    rewrite ?(delete_delete _ i j), ?(count_down_comm p q); done.
Qed.

Lemma gc_orders (A B : IterOrder) now s : gc (IO := A) now s = gc (IO := B) now s.
Proof.
  unfold gc. apply fold_left_perm.
  - intros st x y. destruct (expired _ _ x.2), (expired _ _ y.2); try done. apply gc_one_comm.
  - by rewrite !iter_order_perm.
Qed.

End Orders.

(** ** Properties *)

(** C18: whatever sequence of stores, ownership updates and collections a
    relay performs, the count it keeps for a peer is the number of messages
    the peer owns, which is what [ListPeerMessages] returns, and no peer
    without messages keeps an entry. *)
Theorem peer_accounting {DB} {SS : SequenceSource DB} {IO : IterOrder} ops gci ttl (p : bytes) :
  let s := run_ops ops (NewChunkStore (DB := DB) gci ttl) in
  PeerMessageCount p s = len (ListPeerMessages p s) /\
  (peerMessages s !! p = None <-> ListPeerMessages p s = []).
Proof.
  intros s. assert (accounting s) as Hacc
    by (apply run_ops_inv; [intros; by apply apply_op_accounting|apply new_store_accounting]).
  pose proof (ListPeerMessages_owned p s) as Hp. split.
  - rewrite (accounting_count _ _ Hacc). unfold len. by rewrite Hp.
  - rewrite (Hacc p). case_decide as Ho.
    + rewrite Ho in Hp. apply Permutation_nil_r in Hp. done.
    + split; [done|]. intros Hl. rewrite Hl in Hp. by apply Permutation_nil_l in Hp.
Qed.

(** C11: a message whose chunks are all stored within its lifetime, in any
    order, with any repetitions and any traffic for other messages and
    collections in between, is returned complete by [GetCompleteMessage]: for
    a text that is not empty, of at most 65535 chunks, whose id the store does
    not hold before. *)
Theorem store_delivers {DB} {SS : SequenceSource DB} {IO : IterOrder}
    (s : ChunkStore DB) id pt m pk t0 lifetime ops :
  pt <> [] -> Z.of_nat (chunk_total pt (effective_size m)) < 65536 ->
  messages s !! id = None -> ttl s = lifetime ->
  Forall (in_flight id pt m pk t0 lifetime) ops ->
  (forall c, c ∈ ChunkMessage id pt m pk -> exists now, OpStore c now ∈ ops) ->
  GetCompleteMessage id (run_ops ops s) = Some (Ok pt).
Proof.
  intros Hne Hn Hnew Httl Hfl Hall.
  destruct (holds_run id pt m pk t0 lifetime Hn ops [] s Hfl) as (seen & Hh & Hseen);
    [set_solver|split; [done|by rewrite Hnew]|].
  assert (forall c, c ∈ seen <-> c ∈ ChunkMessage id pt m pk) as Hs.
  { intros c. rewrite Hseen. unfold stored_of. rewrite list_elem_of_omap. split.
    - intros [[]%elem_of_nil|(op & Hop & Hc)]. rewrite Forall_forall in Hfl. specialize (Hfl _ Hop).
      destruct op; try done. simpl in Hfl. case_decide; [|done]. ok_inv. tauto.
    - intros Hc. right. destruct (Hall c Hc) as (now & Hop). exists (OpStore c now). split; [done|].
      apply list_elem_of_lookup_1 in Hc as (i & [_ ->]%ChunkMessage_lookup). by rewrite decide_True. }
  destruct (holds_complete id pt m pk t0 lifetime Hn seen _ Hne Hs Hh) as (buf & Hbuf & Hperm).
  unfold GetCompleteMessage. rewrite Hbuf. simpl. f_equal.
  eapply reassemble_complete, ChunkMessage_reassembles; done.
Qed.

Lemma store_delivers_witness :
  let cs := ChunkMessage $"01234567" $"hello" 2 $"peer" in
  let other := NewChunk $"89abcdef" 0 1 $"x" in
  GetCompleteMessage (IO := backward_order) $"01234567"
    (run_ops (IO := backward_order) (OpStore other 3 :: map (fun c => OpStore c 5) (rev cs) ++
       [OpGC 100; OpOwner $"01234567" $"peer"] ++ map (fun c => OpStore c 120) cs)
     (NewChunkStore (DB := gmap bytes bytes) 60 200))
  = Some (Ok $"hello").
Proof.
  intros cs other.
  apply (store_delivers (IO := backward_order) _ $"01234567" $"hello" 2 $"peer" 0 200).
  - discriminate.
  - vm_compute. reflexivity.
  - reflexivity.
  - reflexivity.
  - constructor; [split; [lia|intros H; vm_compute in H; discriminate]|].
    apply Forall_app. split; [|apply Forall_app; split;
      [apply Forall_cons_2; [simpl; lia|]; apply Forall_cons_2; [exact I|apply Forall_nil_2]|]].
    + apply Forall_forall. intros op H. apply list_elem_of_fmap_1 in H as (c & -> & Hc).
      split; [lia|]. intros _. rewrite <- Permutation_rev in Hc. exact Hc.
    + apply Forall_forall. intros op H. apply list_elem_of_fmap_1 in H as (c & -> & Hc).
      split; [lia|]. intros _. exact Hc.
  - intros c Hc. exists 5. right. apply elem_of_app. left. apply list_elem_of_fmap_2'  with (x := c); [|done].
    rewrite <- Permutation_rev. exact Hc.
Defined.

(** A collection at time [now] removes exactly the messages stored longer
    ago than the TTL, with their ownership, and leaves every other message
    and every other owner as it was. *)
Theorem gc_exact {DB} {SS : SequenceSource DB} {IO : IterOrder} (s : ChunkStore DB) now id :
  let old := match messages s !! id with Some buf => ttl s <? now - createdAt buf | None => false end in
  messages (gc now s) !! id = (if old then None else messages s !! id) /\
  messageOwner (gc now s) !! id = (if old then None else messageOwner s !! id).
Proof. apply gc_lookup. Qed.

(** C12: Go's map iteration order does not matter to the store: run with any
    two iteration orders, the same sequence of stores, ownership updates and
    collections leaves the same store. *)
Theorem store_order_free {DB} {SS : SequenceSource DB} (A B : IterOrder) ops (s : ChunkStore DB) :
  run_ops (IO := A) ops s = run_ops (IO := B) ops s.
Proof.
  unfold run_ops. revert s. induction ops as [|op ops IH]; intros s; [done|]. cbn [fold_left]. rewrite IH. f_equal.
  destruct op; try done. apply gc_orders.
Qed.

(** Nothing bounds the messages a peer may hold: whatever limit is set,
    every further message that names the peer as recipient is counted. *)
Theorem quota_not_enforced {DB} {SS : SequenceSource DB} {IO : IterOrder} gci ttl limit (ids : list bytes) (p : bytes) :
  NoDup ids ->
  let s := run_ops (OpMax limit :: map (fun id => OpOwner id p) ids) (NewChunkStore (DB := DB) gci ttl) in
  maxPerPeer s = limit /\ PeerMessageCount p s = len ids.
Proof.
  intros Hnd.
  destruct (count_owner_run ids (SetMaxPerPeer limit (NewChunkStore gci ttl)) p Hnd) as [H1 H2];
    [by intros id _|]. split; [exact H1|]. exact H2.
Qed.

Lemma quota_not_enforced_witness :
  let s := run_ops (IO := forward_order) (OpMax 2 :: map (fun id => OpOwner id $"peer") [$"a"; $"b"; $"c"])
             (NewChunkStore (DB := gmap bytes bytes) 0 0) in
  maxPerPeer s < PeerMessageCount $"peer" s.
Proof.
  assert (NoDup [$"a"; $"b"; $"c"]) as Hnd by (apply (bool_decide_unpack _); vm_compute; exact I).
  destruct (quota_not_enforced (IO := forward_order) (DB := gmap bytes bytes) 0 0 2 _ $"peer" Hnd) as [H1 H2].
  intros s. unfold s. rewrite H1, H2. vm_compute. reflexivity.
Defined.

(** An ownership recorded after its message was collected is never
    removed: no later collection touches an owner without a message. *)
Theorem orphan_owner_stays {DB} {SS : SequenceSource DB} {IO : IterOrder}
    (s : ChunkStore DB) (id p : bytes) times :
  messages s !! id = None -> messageOwner s !! id = Some p ->
  let s' := run_ops (map OpGC times) s in
  messageOwner s' !! id = Some p /\ id ∈ ListPeerMessages p s'.
Proof.
  intros Hm Ho s'. rewrite ListPeerMessages_elem.
  assert (messages s' !! id = None /\ messageOwner s' !! id = Some p) as [_ H]; [|done].
  unfold s'. clear s'. revert s Hm Ho. induction times as [|t ts IH]; intros s Hm Ho; simpl; [done|].
  pose proof (gc_lookup t s id) as [H1 H2]. cbv zeta in H1, H2. rewrite Hm in H1, H2.
  apply IH; congruence.
Qed.

(** The collector runs between the two calls of the DNS handler: a late chunk
    of an expired message is stored, the message is collected, and only then
    its owner is recorded. *)
Lemma orphan_owner_stays_witness :
  let c := NewChunk $"01234567" 0 2 $"x" in
  let s := run_ops (IO := forward_order) [OpStore c 0; OpStore c 200; OpGC 201; OpOwner $"01234567" $"peer"]
             (NewChunkStore (DB := gmap bytes bytes) 60 100) in
  $"01234567" ∈ ListPeerMessages (IO := forward_order) $"peer"
    (run_ops (IO := forward_order) (map OpGC [300; 400; 500]) s).
Proof.
  intros c s. apply (orphan_owner_stays (IO := forward_order) s $"01234567" $"peer" [300; 400; 500]).
  - vm_compute. reflexivity.
  - vm_compute. reflexivity.
Defined.
