(* ===== verification/RateLimit.v ===== *)
(** * Token buckets (src/go/internal/ratelimit/ratelimit.go)

    The bucket counts in [float64].  A finite float is a rational and every
    arithmetic operation is the exact one followed by rounding, so the
    rounding function is a parameter with the laws IEEE 754 gives it: it is
    monotone, and exact on the integers up to 2^53.  Times are nanoseconds of
    the monotonic clock. *)

From S2P Require Import Prelude.
From Stdlib Require Import QArith Qround Lqa.

#[local] Open Scope Q_scope.

(** ** Floating point *)

Class Rounding := {
  rnd : Q -> Q;
  rnd_proper : Proper (Qeq ==> Qeq) rnd;
  rnd_mono x y : x <= y -> rnd x <= rnd y;
  rnd_int (z : Z) : (Z.abs z <= 2 ^ 53)%Z -> rnd (inject_Z z) == inject_Z z
}.
#[export] Existing Instance rnd_proper.

Section Bucket.
Context {R : Rounding}.

Definition fadd (x y : Q) : Q := rnd (x + y).
Definition fsub (x y : Q) : Q := rnd (x - y).
Definition fmul (x y : Q) : Q := rnd (x * y).
Definition fdiv (x y : Q) : Q := rnd (x / y).
Definition float64 (z : Z) : Q := rnd (inject_Z z).

(** [time.Duration.Seconds]. *)
Definition Seconds (d : Z) : Q :=
  fadd (float64 (Z.quot d 1000000000)) (fdiv (float64 (Z.rem d 1000000000)) (inject_Z 1000000000)).

(** ** State *)

Record TokenBucket := mkBucket {
  rate : Q;
  burst : Z;
  tokens : Q;
  lastCheck : Z
}.

Record IPRateLimiter := mkLimiter {
  limit : Z;
  limit_burst : Z;
  buckets : gmap bytes TokenBucket
}.

(** ** Operations *)

Definition NewTokenBucket (rate burst now : Z) : TokenBucket :=
  mkBucket (float64 rate) burst (float64 burst) now.

Definition refill (now : Z) (tb : TokenBucket) : TokenBucket :=
  let elapsed := Seconds (now - lastCheck tb) in
  let t := fadd (tokens tb) (fmul elapsed (rate tb)) in
  let t := if Qle_bool t (float64 (burst tb)) then t else float64 (burst tb) in
  mkBucket (rate tb) (burst tb) t now.

Definition AllowN (n now : Z) (tb : TokenBucket) : TokenBucket * bool :=
  let tb := refill now tb in
  if Qle_bool (float64 n) (tokens tb)
  then (mkBucket (rate tb) (burst tb) (fsub (tokens tb) (float64 n)) (lastCheck tb), true)
  else (tb, false).

Definition Allow (now : Z) (tb : TokenBucket) : TokenBucket * bool := AllowN 1 now tb.

Definition NewIPRateLimiter (limit burst : Z) : IPRateLimiter := mkLimiter limit burst ∅.

Definition bucket_of (ip : bytes) (now : Z) (rl : IPRateLimiter) : TokenBucket :=
  match buckets rl !! ip with
  | Some tb => tb
  | None => NewTokenBucket (limit rl) (limit_burst rl) now
  end.

Definition AllowIP (ip : bytes) (now : Z) (rl : IPRateLimiter) : IPRateLimiter * bool :=
  let '(tb, ok) := Allow now (bucket_of ip now rl) in
  (mkLimiter (limit rl) (limit_burst rl) (<[ip := tb]> (buckets rl)), ok).

(** Requests in the order the limiter's mutex serves them: the state after
    them and the verdicts. *)
Fixpoint serve (reqs : list (bytes * Z)) (rl : IPRateLimiter) : IPRateLimiter * list (bytes * bool) :=
  match reqs with
  | [] => (rl, [])
  | (ip, now) :: rest =>
      let '(rl1, ok) := AllowIP ip now rl in
      let '(rl2, out) := serve rest rl1 in (rl2, (ip, ok) :: out)
  end.

Definition allowed_of (ip : bytes) (out : list (bytes * bool)) : nat :=
  length (filter (fun x => x.1 = ip /\ x.2 = true) out).

(** ** Invariant *)

Record bucket_ok (tb : TokenBucket) : Prop := {
  ok_rate : 0 <= rate tb;
  ok_burst : (0 <= burst tb <= 2 ^ 53)%Z;
  ok_tokens : 0 <= tokens tb /\ tokens tb <= inject_Z (burst tb)
}.

(** ** Rounded arithmetic *)

Lemma rnd_0 : rnd 0 == 0.
Proof. apply (rnd_int 0). done. Qed.

Lemma rnd_nonneg x : 0 <= x -> 0 <= rnd x.
Proof. intros H. rewrite <- rnd_0. by apply rnd_mono. Qed.

Lemma rnd_le_int x z : (Z.abs z <= 2 ^ 53)%Z -> x <= inject_Z z -> rnd x <= inject_Z z.
Proof. intros Hz H. rewrite <- (rnd_int z Hz). by apply rnd_mono. Qed.

Lemma rnd_ge_int x z : (Z.abs z <= 2 ^ 53)%Z -> inject_Z z <= x -> inject_Z z <= rnd x.
Proof. intros Hz H. rewrite <- (rnd_int z Hz). by apply rnd_mono. Qed.

Lemma inject_le a b : (a <= b)%Z -> inject_Z a <= inject_Z b.
Proof. intros H. by rewrite <- Zle_Qle. Qed.

Lemma Seconds_nonneg d : (0 <= d)%Z -> 0 <= Seconds d.
Proof.
  intros Hd. unfold Seconds, fadd, fdiv, float64.
  assert (0 <= rnd (inject_Z (Z.quot d 1000000000))).
  { apply rnd_nonneg. apply (inject_le 0). apply Z.quot_pos; lia. }
  assert (0 <= rnd (inject_Z (Z.rem d 1000000000)) / inject_Z 1000000000).
  { apply Qle_shift_div_l; [done|]. rewrite Qmult_0_l. apply rnd_nonneg. apply (inject_le 0).
    apply Z.rem_nonneg; lia. }
  apply rnd_nonneg. pose proof (rnd_nonneg _ H0). lra.
Qed.

Lemma Seconds_0 : Seconds 0 == 0.
Proof.
  unfold Seconds, fadd, fdiv, float64. change (inject_Z (Z.quot 0 1000000000)) with 0.
  change (inject_Z (Z.rem 0 1000000000)) with 0. rewrite !rnd_0.
  change (0 / inject_Z 1000000000) with (0 * / inject_Z 1000000000).
  rewrite Qmult_0_l, rnd_0, Qplus_0_l. apply rnd_0.
Qed.

Lemma Seconds_ge_1 d : (1000000000 <= d)%Z -> 1 <= Seconds d.
Proof.
  intros Hd. unfold Seconds, fadd, fdiv, float64. apply (rnd_ge_int _ 1); [lia|].
  assert (inject_Z 1 <= rnd (inject_Z (Z.quot d 1000000000))).
  { apply rnd_ge_int; [lia|]. apply inject_le. apply Z.quot_le_lower_bound; lia. }
  assert (0 <= rnd (inject_Z (Z.rem d 1000000000)) / inject_Z 1000000000).
  { apply Qle_shift_div_l; [done|]. rewrite Qmult_0_l. apply rnd_nonneg. apply (inject_le 0).
    apply Z.rem_nonneg; lia. }
  pose proof (rnd_nonneg _ H0). change (inject_Z 1) with 1 in *. lra.
Qed.

Lemma Qle_bool_false x y : Qle_bool x y = false -> y < x.
Proof. intros H. apply Qnot_le_lt. intros Hle. apply Qle_bool_iff in Hle. congruence. Qed.

Lemma float64_int z : (Z.abs z <= 2 ^ 53)%Z -> float64 z == inject_Z z.
Proof. apply rnd_int. Qed.

(** ** The bucket *)

Lemma refill_ok now tb : bucket_ok tb -> (lastCheck tb <= now)%Z -> bucket_ok (refill now tb).
Proof.
  intros [Hr Hb [Ht0 Ht1]] Hnow. unfold refill.
  assert (0 <= fmul (Seconds (now - lastCheck tb)) (rate tb)) as Hm.
  { apply rnd_nonneg, Qmult_le_0_compat; [apply Seconds_nonneg; lia|done]. }
  assert (0 <= fadd (tokens tb) (fmul (Seconds (now - lastCheck tb)) (rate tb))) as Ha
    by (apply rnd_nonneg; lra).
  assert (float64 (burst tb) == inject_Z (burst tb)) as Hf by (apply float64_int; lia).
  split; simpl; [done|done|]. destruct (Qle_bool _ _) eqn:E.
  - apply Qle_bool_iff in E. rewrite Hf in E. done.
  - rewrite Hf. split; [|apply Qle_refl]. apply (inject_le 0). lia.
Qed.

Lemma AllowN_ok n now tb : bucket_ok tb -> (lastCheck tb <= now)%Z -> (0 <= n)%Z -> bucket_ok (AllowN n now tb).1.
Proof.
  intros H Hnow Hn. apply (refill_ok now) in H; [|done]. unfold AllowN.
  remember (refill now tb) as tb' eqn:Etb. clear Etb.
  destruct (Qle_bool (float64 n) (tokens tb')) eqn:E; [|done].
  destruct H as [Hr Hb [Ht0 Ht1]]. apply Qle_bool_iff in E.
  split; simpl; [done|done|]. split.
  - apply rnd_nonneg. lra.
  - apply rnd_le_int; [lia|]. assert (0 <= float64 n) by (apply rnd_nonneg, (inject_le 0); done). lra.
Qed.

(** A bucket with at most [k] tokens, at the instant of its last refill. *)
Lemma Allow_instant now tb (k : Z) :
  lastCheck tb = now -> (0 <= k <= burst tb)%Z -> (burst tb <= 2 ^ 53)%Z -> tokens tb <= inject_Z k ->
  let '(tb', ok) := Allow now tb in
  lastCheck tb' = now /\ burst tb' = burst tb /\
  exists k', tokens tb' <= inject_Z k' /\ (0 <= k')%Z /\ (k' + (if ok then 1 else 0) <= k)%Z.
Proof.
  intros <- Hk Hb Ht. unfold Allow, AllowN.
  assert (tokens (refill (lastCheck tb) tb) <= inject_Z k) as Hr.
  { unfold refill. simpl. rewrite Z.sub_diag.
    assert (fmul (Seconds 0) (rate tb) == 0) as Hm.
    { unfold fmul. rewrite Seconds_0, Qmult_0_l. apply rnd_0. }
    assert (fadd (tokens tb) (fmul (Seconds 0) (rate tb)) <= inject_Z k) as Ha.
    { unfold fadd. apply rnd_le_int; [lia|]. rewrite Hm. lra. }
    destruct (Qle_bool _ _) eqn:E; [done|]. apply Qle_bool_false in E. lra. }
  assert (burst (refill (lastCheck tb) tb) = burst tb /\
          lastCheck (refill (lastCheck tb) tb) = lastCheck tb) as [Hb' Hl'] by done.
  remember (refill (lastCheck tb) tb) as tb' eqn:Etb. clear Etb.
  destruct (Qle_bool (float64 1) (tokens tb')) eqn:E; simpl.
  - apply Qle_bool_iff in E. rewrite float64_int in E by lia.
    split; [done|]. split; [done|]. exists (k - 1)%Z.
    assert (1 <= k)%Z by (rewrite Zle_Qle; change (inject_Z 1) with 1 in *; lra).
    split; [|lia]. apply rnd_le_int; [lia|]. rewrite float64_int by lia.
    assert (inject_Z (k - 1) == inject_Z k - inject_Z 1) as ->
      by (unfold Z.sub; rewrite inject_Z_plus; reflexivity).
    apply Qplus_le_compat; [done|apply Qle_refl].
  - split; [done|]. split; [done|]. exists k. split; [done|lia].
Qed.

(** The requests of one address at one instant. *)
Lemma serve_instant ip now reqs rl (k : Z) :
  Forall (fun r => r.2 = now) reqs -> (limit_burst rl <= 2 ^ 53)%Z ->
  (0 <= k <= limit_burst rl)%Z ->
  (buckets rl !! ip = None -> k = limit_burst rl) ->
  (forall tb, buckets rl !! ip = Some tb ->
     lastCheck tb = now /\ burst tb = limit_burst rl /\ tokens tb <= inject_Z k) ->
  (Z.of_nat (allowed_of ip (serve reqs rl).2) <= k)%Z.
Proof.
  intros Hall Hb. revert rl k Hb. induction Hall as [|[jp t] reqs Ht Hall IH]; intros rl k Hb Hk Hnone Hsome.
  { apply Hk. }
  simpl in Ht. subst t. cbn [serve]. unfold AllowIP.
  destruct (Allow now (bucket_of jp now rl)) as [tb' ok] eqn:EA.
  set (rl1 := mkLimiter (limit rl) (limit_burst rl) (<[jp:=tb']> (buckets rl))).
  destruct (serve reqs rl1) as [rl2 out] eqn:ES. cbn [snd]. unfold allowed_of. rewrite filter_cons. cbn [fst snd].
  destruct (decide (jp = ip)) as [->|Hne].
  - pose proof (Allow_instant now (bucket_of ip now rl) k) as HA. rewrite EA in HA.
    assert (lastCheck (bucket_of ip now rl) = now /\ burst (bucket_of ip now rl) = limit_burst rl /\
            tokens (bucket_of ip now rl) <= inject_Z k) as (H1 & H2 & H3).
    { unfold bucket_of. destruct (buckets rl !! ip) as [tb|] eqn:Eb; [by apply Hsome|].
      rewrite (Hnone eq_refl). simpl. repeat split; try done. rewrite float64_int by lia. apply Qle_refl. }
    rewrite H2 in HA. destruct (HA H1 Hk Hb H3) as (H4 & H5 & k' & H6 & H7 & H8).
    specialize (IH rl1 k' Hb ltac:(simpl; destruct ok; lia)). rewrite ES in IH. unfold allowed_of in IH. cbn [snd] in IH.
    assert (Z.of_nat (length (filter (fun x : bytes * bool => x.1 = ip /\ x.2 = true) out)) <= k')%Z as Hle.
    { apply IH; simpl; [by rewrite lookup_insert_eq|]. intros tb. rewrite lookup_insert_eq. intros [= <-].
      split; [done|]. split; [congruence|done]. }
    destruct ok; case_decide; cbn [length]; try (exfalso; tauto); lia.
  - rewrite decide_False by naive_solver. specialize (IH rl1 k Hb Hk). rewrite ES in IH.
    apply IH; simpl; rewrite lookup_insert_ne by done; auto.
Qed.

End Bucket.

(** Exact arithmetic, and a coarse grid: two roundings for closed examples. *)
Definition exact_rounding : Rounding.
Proof. refine {| rnd x := x |}; [auto|reflexivity]. Defined.

Definition grid_rounding : Rounding.
Proof.
  refine {| rnd x := inject_Z (Qfloor (x * 1048576)) / 1048576 |}.
  - intros x y H. by rewrite H.
  - intros x y H. apply Qmult_le_compat_r; [|done]. rewrite <- Zle_Qle. apply Qfloor_resp_le.
    by apply Qmult_le_compat_r.
  - intros z _. change 1048576 with (inject_Z 1048576). rewrite <- inject_Z_mult, Qfloor_Z, inject_Z_mult.
    field.
Defined.

(** ** Properties *)

(** A bucket never holds a negative number of tokens nor more than its
    burst, through any request and whatever the rounding, as long as the
    clock does not go back. *)
Theorem bucket_invariant {R : Rounding} n now tb :
  bucket_ok tb -> (lastCheck tb <= now)%Z -> (0 <= n)%Z ->
  bucket_ok (AllowN n now tb).1 /\ lastCheck (AllowN n now tb).1 = now.
Proof.
  intros H Hnow Hn. split; [by apply AllowN_ok|]. unfold AllowN. by destruct (Qle_bool _ _).
Qed.

Lemma bucket_invariant_witness :
  bucket_ok (AllowN (R := grid_rounding) 3 700 (NewTokenBucket (R := grid_rounding) 10 20 0)).1.
Proof.
  apply (bucket_invariant (R := grid_rounding) 3 700 (NewTokenBucket (R := grid_rounding) 10 20 0));
    [|simpl; lia|lia].
  split; simpl; [vm_compute; discriminate|lia|split; vm_compute; discriminate].
Defined.

(** C35: in any sequence of requests at one instant, an address gets at most
    as many of them through as the burst allows, whatever other addresses
    ask. *)
Theorem burst_bound {R : Rounding} lim b now (ip : bytes) reqs :
  (0 <= b <= 2 ^ 53)%Z -> Forall (fun r => r.2 = now) reqs ->
  (Z.of_nat (allowed_of ip (serve reqs (NewIPRateLimiter lim b)).2) <= b)%Z.
Proof. intros Hb Hall. by apply (serve_instant ip now); [|simpl; lia..|]. Qed.

Lemma burst_bound_witness :
  (Z.of_nat (allowed_of $"a" (serve (R := exact_rounding)
     [($"a", 5%Z); ($"b", 5%Z); ($"a", 5%Z); ($"a", 5%Z)] (NewIPRateLimiter 10 2)).2) <= 2)%Z.
Proof.
  apply (burst_bound (R := exact_rounding) 10 2 5 $"a"); [lia|].
  repeat (apply Forall_cons_2; [reflexivity|]). apply Forall_nil_2.
Defined.

(** A client is never locked out: with a rate and a burst of at least
    one, a request a second or more after the previous one is allowed. *)
Theorem allow_after_second {R : Rounding} now tb :
  bucket_ok tb -> 1 <= rate tb -> (1 <= burst tb)%Z -> (lastCheck tb + 1000000000 <= now)%Z ->
  (Allow now tb).2 = true.
Proof.
  intros [Hr Hb [Ht0 Ht1]] Hrate Hburst Hnow. unfold Allow, AllowN.
  assert (Qle_bool (float64 1) (tokens (refill now tb)) = true) as ->; [|done].
  apply Qle_bool_iff. rewrite float64_int by lia. change (inject_Z 1) with 1. unfold refill. simpl.
  assert (1 <= fmul (Seconds (now - lastCheck tb)) (rate tb)) as Hm.
  { unfold fmul. apply (rnd_ge_int _ 1); [lia|]. change (inject_Z 1) with 1.
    pose proof (Seconds_ge_1 (now - lastCheck tb) ltac:(lia)) as Hs.
    change 1 with (1 * 1). apply Qmult_le_compat_nonneg; split; [done|exact Hs|done|exact Hrate]. }
  assert (1 <= fadd (tokens tb) (fmul (Seconds (now - lastCheck tb)) (rate tb))) as Ha.
  { unfold fadd. apply (rnd_ge_int _ 1); [lia|]. change (inject_Z 1) with 1. lra. }
  destruct (Qle_bool _ _); [done|]. rewrite float64_int by lia. by apply (inject_le 1).
Qed.

Lemma allow_after_second_witness :
  (Allow (R := grid_rounding) 1000000000 (mkBucket 10 20 0 0)).2 = true.
Proof.
  apply (allow_after_second (R := grid_rounding)); simpl; [|vm_compute; discriminate|lia|lia].
  split; simpl; [vm_compute; discriminate|lia|split; vm_compute; discriminate].
Defined.
