(* ===== verification/Dns.v ===== *)
(** * DNS transport (src/go/internal/dns/dns.go)

    The client side sends a chunk as a TXT query and fetches one back, over
    TCP, UDP or the TCP-UDP-TCP sequence of the automatic mode; the server
    side parses the query name and calls a [Handler].  The miekg/dns library
    is not part of the repository: making a name fully qualified and
    exchanging a message with a server are parameters.  An exchange acts on a
    world [W], so that the interplay of client and relay can be stated. *)

From S2P Require Import Prelude GoStrings Codec Encoding.

(** ** Messages *)

Inductive RR :=
| TXT (txt : list bytes)
| A (ip : bytes)
| OtherRR.

Record DnsMsg := mkMsg { Rcode : Z; Answer : list RR }.

Inductive QType := TypeTXT | TypeA.

(** What the program sets in a query: the question, the recursion flag and
    whether an EDNS0 option is attached. *)
Record DnsQuery := mkQuery {
  Question : list bytes;
  Qtype : QType;
  RecursionDesired : bool;
  Edns0 : bool
}.

Definition RcodeSuccess : Z := 0.
Definition RcodeFormatError : Z := 1.
Definition RcodeServerFailure : Z := 2.
Definition RcodeNameError : Z := 3.
Definition RcodeRefused : Z := 5.

(** ** The library *)

(** [dns.Fqdn]: append the final dot unless the name has one. *)
Class DnsLib := {
  Fqdn : bytes -> bytes;
  Fqdn_relative s : last s <> Some dot -> Fqdn s = s ++ [dot];
  Fqdn_absolute s : last s <> Some backslash -> Fqdn (s ++ [dot]) = s ++ [dot]
}.

Inductive Net := net_tcp | net_udp.

(** [Client.Exchange] over a transport; [None] is an error. *)
Class Network (W : Type) :=
  exchange : Net -> bytes -> DnsQuery -> W -> W * option DnsMsg.

(** ** Transport modes *)

Inductive TransportMode := TransportAuto | TransportTCP | TransportUDP.

#[export] Instance TransportMode_eq_dec : EqDecision TransportMode.
Proof. solve_decision. Defined.

Definition TransportModeFromString (s : bytes) : TransportMode :=
  let t := TrimSpace (ToLower s) in
  if decide (t = $"tcp") then TransportTCP
  else if decide (t = $"udp") then TransportUDP
  else TransportAuto.

Definition TransportMode_String (m : TransportMode) : bytes :=
  match m with
  | TransportTCP => $"tcp"
  | TransportUDP => $"udp"
  | TransportAuto => $"auto"
  end.

Inductive DnsError :=
| ErrExchange
| ErrRcode (rcode : Z)
| ErrNotTXT
| ErrNoAnswer
| ErrDecode (e : EncError).

(** ** Client *)
Section Client.
Context {DL : DnsLib} {W : Type} {NW : Network W}.

Definition send_query (zone : bytes) (chunk : Chunk) : DnsQuery :=
  let name := Join dot (EncodeToLabels chunk zone) in
  mkQuery [Fqdn name] TypeTXT false true.

(** The single-transport cases of [SendChunk]. *)
Definition send_once (net : Net) (addr : bytes) (q : DnsQuery) (w : W) : W * result DnsError unit :=
  match exchange net addr q w with
  | (w, None) => (w, Err ErrExchange)
  | (w, Some resp) =>
      if Rcode resp =? RcodeSuccess then (w, Ok tt) else (w, Err (ErrRcode (Rcode resp)))
  end.

Definition SendChunk (addr zone : bytes) (chunk : Chunk) (mode : TransportMode) (w : W)
    : W * result DnsError unit :=
  let q := send_query zone chunk in
  match mode with
  | TransportTCP => send_once net_tcp addr q w
  | TransportUDP => send_once net_udp addr q w
  | TransportAuto =>
      match send_once net_tcp addr q w with
      | (w, Ok u) => (w, Ok u)
      | (w, Err _) =>
          match exchange net_udp addr q w with
          | (w, Some resp) =>
              if Rcode resp =? RcodeSuccess then (w, Ok tt) else (w, Err (ErrRcode (Rcode resp)))
          | (w, None) => send_once net_tcp addr q w
          end
      end
  end.

Definition chunk_query (zone msgID : bytes) (chunkIdx : Z) : DnsQuery :=
  let name := Join dot (EncodeToLabels (NewChunk msgID chunkIdx 0 []) zone) in
  mkQuery [Fqdn name] TypeTXT false false.

(** The first answer, if it is a TXT record, and the parse of its strings. *)
Definition parse_answer (zone : bytes) (resp : DnsMsg) : result DnsError Chunk :=
  match Answer resp with
  | TXT txt :: _ =>
      match DecodeChunkFromLabels (txt ++ [zone]) zone with
      | Ok c => Ok c
      | Err e => Err (ErrDecode e)
      end
  | _ => Err ErrNotTXT
  end.

Definition query_once (net : Net) (addr zone : bytes) (q : DnsQuery) (w : W) : W * result DnsError Chunk :=
  match exchange net addr q w with
  | (w, None) => (w, Err ErrExchange)
  | (w, Some resp) =>
      if negb (Rcode resp =? RcodeSuccess) || bool_decide (Answer resp = [])
      then (w, Err (ErrRcode (Rcode resp)))
      else (w, parse_answer zone resp)
  end.

(** Whether the automatic mode takes a response as final. *)
Definition usable (resp : DnsMsg) : bool :=
  (Rcode resp =? RcodeSuccess) && match Answer resp with TXT _ :: _ => true | _ => false end.

Definition QueryChunk (addr zone msgID : bytes) (chunkIdx : Z) (mode : TransportMode) (w : W)
    : W * result DnsError Chunk :=
  let q := chunk_query zone msgID chunkIdx in
  match mode with
  | TransportTCP => query_once net_tcp addr zone q w
  | TransportUDP => query_once net_udp addr zone q w
  | TransportAuto =>
      let last_try w :=
        match exchange net_tcp addr q w with
        | (w, None) => (w, Err ErrExchange)
        | (w, Some resp) =>
            if negb (Rcode resp =? RcodeSuccess) then (w, Err (ErrRcode (Rcode resp)))
            else if bool_decide (Answer resp = []) then (w, Err ErrNoAnswer)
            else (w, parse_answer zone resp)
        end in
      let try_udp w :=
        match exchange net_udp addr q w with
        | (w, Some resp) => if usable resp then (w, parse_answer zone resp) else last_try w
        | (w, None) => last_try w
        end in
      match exchange net_tcp addr q w with
      | (w, Some resp) => if usable resp then (w, parse_answer zone resp) else try_udp w
      | (w, None) => try_udp w
      end
  end.

End Client.

(** ** Server *)
Section Server.
Context {DL : DnsLib}.

(** The labels of a query name below the zone: [None] when the name is not
    in the zone. *)
Definition query_labels (zone qname : bytes) : option (list bytes) :=
  let name := TrimSuffix (Fqdn qname) [dot] in
  let zoneClean := TrimSuffix zone [dot] in
  if HasSuffix name zoneClean
  then Some (Split dot (TrimSuffix name (dot :: zoneClean)))
  else None.

(** The [Handler] interface over a state [S]: storing may fail, a query
    answers a chunk or nothing. *)
Class Handler (S : Type) := {
  HandleChunk : Chunk -> S -> S * bool;
  HandlerQueryChunk : bytes -> Z -> S -> option Chunk
}.

(** The function [ListenAndServe] registers. *)
Definition serve_dns {S} `{Handler S} (zone : bytes) (r : DnsQuery) (s : S) : S * DnsMsg :=
  match Question r with
  | [] => (s, mkMsg RcodeFormatError [])
  | qname :: _ =>
      let zoneClean := TrimSuffix zone [dot] in
      match query_labels zone qname with
      | None => (s, mkMsg RcodeRefused [])
      | Some body =>
          let labels := body ++ [zoneClean] in
          match DecodeChunkFromLabels labels zoneClean with
          | Err _ => (s, mkMsg RcodeFormatError [])
          | Ok chunk =>
              if TotalChunks chunk =? 0 then
                match HandlerQueryChunk (MsgID chunk) (ChunkIdx chunk) s with
                | None => (s, mkMsg RcodeNameError [])
                | Some stored => (s, mkMsg RcodeSuccess [TXT (body_labels stored)])
                end
              else
                match HandleChunk chunk s with
                | (s, false) => (s, mkMsg RcodeServerFailure [])
                | (s, true) => (s, mkMsg RcodeSuccess [TXT (take 2 labels ++ [$"OK"])])
                end
          end
      end
  end.

End Server.

(** ** Names *)
Section Names.
Context {DL : DnsLib}.

(** A zone as it is configured: not empty, and its last character is
    neither a dot nor the escape character. *)
Definition zone_ok (zone : bytes) : Prop :=
  exists z c, zone = z ++ [c] /\ c <> dot /\ c <> backslash.

Lemma zone_ok_trim zone : zone_ok zone -> TrimSuffix zone [dot] = zone.
Proof.
  intros (z & c & -> & Hc & _). unfold TrimSuffix, HasSuffix. rewrite length_app. simpl length.
  rewrite Nat.add_sub, drop_app_length, bool_decide_eq_false_2 by congruence.
  by rewrite Bool.andb_false_r.
Qed.

Lemma zone_ok_trim_fqdn zone : zone_ok zone -> TrimSuffix (Fqdn zone) [dot] = zone.
Proof.
  intros (z & c & -> & Hc & _). rewrite Fqdn_relative by (rewrite last_snoc; congruence).
  apply TrimSuffix_app.
Qed.

Lemma label_ok_no_dot l : label_ok l -> dot ∉ l.
Proof.
  intros [_ H] Hin. rewrite Forall_forall in H. specialize (H dot Hin).
  apply list_elem_of_In in H. revert H. vm_compute. intuition discriminate.
Qed.

(** The name a client builds from labels, as the server sees it. *)
Definition wire_name (labels : list bytes) : bytes := Fqdn (Join dot labels).

Lemma query_labels_name zone0 zone body :
  zone_ok zone -> TrimSuffix zone0 [dot] = zone -> body <> [] -> Forall label_ok body ->
  query_labels zone0 (wire_name (body ++ [zone])) = Some body.
Proof.
  intros Hz Hz0 Hne Hall. unfold query_labels, wire_name. rewrite Join_last, Hz0 by done.
  assert (TrimSuffix (Fqdn (Fqdn (Join dot body ++ dot :: zone))) [dot] = Join dot body ++ dot :: zone) as ->.
  { destruct Hz as (z & c & -> & Hc & Hb).
    replace (Join dot body ++ dot :: z ++ [c]) with ((Join dot body ++ dot :: z) ++ [c])
      by (by rewrite <- app_assoc).
    rewrite (Fqdn_relative (_ ++ [c])) by (rewrite last_snoc; congruence).
    rewrite Fqdn_absolute by (rewrite last_snoc; congruence). apply TrimSuffix_app. }
  replace (HasSuffix (Join dot body ++ dot :: zone) zone) with true.
  2: { replace (Join dot body ++ dot :: zone) with ((Join dot body ++ [dot]) ++ zone)
         by (by rewrite <- app_assoc). by rewrite HasSuffix_app. }
  rewrite (TrimSuffix_app (Join dot body) (dot :: zone)), Split_Join; [done|done|].
  eapply Forall_impl; [exact Hall|]. apply label_ok_no_dot.
Qed.

Lemma body_labels_not_nil c : body_labels c <> [].
Proof. pose proof (body_labels_length c). destruct (body_labels c); simpl in *; [lia|done]. Qed.

(** The server reads back the chunk whose name the client sent. *)
Lemma server_decodes zone0 zone c :
  zone_ok zone -> TrimSuffix zone0 [dot] = zone -> chunk_wf c ->
  query_labels zone0 (wire_name (EncodeToLabels c zone)) = Some (body_labels c) /\
  DecodeChunkFromLabels (body_labels c ++ [zone]) zone = Ok c.
Proof.
  intros Hz Hz0 Hwf. rewrite <- EncodeToLabels_body. split; [|by apply decode_encode_chunk].
  rewrite EncodeToLabels_body. apply query_labels_name; [done|done|apply body_labels_not_nil|].
  by apply body_labels_ok.
Qed.

End Names.

(** A library that always appends the dot a name lacks, for closed examples. *)
Definition simple_dns_lib : DnsLib.
Proof.
  refine {| Fqdn s := if decide (last s = Some dot) then s else s ++ [dot] |}.
  - intros s H. by rewrite decide_False.
  - intros s _. by rewrite decide_True by apply last_snoc.
Defined.

(** A network that plays a script of responses and logs the transports used,
    for the retry policy. *)
Record script := mkScript { responses : list (option DnsMsg); log : list Net }.
Definition script_network : Network script := fun net _ _ w =>
  match responses w with
  | [] => (mkScript [] (log w ++ [net]), None)
  | r :: rest => (mkScript rest (log w ++ [net]), r)
  end.

Definition succeeded (r : option DnsMsg) : bool :=
  match r with Some m => Rcode m =? RcodeSuccess | None => false end.

(** ** Properties *)

(** The automatic mode of [SendChunk] tries TCP, then UDP, then TCP again
    only if UDP had no response, stops at the first success, and succeeds
    exactly when one of the tries it made did. *)
Theorem send_auto_policy {DL : DnsLib} addr zone c r1 r2 r3 rest :
  let run := SendChunk (NW := script_network) addr zone c TransportAuto (mkScript (r1 :: r2 :: r3 :: rest) []) in
  let tried_third := negb (succeeded r1) && match r2 with None => true | Some _ => false end in
  log run.1 = (if succeeded r1 then [net_tcp]
               else if tried_third then [net_tcp; net_udp; net_tcp] else [net_tcp; net_udp]) /\
  (run.2 = Ok tt <->
   succeeded r1 = true \/ succeeded r2 = true \/ (tried_third = true /\ succeeded r3 = true)).
Proof.
  unfold SendChunk, send_once, exchange, script_network, succeeded. simpl.
  repeat (match goal with
          | |- context [match ?r with Some _ => _ | None => _ end] => destruct r; simpl
          | |- context [?a =? RcodeSuccess] => destruct (a =? RcodeSuccess); simpl
          end);
  (split; [done|]; split; [intros; simplify_eq; auto|intuition congruence]).
Qed.
