(* ===== verification/Relay.v ===== *)
(** * The relay server (src/go/internal/relay/server.go)

    The DNS handler composes the rate limiter, the label codec and the chunk
    store: it answers polls, serves stored chunks and stores new ones.  The
    media server keeps uploaded files under the hash of their content.  The
    theorems say what a client gets back from what it sent. *)

From S2P Require Import Prelude GoStrings Codec Sha256 Encoding Sequence Store RateLimit Dns.

(** ** DNS handler *)

Definition DefaultChunkTTL : Z := 7 * 24 * 3600 * second.
Definition maxUploadSize : Z := 50 * 2 ^ 20.

Record RelayState (DB : Type) := mkRelay {
  relay_store : ChunkStore DB;
  relay_limiter : IPRateLimiter
}.
Arguments mkRelay {DB} _ _.
Arguments relay_store {DB} _.
Arguments relay_limiter {DB} _.

(** [net.Addr] with the address already printed. *)
Inductive Addr := UDPAddr (ip : bytes) | TCPAddr (ip : bytes) | OtherAddr (s : bytes).
Definition extractIP (a : Addr) : bytes :=
  match a with UDPAddr ip => ip | TCPAddr ip => ip | OtherAddr s => s end.

Section Handler.
Context {DL : DnsLib} {DB : Type} {SS : SequenceSource DB} {IO : IterOrder} {R : Rounding}.
Implicit Types (st : RelayState DB) (s : ChunkStore DB).

(** One string of a poll answer: the id, with timestamp and sequence number
    when the message has a stamp. *)
Definition poll_record (id : bytes) (meta : option (Z * Z)) : bytes :=
  match meta with
  | Some (ts, seq) =>
      if 0 <? ts then
        Base32Hex.EncodeToString id ++ [colon]
        ++ Base32Hex.EncodeToString (BigEndian.PutUint64 (u64 ts)) ++ [colon]
        ++ Base32Hex.EncodeToString (BigEndian.PutUint64 seq)
      else Base32Hex.EncodeToString id
  | None => Base32Hex.EncodeToString id
  end.

Definition poll_answer (peerHash : bytes) s : list bytes :=
  map (fun id => poll_record id (GetMessageMeta id s)) (ListPeerMessages peerHash s).

(** The part of the handler after the rate limit, at store time [now]. *)
Definition handle_query (zone : bytes) (r : DnsQuery) (now : Z) s : ChunkStore DB * DnsMsg :=
  match Question r with
  | [] => (s, mkMsg RcodeFormatError [])
  | qname :: _ =>
      let zoneClean := TrimSuffix zone [dot] in
      match query_labels zone qname with
      | None => (s, mkMsg RcodeRefused [])
      | Some labels =>
          if bool_decide (head labels = Some $"POLL") then
            match labels with
            | _ :: peerHash :: _ => (s, mkMsg RcodeSuccess [TXT (poll_answer peerHash s)])
            | _ => (s, mkMsg RcodeFormatError [])
            end
          else
            match DecodeChunkFromLabels (labels ++ [zoneClean]) zoneClean with
            | Err _ => (s, mkMsg RcodeFormatError [])
            | Ok chunk =>
                if TotalChunks chunk =? 0 then
                  match GetChunk (MsgID chunk) (ChunkIdx chunk) s with
                  | None => (s, mkMsg RcodeNameError [])
                  | Some stored => (s, mkMsg RcodeSuccess [TXT (body_labels stored)])
                  end
                else
                  let s := (Store chunk now s).1 in
                  let s := if 0 <? len (RecipientHash chunk)
                           then SetMessageOwner (MsgID chunk)
                                  (Base32Hex.EncodeToString (RecipientHash chunk)) s
                           else s in
                  let ackIdx := Base32Hex.EncodeToString
                    [byte_of (Z.shiftr (ChunkIdx chunk) 8); byte_of (ChunkIdx chunk)] in
                  (s, mkMsg RcodeSuccess [TXT [Base32Hex.EncodeToString (MsgID chunk); ackIdx; $"OK"]])
            end
      end
  end.

(** The function [RunServer] registers for [zone], called with the remote
    address and the two clock readings of the limiter and the store. *)
Definition handle_dns (zone : bytes) (remote : Addr) (r : DnsQuery) (t_limit t_store : Z) st
    : RelayState DB * DnsMsg :=
  let '(rl, ok) := AllowIP (extractIP remote) t_limit (relay_limiter st) in
  if negb ok then (mkRelay (relay_store st) rl, mkMsg RcodeRefused [])
  else let '(s, m) := handle_query (Fqdn zone) r t_store (relay_store st) in (mkRelay s rl, m).

(** The relay [runServer] (cmd/relayd/main.go) starts; [seq] is the sequence
    database, when it can be opened. *)
Definition runServer (seq : option DB) : RelayState DB :=
  let s := NewChunkStore (60 * second) DefaultChunkTTL in
  mkRelay (match seq with Some sc => SetSequenceCounter sc s | None => s end) (NewIPRateLimiter 10 20).

End Handler.

(** ** Media server *)
Module Media.

(** The media directory: content and modification time by file name. *)
Abbreviation dir := (gmap bytes (bytes * Z)).

Record Request := mkRequest {
  Method : bytes;
  Path : bytes;
  AuthToken : bytes;     (* X-Auth-Token header, empty when absent *)
  Body : bytes;
  BodyBroken : bool      (* the connection fails while the body is read *)
}.

Record Response := mkResponse { Status : Z; RespBody : bytes }.

(** [mediaToken]: the first environment variable, else the second. *)
Definition init_token (relay_env relayd_env : bytes) : bytes :=
  if decide (relay_env = []) then relayd_env else relay_env.

Definition checkMediaAuth (token : bytes) (r : Request) : bool :=
  if decide (token = []) then true
  else if decide (AuthToken r = []) then false
  else bool_decide (token = AuthToken r).

Definition upload_body (fileID : bytes) : bytes :=
  [Ascii.ascii_of_nat 123; dquote] ++ $"file_id" ++ [dquote; colon; dquote] ++ fileID
  ++ [dquote; Ascii.ascii_of_nat 125].

(** [/upload]; [w] is what the write of the file does. *)
Definition upload (token : bytes) (r : Request) (now : Z) (w : write_result) (d : dir) : dir * Response :=
  if negb (bool_decide (Method r = $"POST")) then (d, mkResponse 405 $"POST only")
  else if negb (checkMediaAuth token r) then (d, mkResponse 401 $"unauthorized")
  else if maxUploadSize <? len (Body r) then (d, mkResponse 413 $"file too large")
  else if BodyBroken r then (d, mkResponse 500 $"read failed")
  else
    let fileID := Hex.EncodeToString (Sha256.Sum256 (Body r)) in
    match w with
    | Written => (<[fileID := (Body r, now)]> d, mkResponse 200 (upload_body fileID))
    | NotOpened => (d, mkResponse 500 $"write failed")
    | Partial n => (<[fileID := (take n (Body r), now)]> d, mkResponse 500 $"write failed")
    end.

(** [/download/]. *)
Definition download (token : bytes) (r : Request) (d : dir) : Response :=
  let fileID := TrimPrefix (Path r) $"/download/" in
  if decide (fileID = []) then mkResponse 404 $"404 page not found"
  else if negb (checkMediaAuth token r) then mkResponse 401 $"unauthorized"
  else match Hex.DecodeString fileID with
       | None => mkResponse 404 $"404 page not found"
       | Some _ =>
           match d !! fileID with
           | None => mkResponse 404 $"404 page not found"
           | Some (data, _) => mkResponse 200 data
           end
       end.

(** One tick of the cleanup: files older than seven days are removed. *)
Definition cleanup (now : Z) (d : dir) : dir :=
  filter (fun x => now - x.2.2 <= DefaultChunkTTL) d.

(** Every file is named by the hash of its content, if no write stops half
    way. *)
Definition content_addressed (d : dir) : Prop :=
  forall name data t, d !! name = Some (data, t) -> name = Hex.EncodeToString (Sha256.Sum256 data).

Definition whole (w : write_result) : Prop := forall n, w <> Partial n.

Lemma upload_content_addressed token r now w d :
  whole w -> content_addressed d -> content_addressed (upload token r now w d).1.
Proof.
  intros Hw Hd. unfold upload.
  destruct (negb (bool_decide _)); [exact Hd|]. destruct (negb (checkMediaAuth _ _)); [exact Hd|].
  destruct (maxUploadSize <? _); [exact Hd|]. destruct (BodyBroken r); [exact Hd|].
  destruct w as [| |n]; [|exact Hd|by destruct (Hw n)]. cbn [fst]. intros name data t. rewrite lookup_insert_Some. intros [[<- [= -> ->]]|[_ Hl]]; [done|by eapply Hd].
Qed.

Lemma cleanup_content_addressed now d : content_addressed d -> content_addressed (cleanup now d).
Proof. intros H name data t Hl. apply map_lookup_filter_Some in Hl as [Hl _]. by eapply H. Qed.

Lemma download_present token r d data t name :
  Path r = $"/download/" ++ name -> checkMediaAuth token r = true -> name <> [] ->
  is_Some (Hex.DecodeString name) -> d !! name = Some (data, t) -> download token r d = mkResponse 200 data.
Proof.
  intros Hp Ha Hne [x Hx] Hd. unfold download. rewrite Hp, TrimPrefix_app, decide_False by done.
  by rewrite Ha, Hx, Hd.
Qed.

End Media.

(** ** The handler as atomic steps *)
Section Steps.
Context {DL : DnsLib} {DB : Type} {SS : SequenceSource DB} {IO : IterOrder}.
Implicit Types (s : ChunkStore DB).

(** What can happen to the store of a relay: the two calls of the handler,
    for a chunk it decoded, and the collector. *)
Inductive relay_step (zone : bytes) : ChunkStore DB -> ChunkStore DB -> Prop :=
| rs_store labels c now s :
    DecodeChunkFromLabels labels zone = Ok c -> TotalChunks c <> 0 ->
    relay_step zone s (Store c now s).1
| rs_owner labels c s :
    DecodeChunkFromLabels labels zone = Ok c -> 0 < len (RecipientHash c) ->
    relay_step zone s (SetMessageOwner (MsgID c) (Base32Hex.EncodeToString (RecipientHash c)) s)
| rs_gc now s : relay_step zone s (gc now s).

Lemma handle_query_steps zone r now s :
  rtc (relay_step (TrimSuffix zone [dot])) s (handle_query zone r now s).1.
Proof.
  unfold handle_query. destruct (Question r) as [|qname qs]; [apply rtc_refl|].
  destruct (query_labels zone qname) as [labels|]; [|apply rtc_refl].
  case_bool_decide; [destruct labels as [|? [|? ?]]; apply rtc_refl|].
  destruct (DecodeChunkFromLabels _ _) as [c|] eqn:Hd; [|apply rtc_refl].
  destruct (TotalChunks c =? 0) eqn:Ht; [destruct (GetChunk _ _ _); apply rtc_refl|].
  apply Z.eqb_neq in Ht. cbn [fst]. eapply rtc_l; [by eapply rs_store|].
  destruct (0 <? len (RecipientHash c)) eqn:Hh; [|apply rtc_refl].
  apply rtc_once. eapply rs_owner; [done|]. by apply Z.ltb_lt.
Qed.

(** Every stored chunk came from a parsed query that was not itself a fetch. *)
Definition stored_ok s : Prop :=
  forall id buf i c, messages s !! id = Some buf -> chunks buf !! i = Some c ->
    chunk_wf c /\ 0 < TotalChunks c /\ MsgID c = id /\ ChunkIdx c = i.

Lemma Store_lookup_inv c now s id buf :
  messages (Store c now s).1 !! id = Some buf ->
  (MsgID c <> id /\ messages s !! id = Some buf) \/
  (MsgID c = id /\ exists old, chunks buf = <[ChunkIdx c := c]> old /\
     (old = ∅ \/ exists buf0, messages s !! id = Some buf0 /\ old = chunks buf0)).
Proof.
  unfold Store. destruct (messages s !! MsgID c) as [buf0|] eqn:Hm.
  - simpl. rewrite lookup_insert_Some. intros [[<- <-]|[Hne Hl]]; [right|by left].
    split; [done|]. exists (chunks buf0). split; [done|]. right. eauto.
  - destruct (new_buffer c now s) as [b sc] eqn:Hn. simpl.
    rewrite lookup_insert_Some. intros [[<- <-]|[Hne Hl]]; [right|by left].
    split; [done|]. exists ∅. split; [|by left]. simpl. f_equal.
    unfold new_buffer in Hn. repeat case_match; by simplify_eq.
Qed.

Lemma relay_step_ok zone s s' : relay_step zone s s' -> stored_ok s -> stored_ok s'.
Proof.
  intros Hstep Hok. destruct Hstep as [labels c now s Hd Ht|labels c s Hd Hh|now s]; intros id buf i c' Hb Hc.
  - apply decode_chunk_wf in Hd. apply Store_lookup_inv in Hb as [[_ Hb]|(<- & old & Hch & Hold)]; [by eapply Hok|].
    rewrite Hch, lookup_insert_Some in Hc. destruct Hc as [[<- <-]|[_ Hc]].
    + split; [done|]. split; [|done]. destruct Hd. unfold is_u16 in *. lia.
    + destruct Hold as [->|(buf0 & Hb0 & ->)]; [done|by eapply Hok].
  - eapply Hok; [|done]. unfold SetMessageOwner in Hb. by destruct (messageOwner s !! _).
  - pose proof (gc_lookup now s id) as [Hg _]. cbv zeta in Hg. rewrite Hg in Hb.
    destruct (match messages s !! id with Some _ => _ | None => _ end); [done|by eapply Hok].
Qed.

Lemma relay_step_accounting zone s s' : relay_step zone s s' -> accounting s -> accounting s'.
Proof.
  intros [labels c now s0 _ _|labels c s0 _ _|now s0] H.
  - by apply (apply_op_accounting s0 (OpStore c now)).
  - by apply SetMessageOwner_accounting.
  - by apply gc_accounting.
Qed.

Lemma steps_inv (P : ChunkStore DB -> Prop) zone s s' :
  (forall s s', relay_step zone s s' -> P s -> P s') -> rtc (relay_step zone) s s' -> P s -> P s'.
Proof. intros Hstep H. induction H; eauto. Qed.

Lemma new_store_ok gci ttl : stored_ok (NewChunkStore (DB := DB) gci ttl).
Proof. intros id buf i c H. simpl in H. by rewrite lookup_empty in H. Qed.

End Steps.

(** ** What a client gets back *)
Section Exchange.
Context {DL : DnsLib} {DB : Type} {SS : SequenceSource DB} {IO : IterOrder}.
Implicit Types (s : ChunkStore DB).

Lemma poll_label_ok : label_ok $"POLL".
Proof.
  split; [simpl; lia|].
  repeat (apply Forall_cons_2; [apply list_elem_of_In; vm_compute; tauto|]). apply Forall_nil_2.
Qed.

Lemma body_labels_head c : chunk_wf c -> head (body_labels c) <> Some $"POLL".
Proof.
  intros Hwf. rewrite body_labels_eq. unfold len. intros H.
  assert (exists b, head (body_labels c) = Some (Base32Hex.EncodeToString b) /\
            (length b = 8 \/ length b = 32)%nat) as (b & Hb & Hl).
  { rewrite body_labels_eq. unfold len. destruct (wf_hash c Hwf) as [Hh|Hh]; rewrite Hh; simpl.
    - exists (MsgID c). split; [done|]. left. apply (wf_id c Hwf).
    - exists (RecipientHash c). auto. }
  rewrite body_labels_eq in Hb. unfold len in Hb. rewrite Hb in H. injection H as H.
  apply (f_equal length) in H. rewrite Base32HexFacts.b32_encode_length in H.
  destruct Hl as [Hl|Hl]; rewrite Hl in H; vm_compute in H; discriminate.
Qed.

Lemma query_wf msgID i : length msgID = 8%nat -> is_u16 i -> chunk_wf (NewChunk msgID i 0 []).
Proof.
  intros H1 H2. split; simpl; [done|done|unfold is_u16; lia|apply crc16_u16|by left].
Qed.

Section Zone.
Context (zone : bytes) (Hz : zone_ok zone).

(** The handler's view of the query for a chunk's own name. *)
Lemma handle_query_chunk c r now s :
  chunk_wf c -> Question r = [wire_name (EncodeToLabels c zone)] ->
  handle_query (Fqdn zone) r now s =
    if TotalChunks c =? 0 then
      match GetChunk (MsgID c) (ChunkIdx c) s with
      | None => (s, mkMsg RcodeNameError [])
      | Some stored => (s, mkMsg RcodeSuccess [TXT (body_labels stored)])
      end
    else
      let s1 := (Store c now s).1 in
      (if 0 <? len (RecipientHash c)
       then SetMessageOwner (MsgID c) (Base32Hex.EncodeToString (RecipientHash c)) s1 else s1,
       mkMsg RcodeSuccess [TXT [Base32Hex.EncodeToString (MsgID c);
         Base32Hex.EncodeToString [byte_of (Z.shiftr (ChunkIdx c) 8); byte_of (ChunkIdx c)]; $"OK"]]).
Proof.
  intros Hwf Hq. unfold handle_query. rewrite Hq.
  destruct (server_decodes (Fqdn zone) zone c Hz (zone_ok_trim_fqdn zone Hz) Hwf) as [Hl Hd].
  rewrite Hl, bool_decide_eq_false_2 by (by apply body_labels_head).
  by rewrite zone_ok_trim_fqdn, Hd.
Qed.

Lemma GetChunk_Store c now s : GetChunk (MsgID c) (ChunkIdx c) (Store c now s).1 = Some c.
Proof.
  unfold Store, GetChunk. destruct (match messages s !! _ with Some _ => _ | None => _ end) as [buf sc].
  simpl. rewrite lookup_insert_eq. simpl. by rewrite lookup_insert_eq.
Qed.

Lemma SetMessageOwner_messages id p s : messages (SetMessageOwner id p s) = messages s.
Proof. unfold SetMessageOwner. by destruct (messageOwner s !! id). Qed.

(** The stamp of a stored message. *)
Lemma Store_meta c now s : exists ts seq, GetMessageMeta (MsgID c) (Store c now s).1 = Some (ts, seq) /\
  (messages s !! MsgID c = None -> ts = UnixMilli now).
Proof.
  unfold GetMessageMeta, Store. destruct (messages s !! MsgID c) as [b|] eqn:Hm.
  - cbn [fst messages]. rewrite lookup_insert_eq. cbn. eexists _, _. split; [reflexivity|discriminate].
  - destruct (new_buffer c now s) as [b sc] eqn:Hn. cbn [fst messages]. rewrite lookup_insert_eq. cbn.
    eexists _, _. split; [reflexivity|]. intros _. unfold new_buffer in Hn. repeat case_match; by simplify_eq.
Qed.

Lemma parse_answer_body c : chunk_wf c -> parse_answer zone (mkMsg RcodeSuccess [TXT (body_labels c)]) = Ok c.
Proof.
  intros Hwf. unfold parse_answer. simpl. rewrite <- EncodeToLabels_body, decode_encode_chunk by done. done.
Qed.

End Zone.

End Exchange.

(** The query of a poll for a recipient key, as the client builds it. *)
Definition poll_query {DL : DnsLib} (zone pubkey : bytes) : DnsQuery :=
  mkQuery [wire_name [$"POLL"; Base32Hex.EncodeToString (Sha256.Sum256 pubkey); zone]] TypeTXT false false.

Lemma handle_poll {DL : DnsLib} {DB} {SS : SequenceSource DB} {IO : IterOrder} zone pk now (s : ChunkStore DB) :
  zone_ok zone ->
  handle_query (Fqdn zone) (poll_query zone pk) now s =
    (s, mkMsg RcodeSuccess [TXT (poll_answer (Base32Hex.EncodeToString (Sha256.Sum256 pk)) s)]).
Proof.
  intros Hz. unfold handle_query, poll_query. cbn [Question].
  rewrite (query_labels_name (Fqdn zone) zone [$"POLL"; Base32Hex.EncodeToString (Sha256.Sum256 pk)]); [done|done|..].
  - by apply zone_ok_trim_fqdn.
  - done.
  - apply Forall_cons_2; [apply poll_label_ok|]. apply Forall_cons_2; [|apply Forall_nil_2].
    apply enc_label_ok. rewrite Sha256.Sum256_length. lia.
Qed.

(** Uploads and cleanup ticks, in any order. *)
Inductive media_op :=
| OpUpload (token : bytes) (r : Media.Request) (now : Z) (w : write_result)
| OpCleanup (now : Z).

Definition media_apply (d : Media.dir) (op : media_op) : Media.dir :=
  match op with
  | OpUpload token r now w => (Media.upload token r now w d).1
  | OpCleanup now => Media.cleanup now d
  end.

Definition whole_op (op : media_op) : Prop := match op with OpUpload _ _ _ w => Media.whole w | OpCleanup _ => True end.

Lemma media_run_addressed ops d :
  Forall whole_op ops -> Media.content_addressed d -> Media.content_addressed (fold_left media_apply ops d).
Proof.
  intros Hops. revert d. induction Hops as [|op ops Hop Hops IH]; intros d Hd; simpl; [done|]. apply IH.
  destruct op; [by apply Media.upload_content_addressed|by apply Media.cleanup_content_addressed].
Qed.

(** ** Properties *)

(** C10: the relay returns what was sent to it: after the query of
    [SendChunk] is acknowledged, the query of [QueryChunk] for that message
    and index is answered with a record that parses to the same chunk. *)
Theorem relay_returns_chunk {DL : DnsLib} {DB} {SS : SequenceSource DB} {IO : IterOrder}
    zone c now now' (s : ChunkStore DB) :
  zone_ok zone -> chunk_wf c -> TotalChunks c <> 0 ->
  let '(s1, ack) := handle_query (Fqdn zone) (send_query zone c) now s in
  let '(s2, resp) := handle_query (Fqdn zone) (chunk_query zone (MsgID c) (ChunkIdx c)) now' s1 in
  Rcode ack = RcodeSuccess /\ s2 = s1 /\ usable resp = true /\ parse_answer zone resp = Ok c.
Proof.
  intros Hz Hwf Ht.
  rewrite (handle_query_chunk zone Hz c (send_query zone c)) by done.
  apply Z.eqb_neq in Ht. rewrite Ht. cbv beta iota zeta.
  rewrite (handle_query_chunk zone Hz (NewChunk (MsgID c) (ChunkIdx c) 0 []))
    by first [by apply query_wf; apply Hwf | done].
  cbn [TotalChunks NewChunk MsgID ChunkIdx]. change (0 =? 0) with true. cbn iota.
  assert (forall s0 : ChunkStore DB, messages s0 = messages (Store c now s).1 ->
            GetChunk (MsgID c) (ChunkIdx c) s0 = Some c) as Hget.
  { intros s0 Hs0. unfold GetChunk. rewrite Hs0. apply (GetChunk_Store c now s). }
  rewrite Hget by (destruct (0 <? _); [apply SetMessageOwner_messages|done]).
  split; [done|]. split; [done|]. split; [done|]. by apply parse_answer_body.
Qed.

Lemma relay_returns_chunk_witness :
  let c := NewChunk $"01234567" 1 2 $"hi" in
  let st := NewChunkStore (DB := gmap bytes bytes) 60 100 in
  let '(s1, ack) := handle_query (DL := simple_dns_lib) (IO := forward_order)
     (Fqdn (DnsLib := simple_dns_lib) $"msg.local-domain")
     (send_query (DL := simple_dns_lib) $"msg.local-domain" c) 5 st in
  Rcode ack = RcodeSuccess.
Proof.
  intros c st.
  assert (zone_ok $"msg.local-domain") as Hz
    by (exists $"msg.local-domai", (Ascii.ascii_of_nat 110); repeat split; discriminate).
  assert (chunk_wf c) as Hwf
    by (split; simpl; [reflexivity|unfold is_u16; lia|unfold is_u16; lia|apply crc16_u16|by left]).
  pose proof (relay_returns_chunk (DL := simple_dns_lib) (IO := forward_order)
    $"msg.local-domain" c 5 6 st Hz Hwf ltac:(discriminate)) as H.
  destruct (handle_query _ (send_query _ c) 5 st) as [s1 ack].
  destruct (handle_query _ (chunk_query _ _ _) 6 s1) as [s2 resp]. exact (proj1 H).
Defined.

(** C19: a recipient finds its messages: once the query of a chunk addressed
    to a key is handled, for a message that nobody else owned before, a poll
    for that key is answered, leaves the store as it is, and lists a record
    that begins with the message's id in base32 and, when the message has a
    stamp, continues with its timestamp and sequence number; the stamp of a
    message that was not known before is the time of the query. *)
Theorem relay_poll_lists {DL : DnsLib} {DB} {SS : SequenceSource DB} {IO : IterOrder}
    zone c pk now now' (s : ChunkStore DB) :
  zone_ok zone -> chunk_wf c -> TotalChunks c <> 0 -> RecipientHash c = Sha256.Sum256 pk ->
  messageOwner s !! MsgID c = None \/ messageOwner s !! MsgID c = Some (Base32Hex.EncodeToString (Sha256.Sum256 pk)) ->
  let s1 := (handle_query (Fqdn zone) (send_query zone c) now s).1 in
  exists txt ts seq, handle_query (Fqdn zone) (poll_query zone pk) now' s1 = (s1, mkMsg RcodeSuccess [TXT txt]) /\
    GetMessageMeta (MsgID c) s1 = Some (ts, seq) /\ (messages s !! MsgID c = None -> ts = UnixMilli now) /\
    (Base32Hex.EncodeToString (MsgID c) ++
       if 0 <? ts then [colon] ++ Base32Hex.EncodeToString (BigEndian.PutUint64 (u64 ts)) ++ [colon]
                       ++ Base32Hex.EncodeToString (BigEndian.PutUint64 seq)
       else []) ∈ txt.
Proof.
  intros Hz Hwf Ht Hh Ho s1.
  assert (s1 = SetMessageOwner (MsgID c) (Base32Hex.EncodeToString (Sha256.Sum256 pk)) (Store c now s).1) as Hs1.
  { unfold s1. rewrite (handle_query_chunk zone Hz c (send_query zone c)) by done.
    apply Z.eqb_neq in Ht. rewrite Ht. cbv zeta. unfold len.
    by rewrite Hh, Sha256.Sum256_length. }
  clearbody s1. subst s1. set (p := Base32Hex.EncodeToString (Sha256.Sum256 pk)) in *.
  set (s1 := SetMessageOwner _ _ _).
  destruct (Store_meta c now s) as (ts & seq & Hm & Hnew). exists (poll_answer p s1), ts, seq.
  assert (GetMessageMeta (MsgID c) s1 = Some (ts, seq)) as Hm1
    by (unfold GetMessageMeta, s1; by rewrite SetMessageOwner_messages).
  split; [by apply handle_poll|]. split; [exact Hm1|]. split; [exact Hnew|].
  assert (MsgID c ∈ ListPeerMessages p s1) as Hin.
  { apply ListPeerMessages_elem. unfold s1, SetMessageOwner. destruct (Store_owners c now s) as [-> _].
    destruct Ho as [-> | Ho]; [cbn [messageOwner set_owners]; by rewrite lookup_insert_eq|].
    rewrite Ho. destruct (Store_owners c now s) as [-> _]. exact Ho. }
  unfold poll_answer. apply (list_elem_of_fmap_2' _ _ (MsgID c)); [exact Hin|]. rewrite Hm1. unfold poll_record.
  destruct (0 <? ts); [done|by rewrite app_nil_r].
Qed.

Lemma relay_poll_lists_witness :
  let c := set_recipient (Sha256.Sum256 $"alice") (NewChunk $"01234567" 0 1 $"hi") in
  let st := NewChunkStore (DB := gmap bytes bytes) 60 100 in
  let s1 := (handle_query (DL := simple_dns_lib) (IO := forward_order)
     (Fqdn (DnsLib := simple_dns_lib) $"msg.local-domain")
     (send_query (DL := simple_dns_lib) $"msg.local-domain" c) 5 st).1 in
  exists txt ts seq, handle_query (DL := simple_dns_lib) (IO := forward_order)
     (Fqdn (DnsLib := simple_dns_lib) $"msg.local-domain")
     (poll_query (DL := simple_dns_lib) $"msg.local-domain" $"alice") 9 s1
     = (s1, mkMsg RcodeSuccess [TXT txt]) /\
    GetMessageMeta (MsgID c) s1 = Some (ts, seq) /\ (messages st !! MsgID c = None -> ts = UnixMilli 5) /\
    (Base32Hex.EncodeToString $"01234567" ++
       if 0 <? ts then [colon] ++ Base32Hex.EncodeToString (BigEndian.PutUint64 (u64 ts)) ++ [colon]
                       ++ Base32Hex.EncodeToString (BigEndian.PutUint64 seq)
       else []) ∈ txt.
Proof.
  intros c st.
  apply (relay_poll_lists (DL := simple_dns_lib) (IO := forward_order) $"msg.local-domain" c $"alice" 5 9 st).
  - exists $"msg.local-domai", (Ascii.ascii_of_nat 110). repeat split; discriminate.
  - split; simpl; [reflexivity|unfold is_u16; lia|unfold is_u16; lia|apply crc16_u16|].
    exact (or_intror (Sha256.Sum256_length $"alice")).
  - discriminate.
  - reflexivity.
  - left; reflexivity.
Defined.

(** C13: the DNS handler acts on the store only through the two atomic calls
    of [relay_step], and in every store those steps and the collector can
    reach from the one the relay starts with, each chunk is well-formed, is
    filed under its own message and index, and announces at least one chunk,
    and the counts of messages per peer are right. *)
Theorem relay_invariant {DL : DnsLib} {DB} {SS : SequenceSource DB} {IO : IterOrder} zone (seq : option DB) s r now :
  rtc (relay_step (TrimSuffix zone [dot])) (relay_store (runServer seq)) s ->
  stored_ok s /\ accounting s /\
  rtc (relay_step (TrimSuffix zone [dot])) (relay_store (runServer seq)) (handle_query zone r now s).1.
Proof.
  intros H. split; [|split].
  - eapply steps_inv; [apply relay_step_ok|exact H|]. destruct seq; apply new_store_ok.
  - eapply steps_inv; [apply relay_step_accounting|exact H|]. destruct seq; apply new_store_accounting.
  - etrans; [exact H|apply handle_query_steps].
Qed.

Lemma relay_invariant_witness :
  stored_ok (gc (IO := forward_order) 7 (relay_store (runServer (DB := gmap bytes bytes) (Some ∅)))).
Proof.
  apply (relay_invariant (DL := simple_dns_lib) (IO := forward_order) $"zone" (Some ∅) _
    (mkQuery [] TypeTXT false false) 0).
  apply rtc_once, rs_gc.
Defined.

(** A request over the limit is refused and reaches neither the store nor
    the stored messages; other addresses keep their buckets. *)
Theorem refused_is_inert {DL : DnsLib} {DB} {SS : SequenceSource DB} {IO : IterOrder} {R : Rounding}
    zone remote r t1 t2 (st : RelayState DB) :
  (AllowIP (extractIP remote) t1 (relay_limiter st)).2 = false ->
  let '(st', m) := handle_dns zone remote r t1 t2 st in
  relay_store st' = relay_store st /\ m = mkMsg RcodeRefused [] /\
  forall ip, ip <> extractIP remote -> buckets (relay_limiter st') !! ip = buckets (relay_limiter st) !! ip.
Proof.
  unfold handle_dns, AllowIP. destruct (Allow t1 _) as [tb ok]. simpl. intros ->. simpl.
  split; [done|]. split; [done|]. intros ip Hne. by rewrite lookup_insert_ne.
Qed.

Lemma refused_is_inert_witness :
  let st := mkRelay (NewChunkStore (DB := gmap bytes bytes) 60 100) (NewIPRateLimiter 0 0) in
  (handle_dns (DL := simple_dns_lib) (IO := forward_order) (R := exact_rounding) $"z" (UDPAddr $"10.0.0.1")
     (mkQuery [] TypeTXT false false) 1 1 st).2 = mkMsg RcodeRefused [].
Proof.
  intros st.
  pose proof (refused_is_inert (DL := simple_dns_lib) (IO := forward_order) (R := exact_rounding)
    $"z" (UDPAddr $"10.0.0.1") (mkQuery [] TypeTXT false false) 1 1 st eq_refl) as H.
  destruct (handle_dns _ _ _ 1 1 st) as [st' m]. exact (proj1 (proj2 H)).
Defined.

(** Integrity of media downloads: after any uploads and cleanups of which no
    write stopped half way, a successful download of a file id returns
    content whose SHA-256 is that id. *)
Theorem download_integrity ops token name auth data :
  Forall whole_op ops -> name <> [] ->
  Media.download token (Media.mkRequest $"GET" ($"/download/" ++ name) auth [] false)
    (fold_left media_apply ops ∅) = Media.mkResponse 200 data ->
  Hex.EncodeToString (Sha256.Sum256 data) = name.
Proof.
  intros Hops Hne. unfold Media.download. cbn [Media.Path]. rewrite TrimPrefix_app, decide_False by done.
  destruct (negb _); [discriminate|]. destruct (Hex.DecodeString name); [|discriminate].
  destruct (fold_left media_apply ops ∅ !! name) as [[d t]|] eqn:Hl; [|discriminate].
  intros [= ->]. symmetry. eapply media_run_addressed; [exact Hops| |exact Hl]. intros n x y H. done.
Qed.

(** An authorised upload of at most the size limit succeeds, names the
    file by its hash, and the file can be downloaded with that name, until
    the cleanup seven days later. *)
Theorem upload_download token auth body now now' d :
  len body <= maxUploadSize -> token = [] \/ token = auth ->
  now' - now <= DefaultChunkTTL ->
  let id := Hex.EncodeToString (Sha256.Sum256 body) in
  let '(d', resp) := Media.upload token (Media.mkRequest $"POST" $"/upload" auth body false) now Written d in
  resp = Media.mkResponse 200 (Media.upload_body id) /\
  Media.download token (Media.mkRequest $"GET" ($"/download/" ++ id) auth [] false) (Media.cleanup now' d')
    = Media.mkResponse 200 body.
Proof.
  intros Hlen Hauth Hage id. unfold Media.upload. cbn [Media.Method Media.Body Media.BodyBroken].
  assert (forall m p b br, Media.checkMediaAuth token (Media.mkRequest m p auth b br) = true) as Hok.
  { intros. unfold Media.checkMediaAuth. simpl. destruct Hauth as [-> | ->]; [done|].
    case_decide; [done|]. by apply bool_decide_eq_true. }
  rewrite bool_decide_eq_true_2, Hok by done. cbn [negb].
  replace (maxUploadSize <? len body) with false by (symmetry; apply Z.ltb_ge; lia).
  split; [done|]. fold id.
  apply (Media.download_present _ _ _ body now id); [done|apply Hok|..].
  - unfold id. intros H. apply (f_equal length) in H.
    rewrite HexFacts.hex_encode_length, Sha256.Sum256_length in H. discriminate.
  - unfold id. rewrite HexFacts.hex_decode_encode. eauto.
  - unfold Media.cleanup. apply map_lookup_filter_Some. rewrite lookup_insert_eq. split; [done|]. exact Hage.
Qed.

Lemma upload_download_witness :
  let id := Hex.EncodeToString (Sha256.Sum256 $"picture") in
  let d' := (Media.upload $"tok" (Media.mkRequest $"POST" $"/upload" $"tok" $"picture" false) 10 Written ∅).1 in
  Media.download $"tok" (Media.mkRequest $"GET" ($"/download/" ++ id) $"tok" [] false) (Media.cleanup 20 d')
    = Media.mkResponse 200 $"picture".
Proof.
  intros id d'. unfold d', id.
  pose proof (upload_download $"tok" $"tok" $"picture" 10 20 ∅ ltac:(vm_compute; discriminate)
    (or_intror eq_refl) ltac:(vm_compute; discriminate)) as H. cbv zeta in H.
  destruct (Media.upload _ _ 10 Written ∅) as [d resp]. exact (proj2 H).
Defined.

Lemma download_integrity_witness :
  exists ops data,
    Media.download [] (Media.mkRequest $"GET" ($"/download/" ++ Hex.EncodeToString (Sha256.Sum256 $"pic")) [] [] false)
      (fold_left media_apply ops ∅) = Media.mkResponse 200 data /\
    Hex.EncodeToString (Sha256.Sum256 data) = Hex.EncodeToString (Sha256.Sum256 $"pic").
Proof.
  exists [OpUpload [] (Media.mkRequest $"POST" $"/upload" [] $"pic" false) 1 Written], $"pic".
  assert (Media.download [] (Media.mkRequest $"GET" ($"/download/" ++ Hex.EncodeToString (Sha256.Sum256 $"pic")) [] [] false)
      (fold_left media_apply [OpUpload [] (Media.mkRequest $"POST" $"/upload" [] $"pic" false) 1 Written] ∅)
      = Media.mkResponse 200 $"pic") as H by (vm_compute; reflexivity).
  split; [exact H|].
  eapply (download_integrity _ [] (Hex.EncodeToString (Sha256.Sum256 $"pic")) [] $"pic"); [| |exact H].
  - by apply list.Forall_singleton.
  - vm_compute. discriminate.
Defined.

(** With a token configured, a request that does not carry it changes no
    file and is shown none. *)
Theorem media_unauthorised token r now ok d :
  token <> [] -> Media.AuthToken r <> token ->
  (Media.upload token r now ok d).1 = d /\
  (Media.Status (Media.upload token r now ok d).2 = 405 \/ Media.Status (Media.upload token r now ok d).2 = 401) /\
  (Media.Status (Media.download token r d) = 404 \/ Media.Status (Media.download token r d) = 401).
Proof.
  intros Ht Hr. assert (Media.checkMediaAuth token r = false) as Ha.
  { unfold Media.checkMediaAuth. rewrite decide_False by done. case_decide; [done|].
    apply bool_decide_eq_false. congruence. }
  unfold Media.upload, Media.download. rewrite Ha. cbn [negb].
  split; [by destruct (bool_decide _)|]. split; [destruct (bool_decide _); auto|].
  case_decide; simpl; auto.
Qed.

Lemma media_unauthorised_witness :
  Media.Status (Media.download $"tok" (Media.mkRequest $"GET" $"/download/00" $"bad" [] false) ∅) <> 200.
Proof.
  destruct (media_unauthorised $"tok" (Media.mkRequest $"GET" $"/download/00" $"bad" [] false) 0 Written ∅)
    as (_ & _ & [H|H]); [discriminate|discriminate| |]; rewrite H; discriminate.
Defined.
