(* ===== verification/Crypto.v ===== *)
(** * Keys, messages and invitations (src/go/internal/crypto)

    The package's own code: key generation and clamping, the signed payload
    format, the identity file, group keys, invite codes and hello messages.
    The primitives it calls (X25519, Ed25519, XChaCha20-Poly1305, SHA-512,
    HKDF) are the operations of [CryptoLib]; [CryptoLaws] lists what their
    documentation promises.  Random bytes are arguments, [None] when the
    system's generator fails. *)

From S2P Require Import Prelude GoStrings Codec Sha256.

Class CryptoLib := {
  X25519 : bytes -> bytes -> option bytes;      (* scalar, point *)
  Basepoint : bytes;
  Sum512 : bytes -> bytes;
  NewKeyFromSeed : bytes -> bytes;
  ed_Sign : bytes -> bytes -> bytes;            (* private key, message *)
  ed_Verify : bytes -> bytes -> bytes -> bool;  (* public key, message, signature *)
  NewX : bytes -> bool;                         (* is the AEAD key accepted *)
  Seal : bytes -> bytes -> bytes -> bytes;      (* key, nonce, plaintext *)
  Open : bytes -> bytes -> bytes -> option bytes;
  hkdf_sha256 : bytes -> bytes -> bytes         (* secret, info; 32 bytes *)
}.

Class CryptoLaws (C : CryptoLib) := {
  X25519_length : forall k p s, X25519 k p = Some s -> length s = 32%nat;
  X25519_agree : forall a b pa pb, X25519 a Basepoint = Some pa -> X25519 b Basepoint = Some pb ->
    X25519 a pb = X25519 b pa;
  Sum512_length : forall m, length (Sum512 m) = 64%nat;
  seed_length : forall s, length s = 32%nat -> length (NewKeyFromSeed s) = 64%nat;
  seed_prefix : forall s, length s = 32%nat -> take 32 (NewKeyFromSeed s) = s;
  Sign_length : forall k m, length k = 64%nat -> length (ed_Sign k m) = 64%nat;
  Verify_Sign : forall s m, length s = 32%nat ->
    ed_Verify (drop 32 (NewKeyFromSeed s)) m (ed_Sign (NewKeyFromSeed s) m) = true;
  NewX_iff : forall k, NewX k = true <-> length k = 32%nat;
  Open_iff : forall k n p c, length k = 32%nat -> length n = 24%nat ->
    (Open k n c = Some p <-> c = Seal k n p);
  Seal_length : forall k n p, length (Seal k n p) = (length p + 16)%nat;
  hkdf_length : forall s i, length (hkdf_sha256 s i) = 32%nat
}.

Definition KeyLength : Z := 32.
Definition NonceLength : Z := 24.
Definition SignatureLen : Z := 64.
Definition PublicKeySize : Z := 32.
Definition Ed25519SeedLen : nat := 32.
Definition KeyFileMagicV1 : bytes := $"RELAYD IDENTITY KEY v1".
Definition KeyFileMagicV2 : bytes := $"RELAYD IDENTITY KEY v2".

Record KeyPair := mkKeyPair {
  PublicKey : bytes;
  PrivateKey : bytes;
  Ed25519PublicKey : bytes;
  Ed25519PrivateKey : bytes
}.

Inductive crypto_error :=
| BadKeyLength | RandFailed | DerivationFailed | BadCipherKey | BadNonceLength
| DecryptionFailed | InvalidPayload | ReadFailed | InvalidFormat | InvalidV2Format
| InvalidPublicKey | InvalidPrivateKey | UnknownFormat | TooShort | InvalidInvite
| InvalidInvitePubkey | InvalidInviteNonce | InvalidInviteNickname.

#[export] Instance crypto_error_eq_dec : EqDecision crypto_error.
Proof. solve_decision. Defined.

Record Parsed := mkParsed {
  senderX25519Pubkey : bytes;
  senderEd25519Pubkey : bytes;   (* empty for Go's nil *)
  plaintext_of : bytes;
  verified : bool
}.

Section Operations.
Context {C : CryptoLib}.

(** ** Key pairs *)

Definition clamp (k : bytes) : bytes :=
  let k := alter (fun b => byte_of (Z.land (byte_val b) 248)) 0%nat k in
  let k := alter (fun b => byte_of (Z.land (byte_val b) 127)) 31%nat k in
  alter (fun b => byte_of (Z.lor (byte_val b) 64)) 31%nat k.

Definition ed_from_seed (edSeed : bytes) (kp : KeyPair) : KeyPair :=
  let edPriv := NewKeyFromSeed edSeed in
  mkKeyPair (PublicKey kp) (PrivateKey kp) (drop 32 edPriv) edPriv.

Definition deriveEd25519 (kp : KeyPair) : KeyPair :=
  ed_from_seed (take Ed25519SeedLen (Sum512 (PrivateKey kp))) kp.

Definition GenerateKeyPair (rand : option bytes) : result crypto_error KeyPair :=
  random ← or_err RandFailed rand;
  let privateKey := clamp random in
  publicKey ← or_err DerivationFailed (X25519 privateKey Basepoint);
  Ok (deriveEd25519 (mkKeyPair publicKey privateKey [] [])).

Definition SharedSecret (privateKey peerPublicKey : bytes) : result crypto_error bytes :=
  _ ← check (len privateKey =? KeyLength) BadKeyLength;
  _ ← check (len peerPublicKey =? KeyLength) BadKeyLength;
  or_err DerivationFailed (X25519 privateKey peerPublicKey).

(** ** Messages *)

Definition EncryptMessage (sharedSecret plaintext : bytes) (rand : option bytes)
    : result crypto_error (bytes * bytes) :=
  _ ← check (NewX sharedSecret) BadCipherKey;
  nonce ← or_err RandFailed rand;
  Ok (Seal sharedSecret nonce plaintext, nonce).

Definition DecryptMessage (sharedSecret nonce ciphertext : bytes) : result crypto_error bytes :=
  _ ← check (NewX sharedSecret) BadCipherKey;
  _ ← check (len nonce =? NonceLength) BadNonceLength;
  or_err DecryptionFailed (Open sharedSecret nonce ciphertext).

Definition SignMessage (kp : KeyPair) (message : bytes) : bytes :=
  if len (Ed25519PrivateKey kp) =? 0 then [] else ed_Sign (Ed25519PrivateKey kp) message.

Definition VerifySignature (publicKey message signature : bytes) : bool :=
  if negb (len publicKey =? PublicKeySize) || negb (len signature =? SignatureLen) then false
  else ed_Verify publicKey message signature.

(** The data a signature covers: the printed Ed25519 key, a newline, the text. *)
Definition sig_data (edB64 plaintext : bytes) : bytes := edB64 ++ [newline] ++ plaintext.

Definition BuildSignedPayload (kp : KeyPair) (plaintext : bytes) : bytes :=
  let senderX25519 := Base64.EncodeToString (PublicKey kp) in
  let senderEd25519 := Base64.EncodeToString (Ed25519PublicKey kp) in
  let sigB64 := Base64.EncodeToString (SignMessage kp (sig_data senderEd25519 plaintext)) in
  senderX25519 ++ [newline] ++ senderEd25519 ++ [newline] ++ sigB64 ++ [newline] ++ plaintext.

Definition ParseSignedPayload (payload : bytes) : result crypto_error Parsed :=
  match SplitN newline 4 payload with
  | [sender; text] => Ok (mkParsed sender [] text false)
  | [sender; edB64; sigB64; text] =>
      match Base64.DecodeString edB64 with
      | Some ed =>
          if negb (len ed =? PublicKeySize) then Ok (mkParsed sender [] text false)
          else match Base64.DecodeString sigB64 with
               | Some sig =>
                   if negb (len sig =? SignatureLen) then Ok (mkParsed sender ed text false)
                   else Ok (mkParsed sender ed text (VerifySignature ed (sig_data edB64 text) sig))
               | None => Ok (mkParsed sender ed text false)
               end
      | None => Ok (mkParsed sender [] text false)
      end
  | _ => Err InvalidPayload
  end.

(** ** The identity file *)

(** The text [SaveIdentity] writes; [None] is the panic of slicing a signing
    key shorter than its seed. *)
Definition SaveIdentity (kp : KeyPair) : option bytes :=
  if (length (Ed25519PrivateKey kp) <? Ed25519SeedLen)%nat then None
  else
    let pubB64 := Base64.EncodeToString (PublicKey kp) in
    let privB64 := Base64.EncodeToString (PrivateKey kp) in
    let edB64 := Base64.EncodeToString (take Ed25519SeedLen (Ed25519PrivateKey kp)) in
    Some (KeyFileMagicV2 ++ [newline] ++ $"pub:" ++ pubB64 ++ [newline] ++ $"priv:" ++ privB64
          ++ [newline] ++ $"ed25519:" ++ edB64 ++ [newline]).

(** The two key lines shared by both versions of the file. *)
Definition load_keys (line1 line2 : bytes) : result crypto_error KeyPair :=
  pub ← or_err InvalidPublicKey (Base64.DecodeString (TrimPrefix line1 $"pub:"));
  priv ← or_err InvalidPrivateKey (Base64.DecodeString (TrimPrefix line2 $"priv:"));
  Ok (mkKeyPair pub priv [] []).

Definition LoadIdentity (file : option bytes) : result crypto_error KeyPair :=
  data ← or_err ReadFailed file;
  match Split newline (TrimSpace data) with
  | magic :: line1 :: line2 :: more =>
      if decide (magic = KeyFileMagicV1) then
        kp ← load_keys line1 line2; Ok (deriveEd25519 kp)
      else if decide (magic = KeyFileMagicV2) then
        match more with
        | [] => Err InvalidV2Format
        | line3 :: _ =>
            kp ← load_keys line1 line2;
            match Base64.DecodeString (TrimPrefix line3 $"ed25519:") with
            | Some edSeed =>
                if (length edSeed =? Ed25519SeedLen)%nat then Ok (ed_from_seed edSeed kp)
                else Ok (deriveEd25519 kp)
            | None => Ok (deriveEd25519 kp)
            end
        end
      else Err UnknownFormat
  | _ => Err InvalidFormat
  end.

(** ** Groups *)

Definition GenerateGroupKey (rand : option bytes) : result crypto_error bytes := or_err RandFailed rand.

Definition EncryptGroupMessage (groupKey plaintext : bytes) (rand : option bytes) : result crypto_error bytes :=
  _ ← check (NewX groupKey) BadCipherKey;
  nonce ← or_err RandFailed rand;
  Ok (nonce ++ Seal groupKey nonce plaintext).

Definition DecryptGroupMessage (groupKey data : bytes) : result crypto_error bytes :=
  _ ← check (NewX groupKey) BadCipherKey;
  _ ← check (negb (len data <? NonceLength)) TooShort;
  or_err DecryptionFailed (Open groupKey (take 24 data) (drop 24 data)).

Definition RotateGroupKey (oldKey : bytes) : bytes := Sha256.Sum256 (oldKey ++ $"group-rotation-v1").

(** ** Invitations *)

Definition GenerateInviteCode (pubkey nickname : bytes) (rand : option bytes)
    : result crypto_error (bytes * bytes) :=
  _ ← check (len pubkey =? 32) BadKeyLength;
  nonce ← or_err RandFailed rand;
  Ok ($"v1:" ++ Base32Hex.EncodeToString pubkey ++ [colon] ++ Base32Hex.EncodeToString nonce
      ++ [colon] ++ Base32Hex.EncodeToString nickname, nonce).

Definition ParseInviteCode (code : bytes) : result crypto_error (bytes * bytes * bytes) :=
  match SplitN colon 4 code with
  | [version; p1; p2; p3] =>
      _ ← check (bool_decide (version = $"v1")) InvalidInvite;
      pubkey ← or_err InvalidInvitePubkey (Base32Hex.DecodeString p1);
      _ ← check (len pubkey =? 32) InvalidInvitePubkey;
      nonce ← or_err InvalidInviteNonce (Base32Hex.DecodeString p2);
      _ ← check (len nonce =? 8) InvalidInviteNonce;
      nick ← or_err InvalidInviteNickname (Base32Hex.DecodeString p3);
      Ok (pubkey, nonce, nick)
  | _ => Err InvalidInvite
  end.

Definition DeriveHelloKey (nonce : bytes) : bytes := hkdf_sha256 nonce $"vrgram-hello-v1".

Definition EncryptHello (helloKey payload : bytes) (rand : option bytes) : result crypto_error bytes :=
  _ ← check (NewX helloKey) BadCipherKey;
  nonce ← or_err RandFailed rand;
  Ok (nonce ++ Seal helloKey nonce payload).

Definition DecryptHello (helloKey data : bytes) : result crypto_error bytes :=
  _ ← check (NewX helloKey) BadCipherKey;
  _ ← check (negb (len data <? NonceLength)) TooShort;
  or_err DecryptionFailed (Open helloKey (take 24 data) (drop 24 data)).

End Operations.

(** ** A small library that satisfies the laws, for closed examples *)
Definition toy_sign (pub m : bytes) : bytes :=
  let h := Sha256.Sum256 (pub ++ m) in h ++ h.
Definition toy_seal (k n p : bytes) : bytes := take 16 (Sha256.Sum256 (k ++ n ++ p)) ++ p.

Lemma toy_tag_length m : length (take 16 (Sha256.Sum256 m)) = 16%nat.
Proof. rewrite length_take, Sha256.Sum256_length. lia. Qed.

#[local] Instance toy_crypto : CryptoLib := {|
  X25519 k p := Some (Sha256.Sum256 $"point");
  Basepoint := $"base";
  Sum512 m := Sha256.Sum256 m ++ Sha256.Sum256 (Sha256.Sum256 m);
  NewKeyFromSeed s := s ++ Sha256.Sum256 s;
  ed_Sign k m := toy_sign (drop 32 k) m;
  ed_Verify pub m s := bool_decide (s = toy_sign pub m);
  NewX k := (length k =? 32)%nat;
  Seal := toy_seal;
  Open k n c := if decide (toy_seal k n (drop 16 c) = c) then Some (drop 16 c) else None;
  hkdf_sha256 s i := Sha256.Sum256 (s ++ i)
|}.

#[local] Instance toy_crypto_laws : CryptoLaws toy_crypto.
Proof.
  split.
  - intros k p s [= <-]. apply Sha256.Sum256_length.
  - done.
  - intros m. cbn [Sum512 toy_crypto]. by rewrite length_app, !Sha256.Sum256_length.
  - intros s Hs. cbn [NewKeyFromSeed toy_crypto]. by rewrite length_app, Sha256.Sum256_length, Hs.
  - intros s Hs. cbn [NewKeyFromSeed toy_crypto]. by rewrite <- Hs, take_app_length.
  - intros k m _. cbn [ed_Sign toy_crypto]. unfold toy_sign. by rewrite length_app, !Sha256.Sum256_length.
  - intros s m Hs. cbn [ed_Sign ed_Verify toy_crypto]. by apply bool_decide_eq_true.
  - intros k. cbn [NewX toy_crypto]. apply Nat.eqb_eq.
  - intros k n p c _ _. cbn [Seal Open toy_crypto].
    assert (forall q, drop 16 (toy_seal k n q) = q) as Hd by (intros q; apply drop_app_length'; symmetry; apply toy_tag_length).
    split.
    + case_decide as H; [|discriminate]. intros [= <-]. by symmetry.
    + intros ->. by rewrite Hd, decide_True.
  - intros k n p. cbn [Seal toy_crypto]. unfold toy_seal. rewrite length_app, toy_tag_length. lia.
  - intros s i. apply Sha256.Sum256_length.
Qed.

(** ** Lemmas *)
Section Facts.
Context {C : CryptoLib} {L : CryptoLaws C}.

Lemma newline_b64 s : newline ∉ Base64.EncodeToString s.
Proof. apply Base64Facts.b64_encode_notin. intros H%list_elem_of_In. vm_compute in H. intuition discriminate. Qed.

Lemma colon_b32 s : colon ∉ Base32Hex.EncodeToString s.
Proof. apply Base32HexFacts.b32_encode_notin. intros H%list_elem_of_In. vm_compute in H. intuition discriminate. Qed.

(** Sealing with a random nonce in front, and what opens such data: shared
    by the group and hello messages. *)
Lemma NewX_true k : length k = 32%nat -> NewX k = true.
Proof. apply NewX_iff. Qed.

Lemma open_framed k nonce p :
  length k = 32%nat -> length nonce = 24%nat ->
  Open k (take 24 (nonce ++ Seal k nonce p)) (drop 24 (nonce ++ Seal k nonce p)) = Some p.
Proof.
  intros Hk Hn. rewrite <- Hn, take_app_length, drop_app_length. by apply Open_iff.
Qed.

Lemma framed_long k nonce (p : bytes) :
  length nonce = 24%nat -> (len (nonce ++ Seal k nonce p) <? NonceLength) = false.
Proof. intros Hn. apply Z.ltb_ge. rewrite len_app. unfold len at 1. rewrite Hn. unfold NonceLength. pose proof (len_nonneg (Seal k nonce p)). lia. Qed.

(** A key pair that can sign: its signing keys come from some seed. *)
Definition signing (kp : KeyPair) : Prop :=
  exists seed, length seed = 32%nat /\ Ed25519PrivateKey kp = NewKeyFromSeed seed /\
    Ed25519PublicKey kp = drop 32 (NewKeyFromSeed seed).

Lemma deriveEd25519_signing kp : signing (deriveEd25519 kp).
Proof.
  exists (take 32 (Sum512 (PrivateKey kp))). split; [|done].
  rewrite length_take, Sum512_length. done.
Qed.

Lemma ed_public_length seed : length seed = 32%nat -> length (drop 32 (NewKeyFromSeed seed)) = 32%nat.
Proof. intros H. by rewrite length_drop, seed_length. Qed.

Lemma SignMessage_signing kp m seed :
  length seed = 32%nat -> Ed25519PrivateKey kp = NewKeyFromSeed seed ->
  SignMessage kp m = ed_Sign (NewKeyFromSeed seed) m.
Proof. intros Hs Hk. unfold SignMessage, len. rewrite Hk, seed_length by done. done. Qed.

Lemma SplitN_payload a b c t :
  newline ∉ a -> newline ∉ b -> newline ∉ c ->
  SplitN newline 4 (a ++ [newline] ++ b ++ [newline] ++ c ++ [newline] ++ t) = [a; b; c; t].
Proof. intros Ha Hb Hc. simpl app. by rewrite !SplitN_app, SplitN_1. Qed.

Lemma SplitN_invite r : SplitN colon 4 ($"v1:" ++ r) = $"v1" :: SplitN colon 3 r.
Proof.
  apply (SplitN_app colon 2 $"v1"). intros Hi%list_elem_of_In. vm_compute in Hi. intuition discriminate.
Qed.

(** ** Trimming a text file *)
Lemma trim_left_head x s : is_space x = false -> trim_left (x :: s) = x :: s.
Proof. intros H. simpl. by rewrite H. Qed.

Lemma TrimSpace_line x m y :
  is_space x = false -> is_space y = false -> TrimSpace ((x :: m ++ [y]) ++ [newline]) = x :: m ++ [y].
Proof.
  intros Hx Hy. unfold TrimSpace. cbn [app]. rewrite trim_left_head by done.
  change (x :: (m ++ [y]) ++ [newline]) with ((x :: m ++ [y]) ++ [newline]).
  rewrite rev_app_distr. cbn [rev app trim_left]. change (is_space newline) with true. cbn iota.
  rewrite rev_app_distr. cbn [rev app]. rewrite trim_left_head by done.
  cbn [rev]. by rewrite rev_app_distr, rev_involutive.
Qed.

Lemma b64_not_space c : c ∈ Base64.pad :: Base64.alphabet -> is_space c = false.
Proof.
  assert (forallb (fun c => negb (is_space c)) (Base64.pad :: Base64.alphabet) = true) as H by reflexivity.
  rewrite forallb_forall in H. intros Hc%list_elem_of_In%H. by destruct (is_space c).
Qed.

Lemma b64_last s : s <> [] -> exists m y, Base64.EncodeToString s = m ++ [y] /\ is_space y = false.
Proof.
  intros Hs. destruct (Base64.EncodeToString s) as [|x t] eqn:He using rev_ind.
  - by apply Base64Facts.b64_encode_nil in He.
  - exists t, x. split; [done|]. apply b64_not_space.
    pose proof (Base64Facts.b64_encode_alphabet s) as Ha. rewrite He, Forall_app in Ha.
    destruct Ha as [_ Ha]. by inversion Ha.
Qed.

Lemma load_keys_saved pub priv :
  load_keys ($"pub:" ++ Base64.EncodeToString pub) ($"priv:" ++ Base64.EncodeToString priv)
  = Ok (mkKeyPair pub priv [] []).
Proof. unfold load_keys. by rewrite !TrimPrefix_app, !Base64Facts.b64_decode_encode. Qed.

(** The lines of a saved identity. *)
Lemma identity_lines a b c :
  c <> [] ->
  Split newline (TrimSpace (KeyFileMagicV2 ++ [newline] ++ $"pub:" ++ Base64.EncodeToString a ++ [newline]
     ++ $"priv:" ++ Base64.EncodeToString b ++ [newline] ++ $"ed25519:" ++ Base64.EncodeToString c ++ [newline]))
  = [KeyFileMagicV2; $"pub:" ++ Base64.EncodeToString a; $"priv:" ++ Base64.EncodeToString b;
     $"ed25519:" ++ Base64.EncodeToString c].
Proof.
  intros Hc. destruct (b64_last c Hc) as (m & y & He & Hy).
  set (body := Join newline [KeyFileMagicV2; $"pub:" ++ Base64.EncodeToString a;
    $"priv:" ++ Base64.EncodeToString b; $"ed25519:" ++ Base64.EncodeToString c]).
  match goal with |- Split newline (TrimSpace ?t) = _ => replace t with (body ++ [newline]) end.
  2:{ unfold body. cbn [Join]. by rewrite <- ?app_assoc; repeat (cbn [app]; rewrite <- ?app_assoc). }
  assert (exists m', body = Ascii.ascii_of_nat 82 :: m' ++ [y]) as [m' Hb].
  { exists (tail KeyFileMagicV2 ++ newline :: ($"pub:" ++ Base64.EncodeToString a) ++ newline ::
      ($"priv:" ++ Base64.EncodeToString b) ++ newline :: $"ed25519:" ++ m).
    unfold body. cbn [Join]. rewrite He. by repeat (cbn [app tail str KeyFileMagicV2]; rewrite <- ?app_assoc). }
  rewrite Hb, TrimSpace_line, <- Hb by done.
  apply Split_Join; [done|].
  assert (forall p s, newline ∉ p -> newline ∉ p ++ Base64.EncodeToString s) as Hn.
  { intros p s Hp. rewrite elem_of_app. pose proof (newline_b64 s). tauto. }
  apply Forall_cons_2; [|repeat (apply Forall_cons_2; [apply Hn|]); [..|apply Forall_nil_2]];
    intros Hi%list_elem_of_In; vm_compute in Hi; intuition discriminate.
Qed.

Lemma length_clamp k : length (clamp k) = length k.
Proof. unfold clamp. by rewrite !length_alter. Qed.

Lemma GenerateKeyPair_inv r kp :
  length r = 32%nat -> GenerateKeyPair (Some r) = Ok kp ->
  length (PrivateKey kp) = 32%nat /\ length (PublicKey kp) = 32%nat /\
  X25519 (PrivateKey kp) Basepoint = Some (PublicKey kp).
Proof.
  intros Hr. unfold GenerateKeyPair. cbn [or_err mbind result_bind].
  destruct (X25519 (clamp r) Basepoint) as [pub|] eqn:Hx; [|discriminate]. intros [= <-].
  cbn. rewrite length_clamp. split; [done|]. split; [|done]. by apply X25519_length in Hx.
Qed.

Lemma SharedSecret_Ok priv pub s :
  SharedSecret priv pub = Ok s <->
  length priv = 32%nat /\ length pub = 32%nat /\ X25519 priv pub = Some s.
Proof.
  unfold SharedSecret, KeyLength, len. split.
  - destruct (Z.of_nat (length priv) =? 32) eqn:H1; cbn [check mbind result_bind]; [|discriminate].
    destruct (Z.of_nat (length pub) =? 32) eqn:H2; cbn [check mbind result_bind]; [|discriminate].
    rewrite or_err_Ok. apply Z.eqb_eq in H1, H2.
    intros H3. split; [lia|]. split; [lia|done].
  - intros (H1 & H2 & H3). by rewrite H1, H2, H3.
Qed.

Lemma invite_parse pubkey nickname rn code nonce :
  length rn = 8%nat -> GenerateInviteCode pubkey nickname (Some rn) = Ok (code, nonce) ->
  ParseInviteCode code = Ok (pubkey, rn, nickname) /\ nonce = rn.
Proof.
  intros Hn Hg. unfold GenerateInviteCode in Hg.
  destruct (len pubkey =? 32) eqn:Hl; [|discriminate]. cbn [or_err check mbind result_bind] in Hg. injection Hg as <- <-.
  split; [|done]. unfold ParseInviteCode.
  change (SplitN colon 4 (_ :: _ :: _ :: ?r)) with (SplitN colon 4 ($"v1:" ++ r)).
  rewrite SplitN_invite. cbn [app]. rewrite !SplitN_app, SplitN_1 by apply colon_b32.
  rewrite !Base32HexFacts.b32_decode_encode. cbn [or_err mbind result_bind]. rewrite Hl.
  unfold len. by rewrite Hn.
Qed.

Lemma parse_built kp plaintext :
  signing kp ->
  ParseSignedPayload (BuildSignedPayload kp plaintext) =
    Ok (mkParsed (Base64.EncodeToString (PublicKey kp)) (Ed25519PublicKey kp) plaintext true).
Proof.
  intros (seed & Hs & Hpriv & Hpub). unfold ParseSignedPayload, BuildSignedPayload.
  rewrite SplitN_payload by apply newline_b64.
  rewrite (SignMessage_signing kp _ seed), !Base64Facts.b64_decode_encode by done.
  assert ((len (Ed25519PublicKey kp) =? PublicKeySize) = true) as Hp.
  { unfold len. by rewrite Hpub, ed_public_length. }
  assert (forall m, (len (ed_Sign (NewKeyFromSeed seed) m) =? SignatureLen) = true) as Hg.
  { intros m. unfold len. by rewrite Sign_length by by apply seed_length. }
  unfold VerifySignature. rewrite Hp, !Hg. cbn [negb orb]. by rewrite Hpub, Verify_Sign.
Qed.

(** The size of a signed payload: the keys and the signature in base64, three
    newlines, and the text. *)
Lemma signed_length kp plaintext :
  signing kp -> length (PublicKey kp) = 32%nat ->
  length (BuildSignedPayload kp plaintext) = (length plaintext + 179)%nat.
Proof.
  intros (seed & Hs & Hpriv & Hpub) Hpk. unfold BuildSignedPayload.
  rewrite (SignMessage_signing kp _ seed) by done. rewrite !length_app, !Base64Facts.b64_encode_length, Hpk, Hpub.
  rewrite ed_public_length, Sign_length by (done || by apply seed_length). cbn [length].
  change (4 * ((32 + 2) / 3))%nat with 44%nat. change (4 * ((64 + 2) / 3))%nat with 88%nat. lia.
Qed.

Lemma load_saved kp :
  signing kp -> exists file, SaveIdentity kp = Some file /\ LoadIdentity (Some file) = Ok kp.
Proof.
  intros (seed & Hs & Hpriv & Hpub). destruct kp as [pub priv ep es]. simpl in Hpriv, Hpub. subst.
  unfold SaveIdentity. cbn [Ed25519PrivateKey]. rewrite seed_length by done. cbn [PublicKey PrivateKey].
  eexists. split; [reflexivity|]. unfold LoadIdentity, Ed25519SeedLen. cbn [or_err mbind result_bind].
  rewrite seed_prefix by done. rewrite identity_lines by (by destruct seed).
  rewrite decide_False by discriminate. rewrite decide_True by done.
  rewrite load_keys_saved. cbn [mbind result_bind].
  by rewrite TrimPrefix_app, Base64Facts.b64_decode_encode, Hs.
Qed.

Lemma GenerateKeyPair_signing r kp : GenerateKeyPair r = Ok kp -> signing kp.
Proof.
  unfold GenerateKeyPair. destruct r as [r|]; cbn [or_err mbind result_bind]; [|discriminate].
  destruct (X25519 (clamp r) Basepoint) as [pub|]; cbn [or_err]; [|discriminate]. intros [= <-].
  apply deriveEd25519_signing.
Qed.

End Facts.

(** ** Properties *)

(** C24: two peers understand each other: with key pairs both made by
    [GenerateKeyPair], what one encrypts under the shared secret of its
    private key and the peer's public key, the peer decrypts under the shared
    secret it computes itself; and no other ciphertext decrypts to that text
    under that nonce. *)
Theorem peers_decrypt {C : CryptoLib} {L : CryptoLaws C} ra rb a b rn plaintext sa ct nonce :
  length ra = 32%nat -> length rb = 32%nat -> length rn = 24%nat ->
  GenerateKeyPair (Some ra) = Ok a -> GenerateKeyPair (Some rb) = Ok b ->
  SharedSecret (PrivateKey a) (PublicKey b) = Ok sa ->
  EncryptMessage sa plaintext (Some rn) = Ok (ct, nonce) ->
  exists sb, SharedSecret (PrivateKey b) (PublicKey a) = Ok sb /\
    forall c, DecryptMessage sb nonce c = Ok plaintext <-> c = ct.
Proof.
  intros Hra Hrb Hrn Ha Hb Hs He.
  apply GenerateKeyPair_inv in Ha as (Hla & Hpa & Hxa); [|done].
  apply GenerateKeyPair_inv in Hb as (Hlb & Hpb & Hxb); [|done].
  apply SharedSecret_Ok in Hs as (_ & _ & Hs). exists sa. split.
  - apply SharedSecret_Ok. rewrite <- (X25519_agree _ _ _ _ Hxa Hxb). done.
  - intros c. pose proof (X25519_length _ _ _ Hs) as Hl.
    unfold EncryptMessage in He. rewrite NewX_true in He by done. injection He as <- <-.
    unfold DecryptMessage. rewrite NewX_true by done. cbn [check mbind result_bind].
    replace (len rn =? NonceLength) with true by (unfold len; by rewrite Hrn).
    cbn [check mbind result_bind]. rewrite or_err_Ok. by apply Open_iff.
Qed.

(** Authenticity of the text: a payload built with a signing key pair
    is parsed back to the sender's keys and the same text, with the
    signature verified, whatever bytes the text holds. *)
Theorem signed_payload_roundtrip {C : CryptoLib} {L : CryptoLaws C} kp plaintext :
  signing kp ->
  ParseSignedPayload (BuildSignedPayload kp plaintext) =
    Ok (mkParsed (Base64.EncodeToString (PublicKey kp)) (Ed25519PublicKey kp) plaintext true).
Proof. apply parse_built. Qed.

(** The signature does not cover the sender's X25519 key: a payload that
    verifies still verifies, with the same text and signing key, after its
    first line is replaced by any other key. *)
Theorem sender_line_unsigned {C : CryptoLib} x x' rest p :
  newline ∉ x -> newline ∉ x' ->
  ParseSignedPayload (x ++ [newline] ++ rest) = Ok p -> verified p = true ->
  ParseSignedPayload (x' ++ [newline] ++ rest) =
    Ok (mkParsed x' (senderEd25519Pubkey p) (plaintext_of p) true).
Proof.
  intros Hx Hx'. unfold ParseSignedPayload. cbn [app].
  rewrite (SplitN_app newline 2 x), (SplitN_app newline 2 x') by done.
  destruct (SplitN newline 3 rest) as [|ed [|sig [|t [|? ?]]]]; try discriminate.
  - by intros [= <-].
  - destruct (Base64.DecodeString ed) as [edb|]; [|by intros [= <-]].
    destruct (negb _); [by intros [= <-]|].
    destruct (Base64.DecodeString sig) as [sb|]; [|by intros [= <-]].
    destruct (negb _); [by intros [= <-]|]. intros [= <-]. cbn [verified]. by intros ->.
Qed.

(** A saved identity loads as the same key pair. *)
Theorem identity_roundtrip {C : CryptoLib} {L : CryptoLaws C} kp :
  signing kp -> exists file, SaveIdentity kp = Some file /\ LoadIdentity (Some file) = Ok kp.
Proof. apply load_saved. Qed.

(** Inviting works: the code generated for a key and a nickname parses
    back to them and to its nonce, and a hello sealed under the key derived
    from the parsed nonce opens, for the inviter, under the key derived from
    the nonce it kept. *)
Theorem invite_hello {C : CryptoLib} {L : CryptoLaws C} pubkey nickname rn code nonce payload rh :
  length rn = 8%nat -> length rh = 24%nat ->
  GenerateInviteCode pubkey nickname (Some rn) = Ok (code, nonce) ->
  ParseInviteCode code = Ok (pubkey, nonce, nickname) /\
  exists hello, EncryptHello (DeriveHelloKey nonce) payload (Some rh) = Ok hello /\
    DecryptHello (DeriveHelloKey nonce) hello = Ok payload.
Proof.
  intros Hn Hh Hg. destruct (invite_parse _ _ _ _ _ Hn Hg) as [Hp ->]. split; [done|].
  assert (length (DeriveHelloKey rn) = 32%nat) as Hk by apply hkdf_length.
  unfold EncryptHello, DecryptHello. rewrite NewX_true by done. eexists. split; [reflexivity|].
  cbn [check mbind result_bind]. rewrite framed_long by done. cbn [negb check].
  by rewrite open_framed.
Qed.

(** A group message opens, under the same group key, to the text that was
    sealed, and under no key does data shorter than a nonce open. *)
Theorem group_roundtrip {C : CryptoLib} {L : CryptoLaws C} key plaintext rn :
  length key = 32%nat -> length rn = 24%nat ->
  (exists data, EncryptGroupMessage key plaintext (Some rn) = Ok data /\
    DecryptGroupMessage key data = Ok plaintext) /\
  forall data, len data < 24 -> DecryptGroupMessage key data = Err TooShort.
Proof.
  intros Hk Hn. unfold EncryptGroupMessage, DecryptGroupMessage. rewrite NewX_true by done. split.
  - eexists. split; [reflexivity|]. cbn [check mbind result_bind]. rewrite framed_long by done.
    cbn [negb check]. by rewrite open_framed.
  - intros data Hd. apply Z.ltb_lt in Hd. unfold NonceLength. by rewrite Hd.
Qed.

(** ** Closed instances of the properties *)
Definition demo_base (c : nat) : KeyPair :=
  mkKeyPair (Sha256.Sum256 $"point") (clamp (replicate 32 (Ascii.ascii_of_nat c))) [] [].

Lemma peers_decrypt_witness :
  let a := deriveEd25519 (demo_base 97) in
  let b := deriveEd25519 (demo_base 98) in
  exists sb, SharedSecret (PrivateKey b) (PublicKey a) = Ok sb.
Proof.
  intros a b.
  pose proof (peers_decrypt (replicate 32 (Ascii.ascii_of_nat 97)) (replicate 32 (Ascii.ascii_of_nat 98)) a b
    (replicate 24 newline) $"hi" (Sha256.Sum256 $"point") _ _ eq_refl eq_refl eq_refl eq_refl eq_refl
    ltac:(vm_compute; reflexivity) eq_refl) as (sb & Hs & _).
  exists sb. exact Hs.
Defined.

Lemma signed_payload_roundtrip_witness :
  let kp := deriveEd25519 (demo_base 97) in
  signing kp /\
  ParseSignedPayload (BuildSignedPayload kp $"hello") =
    Ok (mkParsed (Base64.EncodeToString (PublicKey kp)) (Ed25519PublicKey kp) $"hello" true).
Proof.
  split; [apply deriveEd25519_signing|].
  exact (signed_payload_roundtrip (deriveEd25519 (demo_base 97)) $"hello" (deriveEd25519_signing _)).
Defined.

Lemma sender_line_unsigned_witness :
  let kp := deriveEd25519 (demo_base 97) in
  let ed := Base64.EncodeToString (Ed25519PublicKey kp) in
  let rest := ed ++ [newline] ++ Base64.EncodeToString (SignMessage kp (sig_data ed $"pay Bob"))
              ++ [newline] ++ $"pay Bob" in
  ParseSignedPayload ($"mallory" ++ [newline] ++ rest) =
    Ok (mkParsed $"mallory" (Ed25519PublicKey kp) $"pay Bob" true).
Proof.
  intros kp ed rest.
  apply (sender_line_unsigned (Base64.EncodeToString (PublicKey kp)) $"mallory" rest
    (mkParsed (Base64.EncodeToString (PublicKey kp)) (Ed25519PublicKey kp) $"pay Bob" true)).
  - apply newline_b64.
  - intros Hi%list_elem_of_In. vm_compute in Hi. intuition discriminate.
  - vm_compute. reflexivity.
  - reflexivity.
Defined.

Lemma identity_roundtrip_witness :
  exists file, SaveIdentity (deriveEd25519 (demo_base 97)) = Some file /\
    LoadIdentity (Some file) = Ok (deriveEd25519 (demo_base 97)).
Proof. exact (identity_roundtrip _ (deriveEd25519_signing (demo_base 97))). Defined.

Lemma invite_hello_witness :
  ParseInviteCode ($"v1:" ++ Base32Hex.EncodeToString (Sha256.Sum256 $"k") ++ [colon]
      ++ Base32Hex.EncodeToString $"01234567" ++ [colon] ++ Base32Hex.EncodeToString $"Ann:e")
    = Ok (Sha256.Sum256 $"k", $"01234567", $"Ann:e").
Proof.
  refine (proj1 (invite_hello (Sha256.Sum256 $"k") $"Ann:e" $"01234567" _ _ $"yo" (replicate 24 colon)
    eq_refl eq_refl _)).
  unfold GenerateInviteCode, len. rewrite Sha256.Sum256_length. reflexivity.
Defined.

Lemma group_roundtrip_witness :
  exists data, EncryptGroupMessage (replicate 32 colon) $"all" (Some (replicate 24 dot)) = Ok data /\
    DecryptGroupMessage (replicate 32 colon) data = Ok $"all".
Proof. exact (proj1 (group_roundtrip (replicate 32 colon) $"all" (replicate 24 dot) eq_refl eq_refl)). Defined.
