(* ===== verification/Engine.v ===== *)
(** * The DNS client engine (src/go/internal/client/dns_engine.go)

    Configuration, relay discovery, polling with metadata, and fetching: the
    sequential part of the engine.  Sending to several relays at once is in
    [SendParallel].  Every operation that talks to a relay acts on the world
    [W] of [Dns]; logging is left out. *)

From S2P Require Import Prelude GoStrings Codec Sha256 Encoding Dns.

Definition maxRetries : nat := 3.
Definition defaultChunkSize : Z := 75.
Definition default_resolver : bytes := $"8.8.8.8:53".

Record DNSClientEngine := mkEngine {
  relays : list bytes;
  fallbackRelays : list bytes;
  zone : bytes;
  dnsResolver : bytes;
  fetched : gset bytes;
  transportMode : TransportMode;
  chunkSize : Z
}.

Definition NewDNSClientEngine (fallback : list bytes) (z : bytes) : DNSClientEngine :=
  mkEngine fallback fallback z default_resolver ∅ TransportAuto defaultChunkSize.

Definition SetRelays (rs : list bytes) (e : DNSClientEngine) : DNSClientEngine :=
  mkEngine rs (fallbackRelays e) (zone e) (dnsResolver e) (fetched e) (transportMode e) (chunkSize e).
Definition GetRelays (e : DNSClientEngine) : list bytes := relays e.
Definition SetDNSResolver (r : bytes) (e : DNSClientEngine) : DNSClientEngine :=
  mkEngine (relays e) (fallbackRelays e) (zone e) r (fetched e) (transportMode e) (chunkSize e).
Definition SetTransportMode (m : TransportMode) (e : DNSClientEngine) : DNSClientEngine :=
  mkEngine (relays e) (fallbackRelays e) (zone e) (dnsResolver e) (fetched e) m (chunkSize e).
Definition clamp_chunk_size (size : Z) : Z :=
  let size := if size <? 32 then 32 else size in
  if 200 <? size then 200 else size.
Definition SetChunkSize (size : Z) (e : DNSClientEngine) : DNSClientEngine :=
  mkEngine (relays e) (fallbackRelays e) (zone e) (dnsResolver e) (fetched e) (transportMode e)
    (clamp_chunk_size size).
Definition mark_fetched (id : bytes) (e : DNSClientEngine) : DNSClientEngine :=
  mkEngine (relays e) (fallbackRelays e) (zone e) (dnsResolver e) ({[id]} ∪ fetched e) (transportMode e) (chunkSize e).

Definition discoverActiveRelays (e : DNSClientEngine) : list bytes :=
  if 0 <? len (fallbackRelays e) then fallbackRelays e else GetRelays e.

Record PolledMessage := mkPolled {
  pm_MsgID : bytes;
  pm_Data : bytes;
  pm_Timestamp : Z;
  pm_Sequence : Z
}.

Inductive engine_error :=
| ErrSplitHostPort | ErrResolve | ErrNoARecord
| ErrPollExchange | ErrPollRcode (rcode : Z)
| ErrFetch (i : Z) (e : DnsError) | ErrReassemble (e : EncError) | ErrNoRelays
| EnginePanic.

(** ** Poll records *)

(** An 8-byte big-endian field, zero when it does not parse. *)
Definition meta_field (label : bytes) : Z :=
  match Base32Hex.DecodeString label with
  | Some b => if len b =? 8 then BigEndian.get b else 0
  | None => 0
  end.

Definition parsePollRecord (record : bytes) : option PolledMessage :=
  let parts := SplitN colon 3 record in
  id ← Base32Hex.DecodeString (default [] (head parts));
  if negb (len id =? 8) then None
  else match parts with
       | [_; ts; seq] => Some (mkPolled id [] (i64 (meta_field ts)) (meta_field seq))
       | _ => Some (mkPolled id [] 0 0)
       end.

Definition parsePollResponseWithMeta (resp : DnsMsg) : list PolledMessage :=
  concat (map (fun ans => match ans with TXT txt => omap parsePollRecord txt | _ => [] end) (Answer resp)).

(** The format without metadata. *)
Definition parsePollResponse (resp : DnsMsg) : list bytes :=
  concat (map (fun ans => match ans with
    | TXT txt => omap (fun t => id ← Base32Hex.DecodeString t; if len id =? 8 then Some id else None) txt
    | _ => [] end) (Answer resp)).

Section Client.
Context {DL : DnsLib} {W : Type} {NW : Network W}.
(** [net.ParseIP] is used as a test only. *)
Context (ParseIP : bytes -> bool).
Implicit Types (e : DNSClientEngine) (w : W).

Definition resolveAddr e (addr : bytes) w : W * result engine_error bytes :=
  match SplitHostPort addr with
  | None => (w, Err ErrSplitHostPort)
  | Some (host, port) =>
      if ParseIP host then (w, Ok addr)
      else
        let resolver := if decide (dnsResolver e = []) then default_resolver else dnsResolver e in
        match exchange net_udp resolver (mkQuery [Fqdn host] TypeA true false) w with
        | (w, None) => (w, Err ErrResolve)
        | (w, Some resp) =>
            if negb (Rcode resp =? RcodeSuccess) || (len (Answer resp) =? 0) then (w, Err ErrNoARecord)
            else match omap (fun r => match r with A ip => Some ip | _ => None end) (Answer resp) with
                 | ip :: _ => (w, Ok (JoinHostPort ip port))
                 | [] => (w, Err ErrNoARecord)
                 end
        end
  end.

(** ** Polling *)

Definition poll_msg e (peerID : bytes) : DnsQuery :=
  mkQuery [Fqdn (Join dot [$"POLL"; peerID; zone e])] TypeTXT false false.

(** The response check every transport ends with. *)
Definition poll_final (r : W * option DnsMsg) : W * result engine_error (list PolledMessage) :=
  match r with
  | (w, None) => (w, Err ErrPollExchange)
  | (w, Some resp) =>
      if Rcode resp =? RcodeSuccess then (w, Ok (parsePollResponseWithMeta resp))
      else (w, Err (ErrPollRcode (Rcode resp)))
  end.

Definition pollRelayWithMeta e (addr peerID : bytes) w : W * result engine_error (list PolledMessage) :=
  match resolveAddr e addr w with
  | (w, Err err) => (w, Err err)
  | (w, Ok resolved) =>
      let m := poll_msg e peerID in
      match transportMode e with
      | TransportTCP => poll_final (exchange net_tcp resolved m w)
      | TransportUDP => poll_final (exchange net_udp resolved m w)
      | TransportAuto =>
          match poll_final (exchange net_tcp resolved m w) with
          | (w, Ok msgs) => (w, Ok msgs)
          | (w, Err _) =>
              match poll_final (exchange net_udp resolved m w) with
              | (w, Ok msgs) => (w, Ok msgs)
              | (w, Err _) => poll_final (exchange net_tcp resolved m w)
              end
          end
      end
  end.

(** [if !seen[m.MsgID]]: the messages not yet seen, and all ids seen. *)
Fixpoint add_unseen (msgs : list PolledMessage) (seen : gset bytes) : list PolledMessage * gset bytes :=
  match msgs with
  | [] => ([], seen)
  | m :: rest =>
      if decide (pm_MsgID m ∈ seen) then add_unseen rest seen
      else let '(out, seen) := add_unseen rest ({[pm_MsgID m]} ∪ seen) in (m :: out, seen)
  end.

Fixpoint poll_loop e (peerID : bytes) (rs : list bytes) (all : list PolledMessage) (seen : gset bytes) w
    : W * list PolledMessage :=
  match rs with
  | [] => (w, all)
  | r :: rest =>
      match pollRelayWithMeta e r peerID w with
      | (w, Err _) => poll_loop e peerID rest all seen w
      | (w, Ok msgs) =>
          let '(new, seen) := add_unseen msgs seen in poll_loop e peerID rest (all ++ new) seen w
      end
  end.

(** [PollRelays]; its error is always nil. *)
Definition PollRelays e (recipientPubkey : bytes) w : W * list PolledMessage :=
  if decide (recipientPubkey = []) then (w, [])
  else
    let rs := discoverActiveRelays e in
    if len rs =? 0 then (w, [])
    else poll_loop e (Base32Hex.EncodeToString (Sha256.Sum256 recipientPubkey)) rs [] ∅ w.

(** ** Fetching *)

(** Chunks [i], [i+1], ... [total-1]: [n] of them. *)
Fixpoint fetch_rest (addr z msgID : bytes) (mode : TransportMode) (n : nat) (i : Z) w
    : W * result engine_error (list Chunk) :=
  match n with
  | O => (w, Ok [])
  | S n =>
      match QueryChunk addr z msgID (u16 i) mode w with
      | (w, Err err) => (w, Err (ErrFetch i err))
      | (w, Ok c) =>
          match fetch_rest addr z msgID mode n (i + 1) w with
          | (w, Ok cs) => (w, Ok (c :: cs))
          | (w, Err err) => (w, Err err)
          end
      end
  end.

(** A first chunk announcing no chunks makes the assignment
    [allChunks[0] = firstChunk] panic. *)
Definition fetchAndReassemble (addr z msgID : bytes) (mode : TransportMode) w
    : W * result engine_error bytes :=
  match QueryChunk addr z msgID 0 mode w with
  | (w, Err err) => (w, Err (ErrFetch 0 err))
  | (w, Ok first) =>
      let total := TotalChunks first in
      if total =? 0 then (w, Err EnginePanic)
      else
        match fetch_rest addr z msgID mode (Z.to_nat total - 1) 1 w with
        | (w, Err err) => (w, Err err)
        | (w, Ok cs) =>
            match ReassembleMessage (first :: cs) with
            | Ok data => (w, Ok data)
            | Err err => (w, Err (ErrReassemble err))
            end
        end
  end.

(** The relays in turn until one fetch succeeds; a panic ends everything. *)
Fixpoint fetch_any (rs : list bytes) (z msgID : bytes) (mode : TransportMode) w
    : W * result engine_error bytes :=
  match rs with
  | [] => (w, Err ErrNoRelays)
  | r :: rest =>
      match fetchAndReassemble r z msgID mode w with
      | (w, Ok data) => (w, Ok data)
      | (w, Err EnginePanic) => (w, Err EnginePanic)
      | (w, Err err) => match rest with [] => (w, Err err) | _ => fetch_any rest z msgID mode w end
      end
  end.

Fixpoint fetch_loop (rs : list bytes) (metas : list PolledMessage) e w
    : W * DNSClientEngine * result engine_error (list PolledMessage) :=
  match metas with
  | [] => (w, e, Ok [])
  | pm :: rest =>
      if decide (pm_MsgID pm ∈ fetched e) then fetch_loop rs rest e w
      else
        match fetch_any rs (zone e) (pm_MsgID pm) (transportMode e) w with
        | (w, Err EnginePanic) => (w, e, Err EnginePanic)
        | (w, Err _) => fetch_loop rs rest e w
        | (w, Ok data) =>
            match fetch_loop rs rest (mark_fetched (pm_MsgID pm) e) w with
            | (w, e, Ok out) =>
                (w, e, Ok (mkPolled (pm_MsgID pm) data (pm_Timestamp pm) (pm_Sequence pm) :: out))
            | (w, e, Err err) => (w, e, Err err)
            end
        end
  end.

Definition PollMessages e (recipientPubkey : bytes) w
    : W * DNSClientEngine * result engine_error (list PolledMessage) :=
  match PollRelays e recipientPubkey w with
  | (w, []) => (w, e, Ok [])
  | (w, polledMeta) =>
      let rs := discoverActiveRelays e in
      if len rs =? 0 then (w, e, Err ErrNoRelays) else fetch_loop rs polledMeta e w
  end.

(** ** Sending without relays to choose from *)

Inductive send_error := ErrCtx | ErrAllFailed | ErrUndelivered (missing : list nat) | ErrTimeout (delivered all : nat).

(** Whether the deadline of [SendMessage] has passed in a world. *)
Context (ctx_done : W -> bool).

(** One pass over the relays: [Some r] when [sendWithRetry] returns in it. *)
Fixpoint try_relays e (rs : list bytes) (chunk : Chunk) w : W * option (result send_error unit) :=
  match rs with
  | [] => (w, None)
  | r :: rest =>
      if ctx_done w then (w, Some (Err ErrCtx))
      else match SendChunk r (zone e) chunk (transportMode e) w with
           | (w, Ok _) => (w, Some (Ok tt))
           | (w, Err _) => try_relays e rest chunk w
           end
  end.

Fixpoint send_attempts e (rs : list bytes) (chunk : Chunk) (attempts : nat) w : W * result send_error unit :=
  match attempts with
  | O => (w, Err ErrAllFailed)
  | S n =>
      match try_relays e rs chunk w with
      | (w, Some r) => (w, r)
      | (w, None) => send_attempts e rs chunk n w
      end
  end.

Definition sendWithRetry e (chunk : Chunk) w : W * result send_error unit :=
  send_attempts e (GetRelays e) chunk maxRetries w.

Fixpoint send_each e (chunks : list Chunk) w : W * result send_error unit :=
  match chunks with
  | [] => (w, Ok tt)
  | c :: rest =>
      match sendWithRetry e c w with
      | (w, Ok _) => send_each e rest w
      | (w, Err err) => (w, Err err)
      end
  end.

End Client.

(** ** Merging the answers of several relays *)
Section Polling.

Lemma add_unseen_spec msgs seen :
  let '(out, seen') := add_unseen msgs seen in
  NoDup (map pm_MsgID out) /\ out `sublist_of` msgs /\
  (forall id, id ∈ map pm_MsgID out <-> id ∈ map pm_MsgID msgs /\ id ∉ seen) /\
  (forall id, id ∈ seen' <-> id ∈ seen \/ id ∈ map pm_MsgID msgs).
Proof.
  revert seen. induction msgs as [|m rest IH]; intros seen; simpl.
  - split; [apply NoDup_nil_2|]. split; [done|]. split; intros id; rewrite elem_of_nil; tauto.
  - case_decide as Hm.
    + specialize (IH seen). destruct (add_unseen rest seen) as [out seen'].
      destruct IH as (H1 & H2 & H3 & H4). split; [done|]. split; [by apply sublist_cons|].
      split; intros id; rewrite elem_of_cons; [rewrite H3|rewrite H4]; split; intros; try tauto; naive_solver.
    + specialize (IH ({[pm_MsgID m]} ∪ seen)). destruct (add_unseen rest _) as [out seen'].
      destruct IH as (H1 & H2 & H3 & H4). simpl. split; [|split; [|split]].
      * apply NoDup_cons. split; [|done]. rewrite H3. set_solver.
      * by apply sublist_skip.
      * intros id. rewrite !elem_of_cons, H3. split; [naive_solver set_solver|].
        intros [[->|Hin] Hs]; [by left|]. destruct (decide (id = pm_MsgID m)); [by left|right]. set_solver.
      * intros id. rewrite H4, elem_of_cons. set_solver.
Qed.

Context {DL : DnsLib} {W : Type} {NW : Network W} (ParseIP : bytes -> bool).

(** The messages each relay that answered reported, in the order polled. *)
Fixpoint replies (e : DNSClientEngine) (peerID : bytes) (rs : list bytes) (w : W) : W * list PolledMessage :=
  match rs with
  | [] => (w, [])
  | r :: rest =>
      let '(w, res) := pollRelayWithMeta ParseIP e r peerID w in
      let '(w, more) := replies e peerID rest w in
      (w, match res with Ok msgs => msgs ++ more | Err _ => more end)
  end.

Lemma add_unseen_app l k seen :
  add_unseen (l ++ k) seen =
    let '(a, s1) := add_unseen l seen in let '(b, s2) := add_unseen k s1 in (a ++ b, s2).
Proof.
  revert seen. induction l as [|m l IH]; intros seen; simpl; [by destruct (add_unseen k seen)|].
  case_decide; [apply IH|]. rewrite IH. destruct (add_unseen l _) as [a s1].
  by destruct (add_unseen k s1).
Qed.

Lemma poll_loop_replies e peerID rs all seen w :
  poll_loop ParseIP e peerID rs all seen w =
    let '(w', msgs) := replies e peerID rs w in (w', all ++ (add_unseen msgs seen).1).
Proof.
  revert all seen w. induction rs as [|r rest IH]; intros all seen w; simpl; [by rewrite app_nil_r|].
  destruct (pollRelayWithMeta ParseIP e r peerID w) as [w1 [msgs|err]].
  - destruct (add_unseen msgs seen) as [new seen'] eqn:Ha. rewrite IH.
    destruct (replies e peerID rest w1) as [w2 more]. rewrite add_unseen_app, Ha.
    destruct (add_unseen more seen') as [b s2]. simpl. by rewrite <- app_assoc.
  - rewrite IH. by destruct (replies e peerID rest w1).
Qed.

Lemma PollRelays_replies e pk w :
  pk <> [] -> discoverActiveRelays e <> [] ->
  PollRelays ParseIP e pk w =
    let '(w', msgs) := replies e (Base32Hex.EncodeToString (Sha256.Sum256 pk)) (discoverActiveRelays e) w in
    (w', (add_unseen msgs ∅).1).
Proof.
  intros Hp Hr. unfold PollRelays. rewrite decide_False by done.
  replace (len (discoverActiveRelays e) =? 0) with false
    by (destruct (discoverActiveRelays e); [done|]; symmetry; apply Z.eqb_neq; unfold len; simpl; lia).
  rewrite poll_loop_replies. by destruct (replies _ _ _ w).
Qed.

End Polling.

Section Fetching.
Context {DL : DnsLib} {W : Type} {NW : Network W}.

(** What [fetch_loop] returns is new, and is remembered. *)
Lemma fetch_loop_spec rs metas e w w' e' out :
  fetch_loop rs metas e w = (w', e', Ok out) ->
  NoDup (map pm_MsgID out) /\
  (forall id, id ∈ map pm_MsgID out -> (id ∉ fetched e) /\ id ∈ map pm_MsgID metas) /\
  fetched e' ≡ fetched e ∪ list_to_set (map pm_MsgID out).
Proof.
  revert e w w' e' out. induction metas as [|pm rest IH]; intros e w w' e' out; simpl.
  { intros [= <- <- <-]. simpl. split; [apply NoDup_nil_2|]. split; [by intros id H%not_elem_of_nil|set_solver]. }
  case_decide as Hf.
  { intros H%IH. destruct H as (H1 & H2 & H3). split; [done|]. split; [|done].
    intros id Hid. apply H2 in Hid. rewrite elem_of_cons. tauto. }
  destruct (fetch_any rs (zone e) (pm_MsgID pm) (transportMode e) w) as [w1 [data|err]].
  - destruct (fetch_loop rs rest (mark_fetched (pm_MsgID pm) e) w1) as [[w2 e2] [out'|err]] eqn:Hl; [|discriminate].
    intros [= <- <- <-]. apply IH in Hl as (H1 & H2 & H3). simpl in *. split; [|split].
    + apply NoDup_cons. split; [|done]. intros Hin%H2. set_solver.
    + intros id [->|Hin]%elem_of_cons; [split; [done|left]|]. apply H2 in Hin. split; [set_solver|right; tauto].
    + rewrite H3. set_solver.
  - intros H. assert (fetch_loop rs rest e w1 = (w', e', Ok out)) as (H1 & H2 & H3)%IH by (destruct err; done).
    split; [done|]. split; [|done]. intros id Hid. apply H2 in Hid. rewrite elem_of_cons. tauto.
Qed.

End Fetching.

(** ** Sizes of names *)
Section NameLength.
Context (msgID pt pk z : bytes) (Hid : length msgID = 8%nat).

Lemma default_chunk_name c :
  c ∈ ChunkMessage msgID pt defaultChunkSize pk -> (wire_length (EncodeToLabels c z) <= 206 + length z)%nat.
Proof.
  intros Hc. pose proof (ChunkMessage_wf msgID pt defaultChunkSize pk Hid) as Hwf.
  rewrite Forall_forall in Hwf. rewrite EncodeToLabels_wire by auto.
  apply list_elem_of_lookup_1 in Hc as (i & [Hi ->]%ChunkMessage_lookup).
  cbn [Payload set_recipient NewChunk RecipientHash].
  match goal with |- context [length (slice ?a ?b ?l)] =>
    assert (length (slice a b l) <= 75)%nat as Hs end.
  { unfold slice. rewrite length_take. unfold effective_size, defaultChunkSize. simpl. lia. }
  set (p := length (slice _ _ _)) in *. clearbody p.
  assert ((8 * p + 4) / 5 <= 120)%nat as He by (apply Nat.lt_succ_r, Nat.Div0.div_lt_upper_bound; lia).
  set (q := ((8 * p + 4) / 5)%nat) in *. clearbody q.
  assert ((q + 62) / 63 <= 2)%nat by (apply Nat.lt_succ_r, Nat.Div0.div_lt_upper_bound; lia).
  case_decide; lia.
Qed.

Lemma large_chunk_name : pk <> [] -> (200 <= length pt)%nat ->
  exists c rest, ChunkMessage msgID pt 200 pk = c :: rest /\ (255 < wire_length (EncodeToLabels c z))%nat.
Proof.
  intros Hpk Hl.
  destruct (ChunkMessage msgID pt 200 pk) as [|c rest] eqn:Hc.
  { apply (f_equal length) in Hc. rewrite length_ChunkMessage in Hc. cbn [length] in Hc.
    destruct (chunk_total_spec pt (effective_size 200) (effective_size_pos 200)) as (Hb & _).
    rewrite Hc in Hb. lia. }
  exists c, rest. split; [done|].
  pose proof (ChunkMessage_wf msgID pt 200 pk Hid) as Hwf. rewrite Hc in Hwf. inversion Hwf as [|? ? Hw _]; subst.
  rewrite EncodeToLabels_wire by done.
  assert (ChunkMessage msgID pt 200 pk !! 0%nat = Some c) as [_ ->]%ChunkMessage_lookup by (by rewrite Hc).
  cbn [Payload set_recipient NewChunk RecipientHash].
  assert (recipient_hash pk <> []) as Hh.
  { unfold recipient_hash. rewrite decide_False by done. intros H%(f_equal length).
    by rewrite Sha256.Sum256_length in H. }
  rewrite decide_False by done. rewrite length_slice by apply Nat.le_min_r.
  replace (Nat.min (0 * effective_size 200 + effective_size 200) (length pt) - 0 * effective_size 200)%nat with 200%nat
    by (change (effective_size 200) with 200%nat; lia).
  change ((8 * 200 + 4) / 5)%nat with 320%nat. lia.
Qed.

End NameLength.

(** ** Properties *)

(** Polling several relays merges their answers: [PollRelays] returns
    each message id once, every id some relay reported, and only reported
    records. *)
Theorem poll_merges {DL : DnsLib} {W} {NW : Network W} ParseIP e pk (w : W) :
  pk <> [] -> discoverActiveRelays e <> [] ->
  let reported := (replies ParseIP e (Base32Hex.EncodeToString (Sha256.Sum256 pk)) (discoverActiveRelays e) w).2 in
  let all := (PollRelays ParseIP e pk w).2 in
  NoDup (map pm_MsgID all) /\ all `sublist_of` reported /\
  (forall id, id ∈ map pm_MsgID all <-> id ∈ map pm_MsgID reported).
Proof.
  intros Hp Hr. cbv zeta. rewrite PollRelays_replies by done.
  destruct (replies _ _ _ _ w) as [w' msgs]. cbn [snd].
  pose proof (add_unseen_spec msgs ∅) as H. destruct (add_unseen msgs ∅) as [out seen].
  destruct H as (H1 & H2 & H3 & _). split; [done|]. split; [done|]. intros id. rewrite H3. set_solver.
Qed.

(** C20: a message is handed to the caller once: the messages
    [PollMessages] returns have distinct ids, none of which was fetched
    before, and all of them are remembered as fetched. *)
Theorem poll_messages_once {DL : DnsLib} {W} {NW : Network W} ParseIP e pk (w w' : W) e' out :
  PollMessages ParseIP e pk w = (w', e', Ok out) ->
  NoDup (map pm_MsgID out) /\ (forall id, id ∈ map pm_MsgID out -> id ∉ fetched e) /\
  fetched e' ≡ fetched e ∪ list_to_set (map pm_MsgID out).
Proof.
  unfold PollMessages. destruct (PollRelays ParseIP e pk w) as [w1 [|m metas]].
  - intros [= <- <- <-]. simpl. split; [apply NoDup_nil_2|]. split; [by intros id H%not_elem_of_nil|set_solver].
  - destruct (_ =? 0); [discriminate|]. intros (H1 & H2 & H3)%fetch_loop_spec. split; [done|]. split; [|done].
    intros id Hid. by apply H2.
Qed.

(** C40: the size limits of [SetChunkSize] and DNS names: the stored size is
    between 32 and 200; with the default of 75 every chunk addressed to a
    key makes a name of at most 206 octets besides the zone; but at the
    limit of 200 the first chunk of a message of 200 bytes or more already
    exceeds the 255 octets of a DNS name, whatever the zone. *)
Theorem chunk_size_names e size msgID pt pk :
  length msgID = 8%nat -> pk <> [] ->
  32 <= chunkSize (SetChunkSize size e) <= 200 /\
  (forall c, c ∈ ChunkMessage msgID pt defaultChunkSize pk ->
     (wire_length (EncodeToLabels c (zone e)) <= 206 + length (zone e))%nat) /\
  (200 <= size -> (200 <= length pt)%nat -> exists c rest,
     ChunkMessage msgID pt (chunkSize (SetChunkSize size e)) pk = c :: rest /\
     (255 < wire_length (EncodeToLabels c (zone e)))%nat).
Proof.
  intros Hid Hpk. cbn [chunkSize SetChunkSize]. unfold clamp_chunk_size. split; [|split].
  - destruct (size <? 32) eqn:H1, (200 <? _) eqn:H2; lia.
  - intros c. by apply default_chunk_name.
  - intros Hs Hl. replace (size <? 32) with false by (symmetry; apply Z.ltb_ge; lia).
    assert ((if 200 <? size then 200 else size) = 200) as -> by (destruct (200 <? size) eqn:H; lia).
    by apply large_chunk_name.
Qed.

(** A relay can crash the client: when the answer for chunk 0 is a
    well-formed chunk that announces no chunks, [fetchAndReassemble] stores
    it at index 0 of an empty slice. *)
Theorem fetch_panics {DL : DnsLib} addr z msgID c log0 rest :
  chunk_wf c -> TotalChunks c = 0 ->
  (fetchAndReassemble (NW := script_network) addr z msgID TransportTCP
     (mkScript (Some (mkMsg RcodeSuccess [TXT (body_labels c)]) :: rest) log0)).2 = Err EnginePanic.
Proof.
  intros Hwf Ht. unfold fetchAndReassemble, QueryChunk, query_once, exchange, script_network.
  cbn [responses Rcode Answer]. change (negb (RcodeSuccess =? RcodeSuccess)) with false. cbn [orb].
  rewrite bool_decide_eq_false_2 by discriminate. unfold parse_answer. cbn [Answer].
  rewrite <- EncodeToLabels_body, decode_encode_chunk by done. by rewrite Ht.
Qed.

(** ** Closed instances of the properties *)
Definition demo_poll : script :=
  mkScript [Some (mkMsg RcodeSuccess [TXT [Base32Hex.EncodeToString $"01234567"]]);
            Some (mkMsg RcodeSuccess [TXT [Base32Hex.EncodeToString $"89abcdef"; Base32Hex.EncodeToString $"01234567"]]);
            Some (mkMsg RcodeSuccess [TXT (body_labels (NewChunk $"01234567" 0 1 $"hi"))])] [].
Definition two_relays : DNSClientEngine := NewDNSClientEngine [$"10.0.0.1:53"; $"10.0.0.2:53"] $"zone".

Lemma poll_merges_witness :
  NoDup (map pm_MsgID (PollRelays (DL := simple_dns_lib) (NW := script_network) (fun _ => true) two_relays $"key" demo_poll).2).
Proof.
  apply (poll_merges (DL := simple_dns_lib) (NW := script_network) (fun _ => true) two_relays $"key" demo_poll);
    discriminate.
Defined.

Lemma poll_messages_once_witness :
  exists w' e', PollMessages (DL := simple_dns_lib) (NW := script_network) (fun _ => true) two_relays $"key" demo_poll
      = (w', e', Ok [mkPolled $"01234567" $"hi" 0 0]) /\
    fetched e' ≡ fetched two_relays ∪ list_to_set [$"01234567"].
Proof.
  eexists _, _. split; [vm_compute; reflexivity|].
  refine (proj2 (proj2 (poll_messages_once (DL := simple_dns_lib) (NW := script_network) (fun _ => true) two_relays
    $"key" demo_poll _ _ [mkPolled $"01234567" $"hi" 0 0] _))).
  vm_compute. reflexivity.
Defined.

Lemma chunk_size_names_witness :
  exists c rest, ChunkMessage $"01234567" (replicate 200 dot) (chunkSize (SetChunkSize 500 two_relays)) $"key" = c :: rest /\
     (255 < wire_length (EncodeToLabels c (zone two_relays)))%nat.
Proof.
  apply (chunk_size_names two_relays 500 $"01234567" (replicate 200 dot) $"key");
    [reflexivity|discriminate|lia|rewrite length_replicate; lia].
Defined.

Lemma fetch_panics_witness :
  (fetchAndReassemble (DL := simple_dns_lib) (NW := script_network) $"10.0.0.1:53" $"zone" $"01234567" TransportTCP
     (mkScript [Some (mkMsg RcodeSuccess [TXT (body_labels (NewChunk $"01234567" 0 0 []))])] [])).2 = Err EnginePanic.
Proof.
  apply (fetch_panics (DL := simple_dns_lib)); [|reflexivity].
  split; simpl; [reflexivity|unfold is_u16; lia|unfold is_u16; lia|apply crc16_u16|by left].
Defined.
