(* ===== verification/SendParallel.v ===== *)
(** * Concurrent sending (sendParallel and SendMessage of dns_engine.go)

    [sendParallel] starts one goroutine per chunk and relay, limits the ones
    that send to [parallelism], and watches a shared table of delivered
    chunks.  It is modelled as a transition system: every select, channel
    operation, locked update and deferred call of a goroutine, and every case
    of the select of the watching loop, is a step, and the steps of different
    goroutines interleave freely.  One [SendChunk] is one step on the world.
    A tick that finds chunks still undelivered leaves everything as it is and
    goes back to the select; the other steps are the moves [pmove]. *)

From S2P Require Import Prelude GoStrings Codec Sha256 Encoding Dns Engine.

Definition parallelism : nat := 15.

Inductive wstate :=
| Waiting     (* blocked on the semaphore *)
| Acquired    (* holds the semaphore, before the second check of the context *)
| Sending     (* inside SendChunk *)
| Sent        (* SendChunk returned nil, before the table is marked *)
| Releasing   (* before the deferred release of the semaphore *)
| Leaving     (* before the deferred wg.Done *)
| Finished.

#[export] Instance wstate_eq_dec : EqDecision wstate.
Proof. solve_decision. Defined.

Record worker := mkWorker { w_chunk : nat; w_relay : bytes; w_state : wstate }.

(** The watching loop: selecting, waiting for the goroutines after it decided
    to stop (successfully or not), returned. *)
Inductive phase :=
| Looping
| Draining (ok : bool)
| Returned (r : result send_error unit).

Record PState (W : Type) := mkPState {
  workers : list worker;
  chunkDelivered : list bool;
  sem : nat;
  cancelled : bool;
  loop : phase;
  world : W;
  accepted : list (nat * bytes)   (* history: the sends that returned nil *)
}.
Arguments mkPState {W} _ _ _ _ _ _ _.
Arguments workers {W} _.
Arguments chunkDelivered {W} _.
Arguments sem {W} _.
Arguments cancelled {W} _.
Arguments loop {W} _.
Arguments world {W} _.
Arguments accepted {W} _.

Definition set_wstate (k : nat) (st : wstate) (ws : list worker) : list worker :=
  alter (fun w => mkWorker (w_chunk w) (w_relay w) st) k ws.

(** The indices of the chunks no relay accepted. *)
Fixpoint missing_from (i : nat) (delivered : list bool) : list nat :=
  match delivered with
  | [] => []
  | true :: rest => missing_from (S i) rest
  | false :: rest => i :: missing_from (S i) rest
  end.
Definition undelivered (delivered : list bool) : list nat := missing_from 0 delivered.

Section Send.
Context {DL : DnsLib} {W : Type} {NW : Network W}.
Context (e : DNSClientEngine) (chunks : list Chunk).
Implicit Types (s : PState W).

Definition all_finished s : bool := forallb (fun w => bool_decide (w_state w = Finished)) (workers s).

Definition start_workers (rs : list bytes) : list worker :=
  concat (map (fun i => map (fun r => mkWorker i r Waiting) rs) (seq 0 (length chunks))).

Definition init_state (rs : list bytes) (w : W) : PState W :=
  mkPState (start_workers rs) (replicate (length chunks) false) 0 false Looping w [].

(** What the loop returns when every goroutine has finished. *)
Definition verdict s : result send_error unit :=
  match undelivered (chunkDelivered s) with
  | [] => Ok tt
  | missing => Err (ErrUndelivered missing)
  end.

Definition timeout_error s : send_error :=
  ErrTimeout (length chunks - length (undelivered (chunkDelivered s))) (length chunks).

Definition move k (st : wstate) (sem' : nat) s : PState W :=
  mkPState (set_wstate k st (workers s)) (chunkDelivered s) sem' (cancelled s) (loop s) (world s) (accepted s).
Definition set_loop (c : bool) (p : phase) s : PState W :=
  mkPState (workers s) (chunkDelivered s) (sem s) c p (world s) (accepted s).
Definition set_world (w : W) s : PState W :=
  mkPState (workers s) (chunkDelivered s) (sem s) (cancelled s) (loop s) w (accepted s).
Definition accept (i : nat) (r : bytes) s : PState W :=
  mkPState (workers s) (chunkDelivered s) (sem s) (cancelled s) (loop s) (world s) ((i, r) :: accepted s).
Definition deliver (i : nat) s : PState W :=
  mkPState (workers s) (<[i := true]> (chunkDelivered s)) (sem s) (cancelled s) (loop s) (world s) (accepted s).

Inductive pmove : PState W -> PState W -> Prop :=
| p_acquire k w s :
    workers s !! k = Some w -> w_state w = Waiting -> (sem s < parallelism)%nat ->
    pmove s (move k Acquired (sem s + 1) s)
| p_abandon k w s :
    workers s !! k = Some w -> w_state w = Waiting -> cancelled s = true ->
    pmove s (move k Leaving (sem s) s)
| p_stop k w s :
    workers s !! k = Some w -> w_state w = Acquired -> cancelled s = true ->
    pmove s (move k Releasing (sem s) s)
| p_start k w s :
    workers s !! k = Some w -> w_state w = Acquired -> cancelled s = false ->
    pmove s (move k Sending (sem s) s)
| p_fail k w c w' err s :
    workers s !! k = Some w -> w_state w = Sending -> chunks !! w_chunk w = Some c ->
    SendChunk (w_relay w) (zone e) c (transportMode e) (world s) = (w', Err err) ->
    pmove s (move k Releasing (sem s) (set_world w' s))
| p_sent k w c w' s :
    workers s !! k = Some w -> w_state w = Sending -> chunks !! w_chunk w = Some c ->
    SendChunk (w_relay w) (zone e) c (transportMode e) (world s) = (w', Ok tt) ->
    pmove s (accept (w_chunk w) (w_relay w) (move k Sent (sem s) (set_world w' s)))
| p_mark k w s :
    workers s !! k = Some w -> w_state w = Sent ->
    pmove s (move k Releasing (sem s) (deliver (w_chunk w) s))
| p_release k w s :
    workers s !! k = Some w -> w_state w = Releasing ->
    pmove s (move k Leaving (sem s - 1) s)
| p_exit k w s :
    workers s !! k = Some w -> w_state w = Leaving ->
    pmove s (move k Finished (sem s) s)
| p_deadline s :
    cancelled s = false -> (forall r, loop s <> Returned r) ->
    pmove s (set_loop true (loop s) s)
| p_done s :
    loop s = Looping -> all_finished s = true ->
    pmove s (set_loop (cancelled s) (Returned (verdict s)) s)
| p_cancelled s :
    loop s = Looping -> cancelled s = true ->
    pmove s (set_loop true (Draining false) s)
| p_tick s :
    loop s = Looping -> undelivered (chunkDelivered s) = [] ->
    pmove s (set_loop true (Draining true) s)
| p_drained ok s :
    loop s = Draining ok -> all_finished s = true ->
    pmove s (set_loop (cancelled s) (Returned (if ok then Ok tt else Err (timeout_error s))) s).

Inductive pstep : PState W -> PState W -> Prop :=
| p_move s s' : pmove s s' -> pstep s s'
| p_idle s : loop s = Looping -> undelivered (chunkDelivered s) <> [] -> pstep s s.

(** A run with its numbers of moves and of idle ticks. *)
Inductive counted : nat -> nat -> PState W -> PState W -> Prop :=
| run_here s : counted 0 0 s s
| run_move m t a b c : pmove a b -> counted m t b c -> counted (S m) t a c
| run_idle m t a c :
    loop a = Looping -> undelivered (chunkDelivered a) <> [] -> counted m t a c -> counted m (S t) a c.

(** [sendParallel] can return [r] and leave the world [w']. *)
Definition sendParallel (rs : list bytes) (w w' : W) (r : result send_error unit) : Prop :=
  if (len chunks =? 0) || (len rs =? 0) then w' = w /\ r = Ok tt
  else exists s, rtc pstep (init_state rs w) s /\ loop s = Returned r /\ world s = w'.

End Send.

(** [SendMessage] with the random id [msgID]: its results on the world. *)
Definition SendMessage {DL : DnsLib} {W} {NW : Network W} (ctx_done : W -> bool) (e : DNSClientEngine)
    (plaintext recipientPubkey msgID : bytes) (w w' : W) (r : result send_error (bytes * Z)) : Prop :=
  let chunks := ChunkMessage msgID plaintext (chunkSize e) recipientPubkey in
  let rs := discoverActiveRelays e in
  let finish (r0 : result send_error unit) := (fun _ => (msgID, len chunks)) <$> r0 in
  if 0 <? len rs then exists r0, sendParallel e chunks rs w w' r0 /\ r = finish r0
  else w' = (send_each ctx_done e chunks w).1 /\ r = finish (send_each ctx_done e chunks w).2.

(** ** The delivery table *)
Lemma missing_from_elem i delivered j :
  j ∈ missing_from i delivered <-> exists k, j = (i + k)%nat /\ delivered !! k = Some false.
Proof.
  revert i. induction delivered as [|[|] rest IH]; intros i; simpl.
  - rewrite elem_of_nil. split; [done|]. by intros (k & _ & H).
  - rewrite IH. split.
    + intros (k & -> & H). exists (S k). split; [lia|done].
    + intros ([|k] & -> & H); [done|]. exists k. split; [lia|done].
  - rewrite elem_of_cons, IH. split.
    + intros [->|(k & -> & H)]; [exists 0%nat; split; [lia|done]|exists (S k); split; [lia|done]].
    + intros ([|k] & -> & H); [left; lia|right]. exists k. split; [lia|done].
Qed.

Lemma undelivered_elem delivered j : j ∈ undelivered delivered <-> delivered !! j = Some false.
Proof. unfold undelivered. rewrite missing_from_elem. split; [by intros (k & -> & H)|eauto]. Qed.

Lemma undelivered_nil delivered :
  undelivered delivered = [] <-> forall i, (i < length delivered)%nat -> delivered !! i = Some true.
Proof.
  split.
  - intros H i Hi. destruct (lookup_lt_is_Some_2 delivered i Hi) as [[|] Hd]; [done|].
    apply undelivered_elem in Hd. rewrite H in Hd. by apply not_elem_of_nil in Hd.
  - intros H. destruct (undelivered delivered) as [|j l] eqn:Hu; [done|].
    assert (j ∈ undelivered delivered) as Hj by (rewrite Hu; apply list_elem_of_here).
    apply undelivered_elem in Hj. pose proof (lookup_lt_Some _ _ _ Hj). rewrite H in Hj by done. done.
Qed.

(** ** Counting goroutines by state *)
Definition holds_sem (w : worker) : bool :=
  match w_state w with Acquired | Sending | Sent | Releasing => true | _ => false end.
Definition holders (ws : list worker) : nat := length (List.filter holds_sem ws).
Definition weight (st : wstate) : nat :=
  match st with Waiting => 6 | Acquired => 5 | Sending => 4 | Sent => 3 | Releasing => 2 | Leaving => 1 | Finished => 0 end.
Definition work (ws : list worker) : nat := sum_list_with (fun w => weight (w_state w)) ws.

Definition b2n (b : bool) : nat := if b then 1 else 0.

Lemma holders_set ws k w st :
  ws !! k = Some w ->
  (holders (set_wstate k st ws) + b2n (holds_sem w))%nat =
  (holders ws + b2n (holds_sem (mkWorker (w_chunk w) (w_relay w) st)))%nat.
Proof.
  unfold holders, set_wstate. revert k. induction ws as [|x ws IH]; intros [|k] Hk; try done.
  - injection Hk as ->. simpl. destruct (holds_sem w), (holds_sem (mkWorker _ _ st)); simpl; lia.
  - specialize (IH k Hk). simpl. destruct (holds_sem x); simpl; unfold alter in IH; lia.
Qed.

Lemma holder_pos ws k w : ws !! k = Some w -> holds_sem w = true -> (0 < holders ws)%nat.
Proof.
  intros Hk Hw. pose proof (holders_set ws k w Finished Hk) as H. rewrite Hw in H. simpl in H. lia.
Qed.

Lemma work_set ws k w st :
  ws !! k = Some w -> (work (set_wstate k st ws) + weight (w_state w))%nat = (work ws + weight st)%nat.
Proof.
  unfold work, set_wstate. revert k. induction ws as [|x ws IH]; intros [|k] Hk; try done.
  - injection Hk as ->. simpl. lia.
  - specialize (IH k Hk). simpl. unfold alter in IH. lia.
Qed.

Lemma set_wstate_targets k st ws :
  map (fun w => (w_chunk w, w_relay w)) (set_wstate k st ws) = map (fun w => (w_chunk w, w_relay w)) ws.
Proof.
  unfold set_wstate. revert k. induction ws as [|x ws IH]; intros [|k]; try done.
  simpl. f_equal. apply (IH k).
Qed.

(** ** The invariant *)
Section Invariant.
Context {DL : DnsLib} {W : Type} {NW : Network W}.
Context (e : DNSClientEngine) (chunks : list Chunk) (rs : list bytes).
Implicit Types (s : PState W).

Definition targets (ws : list worker) : list (nat * bytes) := map (fun w => (w_chunk w, w_relay w)) ws.

Definition loop_ok s : Prop :=
  match loop s with
  | Looping => True
  | Draining ok => ok = true -> undelivered (chunkDelivered s) = []
  | Returned (Ok _) => undelivered (chunkDelivered s) = [] /\ all_finished s = true
  | Returned (Err (ErrUndelivered l)) =>
      l = undelivered (chunkDelivered s) /\ l <> [] /\ all_finished s = true
  | Returned (Err _) => all_finished s = true
  end.

Record pinv s : Prop := {
  pi_targets : targets (workers s) = targets (start_workers chunks rs);
  pi_len : length (chunkDelivered s) = length chunks;
  pi_sem : sem s = holders (workers s);
  pi_limit : (sem s <= parallelism)%nat;
  pi_mark : forall i, chunkDelivered s !! i = Some true -> exists r, (i, r) ∈ accepted s;
  pi_acc : forall i r, (i, r) ∈ accepted s -> chunkDelivered s !! i = Some true \/
    exists k, workers s !! k = Some (mkWorker i r Sent);
  pi_sent : forall k w, workers s !! k = Some w -> w_state w = Sent -> (w_chunk w, w_relay w) ∈ accepted s;
  pi_rel : forall i r, (i, r) ∈ accepted s -> (i, r) ∈ targets (workers s);
  pi_loop : loop_ok s
}.

Lemma start_targets i r : (i, r) ∈ targets (start_workers chunks rs) <-> (i < length chunks)%nat /\ r ∈ rs.
Proof.
  unfold targets, start_workers. rewrite concat_map, map_map, list_elem_of_In, in_concat. split.
  - intros (l & Hl & Hin). apply in_map_iff in Hl as (j & <- & Hj%in_seq).
    rewrite map_map in Hin. apply in_map_iff in Hin as (r' & [= -> ->] & Hr). rewrite list_elem_of_In. split; [lia|done].
  - intros [Hi Hr%list_elem_of_In]. exists (map (fun r => (i, r)) rs). split.
    + apply in_map_iff. exists i. rewrite map_map. split; [done|]. apply in_seq. lia.
    + by apply in_map.
Qed.

Lemma holders_start : holders (start_workers chunks rs) = 0%nat.
Proof.
  unfold holders, start_workers. induction (seq 0 (length chunks)) as [|i l IH]; [done|].
  simpl. rewrite List.filter_app, length_app, IH. clear IH. induction rs as [|r l' IHr]; [done|]. simpl. exact IHr.
Qed.

Lemma work_start : work (start_workers chunks rs) = (6 * length chunks * length rs)%nat.
Proof.
  unfold work, start_workers.
  rewrite <- (length_seq (length chunks) 0) at 2. induction (seq 0 (length chunks)) as [|i l IH]; [done|].
  simpl. rewrite sum_list_with_app, IH.
  assert (forall l : list bytes, sum_list_with (fun w => weight (w_state w)) (map (fun r => mkWorker i r Waiting) l)
    = (6 * length l)%nat) as -> by (intros l'; induction l' as [|r l' IHr]; simpl; [done|]; rewrite IHr; simpl; lia).
  lia.
Qed.

Lemma init_inv w : pinv (init_state chunks rs w).
Proof.
  split; simpl; [done|by rewrite length_replicate|by rewrite holders_start|lia| | | | |done].
  - intros i. rewrite lookup_replicate. by intros [[=] _].
  - by intros i r H%not_elem_of_nil.
  - intros k x Hk Hx. exfalso. pose proof (holder_pos _ k x Hk) as H. rewrite holders_start in H.
    unfold holds_sem in H. rewrite Hx in H. specialize (H eq_refl). lia.
  - by intros i r H%not_elem_of_nil.
Qed.

Lemma finished_no_step s k w :
  all_finished s = true -> workers s !! k = Some w -> w_state w = Finished.
Proof.
  intros Hf Hk. unfold all_finished in Hf. rewrite forallb_forall in Hf.
  apply list_elem_of_lookup_2, list_elem_of_In, Hf in Hk. by apply bool_decide_eq_true in Hk.
Qed.

(** A goroutine that is still running keeps the loop from having returned,
    so its moves cannot spoil the verdict. *)
Lemma loop_ok_move s s' k w :
  workers s !! k = Some w -> w_state w <> Finished -> loop s' = loop s ->
  (undelivered (chunkDelivered s) = [] -> undelivered (chunkDelivered s') = []) ->
  loop_ok s -> loop_ok s'.
Proof.
  intros Hk Hw Hl Hu. unfold loop_ok. rewrite Hl. destruct (loop s) as [|ok|[u|err]]; [done|by auto| |].
  - intros [_ Hf]. by eapply finished_no_step in Hf; [|done].
  - destruct err; intros H; exfalso; apply Hw; (eapply finished_no_step; [|done]); naive_solver.
Qed.

Lemma set_wstate_other k j st ws : j <> k -> set_wstate k st ws !! j = ws !! j.
Proof. intros H. unfold set_wstate. by rewrite list_lookup_alter_ne. Qed.

Lemma set_wstate_at k st ws w :
  ws !! k = Some w -> set_wstate k st ws !! k = Some (mkWorker (w_chunk w) (w_relay w) st).
Proof. intros H. unfold set_wstate. by rewrite list_lookup_alter_eq, H. Qed.

Lemma pinv_move s k w st n :
  workers s !! k = Some w -> w_state w <> Finished ->
  (w_state w = Sent -> chunkDelivered s !! w_chunk w = Some true) -> st <> Sent ->
  (n + b2n (holds_sem w) = sem s + b2n (holds_sem (mkWorker (w_chunk w) (w_relay w) st)))%nat ->
  (n <= parallelism)%nat -> pinv s -> pinv (move k st n s).
Proof.
  intros Hk Hw Hsent Hst Hn Hlim [Ht Hl Hs _ Hm Ha Hse Hr Hp]. split; simpl; try done.
  - unfold targets. by rewrite set_wstate_targets.
  - pose proof (holders_set (workers s) k w st Hk). lia.
  - intros i r Hin. destruct (Ha i r Hin) as [H|[j Hj]]; [by left|].
    destruct (decide (j = k)) as [->|Hne].
    + rewrite Hk in Hj. injection Hj as ->. left. by apply Hsent.
    + right. exists j. by rewrite set_wstate_other.
  - intros j x Hj Hx. destruct (decide (j = k)) as [->|Hne].
    + rewrite (set_wstate_at k st (workers s) w Hk) in Hj. injection Hj as <-. done.
    + rewrite set_wstate_other in Hj by done. by eapply Hse.
  - intros i r Hin. unfold targets. rewrite set_wstate_targets. by apply Hr.
  - by eapply loop_ok_move.
Qed.

Lemma deliver_inv s k w :
  workers s !! k = Some w -> w_state w = Sent -> (w_chunk w < length chunks)%nat -> pinv s -> pinv (deliver (w_chunk w) s).
Proof.
  intros Hk Hw Hi [Ht Hl Hs Hlim Hm Ha Hse Hr Hp]. split; simpl; try done.
  - by rewrite length_insert.
  - intros i. rewrite list_lookup_insert_Some. intros [(<- & _ & _)|[_ H]]; [eauto|by apply Hm].
  - intros i r Hin. destruct (Ha i r Hin) as [H|H]; [|by right]. left. apply list_lookup_insert_Some.
    destruct (decide (w_chunk w = i)) as [<-|Hne]; [left; by rewrite Hl|by right].
  - eapply loop_ok_move; [done|by rewrite Hw|done| |done]. simpl. rewrite !undelivered_nil, length_insert.
    intros Hall i Hlt. apply list_lookup_insert_Some.
    destruct (decide (w_chunk w = i)) as [<-|Hne]; [by left|right]. split; [done|]. by apply Hall.
Qed.

Lemma accept_inv s k w :
  workers s !! k = Some w -> w_state w = Sending -> pinv s ->
  pinv (accept (w_chunk w) (w_relay w) (move k Sent (sem s) s)).
Proof.
  intros Hk Hw [Ht Hl Hs Hlim Hm Ha Hse Hr Hp].
  pose proof (set_wstate_at k Sent (workers s) w Hk) as Hk'. split; simpl; try done.
  - unfold targets. by rewrite set_wstate_targets.
  - pose proof (holders_set (workers s) k w Sent Hk) as H. unfold holds_sem in H at 1. rewrite Hw in H. simpl in H. lia.
  - intros j H. destruct (Hm j H) as [r' Hin]. exists r'. by apply list_elem_of_further.
  - intros j r' [[= -> ->]|Hin]%elem_of_cons; [right; eauto|]. destruct (Ha _ _ Hin) as [H|[l Hlk]]; [by left|right].
    exists l. rewrite set_wstate_other; [done|]. intros ->. rewrite Hk in Hlk. injection Hlk as ->. discriminate Hw.
  - intros j x Hj Hx. destruct (decide (j = k)) as [->|Hne].
    + rewrite Hk' in Hj. injection Hj as <-. apply list_elem_of_here.
    + rewrite set_wstate_other in Hj by done. apply list_elem_of_further. by eapply Hse.
  - intros j r' [[= -> ->]|Hin]%elem_of_cons; unfold targets; rewrite set_wstate_targets; [|by apply Hr].
    apply list_elem_of_In, in_map_iff. exists w. split; [done|]. by eapply list_elem_of_In, list_elem_of_lookup_2.
  - by eapply (loop_ok_move s _ k w); [done|rewrite Hw|..].
Qed.

Lemma set_world_inv s w' : pinv s -> pinv (set_world w' s).
Proof. intros [? ? ? ? ? ? ? ? ?]. by split. Qed.

(** The chunk of a goroutine exists. *)
Lemma worker_chunk s k w : pinv s -> workers s !! k = Some w -> (w_chunk w < length chunks)%nat.
Proof.
  intros Hinv Hk. apply (start_targets (w_chunk w) (w_relay w)). rewrite <- (pi_targets s Hinv).
  apply list_elem_of_In, in_map_iff. exists w. split; [done|]. by eapply list_elem_of_In, list_elem_of_lookup_2.
Qed.

Lemma pmove_inv s s' : pmove e chunks s s' -> pinv s -> pinv s'.
Proof.
  intros Hstep Hinv. pose proof (pi_limit s Hinv) as Hlim.
  destruct Hstep as [k w s Hk Hw Hlt|k w s Hk Hw Hc|k w s Hk Hw Hc|k w s Hk Hw Hc|k w c w' err s Hk Hw Hc Hs
    |k w c w' s Hk Hw Hc Hs|k w s Hk Hw|k w s Hk Hw|k w s Hk Hw|s Hc Hr|s Hl Hf|s Hl Hc|s Hl Hu|ok s Hl Hf].
  1-9: assert (holds_sem w = holds_sem (mkWorker (w_chunk w) (w_relay w) (w_state w))) as Hh by (by destruct w);
      rewrite Hw in Hh; pose proof (pi_sem s Hinv) as Hsem; pose proof (holder_pos (workers s) k w Hk) as Hpos.
  1-5,8,9: first [apply (pinv_move s k w)|apply (pinv_move (set_world w' s) k w)]; rewrite ?Hw; try discriminate;
      rewrite ?Hh; simpl; try done; try apply set_world_inv; try done; try lia.
  - specialize (Hpos Hh). lia.
  - by apply (accept_inv (set_world w' s)), set_world_inv.
  - apply (pinv_move (deliver (w_chunk w) s) k w); rewrite ?Hw; try discriminate; rewrite ?Hh; simpl; try done.
    + intros _. apply list_lookup_insert_eq. rewrite (pi_len s Hinv). by eapply worker_chunk.
    + apply (deliver_inv s k w); try done. by eapply worker_chunk.
  - destruct Hinv. by split.
  - destruct Hinv. split; try done. unfold loop_ok, verdict. simpl. destruct (undelivered _) eqn:Hu; [done|].
    split; [done|]. split; [discriminate|done].
  - destruct Hinv. split; try done.
  - destruct Hinv. split; try done. unfold loop_ok. simpl. auto.
  - destruct Hinv as [? ? ? ? ? ? ? ? Hp]. split; try done. unfold loop_ok in *. rewrite Hl in Hp. simpl. destruct ok; auto.
Qed.

Lemma pstep_inv s s' : pstep e chunks s s' -> pinv s -> pinv s'.
Proof. destruct 1; [by apply pmove_inv|done]. Qed.

Lemma reach_inv w s : rtc (pstep e chunks) (init_state chunks rs w) s -> pinv s.
Proof.
  assert (forall a b, rtc (pstep e chunks) a b -> pinv a -> pinv b) as H.
  { intros a b Hr. induction Hr as [|a b c Hs Hr IH]; [done|]. intros Ha. eapply IH, pstep_inv; done. }
  intros Hr. eapply H; [exact Hr|apply init_inv].
Qed.

End Invariant.

(** ** Termination *)
Section Progress.
Context {DL : DnsLib} {W : Type} {NW : Network W}.
Context (e : DNSClientEngine) (chunks : list Chunk) (rs : list bytes).
Implicit Types (s : PState W).

Definition loop_left (p : phase) : nat := match p with Looping => 2 | Draining _ => 1 | Returned _ => 0 end.
Definition steps_left s : nat := (work (workers s) + b2n (negb (cancelled s)) + loop_left (loop s))%nat.

Lemma pmove_decreases s s' : pmove e chunks s s' -> (steps_left s' < steps_left s)%nat.
Proof.
  unfold steps_left.
  destruct 1 as [k w s Hk Hw Hlt|k w s Hk Hw Hc|k w s Hk Hw Hc|k w s Hk Hw Hc|k w c w' err s Hk Hw Hc Hs
    |k w c w' s Hk Hw Hc Hs|k w s Hk Hw|k w s Hk Hw|k w s Hk Hw|s Hc Hr|s Hl Hf|s Hl Hc|s Hl Hu|ok s Hl Hf]; simpl.
  1-9: match goal with |- context [work (set_wstate _ ?st _)] =>
         pose proof (work_set (workers s) k w st Hk) as Hws; rewrite Hw in Hws; simpl in Hws; lia end.
  - rewrite Hc. simpl. lia.
  - rewrite Hl. simpl. lia.
  - rewrite Hl, Hc. simpl. lia.
  - rewrite Hl. simpl. destruct (cancelled s); simpl; lia.
  - rewrite Hl. simpl. lia.
Qed.

Lemma pstep_decreases s s' : pstep e chunks s s' -> (steps_left s' <= steps_left s)%nat.
Proof. destruct 1 as [s s' H%pmove_decreases|]; lia. Qed.

Lemma counted_bound m t s s' : counted e chunks m t s s' -> (m + steps_left s' <= steps_left s)%nat.
Proof. induction 1 as [|m t a b c Hs%pmove_decreases|]; lia. Qed.

Lemma counted_rtc m t s s' : counted e chunks m t s s' -> rtc (pstep e chunks) s s'.
Proof.
  induction 1 as [|m t a b c Hs Hr IH|m t a c Hl Hu Hr IH]; [reflexivity|eapply rtc_l; [by apply p_move|done]|done].
Qed.

(** Nothing moves for ever. *)
Lemma no_endless_moves (f : nat -> PState W) :
  (forall i, pstep e chunks (f i) (f (S i))) ->
  (forall i, exists j, (i <= j)%nat /\ pmove e chunks (f j) (f (S j))) -> False.
Proof.
  intros Hrun Hmoves.
  assert (forall i j, (i <= j)%nat -> (steps_left (f j) <= steps_left (f i))%nat) as Hmono.
  { intros i j Hij. induction Hij as [|j Hij IH]; [lia|]. pose proof (pstep_decreases _ _ (Hrun j)). lia. }
  assert (forall n i, (steps_left (f i) <= n)%nat -> False) as Hdown; [|by apply (Hdown (steps_left (f 0%nat)) 0%nat)].
  induction n as [|n IH]; intros i Hi; destruct (Hmoves i) as (j & Hij & Hm%pmove_decreases); specialize (Hmono i j Hij).
  - lia.
  - apply (IH (S j)). lia.
Qed.

(** A goroutine that has not finished can always move, or waits for one that
    holds the semaphore. *)
Lemma unfinished_step s k w :
  pinv chunks rs s -> workers s !! k = Some w -> w_state w <> Finished -> exists s', pmove e chunks s s'.
Proof.
  intros Hinv Hk Hw.
  assert (forall k w, workers s !! k = Some w -> holds_sem w = true -> exists s', pmove e chunks s s') as Hholder.
  { clear k w Hk Hw. intros k w Hk Hw. unfold holds_sem in Hw. destruct (w_state w) eqn:Hst; try done.
    - destruct (cancelled s) eqn:Hc; eexists; [by eapply p_stop|by eapply p_start].
    - destruct (lookup_lt_is_Some_2 chunks (w_chunk w)) as [c Hc]; [by eapply worker_chunk|].
      destruct (SendChunk (w_relay w) (zone e) c (transportMode e) (world s)) as [w' [[]|err]] eqn:Hs;
        eexists; [by eapply p_sent|by eapply p_fail].
    - eexists. by eapply p_mark.
    - eexists. by eapply p_release. }
  destruct (w_state w) eqn:Hst;
    [|eapply Hholder; [done|by unfold holds_sem; rewrite Hst]..|eexists; by eapply p_exit|done].
  destruct (List.filter holds_sem (workers s)) as [|h l] eqn:Hf.
  - eexists. eapply p_acquire; [done|done|]. rewrite (pi_sem chunks rs s Hinv).
    unfold holders. rewrite Hf. unfold parallelism. simpl. lia.
  - assert (In h (List.filter holds_sem (workers s))) as [Hin Hh]%filter_In by (rewrite Hf; by left).
    apply list_elem_of_In, list_elem_of_lookup_1 in Hin as (k' & Hk'). by eapply Hholder.
Qed.

Lemma progress s :
  pinv chunks rs s -> (exists r, loop s = Returned r) \/ exists s', pmove e chunks s s'.
Proof.
  intros Hinv. destruct (loop s) as [|ok|r] eqn:Hl; [..|by left; exists r]; right.
  all: destruct (all_finished s) eqn:Hf.
  1: eexists; by apply p_done.
  2: eexists; by eapply p_drained.
  all: unfold all_finished in Hf; assert (~ Forall (fun w => w_state w = Finished) (workers s)) as Hn
    by (intros Hall; apply Bool.not_true_iff_false in Hf; apply Hf, forallb_forall; intros w Hw%list_elem_of_In;
        apply bool_decide_eq_true; by eapply Forall_forall in Hall).
  all: apply (not_Forall_Exists _), Exists_exists in Hn as (w & (k & Hk)%list_elem_of_lookup_1 & Hw);
    by eapply unfinished_step.
Qed.

End Progress.

(** ** Properties *)

(** C3: [sendParallel] is sound under every interleaving: at most
    [parallelism] goroutines hold the semaphore; when it returns nil, every
    chunk was accepted by one of the relays; when it reports undelivered
    chunks there are some, and no relay accepted any of them. *)
Theorem parallel_delivery {DL : DnsLib} {W} {NW : Network W} e chunks rs (w : W) s :
  rtc (pstep e chunks) (init_state chunks rs w) s ->
  (holders (workers s) <= parallelism)%nat /\
  (loop s = Returned (Ok tt) ->
     forall i, (i < length chunks)%nat -> exists r, r ∈ rs /\ (i, r) ∈ accepted s) /\
  (forall l, loop s = Returned (Err (ErrUndelivered l)) ->
     l <> [] /\ forall i r, i ∈ l -> (i, r) ∉ accepted s).
Proof.
  intros Hr%reach_inv. destruct Hr as [Ht Hlen Hsem Hlim Hm Ha Hse Hrel Hp]. split; [by rewrite <- Hsem|].
  unfold loop_ok in Hp. split.
  - intros Hl i Hi. rewrite Hl in Hp. destruct Hp as [Hu _]. rewrite undelivered_nil in Hu.
    rewrite <- Hlen in Hi. apply Hu, Hm in Hi as [r Hin]. exists r. split; [|done].
    apply Hrel in Hin. rewrite Ht in Hin. by apply start_targets in Hin as [_ Hin].
  - intros l Hl. rewrite Hl in Hp. destruct Hp as (-> & Hne & Hf). split; [done|].
    intros i r Hi%undelivered_elem Hin. destruct (Ha i r Hin) as [H|[k Hk]]; [congruence|].
    by apply (finished_no_step _ _ _ Hf) in Hk.
Qed.

(** C16: [sendParallel] always returns.  A run makes at most six moves per
    chunk and relay and three more, however many times the ticker finds
    chunks still undelivered; a run that has not returned can always make a
    move; and there is no endless run in which such idle ticks are not the
    only thing that ever happens again. *)
Theorem parallel_terminates {DL : DnsLib} {W} {NW : Network W} e chunks rs (w : W) m t s :
  counted e chunks m t (init_state chunks rs w) s ->
  (m <= 6 * length chunks * length rs + 3)%nat /\
  ((exists r, loop s = Returned r) \/ exists s', pmove e chunks s s') /\
  ~ exists f : nat -> PState W, f 0%nat = init_state chunks rs w /\ (forall i, pstep e chunks (f i) (f (S i))) /\
      forall i, exists j, (i <= j)%nat /\ pmove e chunks (f j) (f (S j)).
Proof.
  intros Hn. split; [|split].
  - apply counted_bound in Hn. unfold steps_left in Hn. simpl in Hn. rewrite work_start in Hn. lia.
  - eapply progress, reach_inv. by eapply counted_rtc.
  - intros (f & _ & Hrun & Hmoves). by eapply no_endless_moves.
Qed.

(** A run that returns nil: one chunk, one relay that accepts it. *)
Definition demo_engine : DNSClientEngine := NewDNSClientEngine [$"10.0.0.1:53"] $"msg.local-domain".
Definition demo_chunks : list Chunk := [NewChunk $"01234567" 0 1 $"hi"].
Definition demo_world : script := mkScript [Some (mkMsg RcodeSuccess [])] [].

(** The goroutine sends while the ticker finds nothing delivered yet. *)
Lemma demo_run : exists s,
  counted (DL := simple_dns_lib) (NW := script_network) demo_engine demo_chunks 7 1
    (init_state demo_chunks [$"10.0.0.1:53"] demo_world) s /\ loop s = Returned (Ok tt).
Proof.
  eexists. split.
  - eapply run_move; [eapply (p_acquire _ _ 0); [reflexivity|reflexivity|simpl; unfold parallelism; lia]|].
    eapply run_idle; [reflexivity|discriminate|].
    eapply run_move; [eapply (p_start _ _ 0); reflexivity|].
    eapply run_move; [eapply (p_sent _ _ 0); reflexivity|].
    eapply run_move; [eapply (p_mark _ _ 0); reflexivity|].
    eapply run_move; [eapply (p_release _ _ 0); reflexivity|].
    eapply run_move; [eapply (p_exit _ _ 0); reflexivity|].
    eapply run_move; [apply p_done; reflexivity|]. apply run_here.
  - reflexivity.
Qed.

Lemma parallel_delivery_witness : exists s,
  rtc (pstep (DL := simple_dns_lib) (NW := script_network) demo_engine demo_chunks)
    (init_state demo_chunks [$"10.0.0.1:53"] demo_world) s /\
  exists r, r ∈ [$"10.0.0.1:53"] /\ (0%nat, r) ∈ accepted s.
Proof.
  destruct demo_run as (s & Hn & Hl). exists s. apply counted_rtc in Hn as Hr.
  split; [exact Hr|].
  apply (proj1 (proj2 (parallel_delivery (DL := simple_dns_lib) (NW := script_network) _ _ _ _ s Hr)) Hl 0%nat).
  simpl. lia.
Defined.

Lemma parallel_terminates_witness : exists s,
  counted (DL := simple_dns_lib) (NW := script_network) demo_engine demo_chunks 7 1
    (init_state demo_chunks [$"10.0.0.1:53"] demo_world) s /\ loop s = Returned (Ok tt) /\ (7 <= 9)%nat.
Proof.
  destruct demo_run as (s & Hn & Hl). exists s. split; [exact Hn|]. split; [exact Hl|].
  exact (proj1 (parallel_terminates (DL := simple_dns_lib) (NW := script_network) demo_engine demo_chunks
    [$"10.0.0.1:53"] demo_world 7 1 s Hn)).
Defined.
