(* ===== verification/Backoff.v ===== *)
(** * Waiting between attempts (sendWithRetry and SendMessage of dns_engine.go)

    The waiting times are computed in [float64].  The rounding is exact on
    the dyadic rationals that occur, so the time is an integer formula; and
    since [SendMessage] comes here only when there is no relay at all, the
    retries have nothing to retry. *)

From S2P Require Import Prelude GoStrings Codec Sha256 Encoding RateLimit Dns Engine SendParallel.
From Stdlib Require Import QArith Qround Lqa.

#[local] Open Scope Q_scope.

(** ** Exact rounding *)

Definition dyadic (z : Z) (n : nat) : Q := inject_Z z / inject_Z (2 ^ Z.of_nat n).

(** A [float64] holds every multiple of 2^-n of at most 53 bits. *)
Class DyadicRounding (R : Rounding) := {
  rnd_dyadic (z : Z) (n : nat) : (Z.abs z <= 2 ^ 53)%Z -> (n <= 1000)%nat -> rnd (dyadic z n) == dyadic z n
}.

Section Backoff.
Context {R : Rounding}.

(** ** The code *)

Definition randFloat64 (b0 : byte) : Q := fdiv (float64 (byte_val b0)) (inject_Z 256).
Definition maxJitter : Q := 1 # 4.
Definition jitter (b0 : byte) : Q := fadd 1 (fmul (fmul (fsub (randFloat64 b0) (1 # 2)) 2) maxJitter).

(** [time.Duration(sleepMs)] of the wait after an attempt; [math.Pow(2, n)]
    is exact. *)
Definition sleep_after (attempt : nat) (b0 : byte) : Z :=
  Qfloor (fmul (fmul (float64 500) (inject_Z (2 ^ Z.of_nat attempt))) (jitter b0)).

(** The wait after a chunk in [SendMessage]. *)
Definition pause_after_chunk (b0 : byte) : Z := Qfloor (fmul (float64 500) (jitter b0)).

(** ** Exactness *)
Context {DR : DyadicRounding R}.

Lemma rnd_eq x z n : x == dyadic z n -> (Z.abs z <= 2 ^ 53)%Z -> (n <= 1000)%nat -> rnd x == dyadic z n.
Proof. intros -> Hz Hn. by apply rnd_dyadic. Qed.

Ltac dyadic_eq := unfold dyadic, Qeq, Qdiv, Qminus, Qplus, Qmult, Qinv, Qopp, inject_Z; simpl; lia.

Lemma jitter_exact b0 : jitter b0 == dyadic (384 + byte_val b0) 9.
Proof.
  pose proof (byte_val_range b0) as Hb. unfold jitter, fadd, fmul, fsub, randFloat64, fdiv, float64, maxJitter. set (v := byte_val b0) in *.
  rewrite (rnd_int v) by lia.
  rewrite (rnd_eq (inject_Z v / inject_Z 256) v 8) by (try lia; dyadic_eq).
  rewrite (rnd_eq (dyadic v 8 - (1 # 2)) (v - 128) 8) by (try lia; dyadic_eq).
  rewrite (rnd_eq (dyadic (v - 128) 8 * 2) (v - 128) 7) by (try lia; dyadic_eq).
  rewrite (rnd_eq (dyadic (v - 128) 7 * (1 # 4)) (v - 128) 9) by (try lia; dyadic_eq).
  apply rnd_eq; [dyadic_eq|lia|lia].
Qed.

Lemma floor_dyadic z : Qfloor (dyadic z 9) = (z / 512)%Z.
Proof. unfold dyadic, Qdiv, Qmult, Qinv, inject_Z. simpl. f_equal. lia. Qed.

(** A wait is an integer formula of the random byte. *)
Lemma sleep_exact attempt b0 :
  (attempt <= 20)%nat -> sleep_after attempt b0 = (500 * 2 ^ Z.of_nat attempt * (384 + byte_val b0) / 512)%Z.
Proof.
  intros Ha. pose proof (byte_val_range b0) as Hb. unfold sleep_after, fmul, float64. rewrite (rnd_int 500) by lia.
  assert (0 < 2 ^ Z.of_nat attempt <= 2 ^ 20)%Z as Hp
    by (split; [apply Z.pow_pos_nonneg; lia|apply Z.pow_le_mono_r; lia]).
  set (p := (2 ^ Z.of_nat attempt)%Z) in *. change (2 ^ 20)%Z with 1048576%Z in Hp.
  rewrite (rnd_eq (inject_Z 500 * inject_Z p) (500 * p) 0) by (try lia; dyadic_eq). rewrite jitter_exact.
  rewrite (rnd_eq (dyadic (500 * p) 0 * dyadic (384 + byte_val b0) 9) (500 * p * (384 + byte_val b0)) 9); [apply floor_dyadic|..]; [|nia|lia].
  unfold dyadic, Qeq, Qdiv, Qmult, Qinv, inject_Z. simpl. lia.
Qed.

End Backoff.

(** C37: the waits of [sendWithRetry] are computed exactly and are bounded.
    For the attempts up to number 20 (the code makes three), with the random
    byte b, the float jitter is the fraction (384 + b) / 512 without rounding
    error, and the wait is the whole part of 500 times 2^n times that fraction,
    at least 375 and less than 625 times 2^n milliseconds, so all three waits
    together take less than 4.375 seconds, within the ten of [SendMessage]. *)
Theorem backoff_bounds {R : Rounding} {DR : DyadicRounding R} b0 b1 b2 attempt :
  (attempt <= 20)%nat ->
  jitter b0 == inject_Z (384 + byte_val b0) / inject_Z 512 /\
  sleep_after attempt b0 = (500 * 2 ^ Z.of_nat attempt * (384 + byte_val b0) / 512)%Z /\
  (375 * 2 ^ Z.of_nat attempt <= sleep_after attempt b0 < 625 * 2 ^ Z.of_nat attempt)%Z /\
  (sleep_after 0 b0 + sleep_after 1 b1 + sleep_after 2 b2 < 4375)%Z.
Proof.
  assert (forall n b, (n <= 20)%nat -> (375 * 2 ^ Z.of_nat n <= sleep_after n b < 625 * 2 ^ Z.of_nat n)%Z) as H.
  { intros n b Hn. rewrite sleep_exact by done. pose proof (byte_val_range b).
    assert (0 < 2 ^ Z.of_nat n)%Z by (apply Z.pow_pos_nonneg; lia).
    split; [apply Z.div_le_lower_bound; nia|apply Z.div_lt_upper_bound; nia]. }
  intros Ha. split; [rewrite jitter_exact; reflexivity|]. split; [by apply sleep_exact|]. split; [by apply H|]. pose proof (H 0%nat b0 ltac:(lia)). pose proof (H 1%nat b1 ltac:(lia)).
  pose proof (H 2%nat b2 ltac:(lia)). simpl in *. lia.
Qed.

(** The retries never send: [SendMessage] uses [sendWithRetry] only when
    neither list of relays has an entry, and then every message fails without
    a single exchange. *)
Theorem retry_never_sends {DL : DnsLib} {W} {NW : Network W} ctx_done e pt pk id (w w' : W) r :
  discoverActiveRelays e = [] -> pt <> [] ->
  SendMessage ctx_done e pt pk id w w' r <-> w' = w /\ r = Err ErrAllFailed.
Proof.
  intros Hd Hne. assert (GetRelays e = []) as Hg.
  { unfold discoverActiveRelays in Hd. destruct (fallbackRelays e); [exact Hd|discriminate Hd]. }
  unfold SendMessage. rewrite Hd. cbn [len length Z.of_nat Z.ltb Z.compare].
  destruct (ChunkMessage id pt (chunkSize e) pk) as [|c cs] eqn:Hc.
  - exfalso. apply (f_equal length) in Hc. rewrite length_ChunkMessage in Hc.
    destruct (chunk_total_spec pt (effective_size (chunkSize e)) (effective_size_pos _)) as (_ & Hp & _). specialize (Hp Hne).
    cbn [length] in Hc. lia.
  - cbn [send_each]. unfold sendWithRetry. rewrite Hg. cbn. naive_solver.
Qed.

(** ** Closed instances *)
Lemma exact_dyadic : DyadicRounding exact_rounding.
Proof. split. intros z n _ _. reflexivity. Qed.

Lemma backoff_bounds_witness :
  (375 * 2 ^ Z.of_nat 2 <= sleep_after (R := exact_rounding) 2 dot < 625 * 2 ^ Z.of_nat 2)%Z.
Proof. refine (proj1 (proj2 (proj2 (backoff_bounds (DR := exact_dyadic) dot dot dot 2 _)))). lia. Defined.
