(* ===== verification/Delivery.v ===== *)
(** * From sender to recipient

    The client engine composed with relays: a world of relay stores reached
    through a network that may lose queries and replies, which other clients
    use as well, and where time passes and messages are collected.  What
    [SendMessage] reports as sent is shown to be what [PollMessages] returns
    to the recipient, with every interleaving of the sending goroutines, every
    loss and every query of another client in between. *)

From S2P Require Import Prelude GoStrings Codec Sha256 Encoding Sequence Store Dns Relay Engine SendParallel.

(** ** Exchanges of a sending client *)

Section Exchanges.
Context {DL : DnsLib} {W : Type} {NW : Network W}.
Implicit Types (w : W) (z : bytes).

(** [SendChunk] is a sequence of exchanges of one query, the last of which
    succeeded when it returns nil. *)
Lemma send_once_inv (P : W -> Prop) net addr q w :
  (forall net w, P w -> P (exchange net addr q w).1) -> P w -> P (send_once net addr q w).1.
Proof.
  intros HP Hw. unfold send_once. specialize (HP net w Hw).
  destruct (exchange net addr q w) as [w' [resp|]]; [destruct (_ =? _)|]; exact HP.
Qed.

Lemma SendChunk_inv (P : W -> Prop) addr z c mode w :
  (forall net w, P w -> P (exchange net addr (send_query z c) w).1) -> P w ->
  P (SendChunk addr z c mode w).1.
Proof.
  intros HP Hw. pose proof (fun net w => send_once_inv P net addr (send_query z c) w HP) as Hs.
  unfold SendChunk. destruct mode; [|by apply Hs..].
  specialize (Hs net_tcp w Hw) as H1. destruct (send_once net_tcp addr _ w) as [w1 [u|err]]; [done|].
  specialize (HP net_udp w1 H1) as H2. destruct (exchange net_udp addr _ w1) as [w2 [resp|]].
  - by destruct (_ =? _).
  - by apply Hs.
Qed.

Lemma send_once_Ok net addr q w w' u :
  send_once net addr q w = (w', Ok u) -> exists resp, exchange net addr q w = (w', Some resp) /\ Rcode resp = RcodeSuccess.
Proof.
  unfold send_once. destruct (exchange net addr q w) as [w1 [resp|]]; [|discriminate].
  destruct (Rcode resp =? RcodeSuccess) eqn:Hr; [|discriminate]. intros [= <- _]. exists resp.
  split; [done|]. by apply Z.eqb_eq.
Qed.

(** When [SendChunk] returns nil, the last exchange did, after a world that
    any exchange-stable property still describes. *)
Lemma SendChunk_Ok (P : W -> Prop) addr z c mode w w' u :
  (forall net w, P w -> P (exchange net addr (send_query z c) w).1) -> P w ->
  SendChunk addr z c mode w = (w', Ok u) ->
  exists net w0 resp, P w0 /\ exchange net addr (send_query z c) w0 = (w', Some resp) /\ Rcode resp = RcodeSuccess.
Proof.
  intros HP Hw. unfold SendChunk. destruct mode.
  - destruct (send_once net_tcp addr _ w) as [w1 [u1|err]] eqn:H1.
    + intros [= <- _]. apply send_once_Ok in H1 as (resp & H1 & Hc). eauto 6.
    + assert (P w1) as Hw1.
      { pose proof (send_once_inv P net_tcp addr _ w HP Hw) as H. by rewrite H1 in H. }
      specialize (HP net_udp w1 Hw1). destruct (exchange net_udp addr _ w1) as [w2 [resp|]] eqn:H2.
      * destruct (_ =? _) eqn:Hc; [|discriminate]. intros [= <- _]. apply Z.eqb_eq in Hc. eauto 8.
      * intros (resp & H3 & Hc)%send_once_Ok. eauto 8.
  - intros (resp & H & Hc)%send_once_Ok. eauto 8.
  - intros (resp & H & Hc)%send_once_Ok. eauto 8.
Qed.

End Exchanges.

(** ** Relays behind a lossy network *)

(** What can go wrong with an exchange: the query or the reply is lost, or
    the relay refuses the query because of its rate limit. *)
Inductive fault := DropQuery | DropReply | Refuse.

(** What happens at the relays between two exchanges of a client: queries of
    other clients, collections, and time that passes. *)
Inductive visit := Query (addr : bytes) (q : DnsQuery) | Collect (addr : bytes) | Wait (dt : Z).

(** The stores of the relays by address, what will happen to the next
    exchanges ([None] and the empty list: nothing) and before each of them,
    and the relays' clock. *)
Record RelayWorld (DB : Type) := mkWorld {
  stores : gmap bytes (ChunkStore DB);
  faults : list (option fault);
  traffic : list (list visit);
  clock : Z
}.
Arguments mkWorld {DB} _ _ _ _.
Arguments stores {DB} _.
Arguments faults {DB} _.
Arguments traffic {DB} _.
Arguments clock {DB} _.

Section World.
Context {DL : DnsLib} {DB : Type} {SS : SequenceSource DB} {IO : IterOrder} (z : bytes).
Implicit Types (w : RelayWorld DB).

Definition at_relay (addr : bytes) (f : ChunkStore DB -> ChunkStore DB) w : RelayWorld DB :=
  mkWorld (alter f addr (stores w)) (faults w) (traffic w) (clock w).

Definition visit_one w (v : visit) : RelayWorld DB :=
  match v with
  | Query addr q => at_relay addr (fun s => (handle_query (Fqdn z) q (clock w) s).1) w
  | Collect addr => at_relay addr (gc (clock w)) w
  | Wait dt => mkWorld (stores w) (faults w) (traffic w) (clock w + dt)
  end.
Definition visits (vs : list visit) w : RelayWorld DB := fold_left visit_one vs w.

(** The world when the next exchange begins. *)
Definition arrive w : RelayWorld DB :=
  let w := visits (default [] (head (traffic w))) w in mkWorld (stores w) (faults w) (tail (traffic w)) (clock w).

#[local] Instance relay_network : Network (RelayWorld DB) := fun _ addr q w0 =>
  let w := arrive w0 in
  let f := default None (head (faults w)) in
  let after st := mkWorld st (tail (faults w)) (traffic w) (clock w) in
  match stores w !! addr with
  | None => (after (stores w), None)
  | Some s =>
      let '(s', resp) := handle_query (Fqdn z) q (clock w) s in
      match f with
      | Some DropQuery => (after (stores w), None)
      | Some DropReply => (after (<[addr := s']> (stores w)), None)
      | Some Refuse => (after (stores w), Some (mkMsg RcodeRefused []))
      | None => (after (<[addr := s']> (stores w)), Some resp)
      end
  end.

(** The network after it has recovered, and with no other client at work. *)
Definition recovered w : RelayWorld DB := mkWorld (stores w) [] [] (clock w).

(** ** Chunks at a relay *)
Context (Hz : zone_ok z).

(** The relay at [r] holds [c], filed for its recipient. *)
Definition has w (r : bytes) (c : Chunk) : Prop :=
  exists s, stores w !! r = Some s /\ GetChunk (MsgID c) (ChunkIdx c) s = Some c /\
    messageOwner s !! MsgID c = Some (Base32Hex.EncodeToString (RecipientHash c)).

(** The message a query of a chunk is filed under. *)
Definition stored_id (q : DnsQuery) : option bytes :=
  match Question q with
  | [] => None
  | qname :: _ =>
      labels ← query_labels (Fqdn z) qname;
      if bool_decide (head labels = Some $"POLL") then None
      else match DecodeChunkFromLabels (labels ++ [TrimSuffix (Fqdn z) [dot]]) (TrimSuffix (Fqdn z) [dot]) with
           | Ok c => if TotalChunks c =? 0 then None else Some (MsgID c)
           | Err _ => None
           end
  end.

(** Visits that do not store under the id [id]. *)
Definition spares (id : bytes) (v : visit) : Prop :=
  match v with Query _ q => stored_id q <> Some id | Collect _ => True | Wait dt => 0 <= dt end.
Definition waits (vs : list visit) : Z :=
  foldr Z.add 0 (map (fun v => match v with Wait dt => dt | _ => 0 end) vs).

(** The store is sane, nobody else owns the message, and what there is of it
    is no older than [t0]; messages are kept for [T]. *)
Definition safe_store (id h : bytes) (t0 T : Z) (s : ChunkStore DB) : Prop :=
  stored_ok s /\ (messageOwner s !! id = None \/ messageOwner s !! id = Some (Base32Hex.EncodeToString h)) /\
  T <= ttl s /\ forall buf, messages s !! id = Some buf -> t0 <= createdAt buf.

Definition safe (id h : bytes) (t0 T : Z) w : Prop :=
  (forall r s, stores w !! r = Some s -> safe_store id h t0 T s) /\ t0 <= clock w.

(** And the other clients of the relays use other ids, in less time than a
    message is kept. *)
Definition open_for (id h : bytes) (t0 T : Z) w : Prop :=
  safe id h t0 T w /\ Forall (Forall (spares id)) (traffic w) /\ clock w + waits (concat (traffic w)) <= t0 + T.

(** What the relay's handler does with the query of a chunk. *)
Lemma handle_send c q now s :
  chunk_wf c -> TotalChunks c <> 0 -> length (RecipientHash c) = 32%nat ->
  Question q = [wire_name (EncodeToLabels c z)] ->
  exists m, handle_query (Fqdn z) q now s =
    (SetMessageOwner (MsgID c) (Base32Hex.EncodeToString (RecipientHash c)) (Store c now s).1, m).
Proof.
  intros Hwf Ht Hh Hq. rewrite (handle_query_chunk z Hz c q now s Hwf Hq). apply Z.eqb_neq in Ht. rewrite Ht.
  unfold len. rewrite Hh. change (0 <? Z.of_nat 32) with true. eexists. reflexivity.
Qed.

Lemma SetMessageOwner_owner id p (s : ChunkStore DB) id' :
  messageOwner (SetMessageOwner id p s) !! id' =
    match messageOwner s !! id' with Some q => Some q | None => if decide (id = id') then Some p else None end.
Proof.
  unfold SetMessageOwner. destruct (messageOwner s !! id) as [q|] eqn:Ho; simpl.
  - destruct (messageOwner s !! id') eqn:Ho'; [done|]. rewrite decide_False by congruence. done.
  - rewrite lookup_insert. destruct (decide (id = id')) as [<-|]; [by rewrite Ho|].
    by destruct (messageOwner s !! id').
Qed.

Lemma SetMessageOwner_ttl id p (s : ChunkStore DB) : ttl (SetMessageOwner id p s) = ttl s.
Proof. unfold SetMessageOwner. by destruct (messageOwner s !! id). Qed.

Lemma Store_ttl c now (s : ChunkStore DB) : ttl (Store c now s).1 = ttl s.
Proof. unfold Store. by repeat case_match. Qed.

Lemma Store_GetChunk c now (s : ChunkStore DB) id i :
  GetChunk id i (Store c now s).1 =
    if decide (MsgID c = id /\ ChunkIdx c = i) then Some c
    else if decide (MsgID c = id /\ messages s !! id = None) then None else GetChunk id i s.
Proof.
  case_decide as Hc; [destruct Hc as [<- <-]; apply GetChunk_Store|].
  unfold Store, GetChunk. destruct (messages s !! MsgID c) as [buf|] eqn:Hm.
  - simpl. rewrite decide_False by naive_solver. destruct (decide (MsgID c = id)) as [<-|Hne].
    + rewrite lookup_insert_eq, Hm. simpl. by rewrite lookup_insert_ne by tauto.
    + by rewrite lookup_insert_ne.
  - destruct (new_buffer c now s) as [b sc] eqn:Hn. simpl. destruct (decide (MsgID c = id)) as [<-|Hne].
    + rewrite lookup_insert_eq, decide_True by done. simpl. rewrite lookup_insert_ne by tauto.
      unfold new_buffer in Hn. repeat case_match; by simplify_eq.
    + rewrite lookup_insert_ne, decide_False by tauto. done.
Qed.

Lemma handle_send_GetChunk c now (s : ChunkStore DB) p c' :
  GetChunk (MsgID c') (ChunkIdx c') s = Some c' ->
  (MsgID c = MsgID c' -> ChunkIdx c = ChunkIdx c' -> c = c') ->
  GetChunk (MsgID c') (ChunkIdx c') (SetMessageOwner (MsgID c) p (Store c now s).1) = Some c'.
Proof.
  intros Hg Heq. unfold GetChunk at 1. rewrite SetMessageOwner_messages.
  fold (GetChunk (MsgID c') (ChunkIdx c') (Store c now s).1). rewrite Store_GetChunk.
  case_decide as H1; [by destruct H1; rewrite Heq|]. case_decide as H2; [|done].
  destruct H2 as [_ H2]. unfold GetChunk in Hg. by rewrite H2 in Hg.
Qed.

(** A chunk that a client may send to a recipient. *)
Definition sendable (id h : bytes) (c : Chunk) : Prop :=
  chunk_wf c /\ TotalChunks c <> 0 /\ MsgID c = id /\ RecipientHash c = h /\ length h = 32%nat.

(** ** Other clients *)

(** Two stores that agree on a message. *)
Definition same_for (id : bytes) (s s' : ChunkStore DB) : Prop :=
  messages s' !! id = messages s !! id /\ messageOwner s' !! id = messageOwner s !! id /\ ttl s' = ttl s /\
  (stored_ok s -> stored_ok s').

Lemma safe_same id h t0 T s s' : same_for id s s' -> safe_store id h t0 T s -> safe_store id h t0 T s'.
Proof. intros (H1 & H2 & H3 & H4) (S1 & S2 & S3 & S4). unfold safe_store. rewrite H1, H2, H3. auto. Qed.

Lemma query_same id q now s : stored_id q <> Some id -> same_for id s (handle_query (Fqdn z) q now s).1.
Proof.
  intros Hid. unfold same_for.
  assert (stored_ok s -> stored_ok (handle_query (Fqdn z) q now s).1) as Hok
    by (intros H; eapply steps_inv; [apply relay_step_ok|apply handle_query_steps|exact H]).
  revert Hok. unfold handle_query, stored_id in *. destruct (Question q) as [|qname qs]; [done|].
  destruct (query_labels _ _) as [labels|]; [|done]. cbn [mbind option_bind] in Hid. cbv zeta.
  case_bool_decide; [by destruct labels as [|? [|? ?]]|]. destruct (DecodeChunkFromLabels _ _) as [c|]; [|done].
  destruct (TotalChunks c =? 0); [by destruct (GetChunk _ _ _)|]. cbn [fst]. intros Hok.
  assert (MsgID c <> id) as Hne by congruence.
  assert (messages (Store c now s).1 !! id = messages s !! id) as Hm.
  { unfold Store. repeat case_match; simplify_eq; cbn [fst messages]; by rewrite lookup_insert_ne. }
  destruct (Store_owners c now s) as [Ho _].
  destruct (0 <? _); [|by rewrite Ho, Store_ttl].
  rewrite SetMessageOwner_messages, SetMessageOwner_owner, Ho, decide_False by done.
  split; [done|]. split; [by destruct (messageOwner s !! id)|]. split; [|exact Hok].
  by rewrite SetMessageOwner_ttl, Store_ttl.
Qed.

Lemma collect_same id h t0 T now s : safe_store id h t0 T s -> now <= t0 + T -> same_for id s (gc now s).
Proof.
  intros (Hok & _ & HT & Hold) Hnow. pose proof (gc_lookup now s id) as [H1 H2]. cbv zeta in H1, H2.
  assert (match messages s !! id with Some buf => expired now (ttl s) buf | None => false end = false) as Hg.
  { destruct (messages s !! id) as [buf|] eqn:Hm; [|done]. specialize (Hold buf eq_refl). unfold expired.
    apply Z.ltb_ge. lia. }
  rewrite Hg in H1, H2. split; [done|]. split; [done|]. split; [apply gc_ttl|].
  apply (relay_step_ok z s (gc now s)), rs_gc.
Qed.

Lemma at_relay_safe id h t0 T addr f w :
  (forall s, safe_store id h t0 T s -> same_for id s (f s)) -> safe id h t0 T w ->
  safe id h t0 T (at_relay addr f w) /\ forall r c, MsgID c = id -> has w r c -> has (at_relay addr f w) r c.
Proof.
  intros Hf [Hs Ht]. unfold safe, has, at_relay. cbn [stores clock]. split; [split; [|done]|].
  - intros r s. rewrite lookup_alter. case_decide; [|apply Hs]. intros (s0 & H0 & ->)%fmap_Some.
    eapply safe_same; [apply Hf|]; by eapply Hs.
  - intros r c Hid (s & Hr & Hg & Ho). rewrite lookup_alter. case_decide as Hd; [subst r|by exists s].
    exists (f s). rewrite Hr. split; [done|]. unfold GetChunk in *. subst id.
    destruct (Hf s (Hs _ s Hr)) as (-> & -> & _). done.
Qed.

Lemma waits_nonneg id vs : Forall (spares id) vs -> 0 <= waits vs.
Proof. unfold waits. induction 1 as [|v vs Hv _ IH]; simpl; [lia|]. destruct v; simpl in *; lia. Qed.

Lemma waits_app vs vs' : waits (vs ++ vs') = waits vs + waits vs'.
Proof. unfold waits. induction vs as [|v vs IH]; simpl in *; [lia|]. destruct v; lia. Qed.

Lemma visits_safe id h t0 T vs : forall w,
  Forall (spares id) vs -> clock w + waits vs <= t0 + T -> safe id h t0 T w ->
  let w' := visits vs w in
  safe id h t0 T w' /\ (forall r c, MsgID c = id -> has w r c -> has w' r c) /\
  faults w' = faults w /\ traffic w' = traffic w /\ clock w' = clock w + waits vs.
Proof.
  induction vs as [|v vs IH]; intros w Hsp Hc Hw; cbv zeta.
  { cbn [visits fold_left]. split; [exact Hw|]. split; [done|]. split; [done|]. split; [done|]. unfold waits. simpl. lia. }
  pose proof (waits_nonneg id _ Hsp) as Hpos. apply Forall_cons in Hsp as [Hv Hsp].
  pose proof (waits_nonneg id _ Hsp) as Hpos'. change (v :: vs) with ([v] ++ vs) in *. rewrite waits_app in *.
  assert (safe id h t0 T (visit_one w v) /\ (forall r c, MsgID c = id -> has w r c -> has (visit_one w v) r c) /\
    faults (visit_one w v) = faults w /\ traffic (visit_one w v) = traffic w /\ clock (visit_one w v) = clock w + waits [v]) as H1.
  { destruct v as [addr q|addr|dt]; cbn [visit_one spares] in *; unfold waits in *; cbn [map foldr] in *.
    - destruct (at_relay_safe id h t0 T addr (fun s => (handle_query (Fqdn z) q (clock w) s).1) w) as [A B]; [|done|].
      + intros s _. by apply query_same.
      + split; [exact A|]. split; [exact B|]. split; [done|]. split; [done|]. cbn [clock at_relay]. lia.
    - destruct (at_relay_safe id h t0 T addr (gc (clock w)) w) as [A B]; [|done|].
      + intros s Hs. eapply collect_same; [done|lia].
      + split; [exact A|]. split; [exact B|]. split; [done|]. split; [done|]. cbn [clock at_relay]. lia.
    - destruct Hw as [Hw Ht]. split; [split; [exact Hw|cbn [clock]; lia]|]. split; [done|]. split; [done|]. split; [done|]. cbn [clock]. lia. }
  destruct H1 as (A & B & C1 & C2 & C3). destruct (IH (visit_one w v) Hsp ltac:(lia) A) as (A' & B' & D1 & D2 & D3).
  change (visits ([v] ++ vs) w) with (visits vs (visit_one w v)). split; [done|]. split; [auto|].
  rewrite D1, D2, D3. split; [done|]. split; [done|lia].
Qed.

Lemma arrive_open id h t0 T w : open_for id h t0 T w ->
  open_for id h t0 T (arrive w) /\ forall r c, MsgID c = id -> has w r c -> has (arrive w) r c.
Proof.
  intros (Hs & Hsp & Hc). unfold arrive. cbv zeta. destruct (traffic w) as [|vs rest] eqn:Ht; cbn [head default tail concat] in *.
  { cbn [visits fold_left]. rewrite Ht. cbn [tail]. split; [|done]. split; [exact Hs|]. split; [apply Forall_nil_2|exact Hc]. }
  apply Forall_cons in Hsp as [Hv Hsp]. rewrite waits_app in Hc.
  assert (0 <= waits (concat rest)) as Hpos by (eapply waits_nonneg; by apply Forall_concat).
  destruct (visits_safe id h t0 T vs w Hv ltac:(lia) Hs) as (A & B & _ & D2 & D3). cbv zeta in *.
  change (Datatypes.id vs) with vs. rewrite D2, Ht. cbn [tail]. split; [|exact B].
  split; [exact A|]. split; [exact Hsp|]. cbn [clock traffic]. lia.
Qed.

(** The stores after an exchange: as it began, or one relay handled the query. *)
Lemma exchange_stores net addr q w :
  let w' := (exchange net addr q w).1 in
  traffic w' = traffic (arrive w) /\ clock w' = clock (arrive w) /\
  (stores w' = stores (arrive w) \/
   exists s, stores (arrive w) !! addr = Some s /\
     stores w' = <[addr := (handle_query (Fqdn z) q (clock (arrive w)) s).1]> (stores (arrive w))).
Proof.
  cbv zeta. unfold exchange, relay_network. cbv zeta. destruct (stores (arrive w) !! addr) as [s|] eqn:Hs; [|by auto].
  destruct (handle_query _ q _ s) as [s' resp] eqn:Hh.
  destruct (default None (head (faults _))) as [[| |]|]; cbn [fst traffic clock stores];
    (split; [done|]); (split; [done|]); [by left|right|by left|right]; exists s; by rewrite Hh.
Qed.

Lemma send_same id h t0 T c now s :
  sendable id h c -> t0 <= now -> safe_store id h t0 T s -> safe_store id h t0 T (handle_query (Fqdn z) (send_query z c) now s).1.
Proof.
  intros (Hwf & Ht & Hid & Hh & Hl) Hnow (Hok & Ho & HT & Hold). split; [|split; [|split]].
  - eapply steps_inv; [apply relay_step_ok|apply handle_query_steps|exact Hok].
  - destruct (handle_send c (send_query z c) now s) as [m ->]; [done|done|by rewrite Hh|done|]. cbn [fst].
    rewrite SetMessageOwner_owner. destruct (Store_owners c now s) as [-> _].
    destruct Ho as [-> | ->]; [|by right]. rewrite decide_True by done. right. by rewrite Hh.
  - destruct (handle_send c (send_query z c) now s) as [m ->]; [done|done|by rewrite Hh|done|]. cbn [fst].
    by rewrite SetMessageOwner_ttl, Store_ttl.
  - destruct (handle_send c (send_query z c) now s) as [m ->]; [done|done|by rewrite Hh|done|]. cbn [fst].
    rewrite SetMessageOwner_messages. unfold Store. rewrite Hid. intros buf.
    destruct (messages s !! id) as [old|] eqn:Hm; cbn [fst messages].
    + rewrite lookup_insert_eq. intros [= <-]. exact (Hold old eq_refl).
    + destruct (new_buffer c now s) as [b sc] eqn:Hn. cbn [fst messages]. rewrite lookup_insert_eq. intros [= <-].
      unfold new_buffer in Hn. cbn [createdAt add_chunk]. repeat case_match; simplify_eq; cbn [createdAt]; lia.
Qed.

Lemma exchange_open net addr id h t0 T c w :
  sendable id h c -> open_for id h t0 T w -> open_for id h t0 T (exchange net addr (send_query z c) w).1.
Proof.
  intros Hsc Hop. apply arrive_open in Hop as [((Hs & Ht) & Hsp & Hc) _].
  destruct (exchange_stores net addr (send_query z c) w) as (E1 & E2 & E3). cbv zeta in *.
  unfold open_for, safe. rewrite E1, E2. split; [|done]. split; [|done]. intros r s.
  destruct E3 as [->|(s0 & Hs0 & ->)]; [apply Hs|].
  rewrite lookup_insert_Some. intros [[<- <-]|[_ Hr]]; [|by eapply Hs]. apply send_same; [done|done|by eapply Hs].
Qed.

Lemma exchange_has net addr id h t0 T c w r c' :
  sendable id h c -> open_for id h t0 T w -> MsgID c' = id -> (ChunkIdx c = ChunkIdx c' -> c = c') ->
  has w r c' -> has (exchange net addr (send_query z c) w).1 r c'.
Proof.
  intros (Hwf & Ht & Hid & Hh & Hl) Hop Hid' Heq Hw. apply arrive_open in Hop as [_ Hhas].
  destruct (Hhas r c' Hid' Hw) as (s & Hs & Hg & Ho).
  destruct (exchange_stores net addr (send_query z c) w) as (_ & _ & E3). cbv zeta in *. unfold has.
  destruct E3 as [->|(s0 & Hs0 & ->)]; [by eauto|].
  destruct (decide (addr = r)) as [->|Hne]; [|rewrite lookup_insert_ne by done; by eauto].
  rewrite lookup_insert_eq. rewrite Hs in Hs0. injection Hs0 as <-.
  destruct (handle_send c (send_query z c) (clock (arrive w)) s) as [m ->]; [done|done|by rewrite Hh|done|]. cbn [fst].
  eexists. split; [done|]. split; [apply handle_send_GetChunk; auto|].
  rewrite SetMessageOwner_owner. destruct (Store_owners c (clock (arrive w)) s) as [-> _]. by rewrite Ho.
Qed.

Lemma exchange_stored net addr id h t0 T c w w' resp :
  sendable id h c -> open_for id h t0 T w ->
  exchange net addr (send_query z c) w = (w', Some resp) -> Rcode resp = RcodeSuccess -> has w' addr c.
Proof.
  intros (Hwf & Ht & Hid & Hh & Hl) Hop. apply arrive_open in Hop as [((Hst & _) & _) _].
  unfold exchange, relay_network. cbv zeta. destruct (stores (arrive w) !! addr) as [s|] eqn:Hs; [|discriminate].
  destruct (handle_send c (send_query z c) (clock (arrive w)) s) as [m ->]; [done|done|by rewrite Hh|done|].
  destruct (default None (head (faults _))) as [[| |]|]; [discriminate|discriminate|by intros [= _ <-]|]. intros [= <- _] _.
  eexists. split; [apply lookup_insert_eq|]. split.
  - unfold GetChunk. rewrite SetMessageOwner_messages. apply GetChunk_Store.
  - rewrite SetMessageOwner_owner. rewrite (proj1 (Store_owners c _ s)). rewrite Hid, Hh.
    destruct (Hst addr s Hs) as (_ & [-> | ->] & _); [by rewrite decide_True|done].
Qed.

(** ** The sending goroutines *)
Section Sent.
Context (e : DNSClientEngine) (He : zone e = z) (id h : bytes) (t0 T : Z) (cs : list Chunk).
Context (Hcs : Forall (sendable id h) cs).
Context (Hinj : forall c c', c ∈ cs -> c' ∈ cs -> ChunkIdx c = ChunkIdx c' -> c = c').

Definition sent_inv (s : PState (RelayWorld DB)) : Prop :=
  open_for id h t0 T (world s) /\
  forall i r c, (i, r) ∈ accepted s -> cs !! i = Some c -> has (world s) r c.

Lemma SendChunk_sent i c addr mode w (acc : list (nat * bytes)) w' res :
  cs !! i = Some c -> open_for id h t0 T w ->
  (forall j r c', (j, r) ∈ acc -> cs !! j = Some c' -> has w r c') ->
  SendChunk addr z c mode w = (w', res) ->
  open_for id h t0 T w' /\ (forall j r c', (j, r) ∈ acc -> cs !! j = Some c' -> has w' r c') /\
  (res = Ok tt -> has w' addr c).
Proof.
  intros Hi Hop Hacc Hsend. pose proof (list_elem_of_lookup_2 _ _ _ Hi) as Hc.
  pose proof Hcs as Hcs'. rewrite Forall_forall in Hcs'. pose proof (Hcs' c Hc) as Hsc.
  set (P := fun w => open_for id h t0 T w /\ forall j r c', (j, r) ∈ acc -> cs !! j = Some c' -> has w r c').
  assert (forall net w, P w -> P (exchange net addr (send_query z c) w).1) as HP.
  { intros net w0 [H1 H2]. split; [by apply exchange_open|]. intros j r c' Hj Hc'.
    pose proof (list_elem_of_lookup_2 _ _ _ Hc') as Hin. destruct (Hcs' c' Hin) as (_ & _ & Hid' & _).
    eapply exchange_has; [done|done|done| |by eauto]. intros Hx. by apply Hinj. }
  assert (P w) as Hw by done.
  pose proof (SendChunk_inv P addr z c mode w HP Hw) as Hw'. rewrite Hsend in Hw'. destruct Hw' as [Ho' Ha'].
  split; [exact Ho'|]. split; [exact Ha'|]. intros ->.
  destruct (SendChunk_Ok P addr z c mode w w' tt HP Hw Hsend) as (net & w0 & resp & [H1 _] & Hx & Hr).
  by eapply exchange_stored.
Qed.

Lemma pstep_sent s s' : pstep e cs s s' -> sent_inv s -> sent_inv s'.
Proof.
  intros Hstep [Hop Hacc]. destruct Hstep as [s s' Hmove|s Hl Hu]; [|by split].
  destruct Hmove as [k w s Hk Hw Hlt|k w s Hk Hw Hc|k w s Hk Hw Hc|k w s Hk Hw Hc|k w c w' err s Hk Hw Hc Hs
    |k w c w' s Hk Hw Hc Hs|k w s Hk Hw|k w s Hk Hw|k w s Hk Hw|s Hc Hr|s Hl Hf|s Hl Hc|s Hl Hu|ok s Hl Hf]; try (by split).
  - rewrite He in Hs. destruct (SendChunk_sent _ c _ _ _ (accepted s) _ _ Hc Hop Hacc Hs) as (H1 & H2 & _). by split.
  - rewrite He in Hs. destruct (SendChunk_sent _ c _ _ _ (accepted s) _ _ Hc Hop Hacc Hs) as (H1 & H2 & H3).
    split; [done|]. simpl. intros i r c' [[= -> ->]|Hin]%elem_of_cons Hi; [|by eapply H2].
    rewrite Hc in Hi. injection Hi as <-. by apply H3.
Qed.

Lemma reach_sent rs w s : open_for id h t0 T w -> rtc (pstep e cs) (init_state cs rs w) s -> sent_inv s.
Proof.
  intros Hop Hr. assert (sent_inv (init_state cs rs w)) as H0.
  { split; [done|]. by intros i r c Hin%not_elem_of_nil. }
  revert H0. induction Hr as [|a b c Hs Hr IH]; [done|]. intros H0. eapply IH, pstep_sent; done.
Qed.

(** When the send succeeds, every chunk is at one of the relays. *)
Lemma sendParallel_some rs w w' :
  cs <> [] -> rs <> [] -> open_for id h t0 T w -> sendParallel e cs rs w w' (Ok tt) ->
  open_for id h t0 T w' /\ forall c, c ∈ cs -> exists r, r ∈ rs /\ has w' r c.
Proof.
  intros Hne Hrs Hop Hsend. unfold sendParallel in Hsend.
  replace ((len cs =? 0) || (len rs =? 0)) with false in Hsend by (by destruct cs, rs).
  destruct Hsend as (s & Hr & Hl & <-). destruct (reach_sent _ _ _ Hop Hr) as [Ho Ha]. split; [done|].
  intros c (i & Hi)%list_elem_of_lookup_1. pose proof (reach_inv e cs rs w s Hr) as Hinv.
  pose proof (pi_loop _ _ _ Hinv) as Hp. unfold loop_ok in Hp. rewrite Hl in Hp. destruct Hp as [Hu _].
  rewrite undelivered_nil, (pi_len _ _ _ Hinv) in Hu. apply lookup_lt_Some in Hi as Hlt.
  apply Hu, (pi_mark _ _ _ Hinv) in Hlt as [r Hin]. pose proof (pi_rel _ _ _ Hinv _ _ Hin) as Ht.
  rewrite (pi_targets _ _ _ Hinv) in Ht. apply start_targets in Ht as [_ Ht]. exists r. split; [done|by eapply Ha].
Qed.

(** With one relay, all chunks are there. *)
Lemma sendParallel_has addr w w' :
  cs <> [] -> open_for id h t0 T w -> sendParallel e cs [addr] w w' (Ok tt) ->
  open_for id h t0 T w' /\ forall c, c ∈ cs -> has w' addr c.
Proof.
  intros Hne Hop Hsend. destruct (sendParallel_some [addr] w w' Hne ltac:(done) Hop Hsend) as [Ho Hsome].
  split; [done|]. intros c Hc. by destruct (Hsome c Hc) as (r & ->%list_elem_of_singleton & Hr).
Qed.

End Sent.

(** ** A receiving client on a recovered network *)
Section Receive.
Context (w : RelayWorld DB) (addr : bytes) (s : ChunkStore DB) (mode : TransportMode).
Context (Hf : faults w = []) (Hquiet : traffic w = []) (Hs : stores w !! addr = Some s) (Hok : stored_ok s).

Lemma exchange_read net q resp :
  handle_query (Fqdn z) q (clock w) s = (s, resp) -> exchange net addr q w = (w, Some resp).
Proof.
  intros Hh. assert (arrive w = w) as Ha.
  { unfold arrive. rewrite Hquiet. cbn [head default visits fold_left]. rewrite Hquiet. destruct w as [st f tr c]. simpl in *. by subst. }
  unfold exchange, relay_network. rewrite Ha, Hs, Hh, Hf. simpl. rewrite insert_id by done.
  destruct w as [st f tr c]. simpl in *. by subst.
Qed.

(** The world is as before and the result is not a panic. *)
Ltac steady := eexists; split; [reflexivity|first [discriminate|assumption|congruence]].

(** What a relay answers to the query for a chunk. *)
Definition chunk_answer (id : bytes) (i : Z) : DnsMsg :=
  match GetChunk id i s with
  | Some c => mkMsg RcodeSuccess [TXT (body_labels c)]
  | None => mkMsg RcodeNameError []
  end.

Lemma QueryChunk_answer id i :
  length id = 8%nat -> is_u16 i ->
  exists r, QueryChunk addr z id i mode w = (w, r) /\
    match GetChunk id i s with Some c => r = Ok c | None => exists err, r = Err err end.
Proof.
  intros Hid Hi.
  assert (forall net, exchange net addr (chunk_query z id i) w = (w, Some (chunk_answer id i))) as Hx.
  { intros net. apply exchange_read. unfold chunk_answer.
    rewrite (handle_query_chunk z Hz (NewChunk id i 0 [])) by first [by apply query_wf | done].
    cbn [TotalChunks NewChunk MsgID ChunkIdx]. change (0 =? 0) with true. by destruct (GetChunk id i s). }
  unfold QueryChunk, query_once. unfold chunk_answer in Hx. destruct (GetChunk id i s) as [c|] eqn:Hg.
  - assert (chunk_wf c) as Hwf.
    { unfold GetChunk in Hg. destruct (messages s !! id) as [buf|] eqn:Hm; [|discriminate].
      by eapply Hok in Hg as [Hwf _]. }
    rewrite !Hx. eexists. split; [|reflexivity]. unfold usable. cbn [Rcode Answer].
    rewrite bool_decide_eq_false_2, parse_answer_body by done. by destruct mode.
  - rewrite !Hx. unfold usable. cbn [Rcode Answer]. destruct mode; eexists; (split; [reflexivity|eauto]).
Qed.

Lemma fetch_rest_steady id n i :
  length id = 8%nat -> exists r, fetch_rest addr z id mode n i w = (w, r) /\ r <> Err EnginePanic.
Proof.
  intros Hid. revert i. induction n as [|n IH]; intros i; simpl; [steady|].
  destruct (QueryChunk_answer id (u16 i) Hid (u16_range i)) as (r & -> & Hr).
  destruct r as [c|err]; [|steady]. destruct (IH (i + 1)) as ([cs|err] & -> & He); steady.
Qed.

Lemma fetch_steady id :
  length id = 8%nat -> exists r, fetchAndReassemble addr z id mode w = (w, r) /\ r <> Err EnginePanic.
Proof.
  intros Hid. unfold fetchAndReassemble.
  destruct (QueryChunk_answer id 0 Hid) as (r & -> & Hr); [unfold is_u16; lia|].
  destruct (GetChunk id 0 s) as [c|] eqn:Hg; [subst r|destruct Hr as [err ->]; steady].
  assert (TotalChunks c <> 0) as Ht.
  { unfold GetChunk in Hg. destruct (messages s !! id) as [buf|] eqn:Hm; [|discriminate].
    eapply Hok in Hg as (_ & Hpos & _); [|done]. lia. }
  apply Z.eqb_neq in Ht. rewrite Ht.
  destruct (fetch_rest_steady id (Z.to_nat (TotalChunks c) - 1) 1 Hid) as ([cs|err] & -> & He); [|steady].
  destruct (ReassembleMessage (c :: cs)); steady.
Qed.

Lemma fetch_any_steady id :
  length id = 8%nat -> exists r, fetch_any [addr] z id mode w = (w, r) /\ r <> Err EnginePanic.
Proof.
  intros Hid. simpl. destruct (fetch_steady id Hid) as ([data|err] & -> & He); [steady|].
  destruct err; steady.
Qed.

(** The message whose chunks the relay holds. *)
Context (id pt pk : bytes) (m : Z).
Context (Hid : length id = 8%nat) (Hne : pt <> []) (Hn : Z.of_nat (chunk_total pt (effective_size m)) < 65536).
Context (Hhas : forall c, c ∈ ChunkMessage id pt m pk -> has w addr c).

Lemma query_stored i c :
  ChunkMessage id pt m pk !! i = Some c -> QueryChunk addr z id (u16 (Z.of_nat i)) mode w = (w, Ok c).
Proof.
  intros Hi. destruct (QueryChunk_answer id (u16 (Z.of_nat i)) Hid (u16_range _)) as (r & -> & Hr).
  destruct (Hhas c) as (s' & Hs' & Hg & _); [by eapply list_elem_of_lookup_2|].
  rewrite Hs in Hs'. injection Hs' as <-. apply ChunkMessage_lookup in Hi as [_ ->].
  cbn [MsgID ChunkIdx set_recipient NewChunk] in Hg. rewrite Hg in Hr. by rewrite Hr.
Qed.

Lemma fetch_rest_stored k i :
  (i + k)%nat = length (ChunkMessage id pt m pk) ->
  fetch_rest addr z id mode k (Z.of_nat i) w = (w, Ok (drop i (ChunkMessage id pt m pk))).
Proof.
  revert i. induction k as [|k IH]; intros i Hik; simpl.
  - by rewrite drop_ge by lia.
  - destruct (lookup_lt_is_Some_2 (ChunkMessage id pt m pk) i) as [c Hc]; [lia|].
    rewrite (query_stored i c Hc). replace (Z.of_nat i + 1) with (Z.of_nat (S i)) by lia.
    rewrite IH by lia. by rewrite (drop_S _ _ _ Hc).
Qed.

Lemma fetch_stored : fetchAndReassemble addr z id mode w = (w, Ok pt).
Proof.
  destruct (chunk_total_spec pt (effective_size m) (effective_size_pos m)) as (_ & Hpos & _). specialize (Hpos Hne).
  pose proof (length_ChunkMessage id pt m pk) as Hlen.
  assert (exists c rest, ChunkMessage id pt m pk = c :: rest) as (c & rest & Hcs).
  { clear Hhas. destruct (ChunkMessage id pt m pk) as [|c rest]; [simpl in Hlen; lia|eauto]. }
  rewrite Hcs in Hlen. unfold fetchAndReassemble.
  assert (ChunkMessage id pt m pk !! 0%nat = Some c) as Hc by (by rewrite Hcs).
  pose proof (query_stored 0 c Hc) as Hq. change (u16 (Z.of_nat 0)) with 0 in Hq. rewrite Hq.
  assert (TotalChunks c = Z.of_nat (chunk_total pt (effective_size m))) as Ht
    by (eapply cs_total; [exact Hn|]; by eapply list_elem_of_lookup_2).
  rewrite Ht. replace (_ =? 0) with false by (symmetry; apply Z.eqb_neq; lia).
  pose proof (fetch_rest_stored (length rest) 1) as Hrest. rewrite Hcs in Hrest.
  rewrite Nat2Z.id. replace (chunk_total pt (effective_size m) - 1)%nat with (length rest) by (simpl in Hlen; lia).
  change 1 with (Z.of_nat 1). rewrite Hrest by done. change (drop 1 (c :: rest)) with rest.
  rewrite (reassemble_complete (c :: rest) pt); [done|].
  rewrite <- Hcs. by eapply (ChunkMessage_reassembles id pt m pk).
Qed.

End Receive.

(** ** Polling *)

(** The timestamp and sequence number a client reads from a record. *)
Definition polled_meta (meta : option (Z * Z)) : Z * Z :=
  match meta with
  | Some (ts, seq) => if 0 <? ts then (i64 ts, u64 seq) else (0, 0)
  | None => (0, 0)
  end.

Lemma meta_field_encode v : meta_field (Base32Hex.EncodeToString (BigEndian.PutUint64 v)) = u64 v.
Proof.
  unfold meta_field. rewrite Base32HexFacts.b32_decode_encode. unfold len.
  replace (length (BigEndian.PutUint64 v)) with 8%nat by (symmetry; apply BigEndianFacts.length_put).
  apply BigEndianFacts.get_PutUint64.
Qed.

Lemma colon_notin_b32 b : colon ∉ Base32Hex.EncodeToString b.
Proof. apply Base32HexFacts.b32_encode_notin. intros H%list_elem_of_In. vm_compute in H. intuition discriminate. Qed.

Lemma parse_poll_record id meta :
  parsePollRecord (poll_record id meta) =
    if len id =? 8 then Some (mkPolled id [] (polled_meta meta).1 (polled_meta meta).2) else None.
Proof.
  unfold parsePollRecord, poll_record, polled_meta.
  assert (SplitN colon 3 (Base32Hex.EncodeToString id) = [Base32Hex.EncodeToString id]) as Hshort
    by apply SplitN_nosep, colon_notin_b32.
  destruct meta as [[ts seq]|]; [destruct (0 <? ts)|].
  - cbn [app]. rewrite !SplitN_app, SplitN_1 by apply colon_notin_b32.
    change (default [] (head (?a :: _))) with a.
    rewrite Base32HexFacts.b32_decode_encode. cbn [mbind option_bind].
    destruct (len id =? 8); [|done]. cbn [negb]. by rewrite !meta_field_encode, !i64_u64.
  - rewrite Hshort. change (default [] (head (?a :: _))) with a.
    rewrite Base32HexFacts.b32_decode_encode. cbn [mbind option_bind]. by destruct (len id =? 8).
  - rewrite Hshort. change (default [] (head (?a :: _))) with a.
    rewrite Base32HexFacts.b32_decode_encode. cbn [mbind option_bind]. by destruct (len id =? 8).
Qed.

Lemma parsePollRecord_length t pm : parsePollRecord t = Some pm -> length (pm_MsgID pm) = 8%nat.
Proof.
  unfold parsePollRecord. destruct (Base32Hex.DecodeString _) as [id|]; [|discriminate]. cbn [mbind option_bind].
  destruct (len id =? 8) eqn:Hl; [|discriminate]. apply Z.eqb_eq in Hl. unfold len in Hl. cbn [negb].
  destruct (SplitN colon 3 t) as [|a [|b [|c [|? ?]]]]; intros [= <-]; simpl; lia.
Qed.

Section Poll.
Context (w : RelayWorld DB) (addr : bytes) (s : ChunkStore DB).
Context (Hf : faults w = []) (Hquiet : traffic w = []) (Hs : stores w !! addr = Some s) (Hok : stored_ok s).
Context (ParseIP : bytes -> bool) (host port : bytes).
Context (Haddr : SplitHostPort addr = Some (host, port)) (Hip : ParseIP host = true).

(** The records of a poll, parsed. *)
Definition poll_list (pk : bytes) : list PolledMessage :=
  omap parsePollRecord (poll_answer (Base32Hex.EncodeToString (Sha256.Sum256 pk)) s).

Lemma poll_steady e pk :
  zone e = z ->
  pollRelayWithMeta ParseIP e addr (Base32Hex.EncodeToString (Sha256.Sum256 pk)) w = (w, Ok (poll_list pk)).
Proof.
  intros He. unfold pollRelayWithMeta, resolveAddr. rewrite Haddr, Hip.
  assert (forall net, exchange net addr (poll_msg e (Base32Hex.EncodeToString (Sha256.Sum256 pk))) w =
    (w, Some (mkMsg RcodeSuccess [TXT (poll_answer (Base32Hex.EncodeToString (Sha256.Sum256 pk)) s)]))) as Hx.
  { intros net. apply (exchange_read w addr s); [done|done|done|]. unfold poll_msg. rewrite He. by apply handle_poll. }
  rewrite !Hx. unfold poll_final, parsePollResponseWithMeta. cbn [Rcode Answer map concat].
  change (RcodeSuccess =? RcodeSuccess) with true. rewrite app_nil_r. by destruct (transportMode e).
Qed.

(** The messages a loop over polled records returns. *)
Lemma fetch_loop_steady metas e (id pt : bytes) :
  zone e = z -> Forall (fun pm => length (pm_MsgID pm) = 8%nat) metas -> NoDup (map pm_MsgID metas) ->
  (forall mode, fetchAndReassemble addr z id mode w = (w, Ok pt)) ->
  exists e' out, fetch_loop [addr] metas e w = (w, e', Ok out) /\
    forall pm, pm ∈ metas -> pm_MsgID pm = id -> id ∉ fetched e ->
      mkPolled id pt (pm_Timestamp pm) (pm_Sequence pm) ∈ out.
Proof.
  intros He Hall Hnd Hfetch. revert e He Hnd. induction Hall as [|pm metas Hlen Hall IH]; intros e He Hnd; cbn [fetch_loop].
  { eexists _, _. split; [done|]. by intros pm H%not_elem_of_nil. }
  apply NoDup_cons in Hnd as [Hnew Hnd]. case_decide as Hd.
  { destruct (IH e He Hnd) as (e' & out & -> & Hout). eexists _, _. split; [done|].
    intros pm' [->|Hin]%elem_of_cons Hid Hn; [congruence|by apply Hout]. }
  rewrite He. destruct (decide (pm_MsgID pm = id)) as [Hid|Hid].
  - assert (fetch_any [addr] z (pm_MsgID pm) (transportMode e) w = (w, Ok pt)) as ->
      by (cbn [fetch_any]; by rewrite Hid, Hfetch).
    destruct (IH (mark_fetched (pm_MsgID pm) e) He Hnd) as (e' & out & -> & _). eexists _, _. split; [done|].
    intros pm' [->|Hin]%elem_of_cons Hid' Hn; [rewrite Hid'; apply list_elem_of_here|].
    exfalso. apply Hnew, list_elem_of_In, in_map_iff. exists pm'. rewrite Hid, Hid'. split; [done|by apply list_elem_of_In].
  - destruct (fetch_any_steady w addr s (transportMode e) Hf Hquiet Hs Hok (pm_MsgID pm) Hlen) as ([data|err] & -> & Hp).
    + destruct (IH (mark_fetched (pm_MsgID pm) e) He Hnd) as (e' & out & -> & Hout). eexists _, _. split; [done|].
      intros pm' [->|Hin]%elem_of_cons Hid' Hn; [done|]. apply list_elem_of_further, Hout; [done|done|].
      simpl. set_solver.
    + destruct (IH e He Hnd) as (e' & out & Hl & Hout). exists e', out. rewrite Hl. split; [by destruct err|].
      intros pm' [->|Hin]%elem_of_cons Hid' Hn; [done|by apply Hout].
Qed.

Lemma poll_list_length pk : Forall (fun pm => length (pm_MsgID pm) = 8%nat) (poll_list pk).
Proof.
  apply Forall_forall. intros pm (t & _ & Ht)%list_elem_of_omap. by eapply parsePollRecord_length.
Qed.

Lemma poll_list_elem pk id :
  length id = 8%nat -> messageOwner s !! id = Some (Base32Hex.EncodeToString (Sha256.Sum256 pk)) ->
  id ∈ map pm_MsgID (poll_list pk).
Proof.
  intros Hid Ho. apply list_elem_of_In, in_map_iff.
  exists (mkPolled id [] (polled_meta (GetMessageMeta id s)).1 (polled_meta (GetMessageMeta id s)).2). split; [done|].
  apply list_elem_of_In, list_elem_of_omap. exists (poll_record id (GetMessageMeta id s)).
  split;
    [|rewrite parse_poll_record; by replace (len id =? 8) with true by (unfold len; by rewrite Hid)].
  unfold poll_answer. apply (list_elem_of_fmap_2' _ _ id); [|done].
  by apply ListPeerMessages_elem.
Qed.

(** A polled record carries the stamp of the stored message. *)
Lemma poll_list_meta pk pm : pm ∈ poll_list pk ->
  pm = mkPolled (pm_MsgID pm) [] (polled_meta (GetMessageMeta (pm_MsgID pm) s)).1
         (polled_meta (GetMessageMeta (pm_MsgID pm) s)).2.
Proof.
  intros (t & Ht & Hp)%list_elem_of_omap. unfold poll_answer in Ht.
  apply list_elem_of_In, in_map_iff in Ht as (id & <- & _). rewrite parse_poll_record in Hp.
  destruct (len id =? 8); [|discriminate]. by injection Hp as <-.
Qed.

Lemma PollMessages_stored e pk id pt :
  zone e = z -> discoverActiveRelays e = [addr] -> pk <> [] -> length id = 8%nat -> id ∉ fetched e ->
  messageOwner s !! id = Some (Base32Hex.EncodeToString (Sha256.Sum256 pk)) ->
  (forall mode, fetchAndReassemble addr z id mode w = (w, Ok pt)) ->
  exists e' out, PollMessages ParseIP e pk w = (w, e', Ok out) /\
    mkPolled id pt (polled_meta (GetMessageMeta id s)).1 (polled_meta (GetMessageMeta id s)).2 ∈ out.
Proof.
  intros He Hr Hpk Hid Hnew Ho Hfetch. unfold PollMessages.
  rewrite PollRelays_replies by (rewrite ?Hr; done). rewrite Hr. cbn [replies]. rewrite poll_steady by done.
  rewrite app_nil_r. pose proof (add_unseen_spec (poll_list pk) ∅) as Hspec.
  destruct (add_unseen (poll_list pk) ∅) as [metas seen]. destruct Hspec as (Hnd & Hsub & Hin & _). cbn [fst].
  assert (id ∈ map pm_MsgID metas) as Hm by (apply Hin; split; [by apply poll_list_elem|apply not_elem_of_empty]).
  assert (exists pm, pm ∈ metas /\ pm_MsgID pm = id) as (pm & Hpm & Hpid).
  { apply list_elem_of_In, in_map_iff in Hm as (pm & <- & Hpm%list_elem_of_In). eauto. }
  assert (Forall (fun pm => length (pm_MsgID pm) = 8%nat) metas) as Hall.
  { apply Forall_forall. intros x Hx. pose proof (poll_list_length pk) as H. rewrite Forall_forall in H.
    apply H. by eapply sublist_subseteq. }
  destruct (fetch_loop_steady metas e id pt He Hall Hnd Hfetch) as (e' & out & Hl & Hout).
  exists e', out. split; [by destruct metas|].
  specialize (Hout pm Hpm Hpid Hnew).
  assert (pm ∈ poll_list pk) as Hpl by (by eapply sublist_subseteq).
  apply poll_list_meta in Hpl. rewrite Hpid in Hpl. rewrite Hpl in Hout. exact Hout.
Qed.

End Poll.

End World.

(** ** The chunks of a message are sendable *)
Lemma ChunkMessage_sendable id pt m pk :
  length id = 8%nat -> pk <> [] -> pt <> [] ->
  Z.of_nat (chunk_total pt (effective_size m)) < 65536 ->
  Forall (sendable id (Sha256.Sum256 pk)) (ChunkMessage id pt m pk).
Proof.
  intros Hid Hpk Hne Hn. apply Forall_forall. intros c Hc.
  pose proof (ChunkMessage_wf id pt m pk Hid) as Hwf. rewrite Forall_forall in Hwf.
  destruct (chunk_total_spec pt (effective_size m) (effective_size_pos m)) as (_ & Hpos & _). specialize (Hpos Hne).
  split; [by apply Hwf|]. split; [rewrite (cs_total id pt m pk Hn c Hc); lia|].
  apply list_elem_of_lookup_1 in Hc as (i & [_ ->]%ChunkMessage_lookup).
  cbn [MsgID RecipientHash set_recipient NewChunk]. unfold recipient_hash. rewrite decide_False by done.
  split; [done|]. split; [done|]. apply Sha256.Sum256_length.
Qed.

Lemma ChunkMessage_not_nil id pt m pk : pt <> [] -> ChunkMessage id pt m pk <> [].
Proof.
  intros Hne H%(f_equal length). rewrite length_ChunkMessage in H.
  destruct (chunk_total_spec pt (effective_size m) (effective_size_pos m)) as (_ & Hpos & _). specialize (Hpos Hne).
  cbn [length] in H. lia.
Qed.

(** ** A schedule that runs the goroutines one after the other *)
Section Schedule.
Context {DL : DnsLib} {W : Type} {NW : Network W} (e : DNSClientEngine) (cs : list Chunk).

(** Goroutine [k] once it holds the semaphore, and until it releases it. *)
Definition run_send (k : nat) (w : worker) (c : Chunk) (s : PState W) : PState W :=
  match SendChunk (w_relay w) (zone e) c (transportMode e) (world s) with
  | (w', Ok _) => move k Releasing 1 (deliver (w_chunk w) (accept (w_chunk w) (w_relay w) (move k Sent 1 (set_world w' s))))
  | (w', Err _) => move k Releasing 1 (set_world w' s)
  end.

(** From the semaphore to the end. *)
Definition run_worker (k : nat) (s : PState W) : option (PState W) :=
  w ← workers s !! k;
  c ← cs !! w_chunk w;
  if bool_decide (w_state w = Waiting) && (sem s =? 0)%nat && negb (cancelled s) then
    Some (move k Finished 0 (move k Leaving 0 (run_send k w c (move k Sending 1 (move k Acquired 1 s)))))
  else None.

Lemma run_send_steps k w c s :
  workers s !! k = Some w -> w_state w = Sending -> cs !! w_chunk w = Some c -> sem s = 1%nat ->
  rtc (pstep e cs) s (run_send k w c s) /\ sem (run_send k w c s) = 1%nat /\
  workers (run_send k w c s) !! k = Some (mkWorker (w_chunk w) (w_relay w) Releasing).
Proof.
  intros Hk Hw Hc Hs. unfold run_send.
  destruct (SendChunk _ _ c _ (world s)) as [w' [[]|err]] eqn:Hsend; (split; [|split; [done|]]).
  - eapply rtc_l; [apply p_move; by eapply (p_sent e cs k w)|]. rewrite Hs.
    apply rtc_once, p_move. by eapply (p_mark e cs k (mkWorker _ _ Sent)); [apply set_wstate_at|].
  - simpl. by erewrite set_wstate_at; [|by apply set_wstate_at].
  - rewrite <- Hs. apply rtc_once, p_move. by eapply (p_fail e cs k w).
  - simpl. by erewrite set_wstate_at.
Qed.

Lemma run_worker_steps k s s' : run_worker k s = Some s' -> rtc (pstep e cs) s s'.
Proof.
  unfold run_worker. destruct (workers s !! k) as [w|] eqn:Hk; [|discriminate]. cbn [mbind option_bind].
  destruct (cs !! w_chunk w) as [c|] eqn:Hc; [|discriminate]. cbn [mbind option_bind].
  destruct (bool_decide (w_state w = Waiting)) eqn:Hw; [|discriminate]. apply bool_decide_eq_true in Hw.
  destruct (sem s =? 0)%nat eqn:Hs; [|discriminate]. apply Nat.eqb_eq in Hs.
  destruct (cancelled s) eqn:Hcn; [discriminate|]. cbn [andb negb]. intros [= <-].
  pose proof (set_wstate_at k Acquired _ w Hk) as Hk1. pose proof (set_wstate_at k Sending _ _ Hk1) as Hk2.
  cbn [w_chunk w_relay] in Hk2. set (s2 := move k Sending 1 (move k Acquired 1 s)).
  destruct (run_send_steps k (mkWorker (w_chunk w) (w_relay w) Sending) c s2) as (H2 & Hs3 & Hk3); try done.
  change (run_send k (mkWorker (w_chunk w) (w_relay w) Sending) c s2) with (run_send k w c s2) in *.
  eapply rtc_l; [apply p_move, (p_acquire e cs k w); [done|done|rewrite Hs; unfold parallelism; lia]|]. rewrite Hs.
  eapply rtc_l; [apply p_move; by eapply (p_start e cs k); [exact Hk1|..]|].
  etrans; [exact H2|]. eapply rtc_l; [apply p_move; by eapply (p_release e cs k); [exact Hk3|]|]. rewrite Hs3.
  apply rtc_once, p_move. by eapply (p_exit e cs k); [apply (set_wstate_at k Leaving _ _ Hk3)|].
Qed.

Fixpoint run_workers (ks : list nat) (s : PState W) : option (PState W) :=
  match ks with [] => Some s | k :: rest => s' ← run_worker k s; run_workers rest s' end.

Lemma run_workers_steps ks s s' : run_workers ks s = Some s' -> rtc (pstep e cs) s s'.
Proof.
  revert s. induction ks as [|k ks IH]; intros s; simpl; [by intros [= ->]|].
  destruct (run_worker k s) as [s1|] eqn:H1; [|discriminate]. intros H2%IH.
  etrans; [by eapply run_worker_steps|exact H2].
Qed.

(** Every goroutine in the order given, then the loop's verdict. *)
Definition send_in_turn (rs : list bytes) (ks : list nat) (w : W) : option (W * result send_error unit) :=
  s ← run_workers ks (init_state cs rs w);
  if all_finished s && match loop s with Looping => true | _ => false end
  then Some (world s, verdict s) else None.

Lemma send_in_turn_sound rs ks w w' r :
  cs <> [] -> rs <> [] -> send_in_turn rs ks w = Some (w', r) -> sendParallel e cs rs w w' r.
Proof.
  intros Hcs Hrs. unfold send_in_turn. destruct (run_workers ks _) as [s|] eqn:Hr; [|discriminate].
  cbn [mbind option_bind]. destruct (all_finished s) eqn:Hf; [|discriminate].
  destruct (loop s) eqn:Hl; try discriminate. intros [= <- <-]. unfold sendParallel.
  replace ((len cs =? 0) || (len rs =? 0)) with false by (by destruct cs, rs).
  eexists. split; [eapply rtc_r; [by eapply run_workers_steps|by apply p_move, p_done]|done].
Qed.

End Schedule.

(** When a send succeeds, a later poll returns the message. *)
Lemma sent_received {DL : DnsLib} {DB} {SS : SequenceSource DB} {IO : IterOrder}
    z addr host port ParseIP ctx_done sender recipient pt pk msgID t0 T (w w1 : RelayWorld DB) r later :
  zone_ok z -> zone sender = z -> zone recipient = z ->
  discoverActiveRelays sender = [addr] -> discoverActiveRelays recipient = [addr] ->
  SplitHostPort addr = Some (host, port) -> ParseIP host = true ->
  pt <> [] -> pk <> [] -> length msgID = 8%nat ->
  Z.of_nat (chunk_total pt (effective_size (chunkSize sender))) < 65536 ->
  msgID ∉ fetched recipient -> open_for z msgID (Sha256.Sum256 pk) t0 T w ->
  SendMessage (NW := relay_network z) ctx_done sender pt pk msgID w w1 (Ok r) ->
  Forall (spares z msgID) later -> clock w1 + waits later <= t0 + T ->
  let w2 := recovered (visits z later w1) in
  exists s e' out, stores w2 !! addr = Some s /\
    PollMessages (NW := relay_network z) ParseIP recipient pk w2 = (w2, e', Ok out) /\
    mkPolled msgID pt (polled_meta (GetMessageMeta msgID s)).1 (polled_meta (GetMessageMeta msgID s)).2 ∈ out.
Proof.
  intros Hz Hzs Hzr Hrs Hrr Haddr Hip Hne Hpk Hid Hn Hnew Hop Hsend Hlater Htime w2.
  unfold SendMessage in Hsend. rewrite Hrs in Hsend. change (0 <? len [addr]) with true in Hsend.
  destruct Hsend as (r0 & Hsp & Hr0). destruct r0 as [[]|err]; [|discriminate].
  pose proof (ChunkMessage_sendable msgID pt (chunkSize sender) pk Hid Hpk Hne Hn) as Hall.
  destruct (sendParallel_has z Hz sender Hzs msgID (Sha256.Sum256 pk) t0 T _ Hall
    (fun c c' => cs_idx_inj msgID pt _ pk Hn c c') addr w w1 (ChunkMessage_not_nil _ _ _ _ Hne) Hop Hsp) as [Hop1 Hhas1].
  rewrite Forall_forall in Hall. set (m := chunkSize sender) in *.
  destruct (visits_safe z msgID _ _ _ later w1 Hlater Htime (proj1 Hop1)) as ([Hsafe _] & Hvis & _).
  assert (forall c, c ∈ ChunkMessage msgID pt m pk -> has w2 addr c) as Hhas.
  { intros c Hc. destruct (Hall c Hc) as (_ & _ & Hcid & _). exact (Hvis addr c Hcid (Hhas1 c Hc)). }
  assert (exists c, c ∈ ChunkMessage msgID pt m pk) as [c0 Hc0].
  { pose proof (ChunkMessage_not_nil msgID pt m pk Hne). destruct (ChunkMessage msgID pt m pk) as [|c l]; [done|].
    exists c. apply list_elem_of_here. }
  destruct (Hhas c0 Hc0) as (s & Hs & _ & Ho). destruct (Hsafe addr s Hs) as [Hok _].
  destruct (Hall c0 Hc0) as (_ & _ & Hcid & Hch & _). rewrite Hcid, Hch in Ho. exists s.
  destruct (PollMessages_stored z Hz w2 addr s eq_refl eq_refl Hs Hok ParseIP host port Haddr Hip
    recipient pk msgID pt Hzr Hrr Hpk Hid Hnew Ho) as (e' & out & Hpoll & Hin); [|by eauto].
  intros mode. by apply (fetch_stored z Hz w2 addr s mode eq_refl eq_refl Hs Hok msgID pt pk m Hid Hne Hn).
Qed.

(** ** Properties *)

(** C2: what is reported as sent is received.  A sender and a recipient use
    one relay; the sender's goroutines interleave in any way, the network
    loses any queries and replies, the relay refuses any of them, and between
    them the relay serves other clients, which use other message ids, and
    collects.  If [SendMessage] still returns without error, then after any
    further such traffic, and as long as less time has passed since [t0], when
    sending began, than the relay keeps messages, a poll of the recipient's
    key on the recovered network returns that message, byte for byte, with the
    relay's stamp, along with whatever else is waiting.  The text and the key
    are not empty, the text makes fewer than 65536 chunks, the relay is
    configured by its IP address, and the recipient has not fetched a message
    with this id before. *)
Theorem sent_is_received {DL : DnsLib} {DB} {SS : SequenceSource DB} {IO : IterOrder}
    z addr host port ParseIP ctx_done sender recipient pt pk msgID t0 T (w w1 : RelayWorld DB) r later :
  zone_ok z -> zone sender = z -> zone recipient = z ->
  discoverActiveRelays sender = [addr] -> discoverActiveRelays recipient = [addr] ->
  SplitHostPort addr = Some (host, port) -> ParseIP host = true ->
  pt <> [] -> pk <> [] -> length msgID = 8%nat ->
  Z.of_nat (chunk_total pt (effective_size (chunkSize sender))) < 65536 ->
  msgID ∉ fetched recipient -> open_for z msgID (Sha256.Sum256 pk) t0 T w ->
  SendMessage (NW := relay_network z) ctx_done sender pt pk msgID w w1 (Ok r) ->
  Forall (spares z msgID) later -> clock w1 + waits later <= t0 + T ->
  let w2 := recovered (visits z later w1) in
  exists s e' out, stores w2 !! addr = Some s /\
    PollMessages (NW := relay_network z) ParseIP recipient pk w2 = (w2, e', Ok out) /\
    mkPolled msgID pt (polled_meta (GetMessageMeta msgID s)).1 (polled_meta (GetMessageMeta msgID s)).2 ∈ out.
Proof. exact (sent_received z addr host port ParseIP ctx_done sender recipient pt pk msgID t0 T w w1 r later). Qed.

(** The record of a poll: what the relay prints for a message, the
    client parses to the same id and, when the message has a stamp, to its
    timestamp and sequence number. *)
Theorem poll_record_roundtrip id ts seq :
  length id = 8%nat -> 0 < ts < 2 ^ 63 -> 0 <= seq < 2 ^ 64 ->
  parsePollRecord (poll_record id (Some (ts, seq))) = Some (mkPolled id [] ts seq) /\
  parsePollRecord (poll_record id None) = Some (mkPolled id [] 0 0).
Proof.
  intros Hid Hts Hseq. rewrite !parse_poll_record. unfold len. rewrite Hid.
  change (Z.of_nat 8 =? 8) with true. unfold polled_meta.
  replace (0 <? ts) with true by (symmetry; apply Z.ltb_lt; lia). cbn [fst snd].
  by rewrite i64_small, u64_small by lia.
Qed.

(** ** Closed instances *)
Definition demo_zone : bytes := $"msg.local-domain".
Definition relay_a : bytes := $"10.0.0.1:53".
Definition demo_store : ChunkStore (gmap bytes bytes) := NewChunkStore DefaultGCInterval DefaultTTL.

Lemma demo_zone_ok : zone_ok demo_zone.
Proof. exists $"msg.local-domai", (Ascii.ascii_of_nat 110). repeat split; discriminate. Qed.

Lemma demo_open {DL : DnsLib} (id h : bytes) (rs : gmap bytes (ChunkStore (gmap bytes bytes))) faults tr now :
  (forall r s, rs !! r = Some s -> s = demo_store) -> Forall (Forall (spares demo_zone id)) tr ->
  waits (concat tr) <= DefaultTTL -> open_for demo_zone id h now DefaultTTL (mkWorld rs faults tr now).
Proof.
  intros H Htr Hw. split; [split; [|simpl; lia]|split; [done|simpl; lia]].
  intros r s ->%H. split; [apply new_store_ok|]. split; [left; apply lookup_empty|]. split; [simpl; lia|].
  intros buf Hb. simpl in Hb. by rewrite lookup_empty in Hb.
Qed.

(** A reply is lost on the way; the automatic mode asks again.  Meanwhile
    another client stores a chunk, and the relay collects an hour later. *)
Definition other_chunk : Chunk := set_recipient (Sha256.Sum256 $"other") (NewChunk $"76543210" 0 1 $"other").
Definition other_traffic : list visit := [Query relay_a (send_query (DL := simple_dns_lib) demo_zone other_chunk); Wait (3600 * second); Collect relay_a].
Definition lossy_world : RelayWorld (gmap bytes bytes) :=
  mkWorld {[relay_a := demo_store]} [Some DropReply] [[]; other_traffic] (5 * second).

Lemma other_traffic_spares : Forall (spares (DL := simple_dns_lib) demo_zone $"01234567") other_traffic.
Proof.
  repeat apply Forall_cons_2; [|vm_compute; discriminate|exact I|apply Forall_nil_2].
  cbn [spares]. apply (bool_decide_unpack _). vm_compute. exact I.
Qed.

Lemma lossy_open h : open_for (DL := simple_dns_lib) demo_zone $"01234567" h (5 * second) DefaultTTL lossy_world.
Proof.
  apply demo_open; [|apply Forall_cons_2; [apply Forall_nil_2|apply list.Forall_singleton, other_traffic_spares]|vm_compute; discriminate].
  intros r s Hs. by apply lookup_singleton_Some in Hs as [_ <-].
Qed.

Lemma demo_sent : exists w1,
  SendMessage (DL := simple_dns_lib) (NW := relay_network (DL := simple_dns_lib) (IO := forward_order) demo_zone)
    (fun _ => false) (NewDNSClientEngine [relay_a] demo_zone) $"hello" $"key" $"01234567" lossy_world w1
    (Ok ($"01234567", 1)) /\ clock w1 = 3605 * second.
Proof.
  set (NW := relay_network (DL := simple_dns_lib) (IO := forward_order) demo_zone).
  set (run := send_in_turn (DL := simple_dns_lib) (NW := NW) (NewDNSClientEngine [relay_a] demo_zone)
    (ChunkMessage $"01234567" $"hello" 75 $"key") [relay_a] [0%nat] lossy_world).
  assert (match run with Some (w1, Ok _) => clock w1 =? 3605 * second | _ => false end = true) as H by (vm_compute; reflexivity).
  destruct run as [[w1 [[]|err]]|] eqn:Hrun; try discriminate H. exists w1. split; [|by apply Z.eqb_eq].
  exists (Ok tt). split; [|reflexivity]. eapply send_in_turn_sound; [discriminate|discriminate|exact Hrun].
Qed.

Lemma sent_is_received_witness : exists w1 s e' out,
  let w2 := recovered (visits (DL := simple_dns_lib) (IO := forward_order) demo_zone other_traffic w1) in
  stores w2 !! relay_a = Some s /\
  PollMessages (DL := simple_dns_lib) (NW := relay_network (DL := simple_dns_lib) (IO := forward_order) demo_zone)
    (fun _ => true) (NewDNSClientEngine [relay_a] demo_zone) $"key" w2 = (w2, e', Ok out) /\
  mkPolled $"01234567" $"hello" (polled_meta (GetMessageMeta $"01234567" s)).1
    (polled_meta (GetMessageMeta $"01234567" s)).2 ∈ out.
Proof.
  destruct demo_sent as (w1 & Hsent & Hclock). exists w1.
  refine (sent_is_received (DL := simple_dns_lib) (IO := forward_order) demo_zone relay_a $"10.0.0.1" $"53"
    (fun _ => true) (fun _ => false) (NewDNSClientEngine [relay_a] demo_zone) (NewDNSClientEngine [relay_a] demo_zone)
    $"hello" $"key" $"01234567" (5 * second) DefaultTTL lossy_world w1 _ other_traffic
    demo_zone_ok eq_refl eq_refl eq_refl eq_refl eq_refl eq_refl
    _ _ eq_refl _ _ (lossy_open _) Hsent other_traffic_spares _);
    [discriminate|discriminate|vm_compute; reflexivity|apply not_elem_of_empty|rewrite Hclock; vm_compute; discriminate].
Defined.

Lemma poll_record_roundtrip_witness :
  parsePollRecord (poll_record $"01234567" (Some (1700000000000, 42))) = Some (mkPolled $"01234567" [] 1700000000000 42).
Proof. apply (poll_record_roundtrip $"01234567" 1700000000000 42); [reflexivity|lia|lia]. Defined.
