(* ===== verification/Split.v ===== *)
(** * Messages scattered over several relays

    [sendParallel] reports success when every chunk was accepted by some
    relay, and the recipient fetches a message from one relay.  With the
    relays and the network of [Delivery], the losses that scatter a message
    over two relays are constructed, and what a poll then returns. *)

From S2P Require Import Prelude GoStrings Codec Sha256 Encoding Sequence Store Dns Relay Engine SendParallel Delivery.

(** What the network does to the exchanges of one [SendChunk]: it loses every
    query of it, or carries the first one. *)
Definition send_faults (mode : TransportMode) (lost : bool) : list (option fault) :=
  if lost then replicate (match mode with TransportAuto => 3 | _ => 1 end) (Some DropQuery) else [None].

Section Split.
Context {DL : DnsLib} {DB : Type} {SS : SequenceSource DB} {IO : IterOrder} (z : bytes) (Hz : zone_ok z).
Implicit Types (w : RelayWorld DB).
#[local] Instance split_network : Network (RelayWorld DB) := relay_network z.

(** The world with other losses ahead, and no other client at work. *)
Definition with_faults (fs : list (option fault)) w : RelayWorld DB := mkWorld (stores w) fs [] (clock w).

(** The relay at [r] does not hold the chunk. *)
Definition lacks w (r : bytes) (c : Chunk) : Prop :=
  forall s, stores w !! r = Some s -> GetChunk (MsgID c) (ChunkIdx c) s = None.

(** The relays have never heard of the message. *)
Definition fresh_for (id : bytes) w : Prop :=
  forall r s, stores w !! r = Some s ->
    stored_ok s /\ messages s !! id = None /\ messageOwner s !! id = None /\ 0 <= ttl s.

Lemma exchange_lost net addr q w fs :
  traffic w = [] -> faults w = Some DropQuery :: fs -> exchange net addr q w = (with_faults fs w, None).
Proof.
  destruct w as [st f tr ck]. simpl. intros -> ->. unfold exchange, split_network, relay_network, arrive. simpl.
  destruct (st !! addr) as [s|]; [|done]. by destruct (handle_query _ q _ s).
Qed.

Lemma exchange_through net addr q w fs s s' resp :
  traffic w = [] -> faults w = None :: fs -> stores w !! addr = Some s ->
  handle_query (Fqdn z) q (clock w) s = (s', resp) ->
  exchange net addr q w = (mkWorld (<[addr := s']> (stores w)) fs [] (clock w), Some resp).
Proof.
  destruct w as [st f tr ck]. simpl. intros -> -> Hs Hh. unfold exchange, split_network, relay_network, arrive. simpl.
  by rewrite Hs, Hh.
Qed.

Lemma SendChunk_lost addr c mode w fs :
  traffic w = [] -> faults w = send_faults mode true ++ fs ->
  exists err, SendChunk addr z c mode w = (with_faults fs w, Err err).
Proof.
  intros Ht Hf. unfold SendChunk, send_once. destruct mode; simpl in Hf; erewrite !exchange_lost by done; eauto.
Qed.

(** What a relay's store becomes when a chunk reaches it. *)
Definition filed (c : Chunk) (now : Z) (s : ChunkStore DB) : ChunkStore DB :=
  SetMessageOwner (MsgID c) (Base32Hex.EncodeToString (RecipientHash c)) (Store c now s).1.

Lemma SendChunk_through addr c mode w fs s :
  chunk_wf c -> TotalChunks c <> 0 -> length (RecipientHash c) = 32%nat ->
  traffic w = [] -> faults w = send_faults mode false ++ fs -> stores w !! addr = Some s ->
  SendChunk addr z c mode w = (mkWorld (<[addr := filed c (clock w) s]> (stores w)) fs [] (clock w), Ok tt).
Proof.
  intros Hwf Ht Hh Hq Hf Hs.
  assert (exists txt, handle_query (Fqdn z) (send_query z c) (clock w) s = (filed c (clock w) s, mkMsg RcodeSuccess txt)) as [txt Hx].
  { rewrite (handle_query_chunk z Hz c (send_query z c) _ s Hwf eq_refl). apply Z.eqb_neq in Ht. rewrite Ht.
    unfold len. rewrite Hh. eexists. reflexivity. }
  pose proof (fun net => exchange_through net addr _ w fs s _ _ Hq Hf Hs Hx) as Hnet.
  unfold SendChunk, send_once. destruct mode; by rewrite Hnet.
Qed.

Lemma lacks_filed w r addr c c' s :
  stores w !! addr = Some s -> (addr = r -> ChunkIdx c <> ChunkIdx c') -> lacks w r c' ->
  lacks (mkWorld (<[addr := filed c (clock w) s]> (stores w)) (faults w) [] (clock w)) r c'.
Proof.
  intros Hs Hne Hl s'. cbn [stores]. rewrite lookup_insert_Some. intros [[-> <-]|[_ Hr]]; [|by apply Hl].
  unfold filed, GetChunk at 1. rewrite SetMessageOwner_messages. fold (GetChunk (MsgID c') (ChunkIdx c') (Store c (clock w) s).1).
  rewrite Store_GetChunk. specialize (Hne eq_refl). rewrite decide_False by naive_solver. case_decide; [done|by apply Hl].
Qed.

(** ** A run with chosen losses *)
Section Run.
Context (e : DNSClientEngine) (He : zone e = z) (id h : bytes) (cs : list Chunk) (rs : list bytes).
Context (Hcs : Forall (sendable id h) cs).
Context (Hinj : forall i j c c', cs !! i = Some c -> cs !! j = Some c' -> ChunkIdx c = ChunkIdx c' -> i = j).
Context (lost : nat -> bytes -> bool).

(** The goroutines in the order they are started. *)
Definition jobs : list (nat * bytes) := targets (start_workers cs rs).
Definition plan (ts : list (nat * bytes)) : list (option fault) :=
  concat (map (fun t => send_faults (transportMode e) (lost t.1 t.2)) ts).

(** The first [k] goroutines have finished, the others have not begun. *)
Record at_turn (k : nat) (s : PState (RelayWorld DB)) : Prop := {
  at_workers : forall j, workers s !! j =
    (fun t => mkWorker t.1 t.2 (if decide (j < k)%nat then Finished else Waiting)) <$> jobs !! j;
  at_sem : sem s = 0%nat;
  at_loop : cancelled s = false /\ loop s = Looping;
  at_quiet : traffic (world s) = [];
  at_faults : faults (world s) = plan (drop k jobs);
  at_table : length (chunkDelivered s) = length cs;
  at_done : forall j t, (j < k)%nat -> jobs !! j = Some t -> lost t.1 t.2 = false -> chunkDelivered s !! t.1 = Some true;
  at_stores : forall r, r ∈ rs -> is_Some (stores (world s) !! r);
  at_lacks : forall i r c, cs !! i = Some c -> lost i r = true -> lacks (world s) r c
}.

Lemma jobs_start j : start_workers cs rs !! j = (fun t => mkWorker t.1 t.2 Waiting) <$> jobs !! j.
Proof.
  unfold jobs, targets. change (map ?f ?l) with (f <$> l). rewrite list_lookup_fmap. destruct (start_workers cs rs !! j) as [x|] eqn:Hx; [|done]. simpl.
  apply list_elem_of_lookup_2, list_elem_of_In in Hx. unfold start_workers in Hx.
  apply in_concat in Hx as (l & Hl & Hx). apply in_map_iff in Hl as (i & <- & _).
  by apply in_map_iff in Hx as (r & <- & _).
Qed.

Lemma first_turn w :
  traffic w = [] -> faults w = plan jobs -> (forall r, r ∈ rs -> is_Some (stores w !! r)) ->
  (forall i r c, cs !! i = Some c -> lacks w r c) -> at_turn 0 (init_state cs rs w).
Proof.
  intros Ht Hf Hs Hl. split; simpl; try done.
  - intros j. rewrite jobs_start. by destruct (jobs !! j).
  - by rewrite length_replicate.
  - intros j t H. lia.
  - eauto.
Qed.

Lemma set_wstate_again k st st' ws : set_wstate k st (set_wstate k st' ws) = set_wstate k st ws.
Proof. unfold set_wstate. revert k. induction ws as [|x ws IH]; intros [|k]; simpl; try done. f_equal. apply IH. Qed.

Lemma run_worker_state k (s s' : PState (RelayWorld DB)) x c :
  run_worker e cs k s = Some s' -> workers s !! k = Some x -> cs !! w_chunk x = Some c ->
  let sent := SendChunk (w_relay x) (zone e) c (transportMode e) (world s) in
  (forall j, workers s' !! j = if decide (j = k) then Some (mkWorker (w_chunk x) (w_relay x) Finished) else workers s !! j) /\
  sem s' = 0%nat /\ cancelled s' = cancelled s /\ loop s' = loop s /\ world s' = sent.1 /\
  chunkDelivered s' = match sent.2 with Ok _ => <[w_chunk x := true]> (chunkDelivered s) | Err _ => chunkDelivered s end.
Proof.
  intros Hrun Hk Hc sent. unfold run_worker in Hrun. rewrite Hk in Hrun. cbn [mbind option_bind] in Hrun.
  rewrite Hc in Hrun. cbn [mbind option_bind] in Hrun. destruct (_ && _); [|discriminate]. injection Hrun as <-.
  unfold run_send. cbn [world move]. fold sent. clearbody sent. destruct sent as [w' [u|err]]; simpl.
  all: split; [|done]; intros j; case_decide as Hj; [subst j|by rewrite !set_wstate_other by done].
  all: by rewrite !set_wstate_again, (set_wstate_at k Finished _ x Hk).
Qed.

(** One [SendChunk] as planned. *)
Lemma planned_send i r c k w :
  cs !! i = Some c -> traffic w = [] -> faults w = plan (drop k jobs) -> jobs !! k = Some (i, r) ->
  is_Some (stores w !! r) -> (forall i r c, cs !! i = Some c -> lost i r = true -> lacks w r c) ->
  let sent := SendChunk r z c (transportMode e) w in
  traffic sent.1 = [] /\ faults sent.1 = plan (drop (S k) jobs) /\ (lost i r = false -> sent.2 = Ok tt) /\
  (forall r', is_Some (stores w !! r') -> is_Some (stores sent.1 !! r')) /\
  forall i r c, cs !! i = Some c -> lost i r = true -> lacks sent.1 r c.
Proof.
  intros Hc Ht Hf Hk [s Hs] Hl. rewrite (drop_S _ _ _ Hk) in Hf. unfold plan in Hf. simpl in Hf. fold (plan (drop (S k) jobs)) in Hf.
  destruct (lost i r) eqn:Hlost; cbv zeta.
  - destruct (SendChunk_lost r c _ w _ Ht Hf) as [err ->]. done.
  - pose proof Hcs as Hall. rewrite Forall_forall in Hall.
    destruct (Hall c) as (Hwf & Htot & _ & <- & Hh); [by eapply list_elem_of_lookup_2|].
    rewrite (SendChunk_through r c _ w _ s Hwf Htot Hh Ht Hf Hs). cbn [fst snd traffic faults stores].
    split; [done|]. split; [done|]. split; [done|]. split.
    + intros r' Hr'. destruct (decide (r = r')) as [<-|Hne]; [by rewrite lookup_insert_eq|by rewrite lookup_insert_ne].
    + intros i' r' c' Hc' Hl'. apply (lacks_filed w r' r c c' s Hs); [|by eapply Hl].
      intros <- Hidx. rewrite (Hinj i i' c c' Hc Hc' Hidx) in Hlost. congruence.
Qed.

Lemma job_spec k i r : jobs !! k = Some (i, r) -> (i < length cs)%nat /\ r ∈ rs.
Proof. intros H%list_elem_of_lookup_2. by apply (start_targets cs rs). Qed.

Lemma next_turn k s t : at_turn k s -> jobs !! k = Some t -> exists s', rtc (pstep e cs) s s' /\ at_turn (S k) s'.
Proof.
  intros [Hw Hsem [Hcan Hloop] Hq Hf Htab Hdone Hst Hlk] Hk. destruct t as [i r]. destruct (job_spec k i r Hk) as [Hi Hr].
  destruct (lookup_lt_is_Some_2 cs i Hi) as [c Hc].
  pose proof (Hw k) as Hwk. rewrite Hk in Hwk. simpl in Hwk. rewrite decide_False in Hwk by lia.
  destruct (run_worker e cs k s) as [s'|] eqn:Hrun; cycle 1.
  { unfold run_worker in Hrun. rewrite Hwk in Hrun. simpl in Hrun. rewrite Hc in Hrun. simpl in Hrun.
    by rewrite Hsem, Hcan in Hrun. }
  exists s'. split; [by eapply run_worker_steps|].
  destruct (run_worker_state k s s' _ c Hrun Hwk Hc) as (Hw' & Hsem' & Hcan' & Hloop' & Hwd & Htab').
  cbn [w_chunk w_relay] in *. rewrite He in *.
  destruct (planned_send i r c k (world s) Hc Hq Hf Hk (Hst r Hr) Hlk) as (P1 & P2 & P3 & P4 & P5). cbv zeta in *.
  split.
  - intros j. rewrite Hw'. case_decide as Hj; [subst j|]; [by rewrite Hk, decide_True by lia|]. rewrite Hw.
    destruct (jobs !! j); [|done]. simpl. repeat case_decide; done || lia.
  - done.
  - by rewrite Hcan', Hloop'.
  - by rewrite Hwd.
  - by rewrite Hwd.
  - rewrite Htab'. destruct (SendChunk _ _ _ _ _).2; [by rewrite length_insert|done].
  - intros j t Hj Ht Hlost. rewrite Htab'. destruct (decide (j = k)) as [->|Hne].
    + rewrite Hk in Ht. injection Ht as <-. cbn [fst snd] in *. rewrite (P3 Hlost). apply list_lookup_insert_eq. lia.
    + assert (chunkDelivered s !! t.1 = Some true) as Hd by (apply (Hdone j t); [lia|done|done]).
      destruct (SendChunk _ _ _ _ _).2; [|done]. apply list_lookup_insert_Some.
      destruct (decide (i = t.1)) as [->|Hi']; [left; lia|by right].
  - intros r' Hr'. rewrite Hwd. auto.
  - rewrite Hwd. exact P5.
Qed.

Lemma all_turns w k :
  traffic w = [] -> faults w = plan jobs -> (forall r, r ∈ rs -> is_Some (stores w !! r)) ->
  (forall i r c, cs !! i = Some c -> lacks w r c) -> (k <= length jobs)%nat ->
  exists s, rtc (pstep e cs) (init_state cs rs w) s /\ at_turn k s.
Proof.
  intros Ht Hf Hs Hl. induction k as [|k IH]; intros Hk.
  { eexists. split; [reflexivity|]. by apply first_turn. }
  destruct IH as (s & Hr & Hat); [lia|]. destruct (lookup_lt_is_Some_2 jobs k) as [t Hjob]; [lia|].
  destruct (next_turn k s t Hat Hjob) as (s' & Hr' & Hat'). exists s'. split; [by etrans|done].
Qed.

(** When every chunk gets through to some relay, the send succeeds and each
    relay lacks what was lost on the way to it. *)
Lemma planned_run w :
  cs <> [] -> rs <> [] ->
  traffic w = [] -> faults w = plan jobs -> (forall r, r ∈ rs -> is_Some (stores w !! r)) ->
  (forall i r c, cs !! i = Some c -> lacks w r c) ->
  (forall i, (i < length cs)%nat -> exists r, r ∈ rs /\ lost i r = false) ->
  exists w', sendParallel e cs rs w w' (Ok tt) /\
    forall i r c, cs !! i = Some c -> lost i r = true -> lacks w' r c.
Proof.
  intros Hne Hrs Ht Hf Hs Hl Hsome. destruct (all_turns w (length jobs) Ht Hf Hs Hl) as (s & Hr & Hat); [done|].
  destruct Hat as [Hw Hsem [Hcan Hloop] _ _ Htab Hdone _ Hlk]. exists (world s). split; [|exact Hlk].
  assert (all_finished s = true) as Hfin.
  { apply forallb_forall. intros x Hx%list_elem_of_In. apply list_elem_of_lookup_1 in Hx as [j Hj]. rewrite Hw in Hj.
    destruct (jobs !! j) eqn:Hjob; [|discriminate]. apply lookup_lt_Some in Hjob. simpl in Hj.
    rewrite decide_True in Hj by done. by injection Hj as <-. }
  assert (undelivered (chunkDelivered s) = []) as Hu.
  { apply undelivered_nil. intros i Hi. rewrite Htab in Hi. destruct (Hsome i Hi) as (r & Hr' & Hlost).
    assert ((i, r) ∈ jobs) as [j Hj]%list_elem_of_lookup_1 by (by apply start_targets).
    apply (Hdone j (i, r)); [by eapply lookup_lt_Some|done|done]. }
  unfold sendParallel. replace ((len cs =? 0) || (len rs =? 0)) with false by (by destruct cs, rs).
  eexists. split; [eapply rtc_r; [exact Hr|by apply p_move, p_done]|]. split; [|done]. simpl. unfold verdict. by rewrite Hu.
Qed.

End Run.
(** ** Polling relays none of which has the whole message *)

(** What a relay holds of a message has a gap. *)
Definition incomplete (id : bytes) (s : ChunkStore DB) : Prop :=
  match GetChunk id 0 s with
  | None => True
  | Some c => exists i, 0 < i < TotalChunks c /\ GetChunk id i s = None
  end.

Section Poll.
Context (w : RelayWorld DB) (Hf : faults w = []) (Hquiet : traffic w = []).
Context (rs : list bytes) (Hrs : forall r, r ∈ rs -> exists s, stores w !! r = Some s /\ stored_ok s).
Context (id : bytes) (Hid : length id = 8%nat).
Context (Hgap : forall r s, r ∈ rs -> stores w !! r = Some s -> incomplete id s).

Lemma fetch_rest_gap addr s mode n i j :
  stores w !! addr = Some s -> stored_ok s -> GetChunk id j s = None -> i <= j < i + Z.of_nat n -> 0 <= i -> j < 65536 ->
  exists k err, fetch_rest addr z id mode n i w = (w, Err (ErrFetch k err)).
Proof.
  intros Hs Hok Hj. revert i. induction n as [|n IH]; intros i Hi H0 Hmax; simpl; [lia|].
  destruct (QueryChunk_answer z Hz w addr s mode Hf Hquiet Hs Hok id (u16 i) Hid (u16_range i)) as (r & Hq & Hr).
  change (relay_network z) with split_network in Hq. rewrite Hq.
  destruct (decide (i = j)) as [->|Hne].
  - rewrite u16_small, Hj in Hr by lia. destruct Hr as [err ->]. eauto.
  - destruct r as [c|err]; [|eauto]. destruct (IH (i + 1)) as (k & err & ->); [lia|lia|lia|eauto].
Qed.

Lemma fetch_gap addr mode : addr ∈ rs -> exists k err, fetchAndReassemble addr z id mode w = (w, Err (ErrFetch k err)).
Proof.
  intros Hin. destruct (Hrs addr Hin) as (s & Hs & Hok). pose proof (Hgap addr s Hin Hs) as Hg. unfold incomplete in Hg.
  unfold fetchAndReassemble.
  destruct (QueryChunk_answer z Hz w addr s mode Hf Hquiet Hs Hok id 0 Hid ltac:(unfold is_u16; lia)) as (r & Hq & Hr).
  change (relay_network z) with split_network in Hq. rewrite Hq.
  destruct (GetChunk id 0 s) as [c|] eqn:H0; [subst r|destruct Hr as [err ->]; eauto].
  destruct Hg as (i & Hi & Hnone).
  assert (TotalChunks c < 65536) as Hmax.
  { unfold GetChunk in H0. destruct (messages s !! id) as [buf|] eqn:Hm; [|discriminate].
    destruct (Hok id buf 0 c Hm H0) as (Hwf & _). apply Hwf. }
  replace (TotalChunks c =? 0) with false by (symmetry; apply Z.eqb_neq; lia).
  destruct (fetch_rest_gap addr s mode (Z.to_nat (TotalChunks c) - 1) 1 i Hs Hok Hnone) as (k & err & ->); [lia|lia|lia|eauto].
Qed.

Lemma fetch_any_gap mode l : (forall r, r ∈ l -> r ∈ rs) ->
  exists err, fetch_any l z id mode w = (w, Err err) /\ err <> EnginePanic.
Proof.
  induction l as [|r l IH]; intros Hl; simpl; [eauto|].
  destruct (fetch_gap r mode) as (k & err & ->); [apply Hl, list_elem_of_here|].
  destruct l as [|r' l]; [eauto|]. apply IH. intros x Hx. by apply Hl, list_elem_of_further.
Qed.

Lemma fetch_any_quiet mode mid l : length mid = 8%nat -> (forall r, r ∈ l -> r ∈ rs) ->
  exists res, fetch_any l z mid mode w = (w, res) /\ res <> Err EnginePanic.
Proof.
  intros Hmid. induction l as [|r l IH]; intros Hl; simpl; [eauto|].
  destruct (Hrs r) as (s & Hs & Hok); [apply Hl, list_elem_of_here|].
  destruct (fetch_steady z Hz w r s mode Hf Hquiet Hs Hok mid Hmid) as (res & Hq & Hp).
  change (relay_network z) with split_network in Hq. rewrite Hq.
  assert (exists res, fetch_any l z mid mode w = (w, res) /\ res <> Err EnginePanic) as HIH
    by (apply IH; intros x Hx; by apply Hl, list_elem_of_further).
  destruct res as [data|err]; [eauto|]. destruct err; try done; destruct l; (exact HIH || (eexists; split; [reflexivity|done])).
Qed.

Lemma fetch_loop_gap metas e :
  zone e = z -> Forall (fun pm => length (pm_MsgID pm) = 8%nat) metas ->
  exists e' out, fetch_loop rs metas e w = (w, e', Ok out) /\ id ∉ map pm_MsgID out.
Proof.
  intros He Hall. revert e He. induction Hall as [|pm metas Hlen Hall IH]; intros e He; simpl.
  { eexists _, _. split; [done|]. apply not_elem_of_nil. }
  case_decide; [by apply IH|]. rewrite He. destruct (decide (pm_MsgID pm = id)) as [Hpm|Hpm].
  - rewrite Hpm. destruct (fetch_any_gap (transportMode e) rs (fun _ H => H)) as (err & -> & Hp).
    destruct (IH e He) as (e' & out & Hl & Hout). exists e', out. split; [by destruct err|done].
  - destruct (fetch_any_quiet (transportMode e) (pm_MsgID pm) rs Hlen (fun _ H => H)) as ([data|err] & -> & Hp).
    + destruct (IH (mark_fetched (pm_MsgID pm) e) He) as (e' & out & -> & Hout). eexists _, _. split; [done|].
      simpl. rewrite not_elem_of_cons. split; [congruence|done].
    + destruct (IH e He) as (e' & out & Hl & Hout). exists e', out. split; [by destruct err|done].
Qed.

(** A message that no relay holds completely is never returned. *)
Lemma PollMessages_gap ParseIP e pk :
  zone e = z -> discoverActiveRelays e = rs -> rs <> [] -> pk <> [] ->
  (forall r, r ∈ rs -> exists host port, SplitHostPort r = Some (host, port) /\ ParseIP host = true) ->
  exists e' out, PollMessages ParseIP e pk w = (w, e', Ok out) /\ id ∉ map pm_MsgID out.
Proof.
  intros He Hr Hne Hpk Hip. unfold PollMessages. rewrite PollRelays_replies by (rewrite ?Hr; done). rewrite Hr.
  set (peer := Base32Hex.EncodeToString (Sha256.Sum256 pk)).
  assert (exists msgs, replies ParseIP e peer rs w = (w, msgs) /\
    Forall (fun pm => length (pm_MsgID pm) = 8%nat) msgs) as (msgs & -> & Hmsgs).
  { clear Hr Hne Hgap. induction rs as [|r l IH]; simpl; [eexists; split; [reflexivity|apply Forall_nil_2]|].
    destruct (Hrs r) as (s & Hs & Hok); [apply list_elem_of_here|].
    destruct (Hip r) as (host & port & Hsplit & Hhost); [apply list_elem_of_here|].
    pose proof (poll_steady z Hz w r s Hf Hquiet Hs ParseIP host port Hsplit Hhost e pk He) as Hp.
    change (relay_network z) with split_network in Hp. unfold peer. rewrite Hp. fold peer.
    destruct IH as (more & -> & Hmore);
      [intros x Hx; by apply Hrs, list_elem_of_further|intros x Hx; by apply Hip, list_elem_of_further|].
    eexists. split; [reflexivity|]. apply Forall_app. split; [apply poll_list_length|done]. }
  pose proof (add_unseen_spec msgs ∅) as Hspec. destruct (add_unseen msgs ∅) as [metas seen]. destruct Hspec as (_ & Hsub & _).
  cbn [fst]. destruct metas as [|pm metas]; [eexists _, _; split; [done|apply not_elem_of_nil]|].
  replace (len rs =? 0) with false by (by destruct rs). apply fetch_loop_gap; [done|].
  apply Forall_forall. intros x Hx. rewrite Forall_forall in Hmsgs. apply Hmsgs. by eapply sublist_subseteq.
Qed.

End Poll.
End Split.

(** The losses that scatter a message: the first chunk does not reach the
    second relay, and the others do not reach the first. *)
Definition scatter (ra rb : bytes) (i : nat) (r : bytes) : bool :=
  bool_decide (r = if (i =? 0)%nat then rb else ra).

(** Relays that have not heard of a message are open for it. *)
Lemma fresh_open {DL : DnsLib} {DB} z id h (w : RelayWorld DB) fs :
  fresh_for id w -> open_for z id h (clock w) 0 (with_faults fs w).
Proof.
  intros Hfresh. split; [split; [|simpl; lia]|split; [apply Forall_nil_2|cbn; unfold waits; simpl; lia]].
  intros r s Hs. destruct (Hfresh r s Hs) as (Hok & Hm & Ho & Ht). split; [done|]. split; [by left|]. split; [done|].
  intros buf Hb. by rewrite Hm in Hb.
Qed.

Lemma fresh_lacks {DB} (w : RelayWorld DB) fs id r c : fresh_for id w -> MsgID c = id -> lacks (with_faults fs w) r c.
Proof.
  intros Hfresh <- s Hs. unfold GetChunk. destruct (Hfresh r s Hs) as (_ & -> & _). done.
Qed.

(** Where a chunk is that one of the relays lacks. *)
Lemma has_other {DB} (w : RelayWorld DB) ra rb c :
  lacks w rb c -> (exists r, r ∈ [ra; rb] /\ has w r c) -> has w ra c.
Proof.
  intros Hl (r & [->|[->|[]%elem_of_nil]%elem_of_cons]%elem_of_cons & Hr); [done|].
  destruct Hr as (s & Hs & Hg & _). by rewrite (Hl s Hs) in Hg.
Qed.

(** What a poll makes of it. *)
Lemma scattered_unread {DL : DnsLib} {DB} {SS : SequenceSource DB} {IO : IterOrder}
    z (Hz : zone_ok z) sender recipient ra rb ParseIP pt pk msgID (w1 : RelayWorld DB) c0 c1 :
  zone recipient = z -> discoverActiveRelays recipient = [ra; rb] ->
  (forall r, r ∈ [ra; rb] -> exists host port, SplitHostPort r = Some (host, port) /\ ParseIP host = true) ->
  pk <> [] -> length msgID = 8%nat ->
  1 < Z.of_nat (chunk_total pt (effective_size (chunkSize sender))) < 65536 ->
  ChunkMessage msgID pt (chunkSize sender) pk !! 0%nat = Some c0 ->
  ChunkMessage msgID pt (chunkSize sender) pk !! 1%nat = Some c1 ->
  (forall r s, stores w1 !! r = Some s -> stored_ok s) ->
  lacks w1 rb c0 -> lacks w1 ra c1 -> has w1 ra c0 -> has w1 rb c1 ->
  exists e' out, PollMessages (NW := relay_network z) ParseIP recipient pk (recovered w1) = (recovered w1, e', Ok out) /\
    msgID ∉ map pm_MsgID out.
Proof.
  intros Hzr Hrr Hip Hpk Hid Hn [_ ->]%ChunkMessage_lookup [_ ->]%ChunkMessage_lookup Hok L0 L1 (s0 & Hs0 & H0 & _) (s1 & Hs1 & _).
  apply (PollMessages_gap z Hz (recovered w1)) with [ra; rb]; try done.
  { intros r [->|[->|[]%elem_of_nil]%elem_of_cons]%elem_of_cons; eexists; (split; [eassumption|by eapply Hok]). }
  intros r s [->|[->|[]%elem_of_nil]%elem_of_cons]%elem_of_cons Hs; unfold incomplete.
  - cbn [stores recovered] in Hs. rewrite Hs0 in Hs. injection Hs as <-. cbn [MsgID ChunkIdx set_recipient NewChunk] in H0.
    change (u16 (Z.of_nat 0)) with 0 in H0. rewrite H0. exists 1. cbn [TotalChunks set_recipient NewChunk].
    rewrite u16_small by lia. split; [lia|]. exact (L1 s0 Hs0).
  - by rewrite (L0 s Hs : GetChunk msgID 0 s = None).
Qed.

(** C39: with two relays, success can be reported for a message nobody can
    read.  For every text of two or more chunks, every key and id, and two
    relays that have not seen the id, there are losses of queries with which
    [SendMessage] returns without error, although neither relay has all the
    chunks: every chunk is at one of the two, and each of them lacks one.  A
    poll by the recipient, with both relays up, nothing lost any more and
    nobody else at work, then succeeds and does not return the message,
    because [PollMessages] fetches a message from one relay. *)
Theorem split_delivery {DL : DnsLib} {DB} {SS : SequenceSource DB} {IO : IterOrder}
    z ra rb ParseIP ctx_done sender recipient pt pk msgID (w : RelayWorld DB) :
  zone_ok z -> zone sender = z -> zone recipient = z -> ra <> rb ->
  discoverActiveRelays sender = [ra; rb] -> discoverActiveRelays recipient = [ra; rb] ->
  (forall r, r ∈ [ra; rb] -> exists host port, SplitHostPort r = Some (host, port) /\ ParseIP host = true) ->
  (forall r, r ∈ [ra; rb] -> is_Some (stores w !! r)) -> fresh_for msgID w ->
  pk <> [] -> length msgID = 8%nat ->
  let n := Z.of_nat (chunk_total pt (effective_size (chunkSize sender))) in
  let chunks := ChunkMessage msgID pt (chunkSize sender) pk in
  1 < n < 65536 ->
  exists fs w1,
    SendMessage (NW := relay_network z) ctx_done sender pt pk msgID (with_faults fs w) w1 (Ok (msgID, n)) /\
    (forall c, c ∈ chunks -> exists r, r ∈ [ra; rb] /\ has w1 r c) /\
    (forall r, r ∈ [ra; rb] -> exists c, c ∈ chunks /\ lacks w1 r c) /\
    exists e' out, PollMessages (NW := relay_network z) ParseIP recipient pk (recovered w1) = (recovered w1, e', Ok out) /\
      msgID ∉ map pm_MsgID out.
Proof.
  intros Hz Hzs Hzr Hab Hrs Hrr Hip Hst Hfresh Hpk Hid n chunks Hn.
  assert (pt <> []) as Hne by (intros ->; unfold n in Hn; rewrite (proj2 (proj2 (chunk_total_spec [] _ (effective_size_pos _))) eq_refl) in Hn; lia).
  pose proof (ChunkMessage_sendable msgID pt (chunkSize sender) pk Hid Hpk Hne ltac:(unfold n in Hn; lia)) as Hall. fold chunks in Hall.
  pose proof (length_ChunkMessage msgID pt (chunkSize sender) pk) as Hlen. fold chunks in Hlen.
  pose proof (ChunkMessage_not_nil msgID pt (chunkSize sender) pk Hne) as Hnil. fold chunks in Hnil.
  assert (forall i j c c', chunks !! i = Some c -> chunks !! j = Some c' -> ChunkIdx c = ChunkIdx c' -> i = j) as Hinj.
  { intros i j c c' [Hi ->]%ChunkMessage_lookup [Hj ->]%ChunkMessage_lookup Hx. simpl in Hx. rewrite !u16_small in Hx by lia. lia. }
  set (lost := scatter ra rb). set (fs := plan sender lost (jobs chunks [ra; rb])).
  destruct (planned_run z Hz sender Hzs msgID (Sha256.Sum256 pk) chunks [ra; rb] Hall Hinj lost (with_faults fs w))
    as (w1 & Hsend & Hlacks); try done.
  { intros i r c Hc. pose proof (fresh_lacks w fs msgID r c Hfresh) as H. apply H. rewrite Forall_forall in Hall.
    by apply (Hall c), list_elem_of_lookup_2 with i. }
  { intros i _. exists (if (i =? 0)%nat then ra else rb). unfold lost, scatter.
    split; [destruct (i =? 0)%nat; set_solver|]. destruct (i =? 0)%nat; apply bool_decide_eq_false; congruence. }
  destruct (sendParallel_some z Hz sender Hzs msgID (Sha256.Sum256 pk) (clock w) 0 chunks Hall) with [ra; rb] (with_faults fs w) w1
    as [[[Hsafe _] _] Hsome]; try done.
  { intros c c' Hc Hc'. by apply (cs_idx_inj msgID pt (chunkSize sender) pk ltac:(lia)). }
  { by apply fresh_open. }
  destruct (lookup_lt_is_Some_2 chunks 0) as [c0 Hc0]; [lia|]. destruct (lookup_lt_is_Some_2 chunks 1) as [c1 Hc1]; [lia|].
  assert (lacks w1 rb c0) as L0 by (apply (Hlacks 0%nat); [done|by apply bool_decide_eq_true]).
  assert (lacks w1 ra c1) as L1 by (apply (Hlacks 1%nat); [done|by apply bool_decide_eq_true]).
  exists fs, w1. split; [|split; [done|split]].
  - unfold SendMessage. rewrite Hrs. change (0 <? len [ra; rb]) with true. exists (Ok tt). split; [exact Hsend|].
    simpl. fold chunks. unfold len. by rewrite Hlen.
  - intros r [->|[->|[]%elem_of_nil]%elem_of_cons]%elem_of_cons; eexists; (split; [eapply list_elem_of_lookup_2|eassumption]; eassumption).
  - apply (scattered_unread z Hz sender recipient ra rb ParseIP pt pk msgID w1 c0 c1); try done.
    + intros r s Hs. by destruct (Hsafe r s Hs).
    + by apply (has_other w1 ra rb c0), Hsome, list_elem_of_lookup_2 with 0%nat.
    + apply (has_other w1 rb ra c1); [done|]. destruct (Hsome c1) as (r & Hr & Hh); [by eapply list_elem_of_lookup_2|].
      exists r. split; [set_solver|done].
Qed.

(** Forty bytes in chunks of thirty-two, to two new relays. *)
Definition relay_b : bytes := $"10.0.0.2:53".
Definition two_relays : RelayWorld (gmap bytes bytes) :=
  mkWorld {[relay_a := demo_store; relay_b := demo_store]} [] [] (5 * second).
Definition two_engine : DNSClientEngine := SetChunkSize 32 (NewDNSClientEngine [relay_a; relay_b] demo_zone).

Lemma two_relays_fresh id : fresh_for id two_relays.
Proof.
  intros r s Hs. assert (s = demo_store) as ->.
  { simpl in Hs. apply lookup_insert_Some in Hs as [[_ <-]|[_ [_ <-]%lookup_singleton_Some]]; done. }
  split; [apply new_store_ok|]. split; [apply lookup_empty|]. split; [apply lookup_empty|]. vm_compute. discriminate.
Qed.

Lemma split_delivery_witness :
  let NW := relay_network (DL := simple_dns_lib) (IO := forward_order) demo_zone in
  exists fs w1,
    SendMessage (DL := simple_dns_lib) (NW := NW) (fun _ => false) two_engine (replicate 40 dot) $"key" $"01234567"
      (with_faults fs two_relays) w1 (Ok ($"01234567", 2)) /\
    (forall r, r ∈ [relay_a; relay_b] ->
       exists c, c ∈ ChunkMessage $"01234567" (replicate 40 dot) 32 $"key" /\ lacks w1 r c).
Proof.
  destruct (split_delivery (DL := simple_dns_lib) (IO := forward_order) demo_zone relay_a relay_b (fun _ => true) (fun _ => false)
    two_engine two_engine (replicate 40 dot) $"key" $"01234567" two_relays) as (fs & w1 & Hsend & _ & Hlacks & _).
  - exact demo_zone_ok.
  - reflexivity.
  - reflexivity.
  - discriminate.
  - reflexivity.
  - reflexivity.
  - intros r [->|[->|[]%elem_of_nil]%elem_of_cons]%elem_of_cons; eexists _, _; split; reflexivity.
  - intros r [->|[->|[]%elem_of_nil]%elem_of_cons]%elem_of_cons; vm_compute; eexists; reflexivity.
  - apply two_relays_fresh.
  - discriminate.
  - reflexivity.
  - vm_compute. split; reflexivity.
  - exists fs, w1. split; [exact Hsend|exact Hlacks].
Defined.
