(* ===== verification/Races.v ===== *)
(** * Overlapping calls (PollMessages of dns_engine.go, AddRelay of daemon.go)

    gRPC runs the daemon's handlers concurrently.  Two of them look at shared
    state, let go of it, and act later: [PollMessages] checks which messages
    were fetched, fetches, and only then marks them; [AddRelay] reads the
    relay list and writes it back.  Here their locked sections are steps of
    transition systems, and the steps of several calls interleave. *)

From S2P Require Import Prelude GoStrings Codec Sha256 Encoding Sequence Store Dns Relay Engine SendParallel Delivery.

(** ** Polls *)

(** One call: the messages it still has to look at, the one it is fetching,
    and the ones it will return. *)
Record poller := mkPoller { todo : list PolledMessage; fetching : option PolledMessage; got : list PolledMessage }.

Section Polls.
Context {DL : DnsLib} {W : Type} {NW : Network W}.
Context (rs : list bytes) (z : bytes) (mode : TransportMode).

Record polls := mkPolls { marked : gset bytes; poll_world : W; pollers : list poller }.
Implicit Types (s : polls) (p : poller).

Definition set_poller (k : nat) p s : polls := mkPolls (marked s) (poll_world s) (<[k := p]> (pollers s)).
Definition fetched_as (data : bytes) (pm : PolledMessage) : PolledMessage :=
  mkPolled (pm_MsgID pm) data (pm_Timestamp pm) (pm_Sequence pm).

(** The locked sections and fetches of the calls. *)
Inductive call_step : polls -> polls -> Prop :=
| pl_skip k p pm rest s :
    pollers s !! k = Some p -> fetching p = None -> todo p = pm :: rest -> pm_MsgID pm ∈ marked s ->
    call_step s (set_poller k (mkPoller rest None (got p)) s)
| pl_check k p pm rest s :
    pollers s !! k = Some p -> fetching p = None -> todo p = pm :: rest -> pm_MsgID pm ∉ marked s ->
    call_step s (set_poller k (mkPoller rest (Some pm) (got p)) s)
| pl_got k p pm data w' s :
    pollers s !! k = Some p -> fetching p = Some pm ->
    fetch_any rs z (pm_MsgID pm) mode (poll_world s) = (w', Ok data) ->
    call_step s (set_poller k (mkPoller (todo p) None (got p ++ [fetched_as data pm]))
                   (mkPolls ({[pm_MsgID pm]} ∪ marked s) w' (pollers s)))
| pl_failed k p pm err w' s :
    pollers s !! k = Some p -> fetching p = Some pm ->
    fetch_any rs z (pm_MsgID pm) mode (poll_world s) = (w', Err err) -> err <> EnginePanic ->
    call_step s (set_poller k (mkPoller (todo p) None (got p)) (mkPolls (marked s) w' (pollers s))).

(** And whatever else happens on the network. *)
Inductive poll_step : polls -> polls -> Prop :=
| pl_call s s' : call_step s s' -> poll_step s s'
| pl_traffic w' s : poll_step s (mkPolls (marked s) w' (pollers s)).

(** A call that runs alone is the code's loop. *)
Lemma loop_is_run metas : forall e w w' e' out acc, zone e = z -> transportMode e = mode ->
  fetch_loop rs metas e w = (w', e', Ok out) ->
  rtc call_step (mkPolls (fetched e) w [mkPoller metas None acc]) (mkPolls (fetched e') w' [mkPoller [] None (acc ++ out)]).
Proof.
  induction metas as [|pm metas IH]; intros e w w' e' out acc Hz Hm; cbn [fetch_loop].
  { intros [= <- <- <-]. by rewrite app_nil_r. }
  case_decide as Hf.
  - intros H. eapply rtc_l; [by apply (pl_skip 0 (mkPoller (pm :: metas) None acc) pm metas)|]. by apply IH.
  - rewrite Hz, Hm. destruct (fetch_any rs z (pm_MsgID pm) mode w) as [w1 [data|err]] eqn:Hfetch.
    + destruct (fetch_loop rs metas (mark_fetched (pm_MsgID pm) e) w1) as [[w2 e2] [out2|err]] eqn:Hl; [|discriminate].
      intros [= <- <- <-]. eapply rtc_l; [by apply (pl_check 0 (mkPoller (pm :: metas) None acc) pm metas)|].
      eapply rtc_l; [by apply (pl_got 0 (mkPoller metas (Some pm) acc) pm data w1)|].
      replace (acc ++ mkPolled _ _ _ _ :: out2) with ((acc ++ [fetched_as data pm]) ++ out2) by (by rewrite <- app_assoc).
      exact (IH (mark_fetched (pm_MsgID pm) e) w1 w2 e2 out2 _ Hz Hm Hl).
    + destruct err; try discriminate; intros H;
        (eapply rtc_l; [by apply (pl_check 0 (mkPoller (pm :: metas) None acc) pm metas)|]);
        (eapply rtc_l; [eapply (pl_failed 0 (mkPoller metas (Some pm) acc) pm); [done|done|exact Hfetch|done]|]); by apply IH.
Qed.

(** And only that: a lone call that comes to its end has run the loop. *)
Lemma run_is_loop metas : forall e w acc M w' out, zone e = z -> transportMode e = mode ->
  rtc call_step (mkPolls (fetched e) w [mkPoller metas None acc]) (mkPolls M w' [mkPoller [] None out]) ->
  exists e' more, fetch_loop rs metas e w = (w', e', Ok more) /\ fetched e' = M /\ out = acc ++ more.
Proof.
  induction metas as [|pm metas IH]; intros e w acc M w' out Hz Hm Hrun; cbn [fetch_loop].
  { apply rtc_inv in Hrun as [[= <- <- <-]|(s & Hst & _)]; [exists e, []; by rewrite app_nil_r|].
    inversion Hst as [[|k] ? ? ? ? Hk|[|k] ? ? ? ? Hk|[|k] ? ? ? ? ? Hk|[|k] ? ? ? ? ? Hk]; by simplify_eq/=. }
  apply rtc_inv in Hrun as [[=]|(s & Hst & Hrun)].
  inversion Hst as [[|k] ? ? ? ? Hk|[|k] ? ? ? ? Hk|[|k] ? ? ? ? ? Hk|[|k] ? ? ? ? ? Hk]; simplify_eq/=.
  { rewrite decide_True by done. by apply (IH e w acc). }
  rewrite decide_False, Hz, Hm by done. clear Hst.
  apply rtc_inv in Hrun as [[=]|(s & Hst & Hrun)].
  inversion Hst as [[|k] ? ? ? ? Hk|[|k] ? ? ? ? Hk|[|k] ? ? ? ? ? Hk Hp Hfetch|[|k] ? ? ? ? ? Hk Hp Hfetch Herr]; simplify_eq/=; rewrite Hfetch.
  - destruct (IH (mark_fetched (pm_MsgID pm) e) _ _ M w' out Hz Hm Hrun) as (e' & more & Hl & HM & ->). cbn [poll_world] in Hl. rewrite Hl.
    exists e'. eexists. split; [reflexivity|]. split; [done|]. by rewrite <- app_assoc.
  - destruct (IH e _ acc M w' out Hz Hm Hrun) as (e' & more & Hl & HM & Hout). exists e', more. by destruct err.
Qed.

(** What one step does to one call: nothing, or a move of its own. *)
Inductive own_move (M M' : gset bytes) : poller -> poller -> Prop :=
| mv_skip pm rest out : own_move M M' (mkPoller (pm :: rest) None out) (mkPoller rest None out)
| mv_check pm rest out : pm_MsgID pm ∉ M -> own_move M M' (mkPoller (pm :: rest) None out) (mkPoller rest (Some pm) out)
| mv_got pm rest out data : pm_MsgID pm ∈ M' ->
    own_move M M' (mkPoller rest (Some pm) out) (mkPoller rest None (out ++ [fetched_as data pm]))
| mv_failed pm rest out : own_move M M' (mkPoller rest (Some pm) out) (mkPoller rest None out).

Lemma set_poller_lookup k p s j p' : pollers (set_poller k p s) !! j = Some p' ->
  (j = k /\ p' = p) \/ pollers s !! j = Some p'.
Proof. cbn [pollers set_poller]. intros [(<- & <- & _)|[_ H]]%list_lookup_insert_Some; auto. Qed.

Lemma step_move s s' j p' : poll_step s s' -> pollers s' !! j = Some p' ->
  marked s ⊆ marked s' /\ exists p, pollers s !! j = Some p /\ (p' = p \/ own_move (marked s) (marked s') p p').
Proof.
  destruct 1 as [s s' [k p pm rest s0 Hk Hf Ht Hm|k p pm rest s0 Hk Hf Ht Hm|k p pm data w' s0 Hk Hf _|k p pm err w' s0 Hk Hf _ _]|w' s];
    intros Hj; try (apply set_poller_lookup in Hj as [[-> ->]|Hj]); cbn [marked set_poller pollers] in *;
    (split; [set_solver|]); try (by exists p'; auto); exists p; (split; [done|]); right;
    destruct p as [td ft gt]; cbn [todo fetching got] in *; subst; constructor; set_solver.
Qed.

(** The ids of a call, in the order it treats them. *)
Definition ids (l : list PolledMessage) : list bytes := map pm_MsgID l.
Definition line p : list bytes := ids (got p ++ option_list (fetching p) ++ todo p).

Record poller_ok (M0 : gset bytes) s p : Prop := {
  po_once : NoDup (line p);
  po_marked : forall id, id ∈ ids (got p) -> id ∈ marked s;
  po_new : forall id, id ∈ ids (got p ++ option_list (fetching p)) -> id ∉ M0
}.

Lemma move_ok M0 M M' p p' : M0 ⊆ M -> M ⊆ M' -> own_move M M' p p' ->
  NoDup (line p) -> (forall id, id ∈ ids (got p) -> id ∈ M) ->
  (forall id, id ∈ ids (got p ++ option_list (fetching p)) -> id ∉ M0) ->
  NoDup (line p') /\ (forall id, id ∈ ids (got p') -> id ∈ M') /\
  (forall id, id ∈ ids (got p' ++ option_list (fetching p')) -> id ∉ M0).
Proof.
  intros H0 HM Hmv Hn Hg Hnew. unfold line, ids in *.
  destruct Hmv as [pm rest out|pm rest out Hc|pm rest out data Hc|pm rest out]; cbn [todo fetching got option_list app] in *;
    rewrite ?map_app in *; cbn [map] in *; rewrite ?app_nil_r in *; (split; [|split]).
  1: { apply NoDup_app in Hn as (A & B & C). apply NoDup_cons in C as [_ C]. apply NoDup_app. split; [done|]. split; [|done].
       intros x Hx Hr. apply (B x Hx). by apply list_elem_of_further. }
  all: try set_solver; try done.
  - by rewrite <- app_assoc.
  - apply NoDup_app in Hn as (A & B & C). apply NoDup_cons in C as [_ C]. apply NoDup_app. split; [done|]. split; [|done].
    intros x Hx Hr. apply (B x Hx). by apply list_elem_of_further.
Qed.

Lemma step_ok M0 s s' : poll_step s s' -> M0 ⊆ marked s ->
  (forall k p, pollers s !! k = Some p -> poller_ok M0 s p) ->
  M0 ⊆ marked s' /\ (forall k p, pollers s' !! k = Some p -> poller_ok M0 s' p).
Proof.
  intros Hst H0 Hall. split.
  - destruct Hst as [? ? []|]; cbn [marked set_poller]; set_solver.
  - intros k p' Hk. destruct (step_move _ _ _ _ Hst Hk) as (HM & p & Hp & Hmv). destruct (Hall k p Hp) as [H1 H2 H3].
    destruct Hmv as [->|Hmv]; [split; [done| |done]; intros id Hid; by apply HM, H2|].
    destruct (move_ok M0 _ _ _ _ H0 HM Hmv H1 H2 H3) as (G1 & G2 & G3). by split.
Qed.

End Polls.

(** C21: concurrent polls: with any number of [PollMessages] calls running at
    once and any other traffic between their steps, each call returns a
    message at most once, only messages that were not fetched when it all
    began, and all of them end up marked; and once a message is marked, a call
    that is not in the middle of fetching it will never return it.  A call
    that runs alone, with nothing else on the network, is the loop of the
    code: it can come to its end with a result exactly when [fetch_loop]
    returns that result, from the same marks and to the same marks. *)
Theorem polls_overlap {DL : DnsLib} {W} {NW : Network W} rs z mode M0 (w : W) calls s :
  Forall (fun l => NoDup (ids l)) calls ->
  rtc (poll_step rs z mode) (mkPolls M0 w (map (fun l => mkPoller l None []) calls)) s ->
  (forall k p, pollers s !! k = Some p -> NoDup (ids (got p)) /\ forall id, id ∈ ids (got p) -> (id ∉ M0) /\ id ∈ marked s) /\
  (forall s' id k p p', rtc (poll_step rs z mode) s s' -> id ∈ marked s -> pollers s !! k = Some p ->
     id ∉ ids (got p ++ option_list (fetching p)) -> pollers s' !! k = Some p' -> id ∉ ids (got p')) /\
  (forall e metas w0 w' out M, zone e = z -> transportMode e = mode ->
     rtc (call_step rs z mode) (mkPolls (fetched e) w0 [mkPoller metas None []]) (mkPolls M w' [mkPoller [] None out]) <->
     exists e', fetch_loop rs metas e w0 = (w', e', Ok out) /\ fetched e' = M).
Proof.
  intros Hnd Hrun. split; [|split].
  - assert (M0 ⊆ marked s /\ (forall k p, pollers s !! k = Some p -> poller_ok M0 s p)) as [_ Hall].
    { remember (mkPolls M0 w (map (fun l => mkPoller l None []) calls)) as s0 eqn:Hs0.
      assert (M0 ⊆ marked s0 /\ (forall k p, pollers s0 !! k = Some p -> poller_ok M0 s0 p)) as H0.
      { subst s0. split; [done|]. cbn [pollers]. intros k p Hk. rewrite list_lookup_fmap in Hk.
        destruct (calls !! k) as [l|] eqn:Hl; [|done]. injection Hk as <-. rewrite Forall_forall in Hnd.
        split; [apply Hnd; by eapply list_elem_of_lookup_2|by intros id H%not_elem_of_nil|by intros id H%not_elem_of_nil]. }
      clear Hs0. induction Hrun as [|x y v Hxy _ IH]; [exact H0|]. apply IH. destruct H0 as [H1 H2]. by eapply step_ok. }
    intros k p Hk. destruct (Hall k p Hk) as [H1 H2 H3]. unfold line, ids in *. rewrite map_app in *. split.
    + by apply NoDup_app in H1 as [H1 _].
    + intros id Hid. split; [|by apply H2]. apply H3. apply elem_of_app. by left.
  - intros s' id k p p' Hst Hm Hk Hno Hk'.
    assert (forall a b, rtc (poll_step rs z mode) a b -> id ∈ marked a -> forall q', pollers b !! k = Some q' ->
      exists q, pollers a !! k = Some q /\ (id ∉ ids (got q ++ option_list (fetching q)) -> id ∉ ids (got q' ++ option_list (fetching q')))) as Hkeep.
    { clear. induction 1 as [|x y v Hxy _ IH]; intros Hm q' Hq'; [eauto|].
      destruct (IH ltac:(destruct Hxy as [? ? []|]; cbn [marked set_poller]; set_solver) q' Hq') as (qy & Hqy & Hy).
      destruct (step_move _ _ _ _ _ _ _ Hxy Hqy) as (_ & q & Hq & Hmv). exists q. split; [done|]. intros Hno. apply Hy.
      destruct Hmv as [->|Hmv]; [done|]. unfold ids in *. destruct Hmv; cbn [got fetching option_list app] in *;
        rewrite ?app_nil_r, ?map_app in *; cbn [map] in *; set_solver. }
    destruct (Hkeep s s' Hst Hm p' Hk') as (q & Hq & Hq2). rewrite Hk in Hq. injection Hq as <-. specialize (Hq2 Hno).
    intros Hin. apply Hq2. unfold ids in *. rewrite map_app. apply elem_of_app. by left.
  - intros e metas w0 w' out M Hz Hm. split.
    + intros (e' & more & Hl & HM & ->)%run_is_loop; [eauto|done|done].
    + intros (e' & Hl & <-). exact (loop_is_run rs z mode metas e w0 w' e' out [] Hz Hm Hl).
Qed.

(** Two calls that overlap return the same message twice: between the check
    and the mark there is a whole fetch. *)
Theorem overlapping_polls_duplicate {DL : DnsLib} {W} {NW : Network W} rs z mode M0 (w : W) pm data :
  fetch_any rs z (pm_MsgID pm) mode w = (w, Ok data) -> pm_MsgID pm ∉ M0 ->
  exists s, rtc (poll_step rs z mode) (mkPolls M0 w [mkPoller [pm] None []; mkPoller [pm] None []]) s /\
    map got (pollers s) = [[fetched_as data pm]; [fetched_as data pm]].
Proof.
  intros Hf Hn. eexists. split.
  - eapply rtc_l; [by apply pl_call; eapply (pl_check _ _ _ 0 _ pm [])|]. eapply rtc_l; [by apply pl_call; eapply (pl_check _ _ _ 1 _ pm [])|].
    eapply rtc_l; [by apply pl_call; eapply (pl_got _ _ _ 0 _ pm data w)|]. eapply rtc_l; [by apply pl_call; eapply (pl_got _ _ _ 1 _ pm data w)|]. reflexivity.
  - reflexivity.
Qed.

(** ** Edits of the relay list *)

(** A handler that edits the list: before it read it, before it writes it
    back, done. *)
Inductive editor := Reading (f : list bytes -> list bytes) | Writing (new : list bytes) | Edited.

Inductive edit_step : list bytes * list editor -> list bytes * list editor -> Prop :=
| ed_read k f rs es : es !! k = Some (Reading f) -> edit_step (rs, es) (rs, <[k := Writing (f rs)]> es)
| ed_write k new rs es : es !! k = Some (Writing new) -> edit_step (rs, es) (new, <[k := Edited]> es).

Definition add_relay (addr : bytes) : editor := Reading (fun rs => rs ++ [addr]).

(** Of two relays added at the same time one can be lost; added one after
    the other both are kept. *)
Theorem relay_lost_update rs a b :
  rtc edit_step (rs, [add_relay a; add_relay b]) (rs ++ [b], [Edited; Edited]) /\
  rtc edit_step (rs, [add_relay a; add_relay b]) ((rs ++ [a]) ++ [b], [Edited; Edited]).
Proof.
  split.
  - eapply rtc_l; [by apply (ed_read 0)|]. eapply rtc_l; [by apply (ed_read 1)|].
    eapply rtc_l; [by apply (ed_write 0)|]. eapply rtc_l; [by apply (ed_write 1)|]. reflexivity.
  - eapply rtc_l; [by apply (ed_read 0)|]. eapply rtc_l; [by apply (ed_write 0)|].
    eapply rtc_l; [by apply (ed_read 1)|]. eapply rtc_l; [by apply (ed_write 1)|]. reflexivity.
Qed.

(** ** Closed instances *)

(** Two calls poll one message; one of them has checked it. *)
(** A network on which every query is answered with the one chunk of the
    message. *)
Definition one_chunk_network : Network unit := fun _ _ _ w =>
  (w, Some (mkMsg RcodeSuccess [TXT (body_labels (NewChunk $"01234567" 0 1 $"hi"))])).

Lemma polls_overlap_witness :
  let pm := mkPolled $"01234567" [] 1 2 in
  let s := mkPolls {[$"01234567"]} tt [mkPoller [] None [mkPolled $"01234567" $"hi" 1 2]; mkPoller [pm] None []] in
  rtc (poll_step (DL := simple_dns_lib) (NW := one_chunk_network) [relay_a] demo_zone TransportAuto)
    (mkPolls ∅ tt [mkPoller [pm] None []; mkPoller [pm] None []]) s /\
  NoDup (ids [mkPolled $"01234567" $"hi" 1 2]).
Proof.
  intros pm s.
  assert (rtc (poll_step (DL := simple_dns_lib) (NW := one_chunk_network) [relay_a] demo_zone TransportAuto)
    (mkPolls ∅ tt (map (fun l => mkPoller l None []) [[pm]; [pm]])) s) as Hrun.
  { eapply rtc_l; [by apply pl_call; eapply (pl_check _ _ _ 0 _ pm [])|].
    eapply rtc_l; [apply pl_call; eapply (pl_got _ _ _ 0 _ pm $"hi" tt); [done|done|vm_compute; reflexivity]|].
    cbn. rewrite (right_id_L ∅ (∪)). reflexivity. }
  split; [exact Hrun|].
  refine (proj1 (proj1 (polls_overlap [relay_a] demo_zone TransportAuto ∅ tt [[pm]; [pm]] s _ Hrun) 0%nat
    (mkPoller [] None [mkPolled $"01234567" $"hi" 1 2]) eq_refl)).
  repeat apply Forall_cons_2; [apply NoDup_singleton|apply NoDup_singleton|apply Forall_nil_2].
Defined.
