(* ===== verification/MediaClient.v ===== *)
(** * Media on the client side (src/go/internal/media)

    File encryption, the table of transfers, and the two transports that
    move an encrypted file: in DNS messages, or by HTTP to the media server
    of a relay.  AES-GCM, the HTTP exchange and JSON are parameters; one
    exchange is built from the media server of [Relay] and faults that lose
    requests and replies. *)

From S2P Require Import Prelude GoStrings Codec Sha256 Encoding Relay.

(** ** Files (types.go) *)

Definition MediaTypeText : Z := 0.
Definition MediaTypeVoice : Z := 1.
Definition MediaTypeImage : Z := 2.
Definition MediaTypeFile : Z := 3.
Definition MediaTypeVideo : Z := 4.

Record ThumbnailInfo := mkThumb { Thumb_Mime : bytes; Thumb_Size : Z; Thumb_Data : bytes }.

Record MediaMessage := mkMeta {
  MessageID : bytes;
  Timestamp : Z;
  MediaType : Z;
  FileName : bytes;
  MimeType : bytes;
  FileSize : Z;
  FileKeyB64 : bytes;
  MetaChecksum : bytes;
  HasThumbnail : bool;
  Thumbnail : option ThumbnailInfo;
  FileID : bytes
}.

Inductive media_error :=
| BadFileKey | NonceFailed | CiphertextTooShort | OpenFailed | KeyFailed | TooLarge
| SendChunkFailed | RequestFailed | UploadFailed | UploadStatus (code : Z) | BadResponse
| DownloadFailed | FileNotFound | DownloadStatus (code : Z)
| DbFailed.

(** [aes.NewCipher] with [cipher.NewGCM], whose nonces have 12 bytes. *)
Class FileCipher := {
  NewGCM : bytes -> bool;
  gcm_Seal : bytes -> bytes -> bytes -> bytes;
  gcm_Open : bytes -> bytes -> bytes -> option bytes
}.
Definition gcm_nonce_size : nat := 12.

Class FileCipherLaws (F : FileCipher) := {
  NewGCM_32 : forall k, length k = 32%nat -> NewGCM k = true;
  gcm_open_seal : forall k n p, NewGCM k = true -> length n = gcm_nonce_size ->
    gcm_Open k n (gcm_Seal k n p) = Some p;
  gcm_length : forall k n p, length (gcm_Seal k n p) = (length p + 16)%nat
}.

Section Files.
Context {F : FileCipher}.

Definition EncryptFile (key plaintext : bytes) (rand : option bytes) : result media_error bytes :=
  _ ← check (NewGCM key) BadFileKey;
  nonce ← or_err NonceFailed rand;
  Ok (nonce ++ gcm_Seal key nonce plaintext).

Definition DecryptFile (key ciphertext : bytes) : result media_error bytes :=
  _ ← check (NewGCM key) BadFileKey;
  _ ← check (negb (length ciphertext <? gcm_nonce_size)%nat) CiphertextTooShort;
  or_err OpenFailed (gcm_Open key (take gcm_nonce_size ciphertext) (drop gcm_nonce_size ciphertext)).

Definition GenerateFileKey (rand : option bytes) : result media_error bytes := or_err KeyFailed rand.

End Files.

(** ** Transfers (transfer.go) *)

Definition TransferQueued : Z := 0.
Definition TransferEncrypting : Z := 1.
Definition TransferUploading : Z := 2.
Definition TransferConfirming : Z := 3.
Definition TransferComplete : Z := 4.
Definition TransferFailed : Z := 5.
Definition TransferCancelled : Z := 6.

Definition TransferStatus_String (s : Z) : bytes :=
  if s =? TransferQueued then $"queued"
  else if s =? TransferEncrypting then $"encrypting"
  else if s =? TransferUploading then $"uploading"
  else if s =? TransferConfirming then $"confirming"
  else if s =? TransferComplete then $"complete"
  else if s =? TransferFailed then $"failed"
  else if s =? TransferCancelled then $"cancelled"
  else $"unknown(" ++ Itoa s ++ $")".

Record TransferEntry := mkEntry {
  te_ID : bytes;
  te_PeerPubkey : bytes;
  te_FileName : bytes;
  te_MimeType : bytes;
  te_FileSize : Z;
  te_Status : Z;
  te_Progress : Z;
  te_ChunksSent : Z;
  te_TotalChunks : Z;
  te_AvgChunkTime : Z;
  te_Error : bytes;
  te_CreatedAt : Z;
  te_TempFilePath : bytes
}.

(** The rows of the table, in the order they were inserted. *)
Abbreviation transfers_table := (list TransferEntry).

(** [NewTransferStore]: the table of the database file, empty when there was
    none; [None] when the directory, the file or the table cannot be made. *)
Definition NewTransferStore (mkdir_ok open_ok create_ok : bool) (file : option transfers_table) : option transfers_table :=
  if mkdir_ok && open_ok && create_ok then Some (default [] file) else None.

(** Each statement may fail ([ok] is false) and then changes nothing. *)
Definition Create (ok : bool) (entry : TransferEntry) (t : transfers_table) : transfers_table * bool :=
  if negb ok || existsb (fun e => bool_decide (te_ID e = te_ID entry)) t then (t, false)
  else (t ++ [entry], true).

Definition update_entry (status progress chunksSent : Z) (e : TransferEntry) : TransferEntry :=
  mkEntry (te_ID e) (te_PeerPubkey e) (te_FileName e) (te_MimeType e) (te_FileSize e) status progress chunksSent
    (te_TotalChunks e) (te_AvgChunkTime e) (te_Error e) (te_CreatedAt e) (te_TempFilePath e).

Definition Update (ok : bool) (id : bytes) (status progress chunksSent : Z) (t : transfers_table)
    : transfers_table * bool :=
  if negb ok then (t, false)
  else (map (fun e => if decide (te_ID e = id) then update_entry status progress chunksSent e else e) t, true).

(** [nil, nil] when there is no such row. *)
Definition Get (id : bytes) (t : transfers_table) : option TransferEntry :=
  head (List.filter (fun e => bool_decide (te_ID e = id)) t).

Definition pending_status (s : Z) : bool := (0 <=? s) && (s <=? 3).

Definition ListPending {O : SqlOrder} (t : transfers_table) : list TransferEntry :=
  order_by te_CreatedAt (List.filter (fun e => pending_status (te_Status e)) t).

(** Remaining time, with the arithmetic of [int64] and the conversion to
    [int32]. *)
Definition EstimateSeconds (fileSize : Z) (useTCP : bool) : Z :=
  if useTCP then
    let est := i32 (i64 (i64 (Z.quot fileSize (100 * 1024) * 100) ÷ 1000)) in
    if est <? 5 then 5 else est
  else
    let est := i32 (i64 (i64 (Z.quot fileSize (15 * 200) * 100) ÷ 1000)) in
    if est <? 10 then 10 else est.

(** ** Transports (dns_transport.go) *)

Definition MaxDNSChunkSize : Z := 1000.
Definition MediaDNSSizeThreshold : Z := 60 * 1024.
Definition MediaMaxHardCap : Z := 10 * 1024 * 1024.

(** The checks and the encryption both transports start with: the random
    bytes are the file key and the nonce. *)
Definition prepare {F : FileCipher} (fileData : bytes) (rkey rnonce : option bytes)
    : result media_error (bytes * bytes) :=
  _ ← check (negb (MediaMaxHardCap <? len fileData)) TooLarge;
  fileKey ← GenerateFileKey rkey;
  encrypted ← EncryptFile fileKey fileData rnonce;
  Ok (fileKey, encrypted).

Definition build_meta (msgID fileData fileName mimeType fileKey fileID : bytes) (mediaType now : Z) : MediaMessage :=
  mkMeta (Hex.EncodeToString msgID) now mediaType fileName mimeType (len fileData)
    (Base64.EncodeToString fileKey) ($"sha256:" ++ Hex.EncodeToString (Sha256.Sum256 fileData)) false None fileID.

(** [SendMessageAdapter.SendMessage]: the engine's, with a fixed recipient. *)
Definition adapter_SendMessage {S : Type} (engine_send : bytes -> bytes -> S -> S * option bytes) (RecipientPubkey plaintext : bytes)
    : S -> S * option bytes := engine_send plaintext RecipientPubkey.

Section DNSTransport.
Context {F : FileCipher} {S : Type}.
(** [DNSChunkSender.SendMessage]: the message id, or an error. *)
Context (SendMessage : bytes -> S -> S * option bytes).

(** The ids of the messages that carried the chunks, in base64. *)
Fixpoint send_payloads (chunks : list Chunk) (s : S) : S * option (list bytes) :=
  match chunks with
  | [] => (s, Some [])
  | c :: rest =>
      match SendMessage (Payload c) s with
      | (s, None) => (s, None)
      | (s, Some id) =>
          match send_payloads rest s with
          | (s, Some ids) => (s, Some (Base64.EncodeToString id :: ids))
          | (s, None) => (s, None)
          end
      end
  end.

Definition DNS_SendChunks (msgID fileData fileName mimeType : bytes) (mediaType now : Z)
    (rkey rnonce : option bytes) (s : S) : S * result media_error MediaMessage :=
  match prepare fileData rkey rnonce with
  | Err e => (s, Err e)
  | Ok (fileKey, encrypted) =>
      match send_payloads (ChunkMessage msgID encrypted MaxDNSChunkSize []) s with
      | (s, None) => (s, Err SendChunkFailed)
      | (s, Some chunkMsgIDs) => (s, Ok (build_meta msgID fileData fileName mimeType fileKey [] mediaType now))
      end
  end.

End DNSTransport.

Section TCPTransport.
Context {F : FileCipher} {W : Type}.
(** [http.Client.Do]: the status and body of the response, or an error. *)
Context (Do : bytes -> Media.Request -> W -> W * option Media.Response).
(** The [file_id] field of a decoded response. *)
Context (decode_file_id : bytes -> option bytes).

Record TCPTransport := mkTCP { relayAddr : bytes; authToken : bytes }.

Definition NewTCPTransport (addr token : bytes) : TCPTransport :=
  let host := match SplitHostPort addr with Some (h, _) => h | None => addr end in
  mkTCP (host ++ $":9877") token.

Definition TCP_SendChunks (t : TCPTransport) (msgID fileData fileName mimeType : bytes) (mediaType now : Z)
    (rkey rnonce : option bytes) (w : W) : W * result media_error MediaMessage :=
  match prepare fileData rkey rnonce with
  | Err e => (w, Err e)
  | Ok (fileKey, encrypted) =>
      match Do (relayAddr t) (Media.mkRequest $"POST" $"/upload" (authToken t) encrypted false) w with
      | (w, None) => (w, Err UploadFailed)
      | (w, Some resp) =>
          if negb (Media.Status resp =? 200) then (w, Err (UploadStatus (Media.Status resp)))
          else match decode_file_id (Media.RespBody resp) with
               | None => (w, Err BadResponse)
               | Some id => (w, Ok (build_meta msgID fileData fileName mimeType fileKey id mediaType now))
               end
      end
  end.

Definition DownloadFile (t : TCPTransport) (fileID : bytes) (w : W) : W * result media_error bytes :=
  match Do (relayAddr t) (Media.mkRequest $"GET" ($"/download/" ++ fileID) (authToken t) [] false) w with
  | (w, None) => (w, Err DownloadFailed)
  | (w, Some resp) =>
      if Media.Status resp =? 404 then (w, Err FileNotFound)
      else if negb (Media.Status resp =? 200) then (w, Err (DownloadStatus (Media.Status resp)))
      else (w, Ok (Media.RespBody resp))
  end.

End TCPTransport.

(** ** Lemmas *)
Section Lemmas.
Context {F : FileCipher} {FL : FileCipherLaws F}.

Lemma DecryptFile_Encrypt key nonce p :
  length key = 32%nat -> length nonce = gcm_nonce_size ->
  DecryptFile key (nonce ++ gcm_Seal key nonce p) = Ok p.
Proof.
  intros Hk Hn. unfold DecryptFile. rewrite NewGCM_32 by done. cbn [check mbind result_bind].
  replace (length (nonce ++ gcm_Seal key nonce p) <? gcm_nonce_size)%nat with false
    by (symmetry; apply Nat.ltb_ge; rewrite length_app; lia).
  cbn [negb check]. rewrite <- Hn, take_app_length, drop_app_length.
  by rewrite gcm_open_seal by first [done | by apply NewGCM_32].
Qed.

Lemma prepare_Ok data key nonce :
  length key = 32%nat -> len data <= MediaMaxHardCap ->
  prepare data (Some key) (Some nonce) = Ok (key, nonce ++ gcm_Seal key nonce data).
Proof.
  intros Hk Hl. unfold prepare. replace (MediaMaxHardCap <? len data) with false by (symmetry; apply Z.ltb_ge; lia).
  cbn [negb check GenerateFileKey or_err mbind result_bind]. unfold EncryptFile. by rewrite NewGCM_32.
Qed.

End Lemmas.

(** What can go wrong with a request to the media server: it does not
    arrive, its response does not, or the relay's disk fails. *)
Inductive http_fault := LostRequest | LostResponse | DiskFault (w : write_result).

(** The relay's media server as the HTTP peer: its directory, clock and
    token, and what happens to the next requests (the empty list: nothing). *)
Record MediaHost := mkHost { host_dir : Media.dir; host_now : Z; host_token : bytes; host_faults : list (option http_fault) }.

Definition serve_media (w : write_result) (r : Media.Request) (h : MediaHost) : Media.dir * Media.Response :=
  if decide (Media.Path r = $"/upload") then Media.upload (host_token h) r (host_now h) w (host_dir h)
  else if HasPrefix (Media.Path r) $"/download/" then (host_dir h, Media.download (host_token h) r (host_dir h))
  else (host_dir h, Media.mkResponse 404 $"404 page not found").

Definition host_do (_ : bytes) (r : Media.Request) (h : MediaHost) : MediaHost * option Media.Response :=
  let after d := mkHost d (host_now h) (host_token h) (tail (host_faults h)) in
  match default None (head (host_faults h)) with
  | Some LostRequest => (after (host_dir h), None)
  | Some LostResponse => (after (serve_media Written r h).1, None)
  | Some (DiskFault w) => (after (serve_media w r h).1, Some (serve_media w r h).2)
  | None => (after (serve_media Written r h).1, Some (serve_media Written r h).2)
  end.

(** The next request or its response is lost. *)
Definition next_lost (h : MediaHost) : bool :=
  match head (host_faults h) with Some (Some LostRequest) | Some (Some LostResponse) => true | _ => false end.

(** The relay accepts a token: it wants none, or this one. *)
Definition admits (h : MediaHost) (token : bytes) : Prop := host_token h = [] \/ token = host_token h.

Lemma checkMediaAuth_admits h token m p b br :
  admits h token -> Media.checkMediaAuth (host_token h) (Media.mkRequest m p token b br) = true.
Proof.
  intros Ha. unfold Media.checkMediaAuth. cbn [Media.AuthToken]. case_decide as H0; [done|].
  destruct Ha as [Ha| ->]; [done|]. rewrite decide_False by done. by apply bool_decide_eq_true.
Qed.

Lemma Ok_inj {E A} (x y : A) : @Ok E A x = Ok y -> x = y.
Proof. congruence. Qed.

(** An upload that is answered with 200 stored the file. *)
Lemma upload_200 token r now w d d' resp :
  Media.upload token r now w d = (d', resp) -> Media.Status resp = 200 ->
  let id := Hex.EncodeToString (Sha256.Sum256 (Media.Body r)) in
  d' = <[id := (Media.Body r, now)]> d /\ resp = Media.mkResponse 200 (Media.upload_body id) /\
  Media.checkMediaAuth token r = true.
Proof.
  unfold Media.upload. destruct (negb (bool_decide _)); [by intros [= <- <-]|].
  destruct (Media.checkMediaAuth token r); cbn [negb]; [|by intros [= <- <-]].
  destruct (maxUploadSize <? _); [by intros [= <- <-]|]. destruct (Media.BodyBroken r); [by intros [= <- <-]|].
  destruct w; intros [<- <-]%pair_eq Hst; [|discriminate Hst..]. split; [reflexivity|]. split; reflexivity.
Qed.

Lemma upload_authorised h token body :
  admits h token -> len body <= maxUploadSize ->
  let id := Hex.EncodeToString (Sha256.Sum256 body) in
  serve_media Written (Media.mkRequest $"POST" $"/upload" token body false) h =
    (<[id := (body, host_now h)]> (host_dir h), Media.mkResponse 200 (Media.upload_body id)).
Proof.
  intros Ha Hl id. unfold serve_media. cbn [Media.Path]. rewrite decide_True by done.
  unfold Media.upload. cbn [Media.Method Media.Body Media.BodyBroken].
  rewrite bool_decide_eq_true_2, checkMediaAuth_admits by done. cbn [negb].
  by replace (maxUploadSize <? len body) with false by (symmetry; apply Z.ltb_ge; lia).
Qed.

(** A send that succeeds was answered with 200 to its one upload. *)
Lemma TCP_SendChunks_served {F : FileCipher} decode_file_id t h h' msgID data name mime mt now rkey rnonce meta :
  TCP_SendChunks host_do decode_file_id t msgID data name mime mt now rkey rnonce h = (h', Ok meta) ->
  exists key nonce w resp fid, rkey = Some key /\ rnonce = Some nonce /\
    Media.upload (host_token h) (Media.mkRequest $"POST" $"/upload" (authToken t) (nonce ++ gcm_Seal key nonce data) false)
      (host_now h) w (host_dir h) = (host_dir h', resp) /\
    Media.Status resp = 200 /\ decode_file_id (Media.RespBody resp) = Some fid /\ meta = build_meta msgID data name mime key fid mt now.
Proof.
  unfold TCP_SendChunks, prepare, EncryptFile, GenerateFileKey.
  destruct (negb _); cbn [check mbind result_bind]; [|discriminate].
  destruct rkey as [key|]; cbn [or_err mbind result_bind]; [|discriminate].
  destruct (NewGCM key); cbn [check mbind result_bind]; [|discriminate].
  destruct rnonce as [nonce|]; cbn [or_err mbind result_bind]; [|discriminate].
  set (req := Media.mkRequest _ _ _ _ _). intros H.
  assert (exists w, host_do (relayAddr t) req h =
    (mkHost (serve_media w req h).1 (host_now h) (host_token h) (tail (host_faults h)), Some (serve_media w req h).2)) as [w Hw].
  { revert H. unfold host_do. destruct (default None (head (host_faults h))) as [[| |w]|]; [discriminate|discriminate|eauto|eauto]. }
  rewrite Hw in H. clear Hw. unfold serve_media in H. cbn [Media.Path req] in H. rewrite decide_True in H by done.
  destruct (Media.upload _ _ _ w _) as [d' resp] eqn:Hup. cbn [fst snd] in H. exists key, nonce, w, resp.
  destruct (Media.Status resp =? 200) eqn:Hst; cbn [negb] in H; [|discriminate]. apply Z.eqb_eq in Hst.
  destruct (decode_file_id (Media.RespBody resp)) as [fid|]; [|discriminate]. apply pair_eq in H as [<- <-%Ok_inj].
  exists fid. split; [done|]. split; [done|]. split; [exact Hup|]. done.
Qed.

(** Such a client is admitted. *)
Lemma TCP_SendChunks_admitted {F : FileCipher} decode_file_id t h h' msgID data name mime mt now rkey rnonce meta :
  TCP_SendChunks host_do decode_file_id t msgID data name mime mt now rkey rnonce h = (h', Ok meta) -> admits h (authToken t).
Proof.
  intros (key & nonce & w & resp & fid & _ & _ & Hup & Hst & _)%TCP_SendChunks_served.
  destruct (upload_200 _ _ _ _ _ _ _ Hup Hst) as (_ & _ & Hauth). unfold Media.checkMediaAuth in Hauth. cbn [Media.AuthToken] in Hauth.
  case_decide; [by left|]. case_decide; [discriminate|]. apply bool_decide_eq_true in Hauth. by right.
Qed.

(** The two calls of a client. *)
Section TCPCalls.
Context {F : FileCipher} {FL : FileCipherLaws F} (decode_file_id : bytes -> option bytes).
Context (Hdec : forall id, decode_file_id (Media.upload_body (Hex.EncodeToString id)) = Some (Hex.EncodeToString id)).

(** A send that succeeds stored the encrypted file, whatever the network and
    the disk did to other requests. *)
Lemma TCP_SendChunks_stored t h h' msgID data name mime mt now rkey rnonce meta :
  TCP_SendChunks host_do decode_file_id t msgID data name mime mt now rkey rnonce h = (h', Ok meta) ->
  exists key nonce, rkey = Some key /\ rnonce = Some nonce /\
    let enc := nonce ++ gcm_Seal key nonce data in
    let fid := Hex.EncodeToString (Sha256.Sum256 enc) in
    host_dir h' = <[fid := (enc, host_now h)]> (host_dir h) /\ meta = build_meta msgID data name mime key fid mt now.
Proof.
  intros (key & nonce & w & resp & fid & -> & -> & Hup & Hst & Hid & ->)%TCP_SendChunks_served.
  exists key, nonce. split; [done|]. split; [done|]. cbv zeta.
  destruct (upload_200 _ _ _ _ _ _ _ Hup Hst) as (Hd & Hr & _). cbn [Media.Body] in Hd, Hr. rewrite Hr in Hid. cbn [Media.RespBody] in Hid.
  rewrite Hdec in Hid. apply (inj Some) in Hid as <-. split; [exact Hd|reflexivity].
Qed.

Lemma TCP_SendChunks_ok t h msgID data name mime mt now rkey rnonce :
  length rkey = 32%nat -> length rnonce = gcm_nonce_size -> len data <= MediaMaxHardCap -> admits h (authToken t) ->
  host_faults h = [] ->
  let enc := rnonce ++ gcm_Seal rkey rnonce data in
  let fid := Hex.EncodeToString (Sha256.Sum256 enc) in
  TCP_SendChunks host_do decode_file_id t msgID data name mime mt now (Some rkey) (Some rnonce) h =
    (mkHost (<[fid := (enc, host_now h)]> (host_dir h)) (host_now h) (host_token h) [],
     Ok (build_meta msgID data name mime rkey fid mt now)).
Proof.
  intros Hk Hn Hl Ha Hf. unfold TCP_SendChunks. rewrite prepare_Ok by done. cbv zeta. set (enc := rnonce ++ gcm_Seal rkey rnonce data).
  assert (len enc <= maxUploadSize) as Henc.
  { unfold enc. rewrite len_app. unfold len in *. rewrite gcm_length, Hn.
    unfold MediaMaxHardCap, maxUploadSize, gcm_nonce_size in *. lia. }
  unfold host_do. rewrite Hf. cbn [head default from_option tail]. change (default None None) with (@None http_fault). cbn iota.
  rewrite upload_authorised by done. cbn [fst snd Media.Status Media.RespBody].
  change (negb (200 =? 200)) with false. cbn iota. by rewrite Hdec.
Qed.

(** A download of a file that is there gets it, unless the request or the
    response is lost. *)
Lemma DownloadFile_there t h x enc ts :
  x <> [] -> host_dir h !! Hex.EncodeToString x = Some (enc, ts) -> admits h (authToken t) ->
  DownloadFile host_do t (Hex.EncodeToString x) h =
    (mkHost (host_dir h) (host_now h) (host_token h) (tail (host_faults h)), if next_lost h then Err DownloadFailed else Ok enc).
Proof.
  intros Hx Hd Ha. assert (Hex.EncodeToString x <> []) as Hid.
  { intros E%(f_equal length). rewrite HexFacts.hex_encode_length in E. by destruct x. }
  assert (forall w, serve_media w (Media.mkRequest $"GET" ($"/download/" ++ Hex.EncodeToString x) (authToken t) [] false) h =
    (host_dir h, Media.mkResponse 200 enc)) as Hserve.
  { intros w. unfold serve_media. cbn [Media.Path]. rewrite decide_False by discriminate.
    unfold HasPrefix at 1. rewrite take_app_length, bool_decide_eq_true_2 by done. f_equal.
    apply (Media.download_present _ _ _ enc ts (Hex.EncodeToString x)); [done|by apply checkMediaAuth_admits|done| |done].
    rewrite HexFacts.hex_decode_encode. eauto. }
  unfold DownloadFile, host_do, next_lost. rewrite !Hserve.
  destruct (host_faults h) as [|[[| |w]|] fs]; cbn [head tail]; try done.
  cbn [default from_option Datatypes.id]. by rewrite Hserve.
Qed.

End TCPCalls.

(** ** The transfer table *)
Inductive table_op :=
| OpCreate (ok : bool) (e : TransferEntry)
| OpUpdate (ok : bool) (id : bytes) (status progress chunks : Z).
Definition apply_table (t : transfers_table) (op : table_op) : transfers_table :=
  match op with
  | OpCreate ok e => (Create ok e t).1
  | OpUpdate ok id st p c => (Update ok id st p c t).1
  end.

Lemma apply_table_ids t op : NoDup (map te_ID t) -> NoDup (map te_ID (apply_table t op)).
Proof.
  intros Hnd. destruct op as [ok e|ok id st p c]; simpl.
  - unfold Create. destruct (negb ok || _) eqn:Hc; [done|]. apply Bool.orb_false_iff in Hc as [_ Hc].
    simpl. rewrite map_app. apply NoDup_app. split; [done|]. split; [|apply NoDup_singleton].
    intros id Hid ->%list_elem_of_singleton. apply list_elem_of_In, in_map_iff in Hid as (e' & He & Hin).
    assert (existsb (fun e0 => bool_decide (te_ID e0 = te_ID e)) t = true) as H
      by (apply existsb_exists; exists e'; split; [done|by apply bool_decide_eq_true]). congruence.
  - unfold Update. destruct ok; [|done]. simpl. rewrite map_map.
    erewrite map_ext; [exact Hnd|]. intros e. by case_decide.
Qed.

Lemma Update_Get id st p c t e :
  Get id t = Some e -> Get id (Update true id st p c t).1 = Some (update_entry st p c e).
Proof.
  unfold Get, Update. simpl. induction t as [|x t IH]; simpl; [done|].
  case_bool_decide as Hx; simpl.
  - intros [= <-]. rewrite decide_True by done. simpl. by rewrite bool_decide_eq_true_2.
  - intros H. rewrite decide_False by done. rewrite bool_decide_eq_false_2 by done. by apply IH.
Qed.

(** ** Properties *)

(** A file sent over TCP is received intact: with a network and a disk that
    work, after [SendChunks] to a
    relay that wants no token or the client's, downloading the file the metadata
    names and decrypting it with the key in the metadata gives back the
    file, and the metadata's checksum is its SHA-256; every file within the
    hard cap fits the relay's upload limit. *)
Theorem tcp_media_delivery {F : FileCipher} {FL : FileCipherLaws F} decode_file_id t h msgID data name mime mt now rkey rnonce :
  (forall id, decode_file_id (Media.upload_body (Hex.EncodeToString id)) = Some (Hex.EncodeToString id)) ->
  length rkey = 32%nat -> length rnonce = gcm_nonce_size -> len data <= MediaMaxHardCap ->
  admits h (authToken t) -> host_faults h = [] ->
  let '(h1, r) := TCP_SendChunks host_do decode_file_id t msgID data name mime mt now (Some rkey) (Some rnonce) h in
  exists meta enc, r = Ok meta /\ DownloadFile host_do t (FileID meta) h1 = (h1, Ok enc) /\
    (exists key, Base64.DecodeString (FileKeyB64 meta) = Some key /\ DecryptFile key enc = Ok data) /\
    MetaChecksum meta = $"sha256:" ++ Hex.EncodeToString (Sha256.Sum256 data).
Proof.
  intros Hdec Hk Hn Hl Ha Hf. rewrite TCP_SendChunks_ok by done. eexists _, _. split; [reflexivity|].
  cbn [FileID FileKeyB64 MetaChecksum build_meta]. split; [|split; [|reflexivity]].
  - rewrite (DownloadFile_there t _ _ (rnonce ++ gcm_Seal rkey rnonce data) (host_now h)); [reflexivity| |apply lookup_insert_eq|exact Ha].
    intros E%(f_equal length). by rewrite Sha256.Sum256_length in E.
  - exists rkey. split; [apply Base64Facts.b64_decode_encode|]. by apply DecryptFile_Encrypt.
Qed.

(** A file sent over DNS cannot be found by its recipient: the metadata
    [SendChunks] returns is the same whatever message ids the chunks were
    sent under, and names no file. *)
Theorem dns_meta_ignores_ids {F : FileCipher} {S1 S2} send1 send2 msgID data name mime mt now rkey rnonce (s1 : S1) (s2 : S2) m1 m2 :
  (DNS_SendChunks send1 msgID data name mime mt now rkey rnonce s1).2 = Ok m1 ->
  (DNS_SendChunks send2 msgID data name mime mt now rkey rnonce s2).2 = Ok m2 ->
  m1 = m2 /\ FileID m1 = [].
Proof.
  unfold DNS_SendChunks. destruct (prepare data rkey rnonce) as [[key enc]|err]; [|discriminate].
  destruct (send_payloads send1 _ s1) as [s1' [ids1|]]; [|discriminate].
  destruct (send_payloads send2 _ s2) as [s2' [ids2|]]; [|discriminate].
  cbn [snd]. intros [= <-] [= <-]. done.
Qed.

(** The transfer table: after any inserts and updates the ids are
    distinct, the pending list is exactly the transfers in a state that is
    not terminal, oldest first, and an update is what the next read shows. *)
Theorem transfer_table {O : SqlOrder} ops :
  let t := fold_left apply_table ops [] in
  NoDup (map te_ID t) /\
  (forall e, e ∈ ListPending t <-> e ∈ t /\ 0 <= te_Status e <= 3) /\
  StronglySorted (fun x y => te_CreatedAt x <= te_CreatedAt y) (ListPending t) /\
  (forall id e st p c, Get id t = Some e -> Get id (Update true id st p c t).1 = Some (update_entry st p c e)).
Proof.
  cbv zeta. split; [|split; [|split]].
  - assert (forall t, NoDup (map te_ID t) -> NoDup (map te_ID (fold_left apply_table ops t))) as H.
    { induction ops as [|op ops IH]; intros t Ht; simpl; [done|]. by apply IH, apply_table_ids. }
    apply H, NoDup_nil_2.
  - intros e. unfold ListPending. rewrite order_by_perm, list_elem_of_In, filter_In, <- list_elem_of_In.
    unfold pending_status. rewrite Bool.andb_true_iff, !Z.leb_le. tauto.
  - apply order_by_sorted.
  - intros id e st p c. apply Update_Get.
Qed.

(** ** Closed instances *)
Definition toy_cipher : FileCipher := {|
  NewGCM k := (length k =? 32)%nat;
  gcm_Seal k n p := p ++ take 16 (Sha256.Sum256 (k ++ n ++ p));
  gcm_Open k n c := let p := take (length c - 16) c in
    if decide (drop (length c - 16) c = take 16 (Sha256.Sum256 (k ++ n ++ p))) then Some p else None
|}.

Lemma toy_cipher_laws : FileCipherLaws toy_cipher.
Proof.
  split.
  - intros k Hk. by apply Nat.eqb_eq.
  - intros k n p _ _. cbn [gcm_Open gcm_Seal toy_cipher].
    set (tag := take 16 (Sha256.Sum256 (k ++ n ++ p))).
    assert (length tag = 16%nat) as Ht by (unfold tag; by rewrite length_take, Sha256.Sum256_length).
    rewrite length_app, Ht, Nat.add_sub, take_app_length, drop_app_length. by rewrite decide_True.
  - intros k n p. cbn [gcm_Seal toy_cipher]. rewrite length_app, length_take, Sha256.Sum256_length. done.
Qed.

(** The field of the response the relay builds. *)
Definition strip_file_id (b : bytes) : option bytes := Some (take (length b - 14) (drop 12 b)).

Lemma strip_upload_body id : strip_file_id (Media.upload_body id) = Some id.
Proof.
  unfold strip_file_id, Media.upload_body. f_equal.
  rewrite !length_app. change (length [dquote; Ascii.ascii_of_nat 125]) with 2%nat.
  change (length [Ascii.ascii_of_nat 123; dquote]) with 2%nat. change (length $"file_id") with 7%nat.
  change (length [dquote; colon; dquote]) with 3%nat.
  replace (2 + (7 + (3 + (length id + 2))) - 14)%nat with (length id) by lia.
  change (drop 12 _) with (id ++ [dquote; Ascii.ascii_of_nat 125]). apply take_app_length.
Qed.

Lemma tcp_media_delivery_witness :
  let h := mkHost ∅ 7 $"tok" [] in
  let '(h1, r) := TCP_SendChunks (F := toy_cipher) host_do strip_file_id (NewTCPTransport $"10.0.0.1:53" $"tok")
     $"01234567" $"picture" $"a.png" $"image/png" MediaTypeFile 5 (Some (replicate 32 dot)) (Some (replicate 12 dot)) h in
  exists meta enc, r = Ok meta /\
    DownloadFile host_do (NewTCPTransport $"10.0.0.1:53" $"tok") (FileID meta) h1 = (h1, Ok enc).
Proof.
  intros h.
  pose proof (tcp_media_delivery (F := toy_cipher) (FL := toy_cipher_laws) strip_file_id
    (NewTCPTransport $"10.0.0.1:53" $"tok") h $"01234567" $"picture" $"a.png" $"image/png" MediaTypeFile 5
    (replicate 32 dot) (replicate 12 dot)) as H.
  destruct (TCP_SendChunks _ _ _ _ _ _ _ _ _ _ _ h) as [h1 r].
  destruct H as (meta & enc & Hr & Hd & _); [|reflexivity|reflexivity|vm_compute; discriminate|by right|reflexivity|eauto].
  intros id. apply strip_upload_body.
Defined.

Lemma dns_meta_ignores_ids_witness :
  let send (id : bytes) (_ : bytes) (s : nat) := (S s, Some id) in
  exists m, (DNS_SendChunks (F := toy_cipher) (send $"aaaaaaaa") $"01234567" $"x" $"f" $"m" 2 9
      (Some (replicate 32 dot)) (Some (replicate 12 dot)) 0%nat).2 = Ok m /\ FileID m = [].
Proof.
  intros send.
  destruct (DNS_SendChunks (F := toy_cipher) (send $"aaaaaaaa") $"01234567" $"x" $"f" $"m" 2 9
      (Some (replicate 32 dot)) (Some (replicate 12 dot)) 0%nat) as [s [m|err]] eqn:H1; [|vm_compute in H1; discriminate H1].
  exists m. split; [reflexivity|].
  refine (proj2 (dns_meta_ignores_ids (F := toy_cipher) (send $"aaaaaaaa") (send $"bbbbbbbb") $"01234567" $"x" $"f" $"m" 2 9
    (Some (replicate 32 dot)) (Some (replicate 12 dot)) 0%nat 0%nat m _ _ eq_refl)).
  by rewrite H1.
Defined.
