(* ===== verification/Queue.v ===== *)
(** * The offline queue and the network detector (src/go/internal/client/queue.go, detector.go, processQueue of daemon.go)

    Messages that could not be sent wait in an SQLite table; every half
    minute the daemon tries each of them once, and gives up on one that has
    failed [maxQueueRetries] times. *)

From S2P Require Import Prelude.

(** ** Queue *)

Record QueuedMessage := mkQueued {
  q_ID : Z;
  q_PeerKey : bytes;
  q_Ciphertext : bytes;
  q_CreatedAt : Z;
  q_Retries : Z;
  q_LastError : bytes
}.

(** The rows in the order of insertion and the last id AUTOINCREMENT gave. *)
Record OfflineQueue := mkQueue { rows : list QueuedMessage; last_id : Z }.

Definition NewOfflineQueue : OfflineQueue := mkQueue [] 0.

(** [ok] is whether the statement succeeds. *)
Definition Enqueue (ok : bool) (peerKey ciphertext : bytes) (now : Z) (q : OfflineQueue) : OfflineQueue * option Z :=
  if ok then
    let id := last_id q + 1 in
    (mkQueue (rows q ++ [mkQueued id peerKey ciphertext now 0 []]) id, Some id)
  else (q, None).

Definition Pending {O : SqlOrder} (q : OfflineQueue) : list QueuedMessage := order_by q_CreatedAt (rows q).

Definition fail_row (errMsg : bytes) (m : QueuedMessage) : QueuedMessage :=
  mkQueued (q_ID m) (q_PeerKey m) (q_Ciphertext m) (q_CreatedAt m) (q_Retries m + 1) errMsg.

Definition MarkFailed (ok : bool) (id : Z) (errMsg : bytes) (q : OfflineQueue) : OfflineQueue :=
  if ok then mkQueue (map (fun m => if decide (q_ID m = id) then fail_row errMsg m else m) (rows q)) (last_id q)
  else q.

Definition Remove (ok : bool) (id : Z) (q : OfflineQueue) : OfflineQueue :=
  if ok then mkQueue (filter (fun m => q_ID m <> id) (rows q)) (last_id q) else q.

(** ** Processing *)

Definition maxQueueRetries : Z := 20.

Inductive outcome := GaveUp | Sent | SendFailed (err : bytes).

Section Process.
Context {O : SqlOrder} {ES : Type}.
(** The engine's [SendMessage]: [None] on success, else the error text. *)
Context (send : bytes -> bytes -> ES -> ES * option bytes).
(** Whether the statement on a row of the table succeeds. *)
Context (db_ok : Z -> bool).

(** One message of the pass, and what became of it. *)
Definition process_one (m : QueuedMessage) (q : OfflineQueue) (es : ES) : OfflineQueue * ES * outcome :=
  if maxQueueRetries <=? q_Retries m then (Remove (db_ok (q_ID m)) (q_ID m) q, es, GaveUp)
  else
    match send (q_Ciphertext m) (q_PeerKey m) es with
    | (es, Some err) => (MarkFailed (db_ok (q_ID m)) (q_ID m) err q, es, SendFailed err)
    | (es, None) => (Remove (db_ok (q_ID m)) (q_ID m) q, es, Sent)
    end.

Fixpoint process_list (pending : list QueuedMessage) (q : OfflineQueue) (es : ES)
    : OfflineQueue * ES * list (Z * outcome) :=
  match pending with
  | [] => (q, es, [])
  | m :: rest =>
      let '(q, es, o) := process_one m q es in
      let '(q, es, os) := process_list rest q es in (q, es, (q_ID m, o) :: os)
  end.

(** One turn of [processQueue]; a failing read skips it. *)
Definition process_pass (read_ok : bool) (q : OfflineQueue) (es : ES) : OfflineQueue * ES * list (Z * outcome) :=
  if read_ok then process_list (Pending q) q es else (q, es, []).

End Process.

(** ** Detector *)

Inductive NetworkMode := ModeNormal | ModeBlackout.

#[export] Instance NetworkMode_eq_dec : EqDecision NetworkMode.
Proof. solve_decision. Defined.

Record Detector := mkDetector { forceBlackout : bool; mode : NetworkMode; relayCount : Z }.

Definition NewDetector (force : bool) (count : Z) : Detector := mkDetector force ModeNormal count.

Definition CurrentMode (d : Detector) : NetworkMode := if forceBlackout d then ModeBlackout else mode d.

Definition Detector_Check (d : Detector) : Detector * NetworkMode :=
  let m := if forceBlackout d then ModeBlackout else if 0 <? relayCount d then ModeNormal else ModeBlackout in
  (mkDetector (forceBlackout d) m (relayCount d), m).

(** ** What a pass does to the table *)

Fixpoint fate (id : Z) (os : list (Z * outcome)) : option outcome :=
  match os with
  | [] => None
  | (i, o) :: rest => if decide (i = id) then Some o else fate id rest
  end.

(** A row after the outcome for its id. *)
Definition settle (os : list (Z * outcome)) (m : QueuedMessage) : option QueuedMessage :=
  match fate (q_ID m) os with
  | Some (SendFailed err) => Some (fail_row err m)
  | Some _ => None
  | None => Some m
  end.

Lemma fate_notin id os : id ∉ map fst os -> fate id os = None.
Proof.
  induction os as [|[i o] os IH]; simpl; [done|]. rewrite not_elem_of_cons. intros [Hne Hn].
  rewrite decide_False by congruence. by apply IH.
Qed.

Section Pass.
Context {O : SqlOrder} {ES : Type} (send : bytes -> bytes -> ES -> ES * option bytes).
Abbreviation all_ok := (fun _ : Z => true).

Lemma process_one_rows m q es q' es' o :
  process_one send all_ok m q es = (q', es', o) ->
  rows q' = omap (settle [(q_ID m, o)]) (rows q) /\ (o = GaveUp <-> maxQueueRetries <= q_Retries m).
Proof.
  unfold process_one. intros H.
  assert (forall (l : list QueuedMessage) id, omap (settle [(id, Sent)]) l = filter (fun m => q_ID m <> id) l /\
                       omap (settle [(id, GaveUp)]) l = filter (fun m => q_ID m <> id) l) as Hrem.
  { intros l id. induction l as [|x l [IH1 IH2]]; simpl; [done|]. rewrite filter_cons. unfold settle, fate.
    destruct (decide (id = q_ID x)) as [->|Hne]; [rewrite decide_False by auto|rewrite decide_True by auto]; simpl.
    - split; [exact IH1|exact IH2].
    - split; f_equal; [exact IH1|exact IH2]. }
  destruct (maxQueueRetries <=? q_Retries m) eqn:Hr.
  - injection H as <- <- <-. simpl. rewrite (proj2 (Hrem _ _)). apply Z.leb_le in Hr. done.
  - apply Z.leb_gt in Hr. destruct (send (q_Ciphertext m) (q_PeerKey m) es) as [es1 [err|]]; injection H as <- <- <-; simpl.
    + split; [|split; [discriminate|lia]]. induction (rows q) as [|x l IH]; simpl; [done|]. unfold settle at 1, fate.
      destruct (decide (q_ID m = q_ID x)) as [He|Hne]; [rewrite decide_True by auto|rewrite decide_False by auto]; by f_equal.
    + rewrite (proj1 (Hrem _ _)). split; [done|]. split; [discriminate|lia].
Qed.

Lemma settle_cons id o os m :
  id ∉ map fst os -> settle [(id, o)] m ≫= settle os = settle ((id, o) :: os) m.
Proof.
  intros Hn. unfold settle. simpl. destruct (decide (id = q_ID m)) as [->|Hne]; [|done].
  destruct o; simpl; [done|done|]. by rewrite fate_notin.
Qed.

Lemma omap_omap {A} (f g : A -> option A) (l : list A) : omap g (omap f l) = omap (fun x => f x ≫= g) l.
Proof.
  induction l as [|x l IH]; csimpl; [done|]. destruct (f x) as [y|]; csimpl; [|exact IH]. by rewrite IH.
Qed.

Lemma process_list_rows pending q es q' es' os :
  NoDup (map q_ID pending) -> process_list send all_ok pending q es = (q', es', os) ->
  map fst os = map q_ID pending /\ rows q' = omap (settle os) (rows q) /\
  Forall (fun m => exists o, fate (q_ID m) os = Some o /\ (o = GaveUp <-> maxQueueRetries <= q_Retries m)) pending.
Proof.
  revert q es q' es' os. induction pending as [|m rest IH]; intros q es q' es' os Hnd; simpl.
  - intros [= <- <- <-]. split; [done|]. split; [|done]. simpl. induction (rows q) as [|x l IHl]; simpl; [done|]. by f_equal.
  - apply NoDup_cons in Hnd as [Hm Hnd].
    destruct (process_one send all_ok m q es) as [[q1 es1] o] eqn:H1.
    destruct (process_list send all_ok rest q1 es1) as [[q2 es2] os2] eqn:H2. intros [= <- <- <-].
    destruct (process_one_rows _ _ _ _ _ _ H1) as [Hr1 Ho1].
    destruct (IH _ _ _ _ _ Hnd H2) as (Hf & Hr2 & Hall). simpl. split; [by f_equal|]. split.
    + rewrite Hr2, Hr1, omap_omap. apply list_omap_ext, Forall2_same_length_lookup_2; [done|].
      intros i x y Hx Hy. simplify_eq. apply settle_cons. by rewrite Hf.
    + constructor; [exists o; by rewrite decide_True|]. rewrite !Forall_forall in *. intros x Hx.
      rewrite decide_False by (intros He; apply Hm; rewrite He; by apply (list_elem_of_fmap_2 q_ID)). by apply Hall.
Qed.

Lemma Pending_ids q : NoDup (map q_ID (rows q)) -> NoDup (map q_ID (Pending q)).
Proof. intros H. unfold Pending. by rewrite (order_by_perm q_CreatedAt (rows q)). Qed.

Lemma process_pass_rows q es q' es' os :
  NoDup (map q_ID (rows q)) -> process_pass send all_ok true q es = (q', es', os) ->
  rows q' = omap (settle os) (rows q) /\
  forall m, m ∈ rows q -> exists o, fate (q_ID m) os = Some o /\ (o = GaveUp <-> maxQueueRetries <= q_Retries m).
Proof.
  intros Hnd H. apply process_list_rows in H as (_ & Hr & Hall); [|by apply Pending_ids]. split; [done|].
  intros m Hm. rewrite Forall_forall in Hall. apply Hall. unfold Pending. by rewrite order_by_perm.
Qed.

Lemma settle_ids os (l : list QueuedMessage) : NoDup (map q_ID l) -> NoDup (map q_ID (omap (settle os) l)).
Proof.
  assert (forall (l : list QueuedMessage) id, id ∈ map q_ID (omap (settle os) l) -> id ∈ map q_ID l) as Hsub.
  { clear l. intros l id. induction l as [|x l IH]; simpl; [done|]. unfold settle at 1.
    destruct (fate (q_ID x) os) as [[| |err]|]; simpl; rewrite ?elem_of_cons; naive_solver. }
  induction l as [|x l IH]; simpl; [done|]. intros [Hx Hl]%NoDup_cons. specialize (IH Hl). unfold settle at 1.
  destruct (fate (q_ID x) os) as [[| |err]|]; simpl; try done; apply NoDup_cons; split; auto.
Qed.

End Pass.

(** ** Attempts *)

(** What a pass asks of the engine: the messages one after the other, each
    sent once with the engine as the one before left it, except those that
    have failed too often; each outcome is what that call returned. *)
Inductive attempts {ES} (send : bytes -> bytes -> ES -> ES * option bytes) : list QueuedMessage -> list outcome -> ES -> ES -> Prop :=
| att_none es : attempts send [] [] es es
| att_gave_up m rest os es es' :
    maxQueueRetries <= q_Retries m -> attempts send rest os es es' -> attempts send (m :: rest) (GaveUp :: os) es es'
| att_sent m rest os es es1 es' :
    q_Retries m < maxQueueRetries -> send (q_Ciphertext m) (q_PeerKey m) es = (es1, None) ->
    attempts send rest os es1 es' -> attempts send (m :: rest) (Sent :: os) es es'
| att_failed m rest os err es es1 es' :
    q_Retries m < maxQueueRetries -> send (q_Ciphertext m) (q_PeerKey m) es = (es1, Some err) ->
    attempts send rest os es1 es' -> attempts send (m :: rest) (SendFailed err :: os) es es'.

Lemma process_list_attempts {ES} (send : bytes -> bytes -> ES -> ES * option bytes) db_ok pending q es q' es' os :
  process_list send db_ok pending q es = (q', es', os) ->
  map fst os = map q_ID pending /\ attempts send pending (map snd os) es es'.
Proof.
  revert q es q' es' os. induction pending as [|m rest IH]; intros q es q' es' os; simpl.
  { intros [= <- <- <-]. split; [done|constructor]. }
  destruct (process_one send db_ok m q es) as [[q1 es1] o] eqn:H1.
  destruct (process_list send db_ok rest q1 es1) as [[q2 es2] os2] eqn:H2. intros [= <- <- <-].
  destruct (IH _ _ _ _ _ H2) as [Hf Ha]. simpl. split; [by f_equal|]. unfold process_one in H1.
  destruct (maxQueueRetries <=? q_Retries m) eqn:Hr; [apply Z.leb_le in Hr; injection H1 as <- <- <-; by constructor|].
  apply Z.leb_gt in Hr. destruct (send (q_Ciphertext m) (q_PeerKey m) es) as [es0 [err|]] eqn:Hs; injection H1 as <- <- <-;
    by econstructor.
Qed.

(** ** Giving up *)
Section Failing.
Context {O : SqlOrder} (err : bytes).

(** An engine that never gets through and notes what it was given. *)
Abbreviation log := (list (bytes * bytes)).
Definition failing (payload peer : bytes) (l : log) : log * option bytes := (l ++ [(payload, peer)], Some err).
Definition parcel (m : QueuedMessage) : bytes * bytes := (q_Ciphertext m, q_PeerKey m).

Lemma process_list_failing pending q l :
  Forall (fun m => q_Retries m < maxQueueRetries) pending ->
  exists q' os, process_list failing (fun _ => true) pending q l = (q', l ++ map parcel pending, os) /\
    Forall (fun x => x.2 = SendFailed err) os.
Proof.
  intros Hall. revert q l. induction Hall as [|m rest Hm Hall IH]; intros q l; simpl.
  - exists q, []. by rewrite app_nil_r.
  - unfold process_one. replace (maxQueueRetries <=? q_Retries m) with false by (symmetry; apply Z.leb_gt; lia). simpl.
    edestruct (IH (MarkFailed true (q_ID m) err q) (l ++ [parcel m])) as (q' & os & Hp & Hos).
    cbn [MarkFailed] in Hp. unfold parcel at 1 in Hp. rewrite Hp.
    exists q', ((q_ID m, SendFailed err) :: os). split; [by rewrite <- app_assoc|by constructor].
Qed.

Lemma fate_all os o id : Forall (fun x => x.2 = o) os -> id ∈ map fst os -> fate id os = Some o.
Proof.
  induction 1 as [|[i o'] os Ho Hall IH]; simpl; [by intros H%not_elem_of_nil|]. simpl in Ho. subst.
  rewrite elem_of_cons. case_decide; [done|]. intros [He|Hin]; [congruence|auto].
Qed.

Lemma process_list_exhausted pending q l q' l' os :
  Forall (fun m => maxQueueRetries <= q_Retries m) pending ->
  process_list failing (fun _ => true) pending q l = (q', l', os) -> l' = l.
Proof.
  intros Hall. revert q l q' l' os. induction Hall as [|m rest Hm Hall IH]; intros q l q' l' os; simpl.
  - by intros [= _ <- _].
  - unfold process_one. apply Z.leb_le in Hm. rewrite Hm.
    destruct (process_list failing _ rest _ l) as [[q2 l2] os2] eqn:Hp. intros [= _ <- _]. by eapply IH.
Qed.

(** A pass in which every message still has attempts left. *)
Lemma failing_pass q l :
  NoDup (map q_ID (rows q)) -> Forall (fun m => q_Retries m < maxQueueRetries) (rows q) ->
  exists q' os, process_pass failing (fun _ => true) true q l = (q', l ++ map parcel (Pending q), os) /\
    rows q' = map (fail_row err) (rows q).
Proof.
  intros Hnd Hall. unfold process_pass.
  destruct (process_list_failing (Pending q) q l) as (q' & os & Hp & Hos); [unfold Pending; by rewrite order_by_perm|].
  pose proof (process_list_rows failing _ _ _ _ _ _ (Pending_ids q Hnd) Hp) as (Hids & Hr & _).
  exists q', os. split; [exact Hp|].
  rewrite Hr. assert (forall m, m ∈ rows q -> settle os m = Some (fail_row err m)) as Hs.
  { intros m Hm. unfold settle. rewrite (fate_all os (SendFailed err)); [done|done|]. rewrite Hids.
    apply (list_elem_of_fmap_2 q_ID). unfold Pending. by rewrite order_by_perm. }
  clear -Hs. induction (rows q) as [|x r IH]; simpl; [done|].
  rewrite Hs by apply list_elem_of_here. simpl. f_equal. apply IH. intros m Hm. apply Hs. by apply list_elem_of_further.
Qed.

Definition passes (k : nat) (q : OfflineQueue) : OfflineQueue * log :=
  Nat.iter k (fun '(q, l) => let '(q', l', _) := process_pass failing (fun _ => true) true q l in (q', l')) (q, []).

(** A message after [k] failed attempts. *)
Definition tried (k : nat) (m : QueuedMessage) : QueuedMessage :=
  mkQueued (q_ID m) (q_PeerKey m) (q_Ciphertext m) (q_CreatedAt m) (Z.of_nat k) (if (k =? 0)%nat then q_LastError m else err).

Lemma failing_passes k q :
  NoDup (map q_ID (rows q)) -> Forall (fun m => q_Retries m = 0) (rows q) -> (k <= 20)%nat ->
  let '(q', l') := passes k q in
  rows q' = map (tried k) (rows q) /\ l' ≡ₚ concat (replicate k (map parcel (rows q))).
Proof.
  intros Hnd Hall Hk. induction k as [|k IH].
  - simpl. split; [|done]. rewrite <- (map_id (rows q)) at 1. apply map_ext_in. intros m Hm%list_elem_of_In.
    rewrite Forall_forall in Hall. specialize (Hall m Hm). destruct m. simpl in Hall. by subst.
  - unfold passes in *. rewrite Nat.iter_succ. destruct (Nat.iter k _ (q, [])) as [q1 l1]. destruct IH as (Hr1 & Hl1); [lia|].
    destruct (failing_pass q1 l1) as (q' & os & -> & Hrows).
    { by rewrite Hr1, map_map. }
    { rewrite Hr1. apply Forall_map, Forall_forall. intros m _. cbn [q_Retries tried]. unfold maxQueueRetries. lia. }
    split.
    + rewrite Hrows, Hr1, map_map. apply map_ext. intros m. unfold fail_row, tried. cbn [q_ID q_PeerKey q_Ciphertext q_CreatedAt q_Retries].
      f_equal. lia.
    + rewrite Hl1. rewrite Permutation_app_comm. cbn [replicate concat]. apply Permutation_app_tail.
      unfold Pending. rewrite (order_by_perm q_CreatedAt (rows q1)), Hr1, map_map. done.
Qed.

End Failing.

(** ** Properties *)

(** C17: no message is lost silently.  With the database working, a pass
    makes one call of the engine for each waiting message, oldest first, except
    for those that had already failed [maxQueueRetries] times, and each
    outcome is what that call returned; it keeps exactly the messages whose
    call failed, with one more retry and the error, and removes the others:
    those the engine accepted and those it gave up on. *)
Theorem queue_no_silent_loss {O : SqlOrder} {ES} (send : bytes -> bytes -> ES -> ES * option bytes) q es q' es' os :
  NoDup (map q_ID (rows q)) -> process_pass send (fun _ => true) true q es = (q', es', os) ->
  map fst os = map q_ID (Pending q) /\ attempts send (Pending q) (map snd os) es es' /\
  (forall m, m ∈ rows q -> exists o, fate (q_ID m) os = Some o /\
     (o = GaveUp <-> maxQueueRetries <= q_Retries m) /\
     match o with
     | SendFailed err => mkQueued (q_ID m) (q_PeerKey m) (q_Ciphertext m) (q_CreatedAt m) (q_Retries m + 1) err ∈ rows q'
     | _ => q_ID m ∉ map q_ID (rows q')
     end) /\
  (forall m', m' ∈ rows q' -> exists m err, m ∈ rows q /\ fate (q_ID m) os = Some (SendFailed err) /\ m' = fail_row err m).
Proof.
  intros Hnd H. destruct (process_list_attempts send _ _ _ _ _ _ _ H) as [Hids Hatt]. split; [done|]. split; [done|].
  destruct (process_pass_rows send _ _ _ _ _ Hnd H) as [Hr Hall].
  assert (forall m', m' ∈ rows q' -> exists m err, m ∈ rows q /\ fate (q_ID m) os = Some (SendFailed err) /\ m' = fail_row err m)
    as Hback.
  { intros m'. rewrite Hr. intros (m & Hm & Hs)%list_elem_of_omap. destruct (Hall m Hm) as (o & Ho & _).
    unfold settle in Hs. rewrite Ho in Hs. destruct o as [| |err]; [discriminate|discriminate|].
    injection Hs as <-. eauto. }
  split; [|exact Hback]. intros m Hm. destruct (Hall m Hm) as (o & Ho & Hg). exists o. split; [done|]. split; [done|].
  assert (match o with SendFailed _ => True | _ => q_ID m ∉ map q_ID (rows q') end) as Hgone.
  { destruct o; [..|done]; intros (m' & He & (m0 & err & Hm0 & Hf & ->)%Hback)%list_elem_of_fmap_1;
      simpl in He; congruence. }
  destruct o as [| |err]; [exact Hgone|exact Hgone|]. rewrite Hr. apply list_elem_of_omap. exists m. split; [done|].
  unfold settle. by rewrite Ho.
Qed.

(** C33: an unreachable network does not keep messages forever.  From a queue
    of messages not tried yet, k failing passes, up to twenty, leave every
    message with k retries and the error, and nothing else changed, and have
    given the engine each message, with its recipient, once per pass; the
    pass after the twentieth empties the queue without trying again. *)
Theorem queue_gives_up {O : SqlOrder} err q :
  NoDup (map q_ID (rows q)) -> Forall (fun m => q_Retries m = 0) (rows q) ->
  (forall k, (1 <= k <= 20)%nat ->
     let '(qk, lk) := passes err k q in
     rows qk = map (fun m => mkQueued (q_ID m) (q_PeerKey m) (q_Ciphertext m) (q_CreatedAt m) (Z.of_nat k) err) (rows q) /\
     lk ≡ₚ concat (replicate k (map (fun m => (q_Ciphertext m, q_PeerKey m)) (rows q)))) /\
  rows (passes err 21 q).1 = [] /\ (passes err 21 q).2 = (passes err 20 q).2.
Proof.
  intros Hnd Hall. split.
  { intros k [Hk Hk']. pose proof (failing_passes err k q Hnd Hall Hk') as H. destruct (passes err k q) as [qk lk].
    destruct H as [-> Hl]. split; [|exact Hl]. apply map_ext. intros m. unfold tried. by destruct k; [lia|]. }
  pose proof (failing_passes err 20 q Hnd Hall (le_n _)) as H.
  change (passes err 21 q) with
    ((fun '(q, l) => let '(q', l', _) := process_pass (failing err) (fun _ => true) true q l in (q', l')) (passes err 20 q)).
  destruct (passes err 20 q) as [q20 l20]. destruct H as [Hr20 _].
  destruct (process_pass (failing err) (fun _ => true) true q20 _) as [[q21 l21] os] eqn:Hp.
  assert (Forall (fun m => maxQueueRetries <= q_Retries m) (rows q20)) as Hold
    by (rewrite Hr20; apply Forall_map, Forall_forall; intros m _; cbn [q_Retries tried]; unfold maxQueueRetries; lia).
  destruct (process_pass_rows (failing err) q20 _ _ _ _ ltac:(by rewrite Hr20, map_map) Hp) as [Hrows Hfate]. cbn [fst snd]. split.
  - rewrite Hrows. assert (forall m, m ∈ rows q20 -> settle os m = None) as Hs.
    { intros m Hm. destruct (Hfate m Hm) as (o & Ho & Hg). unfold settle. rewrite Ho.
      rewrite Forall_forall in Hold. by rewrite (proj2 Hg) by (by apply Hold). }
    clear -Hs. induction (rows q20) as [|x r IH]; simpl; [done|]. rewrite Hs by apply list_elem_of_here. apply IH.
    intros m Hm. apply Hs. by apply list_elem_of_further.
  - apply process_list_exhausted in Hp; [done|]. unfold Pending. by rewrite order_by_perm.
Qed.

(** ** Closed instances *)
Definition demo_queue : OfflineQueue :=
  (Enqueue true $"bob" $"second" 9 (Enqueue true $"bob" $"first" 4 NewOfflineQueue).1).1.

Lemma demo_queue_ids : NoDup (map q_ID (rows demo_queue)).
Proof. apply NoDup_ListNoDup. vm_compute. repeat constructor; simpl; intuition discriminate. Qed.

Lemma queue_no_silent_loss_witness :
  let send (ct pk : bytes) (es : nat) := (S es, if decide (ct = $"first") then Some $"timeout" else None) in
  let '(q', es', os) := process_pass (O := insertion_order) send (fun _ => true) true demo_queue 0%nat in
  map snd os = [SendFailed $"timeout"; Sent] /\
  attempts send (Pending (O := insertion_order) demo_queue) (map snd os) 0%nat es'.
Proof.
  intros send. destruct (process_pass (O := insertion_order) send (fun _ => true) true demo_queue 0%nat)
    as [[q' es'] os] eqn:Hp.
  split; [|exact (proj1 (proj2 (queue_no_silent_loss (O := insertion_order) send demo_queue 0%nat q' es' os demo_queue_ids Hp)))].
  assert (map snd (process_pass (O := insertion_order) send (fun _ => true) true demo_queue 0%nat).2 = [SendFailed $"timeout"; Sent])
    as H by (vm_compute; reflexivity).
  by rewrite Hp in H.
Defined.

Lemma queue_gives_up_witness :
  let '(q2, l2) := passes (O := insertion_order) $"timeout" 2 demo_queue in
  map q_Retries (rows q2) = [2; 2] /\
  l2 ≡ₚ concat (replicate 2 (map (fun m => (q_Ciphertext m, q_PeerKey m)) (rows demo_queue))).
Proof.
  pose proof (proj1 (queue_gives_up (O := insertion_order) $"timeout" demo_queue demo_queue_ids
    ltac:(repeat constructor)) 2%nat ltac:(lia)) as H.
  destruct (passes (O := insertion_order) $"timeout" 2 demo_queue) as [q2 l2].
  destruct H as [H1 H2]. split; [by rewrite H1|exact H2].
Defined.
