(* ===== verification/Daemon.v ===== *)
(** * The client daemon: state, start-up and administrative calls
    (src/go/internal/client/daemon.go, daemon_state.go, daemon_groups.go)

    The daemon is a record of its maps, its queue, its engine and the files
    of its data directory; every gRPC handler is a function on it.  What the
    daemon needs of the engine and of HTTP is the interface [Transport]; JSON
    and the file system are parameters.  [Messages] models sending and
    polling, [Transfers] the media calls. *)

From S2P Require Import Prelude GoStrings Codec Sha256 Crypto Dns Engine Queue MediaClient.

(** ** Interfaces *)

(** The engine and the HTTP transport as the daemon uses them: sending
    returns the message id and the chunk count, or an error. *)
Class Transport (T : Type) := {
  eng_conf : T -> DNSClientEngine;
  eng_set_conf : DNSClientEngine -> T -> T;
  eng_send : bytes -> bytes -> T -> T * (bytes * result bytes Z);   (* payload, recipient *)
  eng_poll : bytes -> T -> T * result engine_error (list PolledMessage);
  tcp_upload : bytes -> bytes -> bytes -> bytes -> bytes -> Z -> T -> T * result media_error MediaMessage;
                                       (* relay, token, data, file name, MIME type, media type *)
  tcp_download : bytes -> bytes -> bytes -> T -> T * result media_error bytes   (* relay, token, file id *)
}.

Class TransportLaws {T} (TR : Transport T) := {
  conf_set_conf : forall e t, eng_conf (eng_set_conf e t) = e
}.

Record PeerInfoEntry := mkPeer { Nickname : bytes; Pubkey : bytes }.
#[export] Instance PeerInfoEntry_eq_dec : EqDecision PeerInfoEntry.
Proof. solve_decision. Defined.
Record GroupMember := mkMember { gm_Pubkey : bytes; gm_Nickname : bytes; gm_Role : bytes }.
Record Group := mkGroup {
  GroupID : bytes;
  GroupName : bytes;
  AdminPubkey : bytes;
  Members : gmap bytes GroupMember;
  GroupKey : bytes;
  KeyEpoch : Z
}.
Record Profile := mkProfile { p_Nickname : bytes; p_Bio : bytes }.
Record helloEntry := mkHello { h_nonce : bytes; h_pubkey : bytes; h_nickname : bytes; h_createdAt : Z }.

(** The states of a transfer in the daemon's own map. *)
Inductive TransferStatus := Queued | Sending | Complete | Failed | Cancelled.
#[export] Instance TransferStatus_eq_dec : EqDecision TransferStatus.
Proof. solve_decision. Defined.

Record MediaTransfer := mkTransfer {
  t_Status : TransferStatus;
  t_Progress : Z;
  t_ChunksSent : Z;
  t_TotalChunks : Z;
  t_Error : bytes;
  t_Created : Z
}.

(** [encoding/json] on the types the daemon reads and writes; [None] is an
    error. *)
Class Json := {
  json_relays : bytes -> option (list bytes);
  marshal_peers : gmap bytes PeerInfoEntry -> option bytes;
  json_peers : bytes -> option (gmap bytes PeerInfoEntry);
  marshal_groups : gmap bytes Group -> option bytes;
  json_groups : bytes -> option (gmap bytes Group);
  marshal_profile : option Profile -> option bytes;
  json_profile_file : bytes -> option Profile;
  json_hello : bytes -> option (bytes * bytes * bytes);                      (* type, pubkey, nickname *)
  json_group_key : bytes -> option (bytes * bytes * bytes * Z * bytes);      (* type, id, key, epoch, name *)
  json_group_msg : bytes -> option (bytes * Z * bytes);                      (* g, e, m *)
  json_profile_msg : bytes -> option (bytes * bytes * bytes * bytes * bytes); (* type, nickname, bio, file id, key *)
  json_media_meta : bytes -> option (bytes * bytes * bytes * bytes);         (* key, MIME type, name, file id *)
  marshal_bio : bytes -> bytes;
  marshal_sidecar : bytes -> bytes -> bytes -> bytes -> bytes -> bytes;      (* mime, name, sender, stamp, status *)
  marshal_meta : MediaMessage -> option bytes;
  json_stream_header : bytes -> option (bytes * bytes * bytes)               (* peer, file name, MIME type *)
}.

(** gRPC status codes, an error passed through, or a Go panic. *)
Inductive grpc_error :=
| InvalidArgument | NotFound | PermissionDenied | FailedPrecondition | Internal | Unauthenticated
| Other | Panic.
#[export] Instance grpc_error_eq_dec : EqDecision grpc_error.
Proof. solve_decision. Defined.

(** ** State *)

Record Daemon (T : Type) := mkDaemon {
  engine : T;
  detector : Detector;
  queue : OfflineQueue;
  identity : KeyPair;
  peers : gmap bytes PeerInfoEntry;
  groups : gmap bytes Group;
  pendingHellos : gmap bytes helloEntry;
  transfers : gmap bytes MediaTransfer;
  transferStore : option transfers_table;
  d_authToken : bytes;
  profile : option Profile;
  files : gmap bytes bytes           (* the data directory *)
}.
Arguments mkDaemon {T}.
Arguments engine {T} _.
Arguments detector {T} _.
Arguments queue {T} _.
Arguments identity {T} _.
Arguments peers {T} _.
Arguments groups {T} _.
Arguments pendingHellos {T} _.
Arguments transfers {T} _.
Arguments transferStore {T} _.
Arguments d_authToken {T} _.
Arguments profile {T} _.
Arguments files {T} _.

Section Setters.
Context {T : Type}.
Implicit Types d : Daemon T.
Definition set_engine x d : Daemon T := mkDaemon x (detector d) (queue d) (identity d) (peers d) (groups d)
  (pendingHellos d) (transfers d) (transferStore d) (d_authToken d) (profile d) (files d).
Definition set_detector x d : Daemon T := mkDaemon (engine d) x (queue d) (identity d) (peers d) (groups d)
  (pendingHellos d) (transfers d) (transferStore d) (d_authToken d) (profile d) (files d).
Definition set_queue x d : Daemon T := mkDaemon (engine d) (detector d) x (identity d) (peers d) (groups d)
  (pendingHellos d) (transfers d) (transferStore d) (d_authToken d) (profile d) (files d).
Definition set_peers x d : Daemon T := mkDaemon (engine d) (detector d) (queue d) (identity d) x (groups d)
  (pendingHellos d) (transfers d) (transferStore d) (d_authToken d) (profile d) (files d).
Definition set_groups x d : Daemon T := mkDaemon (engine d) (detector d) (queue d) (identity d) (peers d) x
  (pendingHellos d) (transfers d) (transferStore d) (d_authToken d) (profile d) (files d).
Definition set_hellos x d : Daemon T := mkDaemon (engine d) (detector d) (queue d) (identity d) (peers d) (groups d)
  x (transfers d) (transferStore d) (d_authToken d) (profile d) (files d).
Definition set_transfers x d : Daemon T := mkDaemon (engine d) (detector d) (queue d) (identity d) (peers d) (groups d)
  (pendingHellos d) x (transferStore d) (d_authToken d) (profile d) (files d).
Definition set_store x d : Daemon T := mkDaemon (engine d) (detector d) (queue d) (identity d) (peers d) (groups d)
  (pendingHellos d) (transfers d) x (d_authToken d) (profile d) (files d).
Definition set_profile x d : Daemon T := mkDaemon (engine d) (detector d) (queue d) (identity d) (peers d) (groups d)
  (pendingHellos d) (transfers d) (transferStore d) (d_authToken d) x (files d).
Definition set_files x d : Daemon T := mkDaemon (engine d) (detector d) (queue d) (identity d) (peers d) (groups d)
  (pendingHellos d) (transfers d) (transferStore d) (d_authToken d) (profile d) x.
End Setters.

(** ** Authentication *)

Definition authTokenLen : Z := 32.

(** The token and the file afterwards; [write_ok] is whether it can be
    written. *)
Definition loadOrGenerateAuthToken (file : option bytes) (rand : option bytes) (write_ok : bool)
    : result grpc_error (bytes * option bytes) :=
  match file with
  | Some data =>
      if len data =? authTokenLen * 2 then Ok (data, file)
      else
        token ← or_err Other rand;
        _ ← check write_ok Other;
        Ok (Hex.EncodeToString token, Some (Hex.EncodeToString token))
  | None =>
      token ← or_err Other rand;
      _ ← check write_ok Other;
      Ok (Hex.EncodeToString token, Some (Hex.EncodeToString token))
  end.

(** [authInterceptor] before it calls the handler: [md] is the incoming
    metadata's list for the key x-auth-token, [None] without metadata. *)
Definition authInterceptor (authToken : option bytes) (FullMethod : bytes) (md : option (list bytes))
    : result grpc_error unit :=
  match authToken with
  | None => Ok tt
  | Some token =>
      if Contains FullMethod $"GetIdentity" then Ok tt
      else match md with
           | None => Err Unauthenticated
           | Some [] => Err Unauthenticated
           | Some (t :: _) =>
               if negb (len t =? authTokenLen * 2) then Err Unauthenticated
               else if negb (bool_decide (token = t)) then Err Unauthenticated
               else Ok tt
           end
  end.

(** ** Relays at start-up *)

Fixpoint add_new (rs : list bytes) (seen : gset bytes) : list bytes * gset bytes :=
  match rs with
  | [] => ([], seen)
  | r :: rest =>
      if decide (r ∈ seen) then add_new rest seen
      else let '(out, seen) := add_new rest ({[r]} ∪ seen) in (r :: out, seen)
  end.

Definition merge_relays (fileRelays argRelays : list bytes) : list bytes :=
  let '(a, seen) := add_new fileRelays ∅ in a ++ (add_new argRelays seen).1.

(** [strings.Split(list, ",")] with blanks dropped (mobile/bridge.go) and as
    it is (cmd/gomobile/bridge.go). *)
Definition parse_relay_list (relayList : bytes) : list bytes :=
  if decide (relayList = []) then []
  else filter (fun r => r <> []) (map TrimSpace (Split comma relayList)).
Definition split_relay_list (relays : bytes) : list bytes :=
  if decide (relays = []) then [] else Split comma relays.

Section Handlers.
Context {T : Type} {TR : Transport T} {C : CryptoLib} {J : Json} {IO : IterOrder}.
(** What writing a file does ([os.WriteFile] truncates before it writes). *)
Context (write_ok : bytes -> write_result).
Implicit Types d : Daemon T.

Definition WriteFile (path data : bytes) d : Daemon T :=
  match write_ok path with
  | Written => set_files (<[path := data]> (files d)) d
  | NotOpened => d
  | Partial n => set_files (<[path := take n data]> (files d)) d
  end.

Definition myPubkey d : bytes := Base64.EncodeToString (PublicKey (identity d)).

(** ** Persistence (daemon_state.go) *)

Definition peersPath : bytes := $"daemon_peers.json".
Definition groupsPath : bytes := $"daemon_groups.json".
Definition profilePath : bytes := $"profile.json".

Definition loadPeers d : Daemon T :=
  match files d !! peersPath ≫= json_peers with
  | Some loaded => set_peers (loaded ∪ peers d) d
  | None => d
  end.
Definition savePeers d : Daemon T :=
  match marshal_peers (peers d) with Some data => WriteFile peersPath data d | None => d end.
Definition saveGroups d : Daemon T :=
  match marshal_groups (groups d) with Some data => WriteFile groupsPath data d | None => d end.
Definition loadGroups d : Daemon T :=
  match files d !! groupsPath ≫= json_groups with
  | Some loaded => set_groups (loaded ∪ groups d) d
  | None => d
  end.
Definition loadProfile d : Daemon T :=
  match files d !! profilePath ≫= json_profile_file with Some p => set_profile (Some p) d | None => d end.
Definition saveProfile d : Daemon T :=
  match marshal_profile (profile d) with Some data => WriteFile profilePath data d | None => d end.

Definition getMyNickname d : bytes :=
  match profile d with
  | Some p => if decide (p_Nickname p = []) then $"Me" else p_Nickname p
  | None => $"Me"
  end.

(** ** Sending to peers *)

Definition send_to (payload peer : bytes) d : Daemon T := set_engine (eng_send payload peer (engine d)).1 d.

(** [sendProfileToPeer]; [rand] is the nonce. *)
Definition sendProfileToPeer (peerPubkeyB64 payload : bytes) (rand : option bytes) d : Daemon T :=
  match Base64.DecodeString peerPubkeyB64 with
  | None => d
  | Some pubkey =>
      match SharedSecret (PrivateKey (identity d)) pubkey with
      | Err _ => d
      | Ok ss =>
          match EncryptMessage ss payload rand with
          | Err _ => d
          | Ok (ciphertext, nonce) => send_to (nonce ++ ciphertext) peerPubkeyB64 d
          end
      end
  end.

(** The random bytes of each peer come from [rand]. *)
Definition broadcast (payload : bytes) (rand : bytes -> option bytes) d : Daemon T :=
  fold_left (fun d peer => sendProfileToPeer peer payload (rand peer) d)
    (map fst (iter_order (map_to_list (peers d)))) d.

Definition quote (s : bytes) : bytes := dquote :: s ++ [dquote].
Definition escape_quotes (s : bytes) : bytes := ReplaceAll dquote [backslash; dquote] s.

Definition lbrace : byte := Ascii.ascii_of_nat 123.
Definition rbrace : byte := Ascii.ascii_of_nat 125.

(** A JSON object printed from a template: keys and already printed values. *)
Definition template (fields : list (bytes * bytes)) : bytes :=
  [lbrace] ++ Join comma (map (fun '(k, v) => quote k ++ [colon] ++ v) fields) ++ [rbrace].

Definition broadcastProfileUpdate (nickname bio : bytes) (rand : bytes -> option bytes) d : Daemon T :=
  broadcast (template [($"type", quote $"profile_update"); ($"nickname", quote (escape_quotes nickname));
                       ($"bio", quote (escape_quotes bio))]) rand d.

Definition broadcastProfilePic (imageData mimeType : bytes) (rand : bytes -> option bytes) d : Daemon T :=
  match GetRelays (eng_conf (engine d)) with
  | [] => d
  | relay :: _ =>
      match tcp_upload relay (d_authToken d) imageData $"profile_pic.jpg" mimeType MediaTypeImage (engine d) with
      | (t, Err _) => set_engine t d
      | (t, Ok meta) =>
          broadcast (template [($"type", quote $"profile_pic"); ($"file_id", quote (FileID meta));
                               ($"file_key_b64", quote (FileKeyB64 meta)); ($"mime", quote mimeType);
                               ($"transport", quote $"tcp")]) rand (set_engine t d)
      end
  end.

(** ** Identity, peers and profile *)

Definition GetIdentity d : bytes * bytes * bytes :=
  match profile d with
  | Some p => (myPubkey d, p_Nickname p, p_Bio p)
  | None => (myPubkey d, [], [])
  end.

Definition AddPeer (nickname pubkey : bytes) d : Daemon T * result grpc_error unit :=
  match Base64.DecodeString pubkey with
  | None => (d, Err InvalidArgument)
  | Some b =>
      if negb (len b =? KeyLength) then (d, Err InvalidArgument)
      else (savePeers (set_peers (<[pubkey := mkPeer nickname pubkey]> (peers d)) d), Ok tt)
  end.

Definition RemovePeer (pubkey : bytes) d : Daemon T * result grpc_error unit :=
  (savePeers (set_peers (delete pubkey (peers d)) d), Ok tt).

Definition ListPeers d : list (bytes * bytes) :=
  map (fun x => (Nickname x.2, Pubkey x.2)) (iter_order (map_to_list (peers d))).

(** The handler and the goroutine it starts, which broadcasts. *)
Definition UpdateProfile (nickname bio : bytes) (rand : bytes -> option bytes) d : Daemon T * result grpc_error unit :=
  let d := saveProfile (set_profile (Some (mkProfile nickname bio)) d) in
  (broadcastProfileUpdate nickname bio rand d, Ok tt).

Definition picPath : bytes := $"profile_pic.jpg".
Definition GetProfilePic d : bytes * bytes :=
  match files d !! picPath with Some data => (data, $"image/jpeg") | None => ([], []) end.

Definition SetProfilePic (imageData mimeType : bytes) (rand : bytes -> option bytes) d : Daemon T * result grpc_error unit :=
  if 5 * 1024 * 1024 <? len imageData then (d, Err InvalidArgument)
  else
    let d := WriteFile picPath imageData d in
    if negb (wrote (write_ok picPath)) then (d, Err Internal)
    else (broadcastProfilePic imageData mimeType rand d, Ok tt).

(** ** Invitations *)

Definition GenerateInvite (nickname : bytes) (rand : option bytes) (now : Z) d : Daemon T * result grpc_error bytes :=
  let nick := if decide (nickname = []) then
                let n := getMyNickname d in if decide (n = []) then $"Me" else n
              else nickname in
  match GenerateInviteCode (PublicKey (identity d)) nick rand with
  | Err _ => (d, Err Internal)
  | Ok (code, nonce) =>
      (set_hellos (<[Hex.EncodeToString nonce := mkHello nonce (myPubkey d) nick now]> (pendingHellos d)) d, Ok code)
  end.

Definition hello_payload (pubkeyB64 nickname : bytes) : bytes :=
  template [($"type", quote $"hello"); ($"pubkey", quote pubkeyB64); ($"nickname", quote nickname)].

Definition JoinViaCode (code : bytes) (rand : option bytes) (db_ok : bool) (now : Z) d
    : Daemon T * result grpc_error (bytes * bytes) :=
  match ParseInviteCode code with
  | Err _ => (d, Err InvalidArgument)
  | Ok (remote, nonce, nickname) =>
      let remoteB64 := Base64.EncodeToString remote in
      let d := savePeers (set_peers (<[remoteB64 := mkPeer nickname remoteB64]> (peers d)) d) in
      match EncryptHello (DeriveHelloKey nonce) (hello_payload (myPubkey d) (getMyNickname d)) rand with
      | Err _ => (d, Err Internal)
      | Ok encrypted =>
          let '(t, (_, r)) := eng_send encrypted remoteB64 (engine d) in
          let d := set_engine t d in
          let d := match r with
                   | Err _ => set_queue (Enqueue db_ok remoteB64 encrypted now (queue d)).1 d
                   | Ok _ => d
                   end in
          (d, Ok (nickname, remoteB64))
      end
  end.

(** ** Relays and modes *)

Definition conf d : DNSClientEngine := eng_conf (engine d).
Definition set_conf (e : DNSClientEngine) d : Daemon T := set_engine (eng_set_conf e (engine d)) d.

Definition GetRelayStatus d : list (bytes * bool * bool) :=
  let m := CurrentMode (detector d) in
  map (fun r => (r, bool_decide (m = ModeNormal), bool_decide (m = ModeBlackout))) (GetRelays (conf d)).
Definition AddRelay (addr : bytes) d : Daemon T := set_conf (SetRelays (GetRelays (conf d) ++ [addr]) (conf d)) d.
Definition RemoveRelay (addr : bytes) d : Daemon T :=
  set_conf (SetRelays (filter (fun r => r <> addr) (GetRelays (conf d))) (conf d)) d.
Definition GetTransportStatus d : bytes :=
  if decide (CurrentMode (detector d) = ModeBlackout) then $"blackout" else $"normal".

Inductive pb_mode := PB_AUTO | PB_TCP | PB_UDP.
Definition SetMode (m : pb_mode) d : Daemon T :=
  set_conf (SetTransportMode match m with PB_TCP => TransportTCP | PB_UDP => TransportUDP | PB_AUTO => TransportAuto end
    (conf d)) d.
Definition SetSize (size : Z) d : Daemon T := set_conf (SetChunkSize size (conf d)) d.

(** One tick of the file watchers, with the last value they applied. *)
Definition watchTransportMode (last : bytes) d : bytes * Daemon T :=
  match files d !! $"transport_mode" with
  | None => (last, d)
  | Some data =>
      let m := TrimSpace data in
      if decide (m = last) then (last, d)
      else (m, set_conf (SetTransportMode (TransportModeFromString m) (conf d)) d)
  end.
Definition watchChunkSize (last : Z) d : Z * Daemon T :=
  match files d !! $"chunk_size" ≫= (fun data => Atoi (TrimSpace data)) with
  | None => (last, d)
  | Some size =>
      if (size <? 32) || (200 <? size) then (last, d)
      else if size =? last then (last, d)
      else (size, set_conf (SetChunkSize size (conf d)) d)
  end.

(** ** Groups (daemon_groups.go) *)

(** The loop both distributions run: [payload] is encrypted for each member
    but oneself, and what is sent is the ciphertext alone. *)
Definition distribute (members : list bytes) (payload : bytes) (rand : bytes -> option bytes) d : Daemon T :=
  fold_left (fun d pubkeyB64 =>
    if decide (pubkeyB64 = myPubkey d) then d
    else match Base64.DecodeString pubkeyB64 with
         | None => d
         | Some pubkey =>
             match SharedSecret (PrivateKey (identity d)) pubkey with
             | Err _ => d
             | Ok ss =>
                 let ciphertext := match EncryptMessage ss payload (rand pubkeyB64) with Ok (c, _) => c | Err _ => [] end in
                 send_to ciphertext pubkeyB64 d
             end
         end) members d.

Definition CreateGroup (name : bytes) (memberPubkeys : list bytes) (rkey : option bytes) (rand : bytes -> option bytes)
    (nanos : Z) d : Daemon T * result grpc_error bytes :=
  match GenerateGroupKey rkey with
  | Err _ => (d, Err Internal)
  | Ok groupKey =>
      let groupID := $"g" ++ Itoa nanos in
      let me := myPubkey d in
      let members := fold_left (fun ms mpk => <[mpk := mkMember mpk [] $"member"]> ms) memberPubkeys
                       {[me := mkMember me (name ++ $"_admin") $"admin"]} in
      let d := saveGroups (set_groups (<[groupID := mkGroup groupID name me members groupKey 1]> (groups d)) d) in
      let payload := template [($"type", quote $"group_key"); ($"group_id", quote groupID);
        ($"group_key_b64", quote (Base64.EncodeToString groupKey)); ($"key_epoch", Itoa 1); ($"name", quote name)] in
      (distribute (map fst (iter_order (map_to_list members))) payload rand d, Ok groupID)
  end.

Definition ListGroups d : list (bytes * bytes * bytes * list GroupMember * Z) :=
  map (fun g => (GroupID g, GroupName g, AdminPubkey g, map snd (iter_order (map_to_list (Members g))), KeyEpoch g))
    (map snd (iter_order (map_to_list (groups d)))).

Definition leave_members (me : bytes) (g : Group) : Group :=
  let ms := delete me (Members g) in
  if decide (AdminPubkey g = me) then
    match iter_order (map_to_list ms) with
    | [] => mkGroup (GroupID g) (GroupName g) (AdminPubkey g) ms (GroupKey g) (KeyEpoch g)
    | (pk, m) :: _ =>
        mkGroup (GroupID g) (GroupName g) pk (<[pk := mkMember (gm_Pubkey m) (gm_Nickname m) $"admin"]> ms)
          (GroupKey g) (KeyEpoch g)
    end
  else mkGroup (GroupID g) (GroupName g) (AdminPubkey g) ms (GroupKey g) (KeyEpoch g).

Definition LeaveGroup (id : bytes) d : Daemon T * result grpc_error unit :=
  match groups d !! id with
  | None => (d, Err NotFound)
  | Some g =>
      let g' := leave_members (myPubkey d) g in
      let gs := if decide (Members g' = ∅) then delete id (groups d) else <[id := g']> (groups d) in
      (saveGroups (set_groups gs d), Ok tt)
  end.

Definition distributeGroupKey (id : bytes) (rand : bytes -> option bytes) d : Daemon T :=
  match groups d !! id with
  | None => d
  | Some g =>
      distribute (map fst (iter_order (map_to_list (Members g))))
        (template [($"type", quote $"group_key"); ($"group_id", quote id);
          ($"group_key_b64", quote (Base64.EncodeToString (GroupKey g))); ($"key_epoch", Itoa (KeyEpoch g))]) rand d
  end.

Definition rotate (member : bytes) (g : Group) : Group :=
  mkGroup (GroupID g) (GroupName g) (AdminPubkey g) (delete member (Members g)) (RotateGroupKey (GroupKey g))
    (u64 (KeyEpoch g + 1)).

Definition RemoveGroupMember (id member : bytes) (rand : bytes -> option bytes) d : Daemon T * result grpc_error unit :=
  match groups d !! id with
  | None => (d, Err NotFound)
  | Some g =>
      if negb (bool_decide (AdminPubkey g = myPubkey d)) then (d, Err PermissionDenied)
      else match Members g !! member with
           | None => (d, Err NotFound)
           | Some _ =>
               let g' := rotate member g in
               let d := saveGroups (set_groups (<[id := g']> (groups d)) d) in
               (distributeGroupKey (GroupID g') rand d, Ok tt)
           end
  end.

(** ** Start-up *)

(** The relays of the configuration file; none when it is missing or does
    not parse. *)
Definition loadRelaysFromConfig (fs : gmap bytes bytes) : list bytes := default [] (fs !! $"relays.json" ≫= json_relays).

(** [RunDaemon] up to serving: [fs] is the data directory, [qdb] and [tdb]
    are the two databases in it, [None] when one cannot be opened, and
    [make_engine] starts a transport with the configured engine. *)
Definition RunDaemon (argRelays : list bytes) (zone dnsResolver : bytes) (force : bool) (fs : gmap bytes bytes)
    (qdb : option OfflineQueue) (tdb : option transfers_table) (make_engine : DNSClientEngine -> T)
    (dir_ok : bool) (rid rtoken : option bytes)
    : result grpc_error (Daemon T) :=
  _ ← check dir_ok Other;
  '(kp, fs) ← match LoadIdentity (fs !! $"identity.key") with
              | Ok kp => Ok (kp, fs)
              | Err _ =>
                  match GenerateKeyPair rid with
                  | Err _ => Err Other
                  | Ok kp =>
                      data ← or_err Panic (SaveIdentity kp);
                      _ ← check (wrote (write_ok $"identity.key")) Other;
                      Ok (kp, <[$"identity.key" := data]> fs)
                  end
              end;
  '(token, file) ← loadOrGenerateAuthToken (fs !! $"auth_token") rtoken (wrote (write_ok $"auth_token"));
  let fs := match file with Some data => <[$"auth_token" := data]> fs | None => fs end in
  q ← or_err Other qdb;
  let fileRelays := loadRelaysFromConfig fs in
  let rs := merge_relays fileRelays argRelays in
  let eng := make_engine (SetDNSResolver dnsResolver (NewDNSClientEngine rs zone)) in
  let det := (Detector_Check (NewDetector force (len rs))).1 in
  let d := mkDaemon eng det q kp ∅ ∅ ∅ ∅ tdb token None fs in
  Ok (loadProfile (loadGroups (loadPeers d))).

End Handlers.

(** ** A transport that records what is sent, for statements about it *)
Record Outbox := mkOutbox { ob_conf : DNSClientEngine; outbox : list (bytes * bytes); inbox : list PolledMessage }.
#[export] Instance outbox_transport : Transport Outbox := {|
  eng_conf := ob_conf;
  eng_set_conf e t := mkOutbox e (outbox t) (inbox t);
  eng_send payload peer t := (mkOutbox (ob_conf t) (outbox t ++ [(payload, peer)]) (inbox t), ([], Ok 1));
  eng_poll _ t := (mkOutbox (ob_conf t) (outbox t) [], Ok (inbox t));
  tcp_upload _ _ data name mime mt t := (t, Err UploadFailed);
  tcp_download _ _ _ t := (t, Err DownloadFailed)
|}.
#[export] Instance outbox_laws : TransportLaws outbox_transport.
Proof. by split. Qed.

(** ** Lemmas *)

Lemma add_new_spec rs seen :
  let '(out, seen') := add_new rs seen in
  NoDup out /\ (forall r, r ∈ out <-> r ∈ rs /\ r ∉ seen) /\ (forall r, r ∈ seen' <-> r ∈ seen \/ r ∈ rs).
Proof.
  revert seen. induction rs as [|x rs IH]; intros seen; simpl.
  - split; [apply NoDup_nil_2|]. split; intros r; rewrite elem_of_nil; tauto.
  - case_decide as Hx.
    + specialize (IH seen). destruct (add_new rs seen) as [out seen']. destruct IH as (H1 & H2 & H3).
      split; [done|]. split; intros r; rewrite elem_of_cons; [rewrite H2|rewrite H3]; split; intros; try tauto; naive_solver.
    + specialize (IH ({[x]} ∪ seen)). destruct (add_new rs _) as [out seen']. destruct IH as (H1 & H2 & H3). simpl.
      split; [|split].
      * apply NoDup_cons. split; [|done]. rewrite H2. set_solver.
      * intros r. rewrite !elem_of_cons, H2. split; [naive_solver set_solver|].
        intros [[->|Hin] Hs]; [by left|]. destruct (decide (r = x)); [by left|right]. set_solver.
      * intros r. rewrite H3, elem_of_cons. set_solver.
Qed.

(** The merged list has no duplicates and holds both lists. *)
Lemma merge_relays_spec a b :
  NoDup (merge_relays a b) /\ forall r, r ∈ merge_relays a b <-> r ∈ a \/ r ∈ b.
Proof.
  unfold merge_relays. pose proof (add_new_spec a ∅) as Ha. destruct (add_new a ∅) as [out seen].
  pose proof (add_new_spec b seen) as Hb. destruct (add_new b seen) as [out2 seen2]. simpl.
  destruct Ha as (A1 & A2 & A3), Hb as (B1 & B2 & B3).
  assert (forall r, r ∈ out <-> r ∈ a) as Ho by (intros r; rewrite A2; set_solver).
  assert (forall r, r ∈ seen <-> r ∈ a) as Hs by (intros r; rewrite A3; set_solver).
  split.
  - apply NoDup_app. split; [done|]. split; [|done]. intros r Hr%Ho Hr2%B2. apply Hs in Hr. tauto.
  - intros r. rewrite elem_of_app, Ho, B2, Hs. destruct (decide (r ∈ a)); tauto.
Qed.

Section StateLemmas.
Context {T : Type} {TR : Transport T} {C : CryptoLib} {J : Json} {IO : IterOrder} (write_ok : bytes -> write_result).
Implicit Types d : Daemon T.

(** Saving touches only the files, and loading only what it loads. *)
Lemma WriteFile_frame p x d :
  let d' := WriteFile write_ok p x d in
  engine d' = engine d /\ queue d' = queue d /\ identity d' = identity d /\ peers d' = peers d /\ groups d' = groups d /\
  pendingHellos d' = pendingHellos d /\ transfers d' = transfers d /\ profile d' = profile d /\
  d_authToken d' = d_authToken d.
Proof. unfold WriteFile. by destruct (write_ok p). Qed.

Lemma savePeers_frame d :
  let d' := savePeers write_ok d in
  engine d' = engine d /\ queue d' = queue d /\ identity d' = identity d /\ peers d' = peers d /\ groups d' = groups d /\
  pendingHellos d' = pendingHellos d /\ transfers d' = transfers d /\ profile d' = profile d /\
  d_authToken d' = d_authToken d.
Proof. unfold savePeers. destruct (marshal_peers (peers d)); [apply WriteFile_frame|done]. Qed.

Lemma saveGroups_frame d :
  let d' := saveGroups write_ok d in
  engine d' = engine d /\ queue d' = queue d /\ identity d' = identity d /\ peers d' = peers d /\ groups d' = groups d /\
  pendingHellos d' = pendingHellos d /\ transfers d' = transfers d /\ profile d' = profile d /\
  d_authToken d' = d_authToken d.
Proof. unfold saveGroups. destruct (marshal_groups (groups d)); [apply WriteFile_frame|done]. Qed.

Lemma send_to_frame p q d :
  let d' := send_to p q d in identity d' = identity d /\ groups d' = groups d /\ peers d' = peers d.
Proof. done. Qed.

Lemma distribute_frame ms payload rand d :
  let d' := distribute ms payload rand d in identity d' = identity d /\ groups d' = groups d /\ peers d' = peers d.
Proof.
  unfold distribute. revert d. induction ms as [|m ms IH]; intros d; simpl; [done|].
  match goal with |- identity (fold_left _ _ ?d1) = _ /\ _ =>
    assert (identity d1 = identity d /\ groups d1 = groups d /\ peers d1 = peers d) as (H1 & H2 & H3)
      by (repeat case_match; done); destruct (IH d1) as (E1 & E2 & E3) end.
  by rewrite E1, E2, E3, H1, H2, H3.
Qed.

Lemma distributeGroupKey_frame id rand d :
  let d' := distributeGroupKey id rand d in identity d' = identity d /\ groups d' = groups d /\ peers d' = peers d.
Proof. unfold distributeGroupKey. destruct (groups d !! id); [apply distribute_frame|done]. Qed.

End StateLemmas.

(** ** Start-up lemmas *)
Section Startup.
Context {T : Type} {TR : Transport T} {C : CryptoLib} {L : CryptoLaws C} {J : Json} {IO : IterOrder}.
Implicit Types fs : gmap bytes bytes.

(** The two files start-up may create. *)
Definition same_data fs fs' : Prop :=
  forall p, p <> $"identity.key" -> p <> $"auth_token" -> fs' !! p = fs !! p.

Lemma token_file f r w tok f' :
  loadOrGenerateAuthToken f r w = Ok (tok, f') -> (forall x, r = Some x -> length x = 32%nat) ->
  f' = Some tok /\ len tok = 64.
Proof.
  intros H Hr. unfold loadOrGenerateAuthToken in H.
  assert ((token ← or_err Other r; _ ← check w Other;
           Ok (Hex.EncodeToString token, Some (Hex.EncodeToString token))) = Ok (tok, f') -> f' = Some tok /\ len tok = 64) as Hg.
  { destruct r as [x|]; cbn [or_err mbind result_bind]; [|discriminate]. destruct w; cbn [check]; [|discriminate].
    intros [= <- <-]. split; [done|]. unfold len. rewrite HexFacts.hex_encode_length, (Hr x eq_refl). done. }
  destruct f as [data|]; [|by apply Hg]. destruct (len data =? authTokenLen * 2) eqn:Hl; [|by apply Hg].
  injection H as <- <-. apply Z.eqb_eq in Hl. done.
Qed.

Lemma token_reload tok w r : len tok = 64 -> loadOrGenerateAuthToken (Some tok) r w = Ok (tok, Some tok).
Proof. intros H. unfold loadOrGenerateAuthToken. by rewrite H. Qed.

Lemma load_all (d : Daemon T) :
  peers d = ∅ -> groups d = ∅ -> profile d = None ->
  let d' := loadProfile (loadGroups (loadPeers d)) in
  files d' = files d /\ identity d' = identity d /\ d_authToken d' = d_authToken d /\ queue d' = queue d /\
  peers d' = default ∅ (files d !! peersPath ≫= json_peers) /\
  groups d' = default ∅ (files d !! groupsPath ≫= json_groups) /\
  profile d' = files d !! profilePath ≫= json_profile_file.
Proof.
  intros Hp Hg Hpr. unfold loadProfile, loadGroups, loadPeers.
  destruct (files d !! peersPath ≫= json_peers) as [ps|]; cbn [files set_peers];
    destruct (files d !! groupsPath ≫= json_groups) as [gs|]; cbn [files set_peers set_groups];
    destruct (files d !! profilePath ≫= json_profile_file) as [pr|];
    cbn [files set_peers set_groups set_profile identity d_authToken queue peers groups profile];
    rewrite ?Hp, ?Hg, ?Hpr, ?map_union_empty; done.
Qed.

Lemma load_rest (d : Daemon T) :
  let d' := loadProfile (loadGroups (loadPeers d)) in pendingHellos d' = pendingHellos d /\ transfers d' = transfers d /\
    transferStore d' = transferStore d.
Proof. unfold loadProfile, loadGroups, loadPeers. repeat case_match; done. Qed.

(** What a successful start-up leaves: both files match the daemon, and the
    rest of the directory is what it was. *)
Lemma RunDaemon_files w args z res force fs qdb tdb (mk : DNSClientEngine -> T) dok rid rtok (d : Daemon T) :
  RunDaemon w args z res force fs qdb tdb mk dok rid rtok = Ok d -> (forall x, rtok = Some x -> length x = 32%nat) ->
  LoadIdentity (files d !! $"identity.key") = Ok (identity d) /\
  files d !! $"auth_token" = Some (d_authToken d) /\ len (d_authToken d) = 64 /\ same_data fs (files d) /\
  peers d = default ∅ (fs !! peersPath ≫= json_peers) /\ groups d = default ∅ (fs !! groupsPath ≫= json_groups) /\
  profile d = fs !! profilePath ≫= json_profile_file.
Proof.
  intros H Hrt. unfold RunDaemon in H. destruct dok; cbn [check mbind result_bind] in H; [|discriminate].
  apply bind_Ok in H as ([kp fs1] & Hid & H). apply bind_Ok in H as ([tok f] & Htok & H).
  apply bind_Ok in H as (q & _ & H).
  assert (LoadIdentity (fs1 !! $"identity.key") = Ok kp /\ same_data fs fs1) as [Hl1 Hs1].
  { destruct (LoadIdentity (fs !! $"identity.key")) as [kp0|] eqn:Hl; [injection Hid as <- <-; done|].
    destruct (GenerateKeyPair rid) as [kp0|] eqn:Hg; [|discriminate].
    apply GenerateKeyPair_signing, load_saved in Hg as (file & Hsave & Hload). rewrite Hsave in Hid.
    cbn [or_err mbind result_bind] in Hid. destruct (wrote (w _)); cbn [check] in Hid; [|discriminate]. injection Hid as <- <-.
    rewrite lookup_insert_eq. split; [done|]. intros p Hp _. by rewrite lookup_insert_ne. }
  apply token_file in Htok as [-> Hlen]; [|done]. cbn iota beta in H.
  set (fs2 := <[$"auth_token" := tok]> fs1) in *.
  assert (same_data fs fs2) as Hs2.
  { intros p Hp Hp2. unfold fs2. rewrite lookup_insert_ne by done. by apply Hs1. }
  assert (files d = fs2 /\ identity d = kp /\ d_authToken d = tok /\
    peers d = default ∅ (fs2 !! peersPath ≫= json_peers) /\ groups d = default ∅ (fs2 !! groupsPath ≫= json_groups) /\
    profile d = fs2 !! profilePath ≫= json_profile_file) as (-> & -> & -> & -> & -> & ->).
  { injection H as <-. match goal with |- files (loadProfile (loadGroups (loadPeers ?d0))) = _ /\ _ =>
      destruct (load_all d0 eq_refl eq_refl eq_refl) as (-> & -> & -> & _ & -> & -> & ->) end. done. }
  rewrite !(Hs2 peersPath), !(Hs2 groupsPath), !(Hs2 profilePath) by discriminate.
  split; [unfold fs2; by rewrite lookup_insert_ne|]. split; [unfold fs2; by rewrite lookup_insert_eq|]. done.
Qed.

(** A start-up on a directory that holds both files needs no randomness. *)
Lemma RunDaemon_reload w args z res force fs q tdb (mk : DNSClientEngine -> T) kp tok :
  LoadIdentity (fs !! $"identity.key") = Ok kp -> fs !! $"auth_token" = Some tok -> len tok = 64 ->
  exists d, RunDaemon w args z res force fs (Some q) tdb mk true None None = Ok d /\
    identity d = kp /\ d_authToken d = tok /\ queue d = q /\ pendingHellos d = ∅ /\ transfers d = ∅ /\
    peers d = default ∅ (fs !! peersPath ≫= json_peers) /\ groups d = default ∅ (fs !! groupsPath ≫= json_groups) /\
    profile d = fs !! profilePath ≫= json_profile_file.
Proof.
  intros Hid Htok Hlen. unfold RunDaemon at 1. cbn [check mbind result_bind]. rewrite Hid. cbn [mbind result_bind].
  rewrite Htok, token_reload by done. cbn [mbind result_bind or_err]. rewrite insert_id by done.
  eexists. split; [reflexivity|].
  match goal with |- identity (loadProfile (loadGroups (loadPeers ?d0))) = _ /\ _ =>
    destruct (load_all d0 eq_refl eq_refl eq_refl) as (_ & -> & -> & -> & -> & -> & ->);
    destruct (load_rest d0) as (-> & -> & _) end.
  done.
Qed.

End Startup.

(** ** Properties *)

(** C25: who may call: with a 64-character token configured, the interceptor
    lets a unary call through exactly when it is a GetIdentity call or its
    first x-auth-token is that token. *)
Theorem auth_exact token method md :
  len token = 64 ->
  authInterceptor (Some token) method md = Ok tt <->
  Contains method $"GetIdentity" = true \/ exists rest, md = Some (token :: rest).
Proof.
  intros Hl. unfold authInterceptor. destruct (Contains method $"GetIdentity"); [tauto|].
  destruct md as [[|t rest]|]; [split; [discriminate|]; by intros [?|[? ?]]| |split; [discriminate|]; by intros [?|[? ?]]].
  destruct (decide (token = t)) as [<-|Hne].
  - rewrite Hl, bool_decide_eq_true_2 by done. simpl. split; [eauto|done].
  - rewrite (bool_decide_eq_false_2 (token = t)) by done. destruct (negb _); simpl; (split; [discriminate|]);
      intros [?|[r [= -> _]]]; done.
Qed.

(** A restart finds the same daemon: after a start-up that succeeded,
    starting again on the files it left needs no randomness, succeeds, and
    has the same identity, the same token, the same peers, groups and
    profile. *)
Theorem restart_preserves {T} {TR : Transport T} {C : CryptoLib} {L : CryptoLaws C} {J : Json} {IO : IterOrder}
    w args z res force fs qdb tdb (mk mk2 : DNSClientEngine -> T) rid rtok (d : Daemon T) w2 args2 q2 tdb2 :
  RunDaemon w args z res force fs qdb tdb mk true rid rtok = Ok d -> (forall x, rtok = Some x -> length x = 32%nat) ->
  exists d', RunDaemon w2 args2 z res force (files d) (Some q2) tdb2 mk2 true None None = Ok d' /\
    identity d' = identity d /\ d_authToken d' = d_authToken d /\
    peers d' = peers d /\ groups d' = groups d /\ profile d' = profile d /\ queue d' = q2.
Proof.
  intros H Hrt. destruct (RunDaemon_files _ _ _ _ _ _ _ _ _ _ _ _ _ H Hrt) as (Hid & Htok & Hlen & Hs & Hp & Hg & Hpr).
  destruct (RunDaemon_reload w2 args2 z res force (files d) q2 tdb2 mk2 _ _ Hid Htok Hlen)
    as (d' & H1 & H2 & H3 & H4 & _ & _ & H5 & H6 & H7).
  exists d'. rewrite H2, H3, H4, H5, H6, H7, Hp, Hg, Hpr.
  by rewrite (Hs peersPath), (Hs groupsPath), (Hs profilePath) by discriminate.
Qed.

(** The administrator of a group is one of its members. *)
Definition group_ok (g : Group) : Prop := is_Some (Members g !! AdminPubkey g).

Section GroupLemmas.
Context {IO : IterOrder}.

Lemma iter_map_nil {A} (m : gmap bytes A) : iter_order (map_to_list m) = [] <-> m = ∅.
Proof.
  split.
  - intros H. apply map_to_list_empty_iff, Permutation_nil. rewrite <- H. apply iter_order_perm.
  - intros ->. rewrite map_to_list_empty. apply Permutation_nil. symmetry. apply iter_order_perm.
Qed.

Lemma iter_map_head {A} (m : gmap bytes A) k x l : iter_order (map_to_list m) = (k, x) :: l -> m !! k = Some x.
Proof.
  intros H. apply elem_of_map_to_list. rewrite <- (iter_order_perm (map_to_list m)), H. apply list_elem_of_here.
Qed.

Lemma iter_map_keys {A} (m : gmap bytes A) k : k ∈ map fst (iter_order (map_to_list m)) <-> is_Some (m !! k).
Proof.
  rewrite list_elem_of_In, in_map_iff. split.
  - intros ([k' x] & <- & Hin%list_elem_of_In). exists x. apply elem_of_map_to_list.
    by rewrite <- (iter_order_perm (map_to_list m)).
  - intros [x Hx]. exists (k, x). split; [done|]. apply list_elem_of_In.
    rewrite (iter_order_perm (map_to_list m)). by apply elem_of_map_to_list.
Qed.

Lemma leave_members_spec me g :
  (forall k, is_Some (Members (leave_members me g) !! k) <-> k <> me /\ is_Some (Members g !! k)) /\
  (group_ok g -> Members (leave_members me g) <> ∅ -> group_ok (leave_members me g)) /\
  GroupKey (leave_members me g) = GroupKey g /\ KeyEpoch (leave_members me g) = KeyEpoch g.
Proof.
  unfold leave_members, group_ok. set (ms := delete me (Members g)).
  assert (forall k, is_Some (ms !! k) <-> k <> me /\ is_Some (Members g !! k)) as Hms.
  { intros k. unfold ms. rewrite lookup_delete_is_Some. naive_solver. }
  destruct (decide (AdminPubkey g = me)) as [Ha|Ha].
  - destruct (iter_order (map_to_list ms)) as [|[pk m] l] eqn:Hl; cbn [Members AdminPubkey GroupKey KeyEpoch].
    + split; [exact Hms|]. split; [|done]. intros _ Hne. by apply iter_map_nil in Hl.
    + apply iter_map_head in Hl. split; [|split; [|done]].
      * intros k. rewrite lookup_insert_is_Some, Hms. destruct (decide (pk = k)) as [<-|Hne]; [|tauto].
        split; [|tauto]. intros _. apply Hms. eauto.
      * intros _ _. rewrite lookup_insert_eq. eauto.
  - cbn [Members AdminPubkey GroupKey KeyEpoch]. split; [exact Hms|]. split; [|done]. intros Hg _. apply Hms. done.
Qed.

End GroupLemmas.

(** What a distribution sends to one member: nothing to oneself or to a key
    no secret can be agreed on with. *)
Definition addressed {C : CryptoLib} {T} (payload : bytes) (rand : bytes -> option bytes) (d : Daemon T) (k : bytes) : option (bytes * bytes) :=
  if decide (k = myPubkey d) then None
  else
    pk ← Base64.DecodeString k;
    match SharedSecret (PrivateKey (identity d)) pk with
    | Ok ss => Some (match EncryptMessage ss payload (rand k) with Ok (c, _) => c | Err _ => [] end, k)
    | Err _ => None
    end.

Lemma addressed_identity {C : CryptoLib} {T} payload rand (d d0 : Daemon T) :
  identity d = identity d0 -> addressed payload rand d = addressed payload rand d0.
Proof. intros H. unfold addressed, myPubkey. by rewrite H. Qed.

(** What the recording transport has sent after a distribution. *)
Lemma distribute_sent {C : CryptoLib} ms payload rand (d : Daemon Outbox) :
  outbox (engine (distribute ms payload rand d)) = outbox (engine d) ++ omap (addressed payload rand d) ms.
Proof.
  unfold distribute. revert d. induction ms as [|m ms IH]; intros d; [by rewrite app_nil_r|].
  cbn [fold_left]. rewrite IH.
  match goal with |- outbox (engine ?d1) ++ _ = _ =>
    assert (outbox (engine d1) = outbox (engine d) ++ option_list (addressed payload rand d m) /\ identity d1 = identity d) as [-> Hid] end.
  { unfold addressed. case_decide; [by rewrite app_nil_r|].
    destruct (Base64.DecodeString m); [|by rewrite app_nil_r]. cbn [mbind option_bind].
    destruct (SharedSecret _ _); [done|by rewrite app_nil_r]. }
  rewrite (addressed_identity _ _ _ d Hid), <- app_assoc. f_equal. csimpl. by destruct (addressed payload rand d m).
Qed.

(** C29: leaving a group: the group disappears exactly when nobody else was in
    it; otherwise it loses exactly the leaving node, keeps its key, and still
    has an administrator among its members. *)
Theorem leave_group {T} {J : Json} {IO : IterOrder} w id (d : Daemon T) g :
  groups d !! id = Some g -> group_ok g ->
  let d' := (LeaveGroup w id d).1 in
  (groups d' !! id = None <-> forall k, is_Some (Members g !! k) -> k = myPubkey d) /\
  (forall g', groups d' !! id = Some g' -> group_ok g' /\ GroupKey g' = GroupKey g /\ KeyEpoch g' = KeyEpoch g /\
     forall k, is_Some (Members g' !! k) <-> k <> myPubkey d /\ is_Some (Members g !! k)) /\
  (forall id', id' <> id -> groups d' !! id' = groups d !! id').
Proof.
  intros Hg Hok. unfold LeaveGroup. rewrite Hg. cbv zeta. cbn [fst].
  match goal with |- context [saveGroups w ?d1] => destruct (saveGroups_frame w d1) as (_ & _ & _ & _ & -> & _) end.
  cbn [groups set_groups]. destruct (leave_members_spec (myPubkey d) g) as (Hm & Ha & Hk & He).
  set (g1 := leave_members (myPubkey d) g) in *.
  assert (Members g1 = ∅ <-> forall k, is_Some (Members g !! k) -> k = myPubkey d) as Hempty.
  { split.
    - intros H0 k Hk1. destruct (decide (k = myPubkey d)); [done|]. assert (is_Some (Members g1 !! k)) as [x Hx] by (apply Hm; auto).
      by rewrite H0, lookup_empty in Hx.
    - intros H. apply map_empty. intros k. destruct (Members g1 !! k) eqn:Hx; [|done].
      assert (is_Some (Members g1 !! k)) as [Hne Hs]%Hm by eauto. by apply H in Hs. }
  case_decide as Hd.
  - rewrite lookup_delete_eq. split; [tauto|]. split; [done|]. intros id' Hne. by rewrite lookup_delete_ne.
  - rewrite lookup_insert_eq. split; [split; [discriminate|tauto]|]. split.
    + intros g' [= <-]. auto.
    + intros id' Hne. by rewrite lookup_insert_ne.
Qed.

(** C30: removing a member: only the administrator can, and only a member can
    be removed; every refusal changes nothing.  A removal changes that group
    alone: the member is taken out and the others stay as they are, the name
    and the administrator stay, the epoch advances by one (at 64 bits), and the
    key becomes the SHA-256 of the old one and a constant.  The group keeps an
    administrator among its members exactly when the one removed is somebody
    else.  When the group is filed under its own id, each remaining member
    other than oneself, in some order, is sent a message with the id, the new
    key and the new epoch, encrypted under the secret shared with that member
    (nothing to a key with which no secret can be agreed; and an empty message
    if encrypting fails); nobody else is sent anything. *)
Theorem remove_member {C : CryptoLib} {J : Json} {IO : IterOrder} w id m rand (d : Daemon Outbox) :
  let '(d', r) := RemoveGroupMember w id m rand d in
  match groups d !! id with
  | None => d' = d /\ r = Err NotFound
  | Some g =>
      if decide (AdminPubkey g <> myPubkey d) then d' = d /\ r = Err PermissionDenied
      else if decide (Members g !! m = None) then d' = d /\ r = Err NotFound
      else
        let key := Sha256.Sum256 (GroupKey g ++ $"group-rotation-v1") in
        let epoch := (KeyEpoch g + 1) mod 2 ^ 64 in
        let g' := mkGroup (GroupID g) (GroupName g) (AdminPubkey g) (delete m (Members g)) key epoch in
        let str v := [dquote] ++ v ++ [dquote] in
        let field k v := str k ++ [colon] ++ v in
        let payload := [lbrace] ++ field $"type" (str $"group_key") ++ [comma] ++ field $"group_id" (str id) ++ [comma] ++
          field $"group_key_b64" (str (Base64.EncodeToString key)) ++ [comma] ++ field $"key_epoch" (Itoa epoch) ++ [rbrace] in
        let to k := if decide (k = myPubkey d) then None
                    else pk ← Base64.DecodeString k;
                         match SharedSecret (PrivateKey (identity d)) pk with
                         | Ok ss => Some (match EncryptMessage ss payload (rand k) with Ok (c, _) => c | Err _ => [] end, k)
                         | Err _ => None
                         end in
        r = Ok tt /\ groups d' = <[id := g']> (groups d) /\
        (group_ok g -> (group_ok g' <-> m <> myPubkey d)) /\
        (GroupID g = id -> exists order, order ≡ₚ map fst (map_to_list (delete m (Members g))) /\
           outbox (engine d') = outbox (engine d) ++ omap to order)
  end.
Proof.
  unfold RemoveGroupMember. destruct (groups d !! id) as [g|] eqn:Hg; [|done].
  destruct (decide (AdminPubkey g <> myPubkey d)) as [Ha|Ha].
  { by rewrite bool_decide_eq_false_2. }
  assert (AdminPubkey g = myPubkey d) as Ha' by (by apply dec_stable). rewrite bool_decide_eq_true_2 by done. cbn [negb].
  destruct (Members g !! m) as [x|] eqn:Hx; [rewrite decide_False by done|by rewrite decide_True].
  cbv zeta. change (mkGroup (GroupID g) _ _ _ _ _) with (rotate m g). split; [done|].
  match goal with |- context [distributeGroupKey _ _ ?d1] => set (d0 := d1) end.
  assert (groups d0 = <[id := rotate m g]> (groups d) /\ engine d0 = engine d /\ identity d0 = identity d) as (Hg0 & He0 & Hi0).
  { unfold d0. match goal with |- context [saveGroups w ?d1] =>
      destruct (saveGroups_frame w d1) as (-> & _ & -> & _ & -> & _) end. done. }
  split; [by rewrite (proj1 (proj2 (distributeGroupKey_frame _ _ _)))|]. split.
  - intros Hok. unfold group_ok, rotate. cbn [Members AdminPubkey]. rewrite lookup_delete_is_Some, Ha'.
    unfold group_ok in Hok. rewrite Ha' in Hok. tauto.
  - intros Hid. exists (map fst (iter_order (map_to_list (delete m (Members g))))).
    split; [by rewrite (iter_order_perm _)|]. unfold distributeGroupKey. cbn [GroupID rotate].
    rewrite Hid, Hg0, lookup_insert_eq, distribute_sent, He0. cbn [Members rotate]. f_equal. apply list_omap_ext, Forall2_same_length_lookup_2; [done|].
    intros i k k' Hk Hk'. simplify_eq. unfold addressed, myPubkey. rewrite Hi0. case_decide; [done|].
    destruct (Base64.DecodeString k) as [pk|]; [|done]. cbn [mbind option_bind]. destruct (SharedSecret _ pk) as [ss|]; [|done].
    do 3 f_equal. unfold template, quote. cbn [map Join rotate GroupKey KeyEpoch app]. repeat (rewrite <- ?app_assoc; cbn [app]). done.
Qed.

(** Editing the relay list does not change where messages go: once the
    daemon was started with at least one relay, [AddRelay] and [RemoveRelay]
    change what [GetRelays] lists but not the relays that sending and polling
    use. *)
Theorem relay_edits_ignored {T} {TR : Transport T} {TL : TransportLaws TR} addr (d : Daemon T) :
  fallbackRelays (conf d) <> [] ->
  discoverActiveRelays (conf (AddRelay addr d)) = discoverActiveRelays (conf d) /\
  discoverActiveRelays (conf (RemoveRelay addr d)) = discoverActiveRelays (conf d) /\
  GetRelays (conf (AddRelay addr d)) = GetRelays (conf d) ++ [addr].
Proof.
  intros Hne. unfold AddRelay, RemoveRelay, set_conf, conf. cbn [engine set_engine]. rewrite !conf_set_conf.
  unfold discoverActiveRelays, GetRelays. cbn [fallbackRelays SetRelays relays].
  unfold conf in Hne. destruct (fallbackRelays (eng_conf (engine d))); done.
Qed.

(** ** Closed instances *)

(** A JSON codec that rejects everything. *)
Definition no_json : Json := {|
  json_relays _ := None; marshal_peers _ := None; json_peers _ := None; marshal_groups _ := None;
  json_groups _ := None; marshal_profile _ := None; json_profile_file _ := None; json_hello _ := None;
  json_group_key _ := None; json_group_msg _ := None; json_profile_msg _ := None; json_media_meta _ := None;
  marshal_bio b := b; marshal_sidecar _ _ _ _ s := s; marshal_meta _ := None; json_stream_header _ := None
|}.

Lemma auth_exact_witness :
  authInterceptor (Some (replicate 64 dot)) $"/relaypb.RelayClient/SendMessage" (Some [replicate 64 dot]) = Ok tt.
Proof. apply (auth_exact (replicate 64 dot)); [reflexivity|]. right. exists []. reflexivity. Defined.

Definition start_outbox (e : DNSClientEngine) : Outbox := mkOutbox e [] [].

Lemma restart_preserves_witness : exists d d',
  RunDaemon (C := toy_crypto) (J := no_json) (fun _ => Written) [] $"zone" [] false ∅ (Some NewOfflineQueue) None start_outbox
    true (Some (replicate 32 dot)) (Some (replicate 32 colon)) = Ok d /\
  RunDaemon (C := toy_crypto) (J := no_json) (fun _ => NotOpened) [] $"zone" [] false (files d) (Some NewOfflineQueue) None
    start_outbox true None None = Ok d' /\ identity d' = identity d /\ d_authToken d' = d_authToken d.
Proof.
  destruct (RunDaemon (C := toy_crypto) (J := no_json) (fun _ => Written) [] $"zone" [] false ∅ (Some NewOfflineQueue) None
    start_outbox true (Some (replicate 32 dot)) (Some (replicate 32 colon))) as [d|err] eqn:Hd.
  2: { exfalso. assert (match RunDaemon (C := toy_crypto) (J := no_json) (fun _ => Written) [] $"zone" [] false ∅
         (Some NewOfflineQueue) None start_outbox true (Some (replicate 32 dot)) (Some (replicate 32 colon))
         with Ok _ => true | Err _ => false end = true) as H by (vm_compute; reflexivity). rewrite Hd in H. discriminate. }
  exists d.
  destruct (restart_preserves (L := toy_crypto_laws) (IO := forward_order) (fun _ => Written) [] $"zone" [] false ∅
    (Some NewOfflineQueue) None start_outbox start_outbox (Some (replicate 32 dot)) (Some (replicate 32 colon)) d
    (fun _ => NotOpened) [] NewOfflineQueue None Hd) as (d' & H1 & H2 & H3 & _); [by intros x [= <-]|].
  exists d'. split; [reflexivity|]. split; [exact H1|]. split; [exact H2|exact H3].
Defined.

(** A daemon in one group with another member. *)
Definition demo_kp : KeyPair := mkKeyPair $"me" $"secret" [] [].
Definition demo_me : bytes := Base64.EncodeToString $"me".
Definition demo_group : Group :=
  mkGroup $"g1" $"chat" demo_me
    {[demo_me := mkMember demo_me [] $"admin"; $"bob" := mkMember $"bob" [] $"member"]} $"key" 1.
Definition demo_daemon : Daemon Outbox :=
  mkDaemon (mkOutbox (NewDNSClientEngine [$"10.0.0.1:53"] $"zone") [] []) (NewDetector false 1) NewOfflineQueue demo_kp
    ∅ {[$"g1" := demo_group]} ∅ ∅ None (replicate 64 dot) None ∅.

Lemma leave_group_witness :
  let d' := (LeaveGroup (J := no_json) (IO := forward_order) (fun _ => Written) $"g1" demo_daemon).1 in
  let g' := leave_members (IO := forward_order) demo_me demo_group in
  groups d' !! $"g1" = Some g' /\ group_ok g'.
Proof.
  intros d' g'. assert (groups d' !! $"g1" = Some g') as Hg' by (vm_compute; reflexivity). split; [exact Hg'|].
  refine (proj1 (proj1 (proj2 (leave_group (J := no_json) (IO := forward_order) (fun _ => Written) $"g1" demo_daemon demo_group _ _)) g' Hg')).
  - reflexivity.
  - exists (mkMember demo_me [] $"admin"). reflexivity.
Defined.

Lemma relay_edits_ignored_witness :
  discoverActiveRelays (conf (AddRelay $"10.0.0.9:53" demo_daemon)) = [$"10.0.0.1:53"].
Proof. refine (proj1 (relay_edits_ignored $"10.0.0.9:53" demo_daemon _)). discriminate. Defined.
