(* ===== verification/Messages.v ===== *)
(** * Sending and polling messages (SendMessage and PollMessages of daemon.go)

    The two handlers that carry the conversation: a text is signed, encrypted
    for its recipient and handed to the engine, or queued; a polled message
    is tried against every known peer and pending invitation, and then acted
    on by its kind. *)

From S2P Require Import Prelude GoStrings Codec Sha256 Crypto Dns Engine Queue MediaClient Daemon.

Record SendResponse := mkSendResponse { MessageId : bytes; QueuedFlag : bool; ChunkCount : Z }.

Record ReceivedMessage := mkReceived {
  rm_MessageId : bytes;
  rm_Plaintext : bytes;
  rm_FromPeer : bytes;
  rm_GroupId : bytes;
  rm_ServerTimestampMs : Z;
  rm_SequenceNumber : Z
}.

Definition hello_lifetime : Z := 24 * 3600 * 1000000000.

(** A slice returned by [Open]: nil when it is empty. *)
Definition opened (p : bytes) : option bytes := if decide (p = []) then None else Some p.

Definition starts_object (p : bytes) : bool := bool_decide (head p = Some lbrace).

Section Messages.
Context {T : Type} {TR : Transport T} {C : CryptoLib} {F : FileCipher} {J : Json} {IO : IterOrder}.
Context (write_ok : bytes -> write_result).
Implicit Types d : Daemon T.

(** ** Sending *)

Definition group_payload (groupId : bytes) (epoch : Z) (ciphertext : bytes) : bytes :=
  template [($"g", quote groupId); ($"e", Itoa epoch); ($"m", quote (Base64.EncodeToString ciphertext))].

Definition SendMessage (peerPubkeyB64 plaintext groupId : bytes) (rand : option bytes) (db_ok : bool) (now : Z) d
    : Daemon T * result grpc_error SendResponse :=
  if negb (bool_decide (groupId = [])) then
    match groups d !! groupId with
    | None => (d, Err NotFound)
    | Some group =>
        match EncryptGroupMessage (GroupKey group) plaintext rand with
        | Err _ => (d, Err Internal)
        | Ok ciphertext =>
            let payload := group_payload groupId (KeyEpoch group) ciphertext in
            let d' := fold_left (fun d pubkey => if decide (pubkey = myPubkey d) then d else send_to payload pubkey d)
                        (map fst (iter_order (map_to_list (Members group)))) d in
            (d', Ok (mkSendResponse ($"group:" ++ groupId) false 0))
        end
    end
  else
    match Base64.DecodeString peerPubkeyB64 with
    | None => (d, Err Other)
    | Some peerPubkey =>
        match SharedSecret (PrivateKey (identity d)) peerPubkey with
        | Err _ => (d, Err Other)
        | Ok sharedSecret =>
            match EncryptMessage sharedSecret (BuildSignedPayload (identity d) plaintext) rand with
            | Err _ => (d, Err Other)
            | Ok (ciphertext, nonce) =>
                let transportPayload := nonce ++ ciphertext in
                let '(t, (msgID, r)) := eng_send transportPayload peerPubkeyB64 (engine d) in
                let d := set_engine t d in
                match r with
                | Err _ =>
                    match Enqueue db_ok peerPubkeyB64 transportPayload now (queue d) with
                    | (_, None) => (d, Err Other)
                    | (q, Some _) => (set_queue q d, Ok (mkSendResponse (Base64.EncodeToString msgID) true 0))
                    end
                | Ok chunkCount =>
                    (d, Ok (mkSendResponse (Base64.EncodeToString msgID) false (i32 chunkCount)))
                end
            end
        end
    end.

(** ** Polling: decryption *)

(** The peers in turn: the text and its sender from the first that
    decrypts. *)
Fixpoint decrypt_peers (kp : KeyPair) (nonce ciphertext : bytes) (ps : list bytes) : option (option bytes * bytes) :=
  match ps with
  | [] => None
  | pubkeyStr :: rest =>
      let next := decrypt_peers kp nonce ciphertext rest in
      match Base64.DecodeString pubkeyStr with
      | None => next
      | Some pubkey =>
          match SharedSecret (PrivateKey kp) pubkey with
          | Err _ => next
          | Ok ss =>
              match DecryptMessage ss nonce ciphertext with
              | Err _ => next
              | Ok plaintext =>
                  match ParseSignedPayload plaintext with
                  | Ok p =>
                      if decide (senderX25519Pubkey p = []) then Some (opened plaintext, pubkeyStr)
                      else Some (Some (plaintext_of p), senderX25519Pubkey p)
                  | Err _ => Some (opened plaintext, pubkeyStr)
                  end
              end
          end
      end
  end.

(** The pending invitations, all of them: expired ones are dropped, one that
    decrypts to a hello adds its sender as a peer. *)
Definition try_hello (raw : bytes) (now : Z) (st : Daemon T * option bytes * bytes) (x : bytes * helloEntry)
    : Daemon T * option bytes * bytes :=
  let '(d, decrypted, fromPeer) := st in
  let '(nonceHex, entry) := x in
  if hello_lifetime <? now - h_createdAt entry then
    (set_hellos (delete nonceHex (pendingHellos d)) d, decrypted, fromPeer)
  else
    match DecryptHello (DeriveHelloKey (h_nonce entry)) raw with
    | Err _ => st
    | Ok plaintext =>
        match json_hello plaintext with
        | Some (ty, pubkey, nickname) =>
            if bool_decide (ty = $"hello") && negb (bool_decide (pubkey = [])) then
              let nick := if decide (nickname = []) then $"Unknown" else nickname in
              let d := savePeers write_ok (set_peers (<[pubkey := mkPeer nick pubkey]> (peers d)) d) in
              (set_hellos (delete nonceHex (pendingHellos d)) d, opened plaintext, pubkey)
            else st
        | None => st
        end
    end.

Definition decrypt_hellos (raw : bytes) (now : Z) d : Daemon T * option bytes * bytes :=
  fold_left (try_hello raw now) (iter_order (map_to_list (pendingHellos d))) (d, None, []).

(** ** Polling: kinds of messages *)

(** A group key: stored, and not shown.  The key is whatever prefix of it is
    valid base64. *)
Definition store_group_key (groupID keyB64 name : bytes) (epoch : Z) d : Daemon T :=
  let key := Base64.DecodePartial keyB64 in
  let g := match groups d !! groupID with
           | None => mkGroup groupID name [] ∅ key epoch
           | Some g => mkGroup (GroupID g) (GroupName g) (AdminPubkey g) (Members g) key epoch
           end in
  saveGroups write_ok (set_groups (<[groupID := g]> (groups d)) d).

Definition take_group_key (decrypted : bytes) d : option (Daemon T) :=
  if (10 <? len decrypted) && starts_object decrypted then
    match json_group_key decrypted with
    | Some (ty, groupID, keyB64, epoch, name) =>
        if bool_decide (ty = $"group_key") && negb (bool_decide (keyB64 = []))
        then Some (store_group_key groupID keyB64 name epoch d) else None
    | None => None
    end
  else None.

(** A group message: [None] when it is stale, else the text and the group. *)
Definition open_group_message (decrypted : bytes) d : option (bytes * bytes) :=
  let plain := Some (decrypted, []) in
  if (10 <? len decrypted) && starts_object decrypted then
    match json_group_msg decrypted with
    | Some (g, e, m) =>
        if negb (bool_decide (g = [])) && negb (bool_decide (m = [])) then
          match groups d !! g with
          | Some group =>
              if e <? KeyEpoch group then None
              else match Base64.DecodeString m with
                   | Some msgBytes =>
                       match DecryptGroupMessage (GroupKey group) msgBytes with
                       | Ok text => Some (text, g)
                       | Err _ => plain
                       end
                   | None => plain
                   end
          | None => plain
          end
        else plain
    | None => plain
    end
  else plain.

Definition profile_update (fromPeer nickname bio : bytes) d : Daemon T :=
  let d := match peers d !! fromPeer with
           | Some entry =>
               if decide (nickname = []) then d
               else set_peers (<[fromPeer := mkPeer nickname (Pubkey entry)]> (peers d)) d
           | None => d
           end in
  let d := savePeers write_ok d in
  if decide (bio = []) then d
  else WriteFile write_ok (JoinPath $"peer_bios" (fromPeer ++ $".json")) (marshal_bio bio) d.

Definition profile_pic (fromPeer fileID keyB64 : bytes) d : Daemon T :=
  match GetRelays (conf d) with
  | [] => d
  | relay :: _ =>
      let '(t, r) := tcp_download relay (d_authToken d) fileID (engine d) in
      let d := set_engine t d in
      match r with
      | Ok encrypted =>
          match DecryptFile (Base64.DecodePartial keyB64) encrypted with
          | Ok pic => if decide (pic = []) then d else WriteFile write_ok (JoinPath $"peer_pics" (fromPeer ++ $".jpg")) pic d
          | Err _ => d
          end
      | Err _ => d
      end
  end.

Definition extension (mime : bytes) : bytes :=
  if decide (mime = $"image/jpeg") then $".jpg"
  else if decide (mime = $"image/png") then $".png"
  else if decide (mime = $"video/mp4") then $".mp4"
  else if decide (mime = $"audio/m4a") then $".m4a"
  else $".bin".

(** A media announcement: the file is fetched if it is at a relay, and
    written after its description. *)
Definition media_meta (pm : PolledMessage) (fromPeer keyB64 mime name fileID : bytes) d : Daemon T :=
  match GetRelays (conf d) with
  | [] => d
  | relay :: _ =>
      let '(d, fileData) :=
        if decide (fileID = []) then (d, None)
        else
          let '(t, r) := tcp_download relay (d_authToken d) fileID (engine d) in
          (set_engine t d,
           match r with
           | Ok encrypted => match DecryptFile (Base64.DecodePartial keyB64) encrypted with
                             | Ok data => opened data
                             | Err _ => None
                             end
           | Err _ => None
           end) in
      let path := JoinPath $"media_received" (Hex.EncodeToString (pm_MsgID pm) ++ extension mime) in
      let status := match fileData with Some _ => $"complete" | None => $"failed" end in
      let d := WriteFile write_ok (path ++ $".meta")
                 (marshal_sidecar mime name fromPeer (Itoa (pm_Timestamp pm)) status) d in
      WriteFile write_ok path (default [] fileData) d
  end.

(** The typed JSON messages: [Some d] when the message is consumed. *)
Definition take_typed (pm : PolledMessage) (decrypted fromPeer : bytes) d : option (Daemon T) :=
  if (20 <? len decrypted) && starts_object decrypted then
    let media :=
      match json_media_meta decrypted with
      | Some (keyB64, mime, name, fileID) =>
          if bool_decide (keyB64 = []) then None else Some (media_meta pm fromPeer keyB64 mime name fileID d)
      | None => None
      end in
    match json_profile_msg decrypted with
    | Some (ty, nickname, bio, fileID, keyB64) =>
        if bool_decide (ty = $"profile_update") && negb (bool_decide (fromPeer = []))
        then Some (profile_update fromPeer nickname bio d)
        else if bool_decide (ty = $"profile_pic") && negb (bool_decide (fromPeer = [])) && negb (bool_decide (fileID = []))
        then Some (profile_pic fromPeer fileID keyB64 d)
        else media
    | None => media
    end
  else None.

Definition received (pm : PolledMessage) (text fromPeer groupID : bytes) : ReceivedMessage :=
  mkReceived (Hex.EncodeToString (pm_MsgID pm)) text fromPeer groupID
    (if 0 <? pm_Timestamp pm then u64 (pm_Timestamp pm) else 0) (pm_Sequence pm).

(** Who can open a message: a peer, or else an invitation.  The daemon after
    the attempt, the text and its sender. *)
Definition decrypt_polled (now : Z) (raw : bytes) d : Daemon T * option bytes * bytes :=
  match decrypt_peers (identity d) (take 24 raw) (drop 24 raw) (map fst (iter_order (map_to_list (peers d)))) with
  | Some (Some text, from) => (d, Some text, from)
  | _ => decrypt_hellos raw now d
  end.

(** What is done with a text, by its kind. *)
Definition act_on (pm : PolledMessage) (text fromPeer : bytes) d : Daemon T * list ReceivedMessage :=
  match take_group_key text d with
  | Some d => (d, [])
  | None =>
      match open_group_message text d with
      | None => (d, [])
      | Some (text, groupID) =>
          match take_typed pm text fromPeer d with
          | Some d => (d, [])
          | None => (d, [received pm text fromPeer groupID])
          end
      end
  end.

(** One polled message: the daemon after it, and what it adds to the
    response. *)
Definition handle_polled (now : Z) (pm : PolledMessage) d : Daemon T * list ReceivedMessage :=
  let raw := pm_Data pm in
  if len raw <? NonceLength then (d, [])
  else
    let '(d, decrypted, fromPeer) := decrypt_polled now raw d in
    match decrypted with
    | None => (d, [])
    | Some text => act_on pm text fromPeer d
    end.

Fixpoint handle_all (now : Z) (pms : list PolledMessage) d : Daemon T * list ReceivedMessage :=
  match pms with
  | [] => (d, [])
  | pm :: rest =>
      let '(d, out) := handle_polled now pm d in
      let '(d, more) := handle_all now rest d in (d, out ++ more)
  end.

(** [PollMessages]: an engine error is an empty response; a panic of the
    engine is one of the daemon. *)
Definition PollMessages (now : Z) d : Daemon T * result grpc_error (list ReceivedMessage) :=
  let '(t, r) := eng_poll (myPubkey d) (engine d) in
  let d := set_engine t d in
  match r with
  | Err EnginePanic => (d, Err Panic)
  | Err _ => (d, Ok [])
  | Ok polled => let '(d, out) := handle_all now polled d in (d, Ok out)
  end.

End Messages.

(** ** Lemmas *)
Section Facts.
Context {C : CryptoLib} {L : CryptoLaws C} {F : FileCipher} {J : Json} {IO : IterOrder}.

(** A peer whose key does not open the message. *)
Definition cannot_open (kp : KeyPair) (nonce ct p : bytes) : Prop := decrypt_peers kp nonce ct [p] = None.

Lemma decrypt_peers_cons kp nonce ct p rest :
  decrypt_peers kp nonce ct (p :: rest) =
    match decrypt_peers kp nonce ct [p] with Some r => Some r | None => decrypt_peers kp nonce ct rest end.
Proof.
  cbn [decrypt_peers]. destruct (Base64.DecodeString p); [|done]. destruct (SharedSecret _ _); [|done].
  destruct (DecryptMessage _ _ _); [|done]. destruct (ParseSignedPayload _); [|done]. by case_decide.
Qed.

Lemma decrypt_peers_only kp nonce ct ps a r :
  a ∈ ps -> decrypt_peers kp nonce ct [a] = Some r ->
  (forall p, p ∈ ps -> p = a \/ cannot_open kp nonce ct p) -> decrypt_peers kp nonce ct ps = Some r.
Proof.
  intros Ha Hr Hall. induction ps as [|p ps IH]; [by apply not_elem_of_nil in Ha|].
  rewrite decrypt_peers_cons. destruct (Hall p (list_elem_of_here _ _)) as [->|Hc]; [by rewrite Hr|].
  unfold cannot_open in Hc. rewrite Hc. apply IH.
  - apply elem_of_cons in Ha as [->|Ha]; [congruence|done].
  - intros q Hq. apply Hall. by apply list_elem_of_further.
Qed.

Lemma decrypt_peers_none kp nonce ct ps :
  (forall p, p ∈ ps -> cannot_open kp nonce ct p) -> decrypt_peers kp nonce ct ps = None.
Proof.
  induction ps as [|p ps IH]; intros Hall; [done|]. rewrite decrypt_peers_cons.
  rewrite (Hall p (list_elem_of_here _ _)). apply IH. intros q Hq. apply Hall. by apply list_elem_of_further.
Qed.

Lemma b64_not_nil b : b <> [] -> Base64.EncodeToString b <> [].
Proof. intros Hb H. by apply Base64Facts.b64_encode_nil in H. Qed.

(** What a sender encrypts for a recipient, the recipient opens as coming
    from that sender. *)
Lemma decrypt_from_sender ra rb ka kb ss text rn ct nonce :
  length ra = 32%nat -> length rb = 32%nat -> length rn = 24%nat ->
  GenerateKeyPair (Some ra) = Ok ka -> GenerateKeyPair (Some rb) = Ok kb ->
  SharedSecret (PrivateKey ka) (PublicKey kb) = Ok ss ->
  EncryptMessage ss (BuildSignedPayload ka text) (Some rn) = Ok (ct, nonce) ->
  length nonce = 24%nat /\
  decrypt_peers kb nonce ct [Base64.EncodeToString (PublicKey ka)] = Some (Some text, Base64.EncodeToString (PublicKey ka)).
Proof.
  intros Hra Hrb Hrn Ha Hb Hss Henc.
  pose proof (GenerateKeyPair_signing _ _ Ha) as Hsig.
  apply GenerateKeyPair_inv in Ha as (Hla & Hpa & Hxa); [|done].
  apply GenerateKeyPair_inv in Hb as (Hlb & Hpb & Hxb); [|done].
  apply SharedSecret_Ok in Hss as (_ & _ & Hss). pose proof (X25519_length _ _ _ Hss) as Hl.
  unfold EncryptMessage in Henc. rewrite NewX_true in Henc by done. injection Henc as <- <-. split; [done|].
  cbn [decrypt_peers]. rewrite Base64Facts.b64_decode_encode.
  assert (SharedSecret (PrivateKey kb) (PublicKey ka) = Ok ss) as ->.
  { apply SharedSecret_Ok. rewrite <- (X25519_agree _ _ _ _ Hxa Hxb). done. }
  unfold DecryptMessage. rewrite NewX_true by done. unfold len at 1. rewrite Hrn. cbn [check mbind result_bind].
  change (Z.of_nat 24 =? NonceLength) with true. cbn [check].
  rewrite (proj2 (Open_iff ss rn (BuildSignedPayload ka text) _ Hl Hrn) eq_refl). cbn [or_err mbind result_bind].
  rewrite parse_built by done. cbn [senderX25519Pubkey plaintext_of].
  rewrite decide_False by (apply b64_not_nil; by destruct (PublicKey ka)). done.
Qed.

(** What a peer seals under its shared secret with a name on its first line
    opens as coming from that name. *)
Lemma spoofed_opens kp peer pk ss claimed text rn :
  length rn = 24%nat -> Base64.DecodeString peer = Some pk -> SharedSecret (PrivateKey kp) pk = Ok ss ->
  newline ∉ claimed -> newline ∉ text -> claimed <> [] ->
  exists ct, EncryptMessage ss (claimed ++ [newline] ++ text) (Some rn) = Ok (ct, rn) /\
    decrypt_peers kp rn ct [peer] = Some (Some text, claimed).
Proof.
  intros Hrn Hdec Hss Hnc Hnt Hc. pose proof (proj2 (proj2 (proj1 (SharedSecret_Ok _ _ _) Hss))) as Hx.
  pose proof (X25519_length _ _ _ Hx) as Hl.
  unfold EncryptMessage. rewrite NewX_true by done. cbn [check or_err mbind result_bind]. eexists. split; [reflexivity|].
  cbn [decrypt_peers]. rewrite Hdec, Hss. unfold DecryptMessage. rewrite NewX_true by done. unfold len at 1. rewrite Hrn.
  cbn [check mbind result_bind]. change (Z.of_nat 24 =? NonceLength) with true. cbn [check].
  rewrite (proj2 (Open_iff ss rn _ _ Hl Hrn) eq_refl). cbn [or_err mbind result_bind].
  unfold ParseSignedPayload. cbn [app]. rewrite (SplitN_app newline 2 claimed), SplitN_nosep by done.
  cbn [senderX25519Pubkey plaintext_of]. by rewrite decide_False.
Qed.

(** A hello is none of the daemon's other JSON messages. *)
Lemma hello_plain (payload : bytes) :
  (forall ty i k e n, json_group_key payload = Some (ty, i, k, e, n) -> ty = $"hello") ->
  (forall g e m, json_group_msg payload = Some (g, e, m) -> g = []) ->
  (forall ty a b f k, json_profile_msg payload = Some (ty, a, b, f, k) -> ty = $"hello") ->
  (forall k m n f, json_media_meta payload = Some (k, m, n, f) -> k = []) ->
  forall {T} {TR : Transport T} (d : Daemon T) pm from w,
  take_group_key w payload d = None /\ open_group_message payload d = Some (payload, []) /\
  take_typed w pm payload from d = None.
Proof.
  intros Hgk Hgm Hpm Hmm T TR d pm from w. unfold take_group_key, open_group_message, take_typed. split; [|split].
  - destruct (_ && _); [|done]. destruct (json_group_key payload) as [[[[[ty i] k] e] n]|]; [|done].
    by rewrite (Hgk _ _ _ _ _ eq_refl).
  - destruct (_ && _); [|done]. destruct (json_group_msg payload) as [[[g e] m]|]; [|done].
    by rewrite (Hgm _ _ _ eq_refl).
  - destruct (_ && _); [|done].
    destruct (json_profile_msg payload) as [[[[[ty a] b] f] k]|]; [rewrite (Hpm _ _ _ _ _ eq_refl)|];
      (destruct (json_media_meta payload) as [[[[k' m'] n'] f']|]; [rewrite (Hmm _ _ _ _ eq_refl)|]); done.
Qed.

(** A message that only the key of the one pending invitation opens. *)
Lemma handle_hello w now {T} {TR : Transport T} (d : Daemon T) pm nonce payload pk nick hex pk0 nick0 created rh :
  pm_Data pm = rh ++ Seal (DeriveHelloKey nonce) rh payload -> length rh = 24%nat ->
  pendingHellos d = {[hex := mkHello nonce pk0 nick0 created]} -> now - created <= hello_lifetime ->
  json_hello payload = Some ($"hello", pk, nick) -> pk <> [] ->
  (forall ty i k e n, json_group_key payload = Some (ty, i, k, e, n) -> ty = $"hello") ->
  (forall g e m, json_group_msg payload = Some (g, e, m) -> g = []) ->
  (forall ty a b f k, json_profile_msg payload = Some (ty, a, b, f, k) -> ty = $"hello") ->
  (forall k m n f, json_media_meta payload = Some (k, m, n, f) -> k = []) ->
  (forall p, is_Some (peers d !! p) -> cannot_open (identity d) (take 24 (pm_Data pm)) (drop 24 (pm_Data pm)) p) ->
  payload <> [] -> is_Some (peers (handle_polled w now pm d).1 !! pk).
Proof.
  intros Hdata Hrh Hhel Hage Hjson Hpk Hgk Hgm Hpm Hmm Hother Hne.
  assert (length (DeriveHelloKey nonce) = 32%nat) as Hk by apply hkdf_length.
  unfold handle_polled, decrypt_polled, act_on. rewrite Hdata, framed_long by done.
  rewrite decrypt_peers_none by (rewrite Hdata in Hother; intros p Hp%iter_map_keys; by apply Hother).
  unfold decrypt_hellos. rewrite Hhel, map_to_list_singleton.
  assert (iter_order [(hex, mkHello nonce pk0 nick0 created)] = [(hex, mkHello nonce pk0 nick0 created)]) as ->
    by (apply Permutation_singleton_r, iter_order_perm).
  cbn [fold_left try_hello h_createdAt h_nonce].
  replace (hello_lifetime <? now - created) with false by (symmetry; apply Z.ltb_ge; lia).
  unfold DecryptHello. rewrite NewX_true, framed_long by done. cbn [check negb mbind result_bind].
  rewrite open_framed by done. cbn [or_err]. rewrite Hjson.
  rewrite bool_decide_eq_true_2, bool_decide_eq_false_2 by done. cbn [andb negb].
  unfold opened. rewrite decide_False by done. set (d1 := set_hellos _ _).
  assert (is_Some (peers d1 !! pk)) as Hin.
  { unfold d1. cbn [peers set_hellos]. match goal with |- context [savePeers w ?d2] =>
      destruct (savePeers_frame w d2) as (_ & _ & _ & -> & _) end. cbn [peers set_peers]. rewrite lookup_insert_eq. eauto. }
  clearbody d1. destruct (hello_plain payload Hgk Hgm Hpm Hmm d1 pm pk w) as (-> & -> & ->). done.
Qed.

(** A message that one peer's key opens, and no other's. *)
Lemma handle_opened w now {T} {TR : Transport T} (d : Daemon T) nonce ct a text from id ts seq :
  length nonce = 24%nat -> is_Some (peers d !! a) ->
  decrypt_peers (identity d) nonce ct [a] = Some (Some text, from) ->
  (forall p, is_Some (peers d !! p) ->
     p = a \/ cannot_open (identity d) (take 24 (nonce ++ ct)) (drop 24 (nonce ++ ct)) p) ->
  let pm := mkPolled id (nonce ++ ct) ts seq in handle_polled w now pm d = act_on w pm text from d.
Proof.
  intros Hn Hpeer Hdec Hother. cbv zeta.
  assert (take 24 (nonce ++ ct) = nonce /\ drop 24 (nonce ++ ct) = ct) as [Ht Hd]
    by (rewrite <- Hn; split; [apply take_app_length|apply drop_app_length]).
  rewrite Ht, Hd in Hother. unfold handle_polled, decrypt_polled. cbn [pm_Data].
  replace (len (nonce ++ ct) <? NonceLength) with false
    by (symmetry; apply Z.ltb_ge; rewrite len_app; unfold len at 1; rewrite Hn; unfold NonceLength; pose proof (len_nonneg ct); lia).
  rewrite Ht, Hd. rewrite (decrypt_peers_only _ _ _ _ a (Some text, from)); [done|by apply iter_map_keys|exact Hdec|].
  intros p Hp. apply Hother. by apply iter_map_keys in Hp.
Qed.

(** A text that is not a JSON object is shown. *)
Lemma act_on_text w pm text from {T} {TR : Transport T} (d : Daemon T) :
  starts_object text = false -> act_on w pm text from d = (d, [received pm text from []]).
Proof.
  intros Htext. unfold act_on, take_group_key, open_group_message. rewrite Htext, !Bool.andb_false_r. cbv beta iota zeta.
  unfold take_typed. by rewrite Htext, Bool.andb_false_r.
Qed.

Lemma handle_text w now {T} {TR : Transport T} (d : Daemon T) nonce ct a text from id ts seq :
  length nonce = 24%nat -> is_Some (peers d !! a) ->
  decrypt_peers (identity d) nonce ct [a] = Some (Some text, from) -> starts_object text = false ->
  (forall p, is_Some (peers d !! p) ->
     p = a \/ cannot_open (identity d) (take 24 (nonce ++ ct)) (drop 24 (nonce ++ ct)) p) ->
  handle_polled w now (mkPolled id (nonce ++ ct) ts seq) d =
    (d, [received (mkPolled id (nonce ++ ct) ts seq) text from []]).
Proof. intros. erewrite handle_opened by done. by apply act_on_text. Qed.

End Facts.

(** ** Properties *)

(** C4: a conversation: a text one daemon sends to a peer leaves it as one
    message addressed to the peer's key, and when the peer's daemon, which
    knows the sender, polls that message, it reports the same text as coming
    from the sender, in no group, with the message's id in hex and the relay's
    timestamp (if it is positive) and sequence number, and changes nothing
    else.  The text is any bytes that do not begin with an opening brace, as
    the daemon's own JSON messages do; the keys of the other peers of the
    recipient do not open it. *)
Theorem conversation {C : CryptoLib} {L : CryptoLaws C} {F : FileCipher} {J : Json} {IO : IterOrder}
    w ra rb rn text ok now (da : Daemon Outbox) {T} {TR : Transport T} (db : Daemon T) da' resp :
  length ra = 32%nat -> length rb = 32%nat -> length rn = 24%nat ->
  GenerateKeyPair (Some ra) = Ok (identity da) -> GenerateKeyPair (Some rb) = Ok (identity db) ->
  SendMessage (myPubkey db) text [] (Some rn) ok now da = (da', Ok resp) ->
  starts_object text = false -> is_Some (peers db !! myPubkey da) ->
  exists payload, outbox (engine da') = outbox (engine da) ++ [(payload, myPubkey db)] /\
    ((forall p, is_Some (peers db !! p) -> p = myPubkey da \/ cannot_open (identity db) (take 24 payload) (drop 24 payload) p) ->
     forall id ts seq, handle_polled w now (mkPolled id payload ts seq) db =
       (db, [mkReceived (Hex.EncodeToString id) text (myPubkey da) [] (if 0 <? ts then u64 ts else 0) seq])).
Proof.
  intros Hra Hrb Hrn Ha Hb Hsend Htext Hpeer. unfold SendMessage in Hsend. cbn [bool_decide negb] in Hsend.
  rewrite bool_decide_eq_true_2 in Hsend by done. cbn [negb] in Hsend. unfold myPubkey in Hsend at 1.
  rewrite Base64Facts.b64_decode_encode in Hsend.
  destruct (SharedSecret (PrivateKey (identity da)) (PublicKey (identity db))) as [ss|] eqn:Hss; [|discriminate].
  destruct (EncryptMessage ss _ (Some rn)) as [[ct nonce]|] eqn:Henc; [|discriminate].
  destruct (decrypt_from_sender _ _ _ _ _ _ _ _ _ Hra Hrb Hrn Ha Hb Hss Henc) as [Hn Hdec].
  injection Hsend as <- _. exists (nonce ++ ct). split; [done|]. intros Hother id ts seq.
  by apply (handle_text _ _ _ _ _ (myPubkey da)).
Qed.

(** C38: the sender shown is the sender claimed: a peer can make a daemon show
    a text as coming from anybody.  What the peer seals under its own shared
    secret with another name on the first line and no signature is reported as
    a message of that name, with that text.  The text is one line that does
    not begin with an opening brace, the name is not empty and one line, and no
    other peer's key opens the message. *)
Theorem spoofed_sender {C : CryptoLib} {L : CryptoLaws C} {F : FileCipher} {J : Json} {IO : IterOrder}
    w now ss peer pk claimed text rn {T} {TR : Transport T} (d : Daemon T) :
  length rn = 24%nat -> is_Some (peers d !! peer) -> Base64.DecodeString peer = Some pk ->
  SharedSecret (PrivateKey (identity d)) pk = Ok ss ->
  newline ∉ claimed -> newline ∉ text -> claimed <> [] -> starts_object text = false ->
  exists ct, EncryptMessage ss (claimed ++ [newline] ++ text) (Some rn) = Ok (ct, rn) /\
    ((forall p, is_Some (peers d !! p) -> p = peer \/ cannot_open (identity d) (take 24 (rn ++ ct)) (drop 24 (rn ++ ct)) p) ->
     forall id ts seq, handle_polled w now (mkPolled id (rn ++ ct) ts seq) d =
       (d, [mkReceived (Hex.EncodeToString id) text claimed [] (if 0 <? ts then u64 ts else 0) seq])).
Proof.
  intros Hrn Hpeer Hdec Hss Hnc Hnt Hc Htext.
  destruct (spoofed_opens (identity d) peer pk ss claimed text rn) as (ct & He & Ho); try done.
  exists ct. split; [done|]. intros Hother id ts seq. by apply (handle_text _ _ _ _ _ peer).
Qed.

(** C23: a direct message is never dropped: when [SendMessage] answers without
    error, the nonce and ciphertext of the signed text, encrypted under the
    secret shared with the peer, were given to the engine for that peer; they
    were either accepted by the engine, and the queue is as before, or are the
    one new row of the offline queue, addressed to the same peer, and the
    answer says which. *)
Theorem send_or_queue {T} {TR : Transport T} {C : CryptoLib} {IO : IterOrder} peer text rand ok now (d d' : Daemon T) resp :
  SendMessage peer text [] rand ok now d = (d', Ok resp) ->
  exists pk ss ct nonce t id r,
    Base64.DecodeString peer = Some pk /\ SharedSecret (PrivateKey (identity d)) pk = Ok ss /\
    EncryptMessage ss (BuildSignedPayload (identity d) text) rand = Ok (ct, nonce) /\
    eng_send (nonce ++ ct) peer (engine d) = (t, (id, r)) /\ engine d' = t /\
    MessageId resp = Base64.EncodeToString id /\
    match r with
    | Ok n => QueuedFlag resp = false /\ ChunkCount resp = i32 n /\ queue d' = queue d
    | Err _ => QueuedFlag resp = true /\
        rows (queue d') = rows (queue d) ++ [mkQueued (last_id (queue d) + 1) peer (nonce ++ ct) now 0 []]
    end.
Proof.
  unfold SendMessage. rewrite bool_decide_eq_true_2 by done. cbn [negb].
  destruct (Base64.DecodeString peer) as [pk|]; [|discriminate].
  destruct (SharedSecret _ pk) as [ss|] eqn:Hss; [|discriminate].
  destruct (EncryptMessage ss _ rand) as [[ct nonce]|] eqn:He; [|discriminate].
  destruct (eng_send (nonce ++ ct) peer (engine d)) as [t [id [n|err]]] eqn:Hs.
  - intros [= <- <-]. exists pk, ss, ct, nonce, t, id, (Ok n). done.
  - cbn [queue set_engine]. unfold Enqueue. destruct ok; [|discriminate]. intros [= <- <-].
    exists pk, ss, ct, nonce, t, id, (Err err). done.
Qed.

(** C22: an invitation connects two daemons: the inviter's code, joined by
    another daemon, gives that daemon the inviter as a peer and sends one
    message to the inviter, which, polled within a day by an inviter with no
    other invitation open and no peer whose key opens it, gives the inviter
    the other daemon as a peer.  The hypotheses on JSON say that the decoder
    reads the hello's own fields. *)
Theorem invite_connects {C : CryptoLib} {L : CryptoLaws C} {F : FileCipher} {J : Json} {IO : IterOrder}
    wa wb nick rn rh now now' db_ok code (da : Daemon Outbox) da1 (dj dj1 : Daemon Outbox) r :
  length rn = 8%nat -> length rh = 24%nat -> pendingHellos da = ∅ -> now' - now <= hello_lifetime ->
  let payload := hello_payload (myPubkey dj) (getMyNickname dj) in
  json_hello payload = Some ($"hello", myPubkey dj, getMyNickname dj) ->
  (forall ty i k e n, json_group_key payload = Some (ty, i, k, e, n) -> ty = $"hello") ->
  (forall g e m, json_group_msg payload = Some (g, e, m) -> g = []) ->
  (forall ty a b f k, json_profile_msg payload = Some (ty, a, b, f, k) -> ty = $"hello") ->
  (forall k m n f, json_media_meta payload = Some (k, m, n, f) -> k = []) ->
  myPubkey dj <> [] ->
  GenerateInvite nick (Some rn) now da = (da1, Ok code) ->
  JoinViaCode wb code (Some rh) db_ok now dj = (dj1, Ok r) ->
  is_Some (peers dj1 !! myPubkey da) /\
  exists sealed, outbox (engine dj1) = outbox (engine dj) ++ [(sealed, myPubkey da)] /\
    forall id ts seq, (forall p, is_Some (peers da1 !! p) -> cannot_open (identity da1) (take 24 sealed) (drop 24 sealed) p) ->
      is_Some (peers (handle_polled wa now' (mkPolled id sealed ts seq) da1).1 !! myPubkey dj).
Proof.
  intros Hrn Hrh Hnone Hage payload Hjson Hgk Hgm Hpm Hmm Hme Hgen Hjoin.
  unfold GenerateInvite in Hgen. set (nick' := if decide (nick = []) then _ else nick) in *.
  destruct (GenerateInviteCode (PublicKey (identity da)) nick' (Some rn)) as [[code' nonce]|] eqn:Hcode; [|discriminate].
  injection Hgen as <- ->.
  destruct (invite_parse (PublicKey (identity da)) nick' rn code nonce Hrn Hcode) as (Hparse & -> ).
  unfold JoinViaCode in Hjoin. rewrite Hparse in Hjoin.
  set (dj0 := savePeers wb _) in Hjoin.
  assert (engine dj0 = engine dj /\ identity dj0 = identity dj /\ profile dj0 = profile dj /\
          peers dj0 = <[myPubkey da := mkPeer nick' (myPubkey da)]> (peers dj)) as (He & Hi & Hp & Hps).
  { unfold dj0. match goal with |- context [savePeers wb ?d1] =>
      destruct (savePeers_frame wb d1) as (-> & _ & -> & -> & _ & _ & _ & -> & _) end. done. }
  assert (myPubkey dj0 = myPubkey dj /\ getMyNickname dj0 = getMyNickname dj) as [Hpk Hnk]
    by (unfold myPubkey, getMyNickname; by rewrite Hi, Hp).
  rewrite Hpk, Hnk in Hjoin. fold payload in Hjoin.
  assert (length (DeriveHelloKey rn) = 32%nat) as Hk by apply hkdf_length.
  unfold EncryptHello in Hjoin. rewrite NewX_true in Hjoin by done. cbn [check or_err mbind result_bind] in Hjoin.
  injection Hjoin as <- _. cbn [peers set_engine engine]. rewrite Hps. split; [by rewrite lookup_insert_eq|].
  exists (rh ++ Seal (DeriveHelloKey rn) rh payload). rewrite He. split; [done|].
  intros id ts seq Hother.
  apply (handle_hello wa now' _ (mkPolled id (rh ++ Seal (DeriveHelloKey rn) rh payload) ts seq) rn
    payload (myPubkey dj) (getMyNickname dj) (Hex.EncodeToString rn) (myPubkey da) nick' now rh); try done.
  cbn [pendingHellos set_hellos]. by rewrite Hnone.
Qed.

(** ** Closed instances *)
Definition daemon_of (kp : KeyPair) (ps : gmap bytes PeerInfoEntry) : Daemon Outbox :=
  mkDaemon (mkOutbox (NewDNSClientEngine [$"10.0.0.1:53"] $"zone") [] []) (NewDetector false 1) NewOfflineQueue kp
    ps ∅ ∅ ∅ None (replicate 64 dot) None ∅.
Definition alice_kp : KeyPair := deriveEd25519 (C := toy_crypto) (demo_base 97).
Definition bob_kp : KeyPair := deriveEd25519 (C := toy_crypto) (demo_base 98).
Definition alice : Daemon Outbox := daemon_of alice_kp ∅.
Definition bob : Daemon Outbox :=
  daemon_of bob_kp {[myPubkey alice := mkPeer $"Alice" (myPubkey alice)]}.

Lemma conversation_witness : exists payload,
  handle_polled (C := toy_crypto) (F := toy_cipher) (J := no_json) (IO := forward_order) (fun _ => Written) 5
    (mkPolled $"01234567" payload 1 2) bob
  = (bob, [mkReceived $"3031323334353637" $"hi Bob" (myPubkey alice) [] 1 2]).
Proof.
  destruct (SendMessage (C := toy_crypto) (IO := forward_order) (myPubkey bob) $"hi Bob" [] (Some (replicate 24 dot)) true 3 alice)
    as [da' [resp|err]] eqn:Hs.
  2: { exfalso. assert (match (SendMessage (C := toy_crypto) (IO := forward_order) (myPubkey bob) $"hi Bob" []
         (Some (replicate 24 dot)) true 3 alice).2 with Ok _ => true | Err _ => false end = true) as H
         by (vm_compute; reflexivity). rewrite Hs in H. discriminate H. }
  destruct (conversation (L := toy_crypto_laws) (F := toy_cipher) (J := no_json) (IO := forward_order) (fun _ => Written)
    (replicate 32 (Ascii.ascii_of_nat 97)) (replicate 32 (Ascii.ascii_of_nat 98)) (replicate 24 dot) $"hi Bob" true 3
    alice bob da' resp eq_refl eq_refl eq_refl eq_refl eq_refl Hs eq_refl) as (payload & _ & H).
  - exists (mkPeer $"Alice" (myPubkey alice)). apply lookup_singleton_eq.
  - exists payload. refine (H _ $"01234567" 1 2). intros p [x Hx]. left. unfold bob, daemon_of in Hx. cbn [peers] in Hx.
    by apply lookup_singleton_Some in Hx as [<- _].
Defined.

Lemma spoofed_sender_witness : exists payload,
  handle_polled (C := toy_crypto) (F := toy_cipher) (J := no_json) (IO := forward_order) (fun _ => Written) 5
    (mkPolled $"01234567" payload 1 2) bob
  = (bob, [mkReceived $"3031323334353637" $"send money" $"carol" [] 1 2]).
Proof.
  destruct (spoofed_sender (L := toy_crypto_laws) (F := toy_cipher) (J := no_json) (IO := forward_order) (fun _ => Written) 5
    (Sha256.Sum256 $"point") (myPubkey alice) (PublicKey alice_kp) $"carol" $"send money" (replicate 24 dot) bob)
    as (ct & _ & H).
  - reflexivity.
  - exists (mkPeer $"Alice" (myPubkey alice)). apply lookup_singleton_eq.
  - apply Base64Facts.b64_decode_encode.
  - vm_compute. reflexivity.
  - intros H%list_elem_of_In. vm_compute in H. intuition discriminate.
  - intros H%list_elem_of_In. vm_compute in H. intuition discriminate.
  - discriminate.
  - reflexivity.
  - exists (replicate 24 dot ++ ct). refine (H _ $"01234567" 1 2). intros p [x Hx]. left. unfold bob, daemon_of in Hx. cbn [peers] in Hx.
    by apply lookup_singleton_Some in Hx as [<- _].
Defined.

(** A transport that cannot send. *)
Definition offline_transport : Transport Outbox := {|
  eng_conf := ob_conf;
  eng_set_conf e t := mkOutbox e (outbox t) (inbox t);
  eng_send payload peer t := (t, ($"01234567", Err $"no route"));
  eng_poll _ t := (t, Ok []);
  tcp_upload _ _ data name mime mt t := (t, Err UploadFailed);
  tcp_download _ _ _ t := (t, Err DownloadFailed)
|}.

Lemma send_or_queue_witness : exists d' resp ss ct nonce,
  SendMessage (TR := offline_transport) (C := toy_crypto) (IO := forward_order) (myPubkey bob) $"hi" []
    (Some (replicate 24 dot)) true 3 alice = (d', Ok resp) /\
  EncryptMessage (C := toy_crypto) ss (BuildSignedPayload (C := toy_crypto) alice_kp $"hi") (Some (replicate 24 dot)) = Ok (ct, nonce) /\
  rows (queue d') = [mkQueued 1 (myPubkey bob) (nonce ++ ct) 3 0 []].
Proof.
  destruct (SendMessage (TR := offline_transport) (C := toy_crypto) (IO := forward_order) (myPubkey bob) $"hi" []
    (Some (replicate 24 dot)) true 3 alice) as [d' [resp|err]] eqn:Hs.
  2: { exfalso. assert (match (SendMessage (TR := offline_transport) (C := toy_crypto) (IO := forward_order) (myPubkey bob)
         $"hi" [] (Some (replicate 24 dot)) true 3 alice).2 with Ok _ => true | Err _ => false end = true) as H
         by (vm_compute; reflexivity). rewrite Hs in H. discriminate H. }
  destruct (send_or_queue (TR := offline_transport) (C := toy_crypto) (IO := forward_order) (myPubkey bob) $"hi"
    (Some (replicate 24 dot)) true 3 alice d' resp Hs) as (pk & ss & ct & nonce & t & id & r & _ & _ & Hseal & He & _ & _ & Hr).
  injection He as _ _ <-. exists d', resp, ss, ct, nonce. split; [reflexivity|]. split; [exact Hseal|exact (proj2 Hr)].
Defined.

(** A decoder that knows the hello of one daemon. *)
Definition hello_json (pk nick : bytes) : Json := {|
  json_relays _ := None; marshal_peers _ := None; json_peers _ := None; marshal_groups _ := None;
  json_groups _ := None; marshal_profile _ := None; json_profile_file _ := None;
  json_hello p := if decide (p = hello_payload pk nick) then Some ($"hello", pk, nick) else None;
  json_group_key _ := None; json_group_msg _ := None; json_profile_msg _ := None; json_media_meta _ := None;
  marshal_bio b := b; marshal_sidecar _ _ _ _ s := s; marshal_meta _ := None; json_stream_header _ := None
|}.

Lemma invite_connects_witness : exists code da1 dj1 r,
  GenerateInvite (T := Outbox) $"Alice" (Some $"01234567") 10 alice = (da1, Ok code) /\
  JoinViaCode (C := toy_crypto) (J := hello_json (myPubkey bob) $"Me") (fun _ => Written) code (Some (replicate 24 dot)) true 10
    bob = (dj1, Ok r) /\
  is_Some (peers dj1 !! myPubkey alice).
Proof.
  destruct (GenerateInvite (T := Outbox) $"Alice" (Some $"01234567") 10 alice) as [da1 [code|err]] eqn:Hg.
  2: { exfalso. assert (match (GenerateInvite (T := Outbox) $"Alice" (Some $"01234567") 10 alice).2
         with Ok _ => true | Err _ => false end = true) as H by (vm_compute; reflexivity). rewrite Hg in H. discriminate H. }
  assert (match (GenerateInvite (T := Outbox) $"Alice" (Some $"01234567") 10 alice).2 with
    | Ok code => match (JoinViaCode (C := toy_crypto) (J := hello_json (myPubkey bob) $"Me") (fun _ => Written) code
        (Some (replicate 24 dot)) true 10 bob).2 with Ok _ => true | Err _ => false end
    | Err _ => false end = true) as Hok by (vm_compute; reflexivity).
  rewrite Hg in Hok. cbn [snd] in Hok.
  destruct (JoinViaCode (C := toy_crypto) (J := hello_json (myPubkey bob) $"Me") (fun _ => Written) code (Some (replicate 24 dot))
    true 10 bob) as [dj1 [r|err]] eqn:Hj; [|discriminate Hok].
  exists code, da1, dj1, r. split; [reflexivity|]. split; [exact Hj|].
  refine (proj1 (invite_connects (L := toy_crypto_laws) (F := toy_cipher) (J := hello_json (myPubkey bob) $"Me")
    (IO := forward_order) (fun _ => Written) (fun _ => Written) $"Alice" $"01234567" (replicate 24 dot) 10 20 true code
    alice da1 bob dj1 r eq_refl eq_refl eq_refl _ _ _ _ _ _ _ Hg Hj)); try discriminate.
  cbn [json_hello hello_json]. by rewrite decide_True.
Defined.
