(* ===== verification/Transfers.v ===== *)
(** * Media calls of the daemon (SendMedia, SendMediaStream, GetMediaStatus, CancelSend, cleanupTransfers of daemon.go)

    A transfer is an entry of the daemon's map that the sending handler
    updates as it goes; other calls run while the handler waits for the
    network, and what they do to the daemon in the meantime is an argument.
    The handler keeps a pointer to its entry and so writes to the entry of the
    map as long as no other call puts another one under the same id.  A
    chunk of a stream is written to a temporary file that takes as many bytes
    as there is room for; the code ignores a short write.  The
    texts of errors of the standard library are replaced by fixed names. *)

From S2P Require Import Prelude GoStrings Codec Sha256 Crypto Dns Engine Queue MediaClient Daemon.

(** [fmt.Sprintf("%x", n)] of a non-negative number. *)
Definition hex_digit (v : Z) : byte := if v <? 10 then byte_of (48 + v) else byte_of (87 + v).
Fixpoint hex_digits (fuel : nat) (n : Z) (acc : bytes) : bytes :=
  match fuel with
  | O => acc
  | S f => let acc := hex_digit (n mod 16) :: acc in if n / 16 =? 0 then acc else hex_digits f (n / 16) acc
  end.
Definition format_x (n : Z) : bytes := hex_digits 16 n [].

Inductive pb_status := PB_QUEUED | PB_SENDING | PB_COMPLETE | PB_FAILED.

Definition toProtoStatus (t : MediaTransfer) : pb_status :=
  match t_Status t with
  | Queued => PB_QUEUED
  | Sending => PB_SENDING
  | Complete => PB_COMPLETE
  | Failed => PB_FAILED
  | Cancelled => PB_FAILED
  end.

Definition new_transfer (now : Z) : MediaTransfer := mkTransfer Queued 0 0 0 [] now.
Definition fail_transfer (msg : bytes) (t : MediaTransfer) : MediaTransfer :=
  mkTransfer Failed (t_Progress t) (t_ChunksSent t) (t_TotalChunks t) msg (t_Created t).
Definition sending_transfer (progress : Z) (t : MediaTransfer) : MediaTransfer :=
  mkTransfer Sending progress (t_ChunksSent t) (t_TotalChunks t) (t_Error t) (t_Created t).
Definition progress_transfer (progress : Z) (t : MediaTransfer) : MediaTransfer :=
  mkTransfer (t_Status t) progress (t_ChunksSent t) (t_TotalChunks t) (t_Error t) (t_Created t).
Definition complete_transfer (t : MediaTransfer) : MediaTransfer :=
  mkTransfer Complete 100 (t_ChunksSent t) (t_TotalChunks t) (t_Error t) (t_Created t).
Definition chunk_transfer (count : Z) (t : MediaTransfer) : MediaTransfer :=
  mkTransfer Sending (i32 (Z.quot (i32 (count * 100)) 1000)) count (t_TotalChunks t) (t_Error t) (t_Created t).

Record SendMediaResponse := mkMediaResponse { sm_MessageId : bytes; sm_Seconds : Z; sm_Transport : bytes }.

Section Transfers.
Context {T : Type} {TR : Transport T} {C : CryptoLib} {J : Json}.
Implicit Types d : Daemon T.

Definition on_transfer (id : bytes) (f : MediaTransfer -> MediaTransfer) d : Daemon T :=
  set_transfers (alter f id (transfers d)) d.

(** [if d.transferStore != nil { d.transferStore.Update(...) }]; [ok] is
    whether the statement succeeds. *)
Definition store_update (ok : bool) (id : bytes) (status progress chunks : Z) d : Daemon T :=
  match transferStore d with
  | Some t => set_store (Some (Update ok id status progress chunks t).1) d
  | None => d
  end.

(** The metadata as an encrypted message for the peer: ciphertext and nonce. *)
Definition seal_meta (peerPubkeyB64 : bytes) (meta : MediaMessage) (rand : option bytes) d
    : result bytes (bytes * bytes) :=
  metaBytes ← or_err $"marshal" (marshal_meta meta);
  peerPubkey ← or_err $"pubkey" (Base64.DecodeString peerPubkeyB64);
  match SharedSecret (PrivateKey (identity d)) peerPubkey with
  | Err _ => Err $"secret"
  | Ok ss => match EncryptMessage ss metaBytes rand with Ok r => Ok r | Err _ => Err $"encrypt" end
  end.

Definition stamp_meta (id : bytes) (now : Z) (m : MediaMessage) : MediaMessage :=
  mkMeta id now (MediaType m) (FileName m) (MimeType m) (FileSize m) (FileKeyB64 m) (MetaChecksum m)
    (HasThumbnail m) (Thumbnail m) (FileID m).

(** [SendMedia]; [during_upload] and [during_send] are what other calls do
    to the daemon while this one waits for the relay. *)
Definition SendMedia (during_upload during_send : Daemon T -> Daemon T)
    (peerPubkeyB64 mediaData filename mimeType : bytes) (nanos millis : Z) (rand : option bytes) (db_ok : bool) d
    : Daemon T * result grpc_error SendMediaResponse :=
  let estimatedSec := EstimateSeconds (len mediaData) true in
  let msgID := format_x nanos in
  let d := set_transfers (<[msgID := new_transfer nanos]> (transfers d)) d in
  match GetRelays (conf d) with
  | [] => (on_transfer msgID (fail_transfer $"no relays configured for TCP upload") d, Err FailedPrecondition)
  | relay :: _ =>
      let d := on_transfer msgID (sending_transfer 10) d in
      let '(t, r) := tcp_upload relay (d_authToken d) mediaData filename mimeType MediaTypeFile (engine d) in
      let d := during_upload (set_engine t d) in
      match r with
      | Err _ => (on_transfer msgID (fail_transfer $"upload") d, Err Other)
      | Ok meta =>
          let d := on_transfer msgID (progress_transfer 50) d in
          match seal_meta peerPubkeyB64 (stamp_meta msgID millis meta) rand d with
          | Err e => (on_transfer msgID (fail_transfer e) d, Err Other)
          | Ok (ciphertext, nonce) =>
              let '(t, (_, sent)) := eng_send (nonce ++ ciphertext) peerPubkeyB64 (engine d) in
              let d := during_send (set_engine t d) in
              match sent with
              | Err e => (on_transfer msgID (fail_transfer e) d, Err Other)
              | Ok _ =>
                  let d := on_transfer msgID complete_transfer d in
                  let d := store_update db_ok msgID TransferComplete 100 (i32 (len mediaData / (256 * 1024)) + 1) d in
                  (d, Ok (mkMediaResponse msgID estimatedSec $"tcp"))
              end
          end
      end
  end.

Definition GetMediaStatus (id : bytes) d : result grpc_error (pb_status * Z * bytes) :=
  match transfers d !! id with
  | None => Err NotFound
  | Some t => Ok (toProtoStatus t, t_Progress t, t_Error t)
  end.

Definition CancelSend (id : bytes) d : Daemon T * result grpc_error unit :=
  match transfers d !! id with
  | None => (d, Err NotFound)
  | Some t =>
      if decide (t_Status t = Complete \/ t_Status t = Failed) then (d, Err FailedPrecondition)
      else (on_transfer id (fun t => mkTransfer Cancelled (t_Progress t) (t_ChunksSent t) (t_TotalChunks t) (t_Error t)
                              (t_Created t)) d, Ok tt)
  end.

Definition hour : Z := 3600 * 1000000000.
Definition removable (now : Z) (t : MediaTransfer) : bool :=
  bool_decide (t_Status t = Complete \/ t_Status t = Failed \/ t_Status t = Cancelled) && (hour <? now - t_Created t).

(** One turn of [cleanupTransfers]. *)
Definition cleanupTransfers (now : Z) d : Daemon T :=
  set_transfers (filter (fun x => removable now x.2 = false) (transfers d)) d.

(** ** Streaming upload *)

(** A chunk comes with the number of its bytes that the disk has room for:
    [tempFile.Write] stores that many, and its error is discarded. *)
Inductive stream_event := StreamChunk (transferId data : bytes) (room : nat) | StreamError.

(** What the receiving loop keeps. *)
Record stream_state := mkStream {
  ss_id : bytes;
  ss_file : option bytes;     (* the temporary file, once created *)
  ss_size : Z;
  ss_peer : bytes;
  ss_name : bytes;
  ss_mime : bytes;
  ss_count : Z
}.
Definition stream_start : stream_state := mkStream [] None 0 [] [] [] 0.

(** The first chunk: a header, or file content if it does not parse. *)
Definition first_chunk (temp_ok db_ok : bool) (id data : bytes) (room : nat) (now : Z) (st : stream_state) d
    : result grpc_error (stream_state * Daemon T) :=
  let '(peer, name, mime) :=
    match json_stream_header data with Some h => h | None => (ss_peer st, ss_name st, ss_mime st) end in
  _ ← check temp_ok Internal;
  let d := set_transfers (<[id := new_transfer now]> (transfers d)) d in
  let d := match transferStore d with
           | Some t => set_store (Some (Create db_ok (mkEntry id peer name mime 0 TransferQueued 0 0 0 0 [] (now / 1000000) []) t).1) d
           | None => d
           end in
  let content := if decide (peer = []) then take room data else [] in
  Ok (mkStream id (Some content) (ss_size st + len content) peer name mime (i32 (ss_count st + 1)), d).

(** The receiving loop: the state at the end of the stream, or the error it
    returns and the daemon then. *)
Fixpoint recv_stream (temp_ok db_ok : bool) (now : Z) (events : list stream_event) (st : stream_state) d
    : result (Daemon T * grpc_error) (stream_state * Daemon T) :=
  match events with
  | [] => Ok (st, d)
  | StreamError :: _ =>
      let d := if decide (ss_id st = []) then d
               else store_update db_ok (ss_id st) TransferFailed 0 (ss_count st)
                      (on_transfer (ss_id st) (fail_transfer $"recv") d) in
      Err (d, Other)
  | StreamChunk id data room :: rest =>
      if decide (ss_id st = []) then
        match first_chunk temp_ok db_ok id data room now st d with
        | Err e => Err (d, e)
        | Ok (st, d) => recv_stream temp_ok db_ok now rest st d
        end
      else
        let st := mkStream (ss_id st) (Some (default [] (ss_file st) ++ take room data)) (ss_size st + len (take room data))
                    (ss_peer st) (ss_name st) (ss_mime st) (i32 (ss_count st + 1)) in
        if MediaMaxHardCap <? ss_size st then Err (d, InvalidArgument)
        else recv_stream temp_ok db_ok now rest st (on_transfer (ss_id st) (chunk_transfer (ss_count st)) d)
  end.

Definition fail_stream (ok : bool) (st : stream_state) (msg : bytes) d : Daemon T :=
  store_update ok (ss_id st) TransferFailed 0 (ss_count st) (on_transfer (ss_id st) (fail_transfer msg) d).

(** [SendMediaStream] at time [now], in nanoseconds; [read_ok] is whether the temporary file can be read
    back.  The message to the peer is the ciphertext alone. *)
Definition SendMediaStream (temp_ok read_ok db_ok : bool) (now : Z) (rand : option bytes) (events : list stream_event) d
    : Daemon T * result grpc_error SendMediaResponse :=
  match recv_stream temp_ok db_ok now events stream_start d with
  | Err (d, e) => (d, Err e)
  | Ok (st, d) =>
      match ss_file st with
      | None => (d, Err InvalidArgument)
      | Some fileData =>
          if negb read_ok then (d, Err Internal)
          else if decide (ss_peer st = []) then
            (store_update db_ok (ss_id st) TransferComplete 100 (ss_count st) d,
             Ok (mkMediaResponse (ss_id st) (EstimateSeconds (ss_size st) true) $"tcp"))
          else
            match GetRelays (conf d) with
            | [] => (fail_stream db_ok st $"no relays configured for TCP upload" d, Err FailedPrecondition)
            | relay :: _ =>
                let '(t, r) := tcp_upload relay (d_authToken d) fileData (ss_name st) (ss_mime st) MediaTypeFile (engine d) in
                let d := set_engine t d in
                match r with
                | Err _ => (fail_stream db_ok st $"upload" d, Err Other)
                | Ok meta =>
                    let d := store_update db_ok (ss_id st) TransferConfirming 90 (ss_count st) d in
                    match seal_meta (ss_peer st) (stamp_meta (ss_id st) (now / 1000000) meta) rand d with
                    | Err e => (fail_stream db_ok st e d,
                                Err (if decide (e = $"pubkey") then InvalidArgument else Other))
                    | Ok (ciphertext, _) =>
                        let d := send_to ciphertext (ss_peer st) d in
                        let d := store_update db_ok (ss_id st) TransferComplete 100 (ss_count st)
                                   (on_transfer (ss_id st) complete_transfer d) in
                        (d, Ok (mkMediaResponse (ss_id st) (EstimateSeconds (ss_size st) true) $"tcp"))
                    end
                end
            end
      end
  end.

(** ** Theorems *)

(** What a call made by somebody else may do to the transfer in the meantime:
    change it, but not drop it. *)
Definition keeps_transfer (id : bytes) (f : Daemon T -> Daemon T) : Prop :=
  forall d, is_Some (transfers d !! id) -> is_Some (transfers (f d) !! id).

Lemma on_transfer_lookup id f d id' :
  transfers (on_transfer id f d) !! id' = if decide (id' = id) then f <$> transfers d !! id' else transfers d !! id'.
Proof.
  unfold on_transfer. cbn [transfers set_transfers]. case_decide as H.
  - subst. by rewrite lookup_alter_eq.
  - by rewrite lookup_alter_ne.
Qed.

Lemma store_update_transfers ok id st pr ch d : transfers (store_update ok id st pr ch d) = transfers d.
Proof. unfold store_update. by destruct (transferStore d). Qed.

Lemma CancelSend_keeps id id' : keeps_transfer id (fun d => (CancelSend id' d).1).
Proof.
  intros d H. unfold CancelSend. destruct (transfers d !! id') as [t|]; [|done]. case_decide; [done|]. cbn [fst].
  rewrite on_transfer_lookup. case_decide; [|done]. by apply fmap_is_Some.
Qed.

Lemma on_transfer_is_Some id f d id' :
  is_Some (transfers (on_transfer id f d) !! id') <-> is_Some (transfers d !! id').
Proof. rewrite on_transfer_lookup. case_decide; [by rewrite fmap_is_Some|done]. Qed.

(** The status an update leaves, when there is an entry to update. *)
Lemma on_transfer_status id f d s :
  is_Some (transfers d !! id) -> (forall t, t_Status (f t) = s) ->
  t_Status <$> transfers (on_transfer id f d) !! id = Some s.
Proof. intros [t Ht] Hf. rewrite on_transfer_lookup, decide_True, Ht by done. cbn. by rewrite Hf. Qed.

Lemma set_engine_transfers t d : transfers (set_engine t d) = transfers d.
Proof. done. Qed.

(** The status a transfer ends with. *)
Lemma SendMedia_ends during_upload during_send peer data filename mime nanos millis rand db_ok d :
  keeps_transfer (format_x nanos) during_upload -> keeps_transfer (format_x nanos) during_send ->
  let x := SendMedia during_upload during_send peer data filename mime nanos millis rand db_ok d in
  t_Status <$> transfers x.1 !! format_x nanos = Some (match x.2 with Ok _ => Complete | Err _ => Failed end) /\
  match x.2 with Ok resp => sm_MessageId resp = format_x nanos /\ 5 <= sm_Seconds resp | Err _ => True end.
Proof.
  intros Hu Hs. unfold SendMedia. cbv zeta. set (id := format_x nanos) in *.
  match goal with |- context [GetRelays (conf ?x)] => set (d0 := x) end.
  assert (is_Some (transfers d0 !! id)) as H0 by (cbn; rewrite lookup_insert_eq; eauto). clearbody d0.
  destruct (GetRelays (conf d0)) as [|relay rl]; [split; [by apply on_transfer_status|done]|].
  destruct (tcp_upload _ _ _ _ _ _ _) as [t [meta|e]]; match goal with |- context [during_upload ?x] =>
    assert (is_Some (transfers (during_upload x) !! id)) as H1
      by (apply Hu; rewrite set_engine_transfers; by apply on_transfer_is_Some); set (d1 := during_upload x) in * end;
    clearbody d1; [|split; [by apply on_transfer_status|done]].
  apply (on_transfer_is_Some id (progress_transfer 50)) in H1.
  set (d2 := on_transfer id (progress_transfer 50) d1) in *. clearbody d2.
  destruct (seal_meta _ _ _ _) as [[ct nonce]|e]; [|split; [by apply on_transfer_status|done]].
  destruct (eng_send _ _ _) as [t2 [mid [n|e]]]; match goal with |- context [during_send ?x] =>
    assert (is_Some (transfers (during_send x) !! id)) as H2 by (apply Hs; by rewrite set_engine_transfers);
    set (d3 := during_send x) in * end; clearbody d3; [|split; [by apply on_transfer_status|done]].
  cbn [fst snd]. rewrite store_update_transfers. split; [by apply on_transfer_status|]. split; [done|].
  cbn [sm_Seconds]. unfold EstimateSeconds. destruct (_ <? 5) eqn:E; [done|]. by apply Z.ltb_ge in E.
Qed.

(** [CancelSend] changes the table of transfers only. *)
Lemma CancelSend_only id d : exists x, (CancelSend id d).1 = set_transfers x d.
Proof.
  assert (exists x, d = set_transfers x d) as Hd by (exists (transfers d); by destruct d).
  unfold CancelSend. destruct (transfers d !! id) as [t|]; [|exact Hd]. case_decide; [exact Hd|]. eexists. reflexivity.
Qed.

(** A cancellation, or nothing. *)
Definition maybe_cancel (b : bool) (id : bytes) d : Daemon T := if b then (CancelSend id d).1 else d.

Lemma maybe_cancel_only b id d : exists x, maybe_cancel b id d = set_transfers x d.
Proof. destruct b; [apply CancelSend_only|]. exists (transfers d). by destruct d. Qed.

Lemma maybe_cancel_keeps b id id' : keeps_transfer id (maybe_cancel b id').
Proof. destruct b; [apply CancelSend_keeps|by intros d H]. Qed.

Lemma store_update_engine ok id st pr ch d : engine (store_update ok id st pr ch d) = engine d.
Proof. unfold store_update. by destruct (transferStore d). Qed.

(** Cancelling makes no difference to what is sent and answered. *)
Lemma SendMedia_cancelled b1 b2 id peer data filename mime nanos millis rand db_ok d :
  let call c1 c2 := SendMedia c1 c2 peer data filename mime nanos millis rand db_ok d in
  (call (maybe_cancel b1 id) (maybe_cancel b2 id)).2 = (call Datatypes.id Datatypes.id).2 /\
  engine (call (maybe_cancel b1 id) (maybe_cancel b2 id)).1 = engine (call Datatypes.id Datatypes.id).1.
Proof.
  cbv zeta. unfold SendMedia. cbv zeta. unfold Datatypes.id.
  match goal with |- context [GetRelays (conf ?x)] => set (d0 := x) end; destruct (GetRelays (conf d0)) as [|relay rl]; [by split|].
  clearbody d0. cbn [d_authToken engine on_transfer set_transfers].
  destruct (tcp_upload _ _ _ _ _ _ _) as [t r]. set (d1 := set_engine t _).
  destruct (maybe_cancel_only b1 id d1) as [x1 ->]. destruct r as [meta|e]; [|done].
  match goal with |- context [seal_meta peer ?m rand ?y] => change (seal_meta peer m rand y) with (seal_meta peer m rand d1) end.
  destruct (seal_meta _ _ _ _) as [[ct nonce]|e]; [|done]. cbn [engine on_transfer set_transfers].
  destruct (eng_send _ _ _) as [t2 [mid sent]].
  match goal with |- context [maybe_cancel b2 id ?y] => destruct (maybe_cancel_only b2 id y) as [x2 ->] end.
  destruct sent as [n|e]; [|done]. cbn [fst snd]. by rewrite !store_update_engine.
Qed.

(** C31: a transfer ends: when [SendMedia] returns, the transfer it answers for
    is Complete if the call succeeded and Failed if it did not, whatever the
    other calls did to it in the meantime, short of dropping it.  In
    particular cancelling has no effect: with [CancelSend] for the transfer
    during the upload, during the sending, or both, the call returns the same
    answer and leaves the engine, with what was sent, the same as without, and
    the transfer still ends Complete when the call succeeds. *)
Theorem send_media_terminal during_upload during_send peer data filename mime nanos millis rand db_ok d :
  keeps_transfer (format_x nanos) during_upload -> keeps_transfer (format_x nanos) during_send ->
  let id := format_x nanos in
  let call c1 c2 := SendMedia c1 c2 peer data filename mime nanos millis rand db_ok d in
  let ends (x : Daemon T * result grpc_error SendMediaResponse) :=
    t_Status <$> transfers x.1 !! id = Some (match x.2 with Ok _ => Complete | Err _ => Failed end) in
  ends (call during_upload during_send) /\
  match (call during_upload during_send).2 with Ok resp => sm_MessageId resp = id /\ 5 <= sm_Seconds resp | Err _ => True end /\
  forall b1 b2 : bool,
    let cancel (b : bool) d := if b then (CancelSend id d).1 else d in
    (call (cancel b1) (cancel b2)).2 = (call (fun d => d) (fun d => d)).2 /\
    engine (call (cancel b1) (cancel b2)).1 = engine (call (fun d => d) (fun d => d)).1 /\
    ends (call (cancel b1) (cancel b2)).
Proof.
  intros Hu Hs. cbv zeta. split; [by apply SendMedia_ends|]. split; [by apply SendMedia_ends|]. intros b1 b2.
  destruct (SendMedia_cancelled b1 b2 (format_x nanos) peer data filename mime nanos millis rand db_ok d) as [H1 H2].
  split; [exact H1|]. split; [exact H2|]. apply (SendMedia_ends (maybe_cancel b1 _) (maybe_cancel b2 _)); apply maybe_cancel_keeps.
Qed.

(** The chunks of a stream, and what the disk took of them. *)
Definition chunk_events (cs : list (bytes * bytes * nat)) : list stream_event := map (fun x => StreamChunk x.1.1 x.1.2 x.2) cs.
Definition stored_parts (cs : list (bytes * bytes * nat)) : bytes := concat (map (fun x => take x.2 x.1.2) cs).

(** The loop after the first chunk: it takes every chunk as long as the file
    stays within the cap. *)
Lemma recv_stream_chunks temp_ok db_ok now cs : forall st d acc,
  ss_id st <> [] -> ss_file st = Some acc -> ss_size st = len acc ->
  let r := recv_stream temp_ok db_ok now (chunk_events cs) st d in
  let file := acc ++ stored_parts cs in
  (len file <= MediaMaxHardCap -> exists d', r =
     Ok (mkStream (ss_id st) (Some file) (len file) (ss_peer st) (ss_name st) (ss_mime st)
           (Nat.iter (length cs) (fun c => i32 (c + 1)) (ss_count st)), d') /\
     (is_Some (transfers d !! ss_id st) ->
        t_Status <$> transfers d' !! ss_id st = Some Sending \/ cs = [] /\ d' = d)) /\
  (len acc <= MediaMaxHardCap < len file -> exists d', r = Err (d', InvalidArgument) /\
     (forall t, transfers d !! ss_id st = Some t -> t_Status t <> Failed ->
        exists t', transfers d' !! ss_id st = Some t' /\ t_Status t' <> Failed)).
Proof.
  unfold chunk_events, stored_parts. induction cs as [|[[i data] room] cs IH]; intros st d acc Hid Hf Hsz; cbv zeta.
  { cbn [map recv_stream concat]. rewrite app_nil_r. split; [|lia]. intros _.
    exists d. destruct st; cbn in *. subst. split; [done|]. intros _. by right. }
  cbn [map recv_stream concat fst snd]. set (x := take room data).
  rewrite decide_False by done. cbn [ss_size]. rewrite Hf, Hsz. cbn [default from_option Datatypes.id ss_id ss_count].
  replace (len acc + len x) with (len (acc ++ x)) by (unfold len; rewrite length_app; lia).
  set (rest := concat (map _ cs)) in *. rewrite (app_assoc acc x rest).
  set (st1 := mkStream (ss_id st) (Some (acc ++ x)) (len (acc ++ x)) (ss_peer st) (ss_name st) (ss_mime st) (i32 (ss_count st + 1))).
  set (d1 := on_transfer (ss_id st) (chunk_transfer (i32 (ss_count st + 1))) d).
  assert (len (acc ++ x) <= len ((acc ++ x) ++ rest)) as Hmono by (unfold len; rewrite !length_app; lia).
  destruct (IH st1 d1 (acc ++ x) Hid eq_refl eq_refl) as [IH1 IH2].
  destruct (Z.ltb_spec MediaMaxHardCap (len (acc ++ x))) as [Hbig|Hfit]; split; intros Hc.
  - lia.
  - exists d. split; [done|]. intros t Ht Hne. eauto.
  - destruct (IH1 Hc) as (d' & -> & Hd'). exists d'. cbn [ss_id ss_peer ss_name ss_mime st1 ss_count].
    cbn [length]. rewrite (Nat.iter_succ_r (length cs)). split; [done|]. intros Hs. left.
    destruct Hd' as [H | [-> ->]]; [by apply on_transfer_is_Some|done|]. by apply on_transfer_status.
  - destruct IH2 as (d' & -> & Hd'); [lia|]. exists d'. split; [done|]. intros t Ht Hne.
    apply (Hd' (chunk_transfer (i32 (ss_count st + 1)) t)); [|done]. cbn [ss_id st1]. unfold d1.
    by rewrite on_transfer_lookup, decide_True, Ht.
Qed.

(** C32: a streamed file: after a header, [SendMediaStream]'s loop accepts a
    stream exactly when what the disk took of the chunks fits the cap, and then
    the temporary file is the concatenation of those parts in the order of the
    chunks, with its size; with room for every chunk it is the whole file.
    Because a failing write is not noticed, a stream on a full disk is accepted
    with the rest missing.  A stream that is too long is refused with
    [InvalidArgument], and its transfer is not marked Failed.  The first chunk
    has a transfer id and is a header that names a peer. *)
Theorem stream_assembles db_ok now id hdr room peer name mime cs d :
  id <> [] -> peer <> [] -> json_stream_header hdr = Some (peer, name, mime) ->
  let r := recv_stream true db_ok now (StreamChunk id hdr room :: map (fun x => StreamChunk x.1.1 x.1.2 x.2) cs) stream_start d in
  let file := concat (map (fun x => take x.2 x.1.2) cs) in
  (len file <= MediaMaxHardCap -> exists st d', r = Ok (st, d') /\
     ss_file st = Some file /\ ss_size st = len file /\
     ss_id st = id /\ ss_peer st = peer /\ ss_name st = name /\ ss_mime st = mime /\
     (cs <> [] -> t_Status <$> transfers d' !! id = Some Sending)) /\
  (MediaMaxHardCap < len file -> exists d' t, r = Err (d', InvalidArgument) /\
     transfers d' !! id = Some t /\ t_Status t <> Failed) /\
  (Forall (fun x => (length x.1.2 <= x.2)%nat) cs -> file = concat (map (fun x => x.1.2) cs)).
Proof.
  intros Hid Hpeer Hhdr. cbv zeta. cbn [recv_stream]. rewrite decide_True by done. unfold first_chunk. rewrite Hhdr.
  cbn [check mbind result_bind]. rewrite decide_False by done. cbn [ss_size stream_start ss_count].
  match goal with |- context [recv_stream _ _ _ _ ?st ?d1] => set (st0 := st); set (d0 := d1) end.
  assert (transfers d0 !! id = Some (new_transfer now)) as H0.
  { unfold d0. destruct (transferStore _); cbn; apply lookup_insert_eq. }
  destruct (recv_stream_chunks true db_ok now cs st0 d0 [] Hid eq_refl eq_refl) as [H1 H2].
  unfold chunk_events, stored_parts in *. cbn [app] in *. split; [|split]; intros Hc.
  - destruct (H1 Hc) as (d' & -> & Hd'). eexists _, d'. split; [reflexivity|]. cbn [ss_file ss_size ss_id ss_peer ss_name ss_mime st0].
    repeat (split; [done|]). intros Hne. destruct Hd' as [H | [H _]]; [by exists (new_transfer now)|done|done].
  - destruct H2 as (d' & -> & Hd'); [done|]. destruct (Hd' _ H0) as (t & Ht & Hne); [done|]. eauto 6.
  - f_equal. apply map_ext_in. intros x Hx%list_elem_of_In. rewrite Forall_forall in Hc. by apply take_ge, Hc.
Qed.

End Transfers.

(** The progress of a stream is the number of chunks in tenths, which is a
    percentage only for files of a thousand chunks. *)
Theorem stream_progress n t :
  0 <= n <= 2 ^ 31 / 100 - 1 -> t_Progress (chunk_transfer n t) = n / 10 /\ (1010 <= n -> 100 < t_Progress (chunk_transfer n t)).
Proof.
  intros Hn. change (2 ^ 31 / 100 - 1) with 21474835 in Hn. cbn [t_Progress chunk_transfer].
  assert (i32 (n * 100) = n * 100) as -> by (apply i32_small; lia).
  rewrite Z.quot_div_nonneg by lia. replace (n * 100 / 1000) with (n / 10) by (rewrite <- (Z.div_mul_cancel_r n 10 100) by lia; done).
  assert (0 <= n / 10 <= n) as Hd by (split; [apply Z.div_pos; lia|apply Z.div_le_upper_bound; lia]).
  rewrite i32_small by lia. split; [done|]. intros H. assert (101 <= n / 10) by (apply Z.div_le_lower_bound; lia). lia.
Qed.

(** ** Closed instances *)

Definition header_json : Json := {|
  json_relays _ := None; marshal_peers _ := None; json_peers _ := None; marshal_groups _ := None;
  json_groups _ := None; marshal_profile _ := None; json_profile_file _ := None; json_hello _ := None;
  json_group_key _ := None; json_group_msg _ := None; json_profile_msg _ := None; json_media_meta _ := None;
  marshal_bio b := b; marshal_sidecar _ _ _ _ s := s; marshal_meta m := Some (FileID m);
  json_stream_header h := if decide (h = $"{header}") then Some ($"bob", $"a.png", $"image/png") else None
|}.

(** The recording transport, with a relay that takes every file. *)
#[local] Instance uploading_transport : Transport Outbox := {|
  eng_conf := ob_conf;
  eng_set_conf e t := mkOutbox e (outbox t) (inbox t);
  eng_send payload peer t := (mkOutbox (ob_conf t) (outbox t ++ [(payload, peer)]) (inbox t), ([], Ok 1));
  eng_poll _ t := (mkOutbox (ob_conf t) (outbox t) [], Ok (inbox t));
  tcp_upload _ _ data name mime mt t := (t, Ok (mkMeta [] 0 mt name mime (len data) [] [] false None $"f1"));
  tcp_download _ _ _ t := (t, Err DownloadFailed)
|}.

Definition sender : Daemon Outbox :=
  mkDaemon (mkOutbox (NewDNSClientEngine [$"10.0.0.1:53"] $"zone") [] []) (NewDetector false 1) NewOfflineQueue
    (mkKeyPair (replicate 32 dot) (replicate 32 colon) [] []) ∅ ∅ ∅ ∅ None (replicate 64 dot) None ∅.

(** The transfer is cancelled during the upload, and ends Complete. *)
Local Abbreviation cancelled_call :=
  (SendMedia (TR := uploading_transport) (C := toy_crypto) (J := header_json) (fun d => (CancelSend (format_x 255) d).1) (fun d => d)
    (myPubkey sender) $"data" $"a.png" $"image/png" 255 0 (Some (replicate 24 dot)) true sender).

Lemma send_media_terminal_witness : t_Status <$> transfers cancelled_call.1 !! format_x 255 = Some Complete.
Proof.
  assert (t_Status <$> transfers cancelled_call.1 !! format_x 255 =
    Some (match cancelled_call.2 with Ok _ => Complete | Err _ => Failed end)) as H.
  { exact (proj2 (proj2 (proj2 (proj2 (send_media_terminal (TR := uploading_transport) (C := toy_crypto) (J := header_json)
      id id (myPubkey sender) $"data" $"a.png" $"image/png" 255 0 (Some (replicate 24 dot)) true sender
      (fun d H => H) (fun d H => H))) true false))). }
  assert (match cancelled_call.2 with Ok _ => true | Err _ => false end = true) as Hok by (vm_compute; reflexivity).
  destruct cancelled_call as [d' [r|e]]; [exact H|discriminate Hok].
Defined.

(** The disk has no room for the end of the last chunk. *)
Lemma stream_assembles_witness : exists st d',
  recv_stream (T := Outbox) (J := header_json) true true 7
    [StreamChunk $"t1" $"{header}" 9; StreamChunk $"t1" $"hello " 9; StreamChunk $"t1" $"world" 3] stream_start sender
    = Ok (st, d') /\ ss_file st = Some $"hello wor".
Proof.
  destruct (proj1 (stream_assembles (T := Outbox) (J := header_json) true 7 $"t1" $"{header}" 9 $"bob" $"a.png" $"image/png"
    [($"t1", $"hello ", 9%nat); ($"t1", $"world", 3%nat)] sender ltac:(discriminate) ltac:(discriminate) eq_refl))
    as (st & d' & H1 & H2 & _); [vm_compute; discriminate|].
  exists st, d'. split; [exact H1|exact H2].
Defined.
