(* ===== verification/DaemonSteps.v ===== *)
(** * The daemon over time (handlers and background loops of daemon.go)

    Every call of the daemon and every turn of its background loops is a step
    of one relation.  Two facts hold along all runs: the maps stay keyed the
    way the handlers rely on, and what is on disk is what is in memory. *)

From S2P Require Import Prelude GoStrings Codec Sha256 Crypto Dns Engine Queue MediaClient Daemon Messages Transfers.

(** ** Background loops *)

Section Loops.
Context {T : Type} {TR : Transport T} {O : SqlOrder}.
Implicit Types d : Daemon T.

(** The engine as the queue uses it: [None] when the message was sent. *)
Definition queue_send (ciphertext peerKey : bytes) (t : T) : T * option bytes :=
  let '(t, (_, r)) := eng_send ciphertext peerKey t in
  (t, match r with Ok _ => None | Err e => Some e end).

(** One turn of [processQueue]. *)
Definition processQueue (db_ok : Z -> bool) (read_ok : bool) d : Daemon T :=
  let '(q, t, _) := process_pass queue_send db_ok read_ok (queue d) (engine d) in
  set_queue q (set_engine t d).

(** One turn of the network check started by [RunDaemon]. *)
Definition checkNetwork d : Daemon T := set_detector (Detector_Check (detector d)).1 d.

End Loops.

(** ** Steps *)

(** The files only the daemon itself should write, and the files it writes
    for a peer. *)
Definition own_files : list bytes := [$"identity.key"; $"auth_token"; peersPath; groupsPath; profilePath].
Definition bio_path (sender : bytes) : bytes := JoinPath $"peer_bios" (sender ++ $".json").
Definition pic_path (sender : bytes) : bytes := JoinPath $"peer_pics" (sender ++ $".jpg").

(** A path below a directory that holds none of them is not one of them. *)
Lemma apart_own dir rest : Forall (fun f => take (length dir) f <> dir) own_files -> dir ++ rest ∉ own_files.
Proof. rewrite Forall_forall. intros H Hin. apply (H _ Hin). apply take_app_length. Qed.

Section Steps.
Context {T : Type} {TR : Transport T} {C : CryptoLib} {F : FileCipher} {J : Json} {IO : IterOrder} {O : SqlOrder}.
(** Which outcomes of writes, and which senders of polled messages, are
    considered. *)
Context (allowed : (bytes -> write_result) -> Prop) (sender_allowed : bytes -> Prop).
Implicit Types d : Daemon T.

(** Every polled message that opens names a considered sender. *)
Fixpoint senders_ok (w : bytes -> write_result) (now : Z) (pms : list PolledMessage) d : Prop :=
  match pms with
  | [] => True
  | pm :: rest =>
      (forall d' text from, decrypt_polled w now (pm_Data pm) d = (d', Some text, from) -> sender_allowed from) /\
      senders_ok w now rest (handle_polled w now pm d).1
  end.
Definition polls_from (w : bytes -> write_result) (now : Z) d : Prop :=
  forall t pms, eng_poll (myPubkey d) (engine d) = (t, Ok pms) -> senders_ok w now pms (set_engine t d).

(** The calls and loops that run in one piece. *)
Inductive base_step : Daemon T -> Daemon T -> Prop :=
| st_send peer text gid rand ok now d : base_step d (SendMessage peer text gid rand ok now d).1
| st_poll now w d : allowed w -> polls_from w now d -> base_step d (PollMessages w now d).1
| st_add_relay addr d : base_step d (AddRelay addr d)
| st_remove_relay addr d : base_step d (RemoveRelay addr d)
| st_add_peer nick pk w d : allowed w -> base_step d (AddPeer w nick pk d).1
| st_remove_peer pk w d : allowed w -> base_step d (RemovePeer w pk d).1
| st_invite nick rand now d : base_step d (GenerateInvite nick rand now d).1
| st_join code rand ok now w d : allowed w -> base_step d (JoinViaCode w code rand ok now d).1
| st_profile nick bio rand w d : allowed w -> base_step d (UpdateProfile w nick bio rand d).1
| st_picture img mime rand w d : allowed w -> base_step d (SetProfilePic w img mime rand d).1
| st_create name ms rkey rand now w d : allowed w -> base_step d (CreateGroup w name ms rkey rand now d).1
| st_leave gid w d : allowed w -> base_step d (LeaveGroup w gid d).1
| st_remove_member gid m rand w d : allowed w -> base_step d (RemoveGroupMember w gid m rand d).1
| st_cancel id d : base_step d (CancelSend id d).1
| st_stream tok rok dok now rand evs d : base_step d (SendMediaStream tok rok dok now rand evs d).1
| st_cleanup now d : base_step d (cleanupTransfers now d)
| st_mode m d : base_step d (SetMode m d)
| st_size n d : base_step d (SetSize n d)
| st_watch_mode last d : base_step d (watchTransportMode last d).2
| st_watch_size last d : base_step d (watchChunkSize last d).2
| st_queue dok rok d : base_step d (processQueue dok rok d)
| st_network d : base_step d (checkNetwork d).

(** [SendMedia] waits for the network twice, and other steps run meanwhile. *)
Inductive daemon_step : Daemon T -> Daemon T -> Prop :=
| ds_base d d' : base_step d d' -> daemon_step d d'
| ds_media up send peer data name mime nanos millis rand ok d :
    (forall d, rtc base_step d (up d)) -> (forall d, rtc base_step d (send d)) ->
    daemon_step d (SendMedia up send peer data name mime nanos millis rand ok d).1.

(** ** What is keyed by what *)

Definition group_keyed (k : bytes) (g : Group) : Prop :=
  GroupID g = k /\ forall m x, Members g !! m = Some x -> gm_Pubkey x = m.
Definition peers_keyed (ps : gmap bytes PeerInfoEntry) : Prop := forall k p, ps !! k = Some p -> Pubkey p = k.
Definition groups_keyed (gs : gmap bytes Group) : Prop := forall k g, gs !! k = Some g -> group_keyed k g.

Record queue_ok (q : OfflineQueue) : Prop := {
  qo_ids : NoDup (map q_ID (rows q));
  qo_last : Forall (fun m => q_ID m <= last_id q) (rows q);
  qo_retries : Forall (fun m => 0 <= q_Retries m <= maxQueueRetries) (rows q)
}.

Record daemon_ok (d : Daemon T) : Prop := {
  ok_peers : peers_keyed (peers d);
  ok_groups : groups_keyed (groups d);
  ok_hellos : forall k h, pendingHellos d !! k = Some h -> k = Hex.EncodeToString (h_nonce h) /\ h_pubkey h = myPubkey d;
  ok_queue : queue_ok (queue d);
  ok_table : forall t, transferStore d = Some t -> NoDup (map te_ID t)
}.

(** ** Single changes

    Every step is a sequence of changes of these kinds, so an invariant is
    checked against them alone. *)

Definition may_write (path : bytes) : Prop :=
  path ∉ own_files \/ exists s, sender_allowed s /\ (path = bio_path s \/ path = pic_path s).

Inductive change : Daemon T -> Daemon T -> Prop :=
| ch_engine t d : change d (set_engine t d)
| ch_detector x d : change d (set_detector x d)
| ch_transfers x d : change d (set_transfers x d)
| ch_enqueue ok peer ct now d : change d (set_queue (Enqueue ok peer ct now (queue d)).1 d)
| ch_process dok rok d : change d (processQueue dok rok d)
| ch_table op t d : transferStore d = Some t -> change d (set_store (Some (apply_table t op)) d)
| ch_hello nonce nick now d :
    change d (set_hellos (<[Hex.EncodeToString nonce := mkHello nonce (myPubkey d) nick now]> (pendingHellos d)) d)
| ch_drop_hello k d : change d (set_hellos (delete k (pendingHellos d)) d)
| ch_peer w k nick d : allowed w -> change d (savePeers w (set_peers (<[k := mkPeer nick k]> (peers d)) d))
| ch_rename w k p nick d : allowed w -> peers d !! k = Some p ->
    change d (savePeers w (set_peers (<[k := mkPeer nick (Pubkey p)]> (peers d)) d))
| ch_drop_peer w k d : allowed w -> change d (savePeers w (set_peers (delete k (peers d)) d))
| ch_save_peers w d : allowed w -> change d (savePeers w d)
| ch_group w k g d : allowed w -> (groups_keyed (groups d) -> group_keyed k g) ->
    change d (saveGroups w (set_groups (<[k := g]> (groups d)) d))
| ch_drop_group w k d : allowed w -> change d (saveGroups w (set_groups (delete k (groups d)) d))
| ch_profile w p d : allowed w -> change d (saveProfile w (set_profile (Some p) d))
| ch_write w path data d : allowed w -> may_write path -> change d (WriteFile w path data d).

Lemma changes_fold {X} (f : Daemon T -> X -> Daemon T) l d :
  (forall d x, rtc change d (f d x)) -> rtc change d (fold_left f l d).
Proof.
  intros Hf. revert d. induction l as [|x l IH]; intros d; simpl; [reflexivity|]. etrans; [apply (Hf d x)|apply IH].
Qed.

End Steps.

Create HintDb changes discriminated.
#[export] Hint Constructors change : changes.
#[export] Hint Extern 0 (rtc (change _ _) ?d ?d) => reflexivity : changes.
#[export] Hint Extern 1 (rtc (change _ _) _ _) => apply rtc_once : changes.

(** ** The queue *)

Section QueueOk.
Context {O : SqlOrder} {ES : Type} (send : bytes -> bytes -> ES -> ES * option bytes) (db_ok : Z -> bool).

Lemma Enqueue_ok ok peer ct now q : queue_ok q -> queue_ok (Enqueue ok peer ct now q).1.
Proof.
  intros [H1 H2 H3]. destruct ok; [|done]. split; cbn [rows last_id fst Enqueue].
  - rewrite map_app. apply NoDup_app. split; [done|]. split; [|apply NoDup_singleton].
    intros i Hi [-> | []%elem_of_nil]%elem_of_cons. apply list_elem_of_fmap in Hi as (m & Hm & Hin).
    rewrite Forall_forall in H2. specialize (H2 m Hin). simpl in Hm. lia.
  - apply Forall_app. split; [|apply Forall_cons; split; [simpl; lia|apply Forall_nil_2]].
    eapply Forall_impl; [exact H2|]. simpl. lia.
  - apply Forall_app. split; [done|]. apply Forall_cons. split; [unfold maxQueueRetries; simpl; lia|apply Forall_nil_2].
Qed.

Lemma Remove_ok ok id q : queue_ok q -> queue_ok (Remove ok id q).
Proof.
  intros [H1 H2 H3]. destruct ok; [|done]. split; cbn [rows last_id Remove].
  - eapply NoDup_map_sublist; [apply sublist_filter|exact H1].
  - rewrite Forall_forall in *. intros m [_ Hm]%list_elem_of_filter. by apply H2.
  - rewrite Forall_forall in *. intros m [_ Hm]%list_elem_of_filter. by apply H3.
Qed.

(** A row is failed once more only while it has retries left. *)
Lemma MarkFailed_ok ok id err q :
  (forall m, m ∈ rows q -> q_ID m = id -> q_Retries m < maxQueueRetries) -> queue_ok q -> queue_ok (MarkFailed ok id err q).
Proof.
  intros Hlt [H1 H2 H3]. destruct ok; [|done].
  assert (forall m, q_ID (if decide (q_ID m = id) then fail_row err m else m) = q_ID m) as Hid
    by (intros m; by case_decide).
  split; cbn [rows last_id MarkFailed].
  - rewrite map_map. erewrite map_ext; [exact H1|]. exact Hid.
  - apply Forall_map. eapply Forall_impl; [exact H2|]. intros m. cbn beta. by rewrite Hid.
  - apply Forall_map, Forall_forall. intros m Hm. rewrite Forall_forall in H3. specialize (H3 m Hm).
    case_decide as Hd; [|done]. specialize (Hlt m Hm Hd). cbn [q_Retries fail_row]. lia.
Qed.

(** The rows the rest of a pass will look at are still as they were read. *)
Definition as_read (rest : list QueuedMessage) (q : OfflineQueue) : Prop :=
  forall m m', m ∈ rest -> m' ∈ rows q -> q_ID m' = q_ID m -> q_Retries m' = q_Retries m.

Lemma process_one_ok m rest q es :
  NoDup (map q_ID (m :: rest)) -> as_read (m :: rest) q -> queue_ok q ->
  let q' := (process_one send db_ok m q es).1.1 in queue_ok q' /\ as_read rest q'.
Proof.
  intros [Hn _]%NoDup_cons Hr Hok. unfold process_one. cbv zeta.
  assert (forall ok, as_read rest (Remove ok (q_ID m) q)) as Hrem.
  { intros ok x y Hx Hy. assert (y ∈ rows q) as Hy' by (destruct ok; [by apply list_elem_of_filter in Hy as [_ Hy]|done]).
    apply Hr; [by apply list_elem_of_further|done]. }
  destruct (Z.leb_spec maxQueueRetries (q_Retries m)) as [Hle|Hlt]; [split; [by apply Remove_ok|apply Hrem]|].
  destruct (send _ _ es) as [es' [err|]]; cbn [fst]; [|split; [by apply Remove_ok|apply Hrem]]. split.
  - apply MarkFailed_ok; [|done]. intros y Hy Hid. rewrite (Hr m y (list_elem_of_here _ _) Hy Hid). done.
  - intros x y Hx Hy Hid. destruct (db_ok (q_ID m)); [|by apply Hr; [apply list_elem_of_further| |]].
    cbn [rows MarkFailed] in Hy. apply list_elem_of_fmap in Hy as (y0 & -> & Hy0). case_decide as Hd.
    + cbn [q_ID fail_row] in Hid. exfalso. apply Hn. rewrite <- Hd, Hid. by apply list_elem_of_fmap_2.
    + by apply Hr; [apply list_elem_of_further| |].
Qed.

Lemma process_list_ok rest : forall q es,
  NoDup (map q_ID rest) -> as_read rest q -> queue_ok q -> queue_ok (process_list send db_ok rest q es).1.1.
Proof.
  induction rest as [|m rest IH]; intros q es Hn Hr Hok; [done|]. cbn [process_list].
  destruct (process_one_ok m rest q es Hn Hr Hok) as [H1 H2].
  destruct (process_one send db_ok m q es) as [[q1 es1] o]. cbn [fst] in *. apply NoDup_cons in Hn as [_ Hn].
  specialize (IH q1 es1 Hn H2 H1). by destruct (process_list send db_ok rest q1 es1) as [[q2 es2] os].
Qed.

Lemma process_pass_ok read_ok q es : queue_ok q -> queue_ok (process_pass send db_ok read_ok q es).1.1.
Proof.
  intros Hok. destruct read_ok; [|done]. unfold process_pass. pose proof (order_by_perm q_CreatedAt (rows q)) as Hp.
  apply process_list_ok; [|..|done].
  - unfold Pending. rewrite Hp. apply Hok.
  - intros m m' Hm Hm' Hid. unfold Pending in Hm. rewrite Hp in Hm.
    destruct Hok as [Hn _ _]. by rewrite (NoDup_map_inj q_ID (rows q) m' m).
Qed.

End QueueOk.

(** A received file is written under its own directory. *)
Lemma media_path_apart id mime suf : JoinPath $"media_received" (Hex.EncodeToString id ++ extension mime) ++ suf ∉ own_files.
Proof.
  assert (dotdot ∉ Split slash (Hex.EncodeToString id ++ extension mime)) as Hd.
  { apply Split_suffix_dotdot.
    - unfold extension. repeat case_decide; by apply (bool_decide_unpack _).
    - unfold extension. repeat case_decide; simpl; lia.
    - rewrite Split_nosep by (apply HexFacts.hex_plain; by right). intros H%list_elem_of_singleton. apply (HexFacts.hex_plain (Ascii.ascii_of_nat 46) id (or_introl eq_refl)).
      rewrite <- H. apply list_elem_of_here. }
  destruct (JoinPath_prefix $"media_received" _ ltac:(by apply (bool_decide_unpack _)) ltac:(done) ltac:(done) ltac:(done) Hd)
    as [rest ->]. rewrite <- app_assoc. apply apart_own. by apply (bool_decide_unpack _).
Qed.

(** ** Every step is a sequence of changes *)

Section Changes.
Context {T : Type} {TR : Transport T} {C : CryptoLib} {F : FileCipher} {J : Json} {IO : IterOrder} {O : SqlOrder}.
Context (allowed : (bytes -> write_result) -> Prop) (sender_allowed : bytes -> Prop).
Implicit Types d : Daemon T.
Local Abbreviation change := (change allowed sender_allowed).
Local Abbreviation changes := (rtc change).

Lemma changes_l d d1 d2 : change d d1 -> changes d1 d2 -> changes d d2.
Proof. apply rtc_l. Qed.

Lemma sendProfile_changes peer payload rand d : changes d (sendProfileToPeer peer payload rand d).
Proof. unfold sendProfileToPeer. repeat case_match; unfold send_to; auto with changes. Qed.

Lemma broadcast_changes payload rand d : changes d (broadcast payload rand d).
Proof. apply changes_fold. intros d' x. apply sendProfile_changes. Qed.

Lemma distribute_changes ms payload rand d : changes d (distribute ms payload rand d).
Proof. apply changes_fold. intros d' x. unfold send_to. repeat case_match; auto with changes. Qed.

Lemma distributeGroupKey_changes id rand d : changes d (distributeGroupKey id rand d).
Proof. unfold distributeGroupKey. case_match; [apply distribute_changes|reflexivity]. Qed.

Lemma on_transfer_changes id f d : changes d (on_transfer id f d).
Proof. apply rtc_once, ch_transfers. Qed.

Lemma store_update_changes ok id st p c d : changes d (store_update ok id st p c d).
Proof.
  unfold store_update. destruct (transferStore d) as [t|] eqn:Ht; [|reflexivity].
  apply rtc_once. by apply (ch_table _ _ (OpUpdate ok id st p c)).
Qed.

Lemma set_engine_changes t d : changes d (set_engine t d).
Proof. apply rtc_once, ch_engine. Qed.

Lemma SendMessage_changes peer text gid rand ok now d : changes d (SendMessage peer text gid rand ok now d).1.
Proof.
  unfold SendMessage. destruct (negb _).
  - repeat case_match; cbn [fst]; auto with changes. apply changes_fold. intros d' x. unfold send_to. case_match; auto with changes.
  - destruct (Base64.DecodeString peer); [|reflexivity]. destruct (SharedSecret _ _); [|reflexivity].
    destruct (EncryptMessage _ _ _) as [[ct nonce]|]; [|reflexivity].
    destruct (eng_send _ _ _) as [t [mid [n|e]]]; cbn [fst]; [apply set_engine_changes|].
    pose proof (ch_enqueue allowed sender_allowed ok peer (nonce ++ ct) now (set_engine t d)) as Hq.
    destruct (Enqueue _ _ _ _ _) as [q [id|]]; cbn [fst] in *; [|apply set_engine_changes].
    eapply changes_l; [apply ch_engine|]. by apply rtc_once.
Qed.

Lemma GenerateInvite_changes nick rand now d : changes d (GenerateInvite nick rand now d).1.
Proof. unfold GenerateInvite. repeat case_match; cbn [fst]; auto with changes. Qed.

Lemma JoinViaCode_changes code rand ok now w d : allowed w -> changes d (JoinViaCode w code rand ok now d).1.
Proof.
  intros Hw. unfold JoinViaCode. destruct (ParseInviteCode code) as [[[remote nonce] nick]|]; [|reflexivity]. cbv zeta.
  eapply changes_l; [apply (ch_peer allowed sender_allowed w (Base64.EncodeToString remote) nick d Hw)|].
  set (d0 := savePeers _ _). destruct (EncryptHello _ _ _) as [enc|]; [|reflexivity].
  destruct (eng_send _ _ _) as [t [mid [n|e]]]; cbn [fst]; [apply set_engine_changes|].
  eapply changes_l; [apply ch_engine|]. apply rtc_once, ch_enqueue.
Qed.

Lemma UpdateProfile_changes w nick bio rand d : allowed w -> changes d (UpdateProfile w nick bio rand d).1.
Proof. intros Hw. eapply changes_l; [by apply ch_profile|]. apply broadcast_changes. Qed.

Lemma SetProfilePic_changes w img mime rand d : allowed w -> changes d (SetProfilePic w img mime rand d).1.
Proof.
  intros Hw. unfold SetProfilePic. case_match; [reflexivity|]. cbv zeta.
  eapply changes_l; [apply (ch_write _ _ w picPath img d Hw); left; by apply (bool_decide_unpack _)|].
  case_match; [reflexivity|]. cbn [fst]. unfold broadcastProfilePic.
  destruct (GetRelays _); [reflexivity|]. destruct (tcp_upload _ _ _ _ _ _ _) as [t [meta|e]]; [|apply set_engine_changes].
  eapply changes_l; [apply ch_engine|]. apply broadcast_changes.
Qed.

(** The members of a new group are keyed. *)
Lemma add_members_keyed ms : forall acc : gmap bytes GroupMember,
  (forall m x, acc !! m = Some x -> gm_Pubkey x = m) ->
  forall m x, fold_left (fun ms mpk => <[mpk := mkMember mpk [] $"member"]> ms) ms acc !! m = Some x -> gm_Pubkey x = m.
Proof.
  induction ms as [|y ms IH]; intros acc Ha; [done|]. cbn [fold_left]. apply IH. intros m x.
  rewrite lookup_insert_Some. intros [[<- <-]|[_ H]]; [done|by apply Ha].
Qed.

Lemma CreateGroup_changes w name ms rkey rand now d : allowed w -> changes d (CreateGroup w name ms rkey rand now d).1.
Proof.
  intros Hw. unfold CreateGroup. destruct (GenerateGroupKey rkey); [|reflexivity]. cbv zeta. cbn [fst].
  eapply changes_l; [|apply distribute_changes]. apply ch_group; [done|]. intros _. split; [done|].
  cbn [Members]. apply add_members_keyed. intros m x. rewrite lookup_singleton_Some. by intros [<- <-].
Qed.

Lemma leave_members_keyed me k g : group_keyed k g -> group_keyed k (leave_members me g).
Proof.
  intros [Hid Hm]. unfold leave_members.
  assert (forall m x, delete me (Members g) !! m = Some x -> gm_Pubkey x = m) as Hd
    by (intros m x [_ H]%lookup_delete_Some; by apply Hm).
  destruct (decide _); [|by split]. destruct (iter_order _) as [|[pk m] l] eqn:Hl; [by split|].
  apply iter_map_head in Hl. split; [done|]. cbn [Members]. intros m' x. rewrite lookup_insert_Some.
  intros [[<- <-]|[_ H]]; [cbn [gm_Pubkey]; by apply Hd|by apply Hd].
Qed.

Lemma LeaveGroup_changes w gid d : allowed w -> changes d (LeaveGroup w gid d).1.
Proof.
  intros Hw. unfold LeaveGroup. destruct (groups d !! gid) as [g|] eqn:Hg; [|reflexivity]. cbv zeta. cbn [fst].
  apply rtc_once. case_decide; [by apply ch_drop_group|]. apply ch_group; [done|]. intros Hk. by apply leave_members_keyed, Hk.
Qed.

Lemma RemoveGroupMember_changes w gid m rand d : allowed w -> changes d (RemoveGroupMember w gid m rand d).1.
Proof.
  intros Hw. unfold RemoveGroupMember. destruct (groups d !! gid) as [g|] eqn:Hg; [|reflexivity].
  case_match; [reflexivity|]. case_match; [|reflexivity]. cbn [fst].
  eapply changes_l; [|apply distributeGroupKey_changes]. apply ch_group; [done|]. intros Hk.
  destruct (Hk _ _ Hg) as [Hid Hm]. split; [done|]. cbn [Members rotate]. intros k x [_ Hx]%lookup_delete_Some. by apply Hm.
Qed.

Lemma CancelSend_changes id d : changes d (CancelSend id d).1.
Proof. unfold CancelSend. repeat case_match; cbn [fst]; try reflexivity. apply on_transfer_changes. Qed.

(** *** Polled messages *)

Lemma try_hello_changes w raw now st x : allowed w -> changes st.1.1 (try_hello w raw now st x).1.1.
Proof.
  intros Hw. destruct st as [[d dec] from], x as [hex h]. unfold try_hello. case_match; [apply rtc_once, ch_drop_hello|].
  destruct (DecryptHello _ _) as [pt|]; [|reflexivity]. destruct (json_hello pt) as [[[ty pk] nick]|]; [|reflexivity].
  case_match; [|reflexivity]. cbv zeta. cbn [fst].
  eapply changes_l; [by apply (ch_peer allowed sender_allowed w pk)|]. apply rtc_once, ch_drop_hello.
Qed.

Lemma decrypt_polled_changes w now raw d : allowed w -> changes d (decrypt_polled w now raw d).1.1.
Proof.
  intros Hw. assert (changes d (decrypt_hellos w raw now d).1.1) as Hh.
  { unfold decrypt_hellos. change d with (d, None : option bytes, [] : bytes).1.1 at 1.
    generalize (d, None : option bytes, [] : bytes) as st. generalize (iter_order (map_to_list (pendingHellos d))).
    intros l. induction l as [|x l IH]; intros st; [reflexivity|]. cbn [fold_left].
    etrans; [by apply try_hello_changes|apply IH]. }
  unfold decrypt_polled. by destruct (decrypt_peers _ _ _ _) as [[[text|] from]|].
Qed.

Lemma take_group_key_changes w text d d' : allowed w -> take_group_key w text d = Some d' -> changes d d'.
Proof.
  intros Hw. unfold take_group_key. destruct (_ && _); [|done]. destruct (json_group_key text) as [[[[[ty gid] k] e] n]|]; [|done].
  destruct (_ && _); [|done]. intros [= <-]. unfold store_group_key. cbv zeta. apply rtc_once, ch_group; [done|]. intros Hk.
  destruct (groups d !! gid) as [g|] eqn:Hg; [|split; [done|]; cbn [Members]; intros m x; by rewrite lookup_empty]. by apply (Hk gid g Hg).
Qed.

Lemma profile_update_changes w from nick bio d :
  allowed w -> sender_allowed from -> changes d (profile_update w from nick bio d).
Proof.
  intros Hw Hs. unfold profile_update. cbv zeta.
  match goal with |- context [savePeers w ?x] => assert (change d (savePeers w x)) as H1 end.
  { destruct (peers d !! from) eqn:Hp; [|by apply ch_save_peers]. case_decide; [by apply ch_save_peers|by apply ch_rename]. }
  destruct (decide (bio = [])); [by apply rtc_once|]. eapply changes_l; [exact H1|]. apply rtc_once, ch_write; [done|]. right. by exists from; auto.
Qed.

Lemma profile_pic_changes w from fid key d :
  allowed w -> sender_allowed from -> changes d (profile_pic w from fid key d).
Proof.
  intros Hw Hs. unfold profile_pic. destruct (GetRelays _); [reflexivity|]. destruct (tcp_download _ _ _ _) as [t [enc|e]];
    [|apply set_engine_changes]. destruct (DecryptFile _ _) as [pic|]; [|apply set_engine_changes].
  case_decide; [apply set_engine_changes|]. eapply changes_l; [apply ch_engine|]. apply rtc_once, ch_write; [done|].
  right. by exists from; auto.
Qed.

Lemma media_meta_changes w pm from key mime name fid d : allowed w -> changes d (media_meta w pm from key mime name fid d).
Proof.
  intros Hw. unfold media_meta. destruct (GetRelays _); [reflexivity|].
  match goal with |- context [let '(d, fileData) := ?e in _] => assert (changes d e.1) as H1; [|destruct e as [d1 fd]] end.
  { case_decide; [reflexivity|]. destruct (tcp_download _ _ _ _). apply set_engine_changes. }
  cbn [fst] in H1. etrans; [exact H1|]. cbv zeta. pose proof (media_path_apart (pm_MsgID pm) mime) as Hp.
  eapply changes_l; [apply ch_write; [exact Hw|left; apply Hp]|]. apply rtc_once, ch_write; [done|]. left.
  rewrite <- (app_nil_r (JoinPath _ _)). apply Hp.
Qed.

Lemma take_typed_changes w pm text from d d' :
  allowed w -> sender_allowed from -> take_typed w pm text from d = Some d' -> changes d d'.
Proof.
  intros Hw Hs. unfold take_typed. destruct (_ && _); [|done]. cbv zeta.
  set (media := match json_media_meta text with Some _ => _ | None => _ end).
  assert (media = Some d' -> changes d d') as Hm.
  { unfold media. destruct (json_media_meta text) as [[[[k m] n] f]|]; [|done]. case_match; [done|]. intros [= <-]. by apply media_meta_changes. }
  destruct (json_profile_msg text) as [[[[[ty nick] bio] fid] key]|]; [|exact Hm].
  case_match; [intros [= <-]; by apply profile_update_changes|].
  case_match; [intros [= <-]; by apply profile_pic_changes|exact Hm].
Qed.

Lemma handle_polled_changes w now pm d :
  allowed w -> (forall d' text from, decrypt_polled w now (pm_Data pm) d = (d', Some text, from) -> sender_allowed from) ->
  changes d (handle_polled w now pm d).1.
Proof.
  intros Hw Hs. unfold handle_polled. case_match; [reflexivity|]. pose proof (decrypt_polled_changes w now (pm_Data pm) d Hw) as H1.
  destruct (decrypt_polled _ _ _ _) as [[d1 [text|]] from]; [|exact H1]. specialize (Hs _ _ _ eq_refl).
  cbn [fst] in H1. etrans; [exact H1|]. unfold act_on.
  destruct (take_group_key w text d1) as [d2|] eqn:Hk; [by eapply take_group_key_changes|].
  destruct (open_group_message text d1) as [[text' gid]|]; [|reflexivity].
  destruct (take_typed w pm text' from d1) as [d2|] eqn:Ht; [|reflexivity]. by eapply take_typed_changes.
Qed.

Lemma PollMessages_changes w now d :
  allowed w -> polls_from sender_allowed w now d -> changes d (PollMessages w now d).1.
Proof.
  intros Hw Hs. unfold PollMessages. destruct (eng_poll _ _) as [t [pms|e]] eqn:He;
    [|destruct e; cbn [fst]; apply set_engine_changes].
  specialize (Hs t pms He). eapply changes_l; [apply ch_engine|].
  assert (changes (set_engine t d) (handle_all w now pms (set_engine t d)).1) as H.
  { clear He. revert Hs. generalize (set_engine t d). clear d t. induction pms as [|pm pms IH]; intros d Hs; [reflexivity|].
    cbn [handle_all]. destruct Hs as [H1 H2]. pose proof (handle_polled_changes w now pm d Hw H1) as H3.
    destruct (handle_polled w now pm d) as [d1 out]. cbn [fst] in *. specialize (IH d1 H2).
    destruct (handle_all w now pms d1) as [d2 more]. by etrans. }
  by destruct (handle_all w now pms (set_engine t d)) as [d2 out].
Qed.

(** *** Media *)

Lemma recv_stream_changes tok dok now evs : forall st d,
  match recv_stream tok dok now evs st d with Ok (_, d') => changes d d' | Err (d', _) => changes d d' end.
Proof.
  induction evs as [|[id data room|] evs IH]; intros st d; cbn [recv_stream]; [reflexivity|..].
  - case_decide.
    + unfold first_chunk. destruct (match json_stream_header data with Some h => h | None => _ end) as [[p n] m].
      destruct tok; cbn [check mbind result_bind]; [|reflexivity]. cbv zeta.
      match goal with |- context [recv_stream _ _ _ _ ?st1 ?d1] =>
        specialize (IH st1 d1); assert (changes d d1) as H1; [|destruct (recv_stream _ _ _ _ st1 d1) as [[? ?]|[? ?]]; by etrans] end.
      eapply changes_l; [apply ch_transfers|]. destruct (transferStore _) as [t|] eqn:Ht; [|reflexivity].
      apply rtc_once. by apply (ch_table _ _ (OpCreate _ _)).
    + cbv zeta. destruct (MediaMaxHardCap <? _); [reflexivity|].
      match goal with |- context [recv_stream _ _ _ _ ?st1 ?d1] =>
        specialize (IH st1 d1); assert (changes d d1) as H1; [|destruct (recv_stream _ _ _ _ st1 d1) as [[? ?]|[? ?]]; by etrans] end.
      apply on_transfer_changes.
  - case_decide; [reflexivity|]. etrans; [apply on_transfer_changes|apply store_update_changes].
Qed.

Lemma fail_stream_changes ok st msg d : changes d (fail_stream ok st msg d).
Proof. etrans; [apply on_transfer_changes|apply store_update_changes]. Qed.

Lemma SendMediaStream_changes tok rok dok now rand evs d : changes d (SendMediaStream tok rok dok now rand evs d).1.
Proof.
  unfold SendMediaStream. pose proof (recv_stream_changes tok dok now evs stream_start d) as H.
  destruct (recv_stream _ _ _ _ _ _) as [[st d1]|[d1 e]]; [|exact H].
  destruct (ss_file st); [|exact H]. case_match; [exact H|]. etrans; [exact H|]. clear H.
  case_decide; [apply store_update_changes|]. destruct (GetRelays _); [apply fail_stream_changes|].
  destruct (tcp_upload _ _ _ _ _ _ _) as [t [meta|e]]; (eapply changes_l; [apply ch_engine|]); [|apply fail_stream_changes].
  cbv zeta. etrans; [apply (store_update_changes dok (ss_id st) TransferConfirming 90 (ss_count st))|].
  destruct (seal_meta _ _ _ _) as [[ct nonce]|e]; [|apply fail_stream_changes]. cbn [fst].
  eapply changes_l; [apply ch_engine|]. etrans; [apply on_transfer_changes|apply store_update_changes].
Qed.

Lemma SendMedia_changes up send peer data name mime nanos millis rand ok d :
  (forall d, changes d (up d)) -> (forall d, changes d (send d)) ->
  changes d (SendMedia up send peer data name mime nanos millis rand ok d).1.
Proof.
  intros Hu Hs. unfold SendMedia. cbv zeta. eapply changes_l; [apply ch_transfers|].
  destruct (GetRelays _); [apply on_transfer_changes|]. etrans; [apply (on_transfer_changes (format_x nanos) (sending_transfer 10))|].
  destruct (tcp_upload _ _ _ _ _ _ _) as [t [meta|e]];
    (eapply changes_l; [apply ch_engine|]; etrans; [apply Hu|]); [|apply on_transfer_changes].
  etrans; [apply (on_transfer_changes (format_x nanos) (progress_transfer 50))|].
  destruct (seal_meta _ _ _ _) as [[ct nonce]|e]; [|apply on_transfer_changes].
  destruct (eng_send _ _ _) as [t2 [mid [n|e]]];
    (eapply changes_l; [apply ch_engine|]; etrans; [apply Hs|]); [|apply on_transfer_changes].
  etrans; [apply on_transfer_changes|apply store_update_changes].
Qed.

(** *** All steps *)

Lemma base_step_changes d d' : base_step allowed sender_allowed d d' -> changes d d'.
Proof.
  destruct 1; auto using SendMessage_changes, PollMessages_changes, GenerateInvite_changes, JoinViaCode_changes,
    UpdateProfile_changes, SetProfilePic_changes, CreateGroup_changes, LeaveGroup_changes, RemoveGroupMember_changes,
    CancelSend_changes, SendMediaStream_changes; try (apply rtc_once; by constructor).
  - unfold AddPeer. repeat case_match; cbn [fst]; try reflexivity. by apply rtc_once, ch_peer.
  - unfold watchTransportMode. repeat case_match; cbn [snd]; try reflexivity; apply set_engine_changes.
  - unfold watchChunkSize. repeat case_match; cbn [snd]; try reflexivity; apply set_engine_changes.
Qed.

Lemma daemon_step_changes d d' : daemon_step allowed sender_allowed d d' -> changes d d'.
Proof.
  assert (forall f : Daemon T -> Daemon T, (forall d, rtc (base_step allowed sender_allowed) d (f d)) -> forall d, changes d (f d)) as Hf.
  { intros f Hf x. specialize (Hf x). induction Hf as [x|x y z Hxy _ IH]; [reflexivity|]. etrans; [by apply base_step_changes|exact IH]. }
  destruct 1; [by apply base_step_changes|]. apply SendMedia_changes; by apply Hf.
Qed.

(** What every change keeps, every run keeps. *)
Lemma run_keeps (P : Daemon T -> Prop) d d' :
  (forall x y, change x y -> P x -> P y) -> rtc (daemon_step allowed sender_allowed) d d' -> P d -> P d'.
Proof.
  intros Hc. induction 1 as [|x y z Hxy _ IH]; [done|]. intros Hx. apply IH. clear IH.
  apply daemon_step_changes in Hxy. induction Hxy as [|a b c Hab _ IH]; [done|]. apply IH. by apply (Hc a b).
Qed.

End Changes.

(** ** The invariants *)

Section Invariants.
Context {T : Type} {TR : Transport T} {C : CryptoLib} {F : FileCipher} {J : Json} {IO : IterOrder} {O : SqlOrder}.
Context (allowed : (bytes -> write_result) -> Prop) (sender_allowed : bytes -> Prop).
Implicit Types d : Daemon T.

Lemma daemon_ok_WriteFile w p x d : daemon_ok d -> daemon_ok (WriteFile w p x d).
Proof. intros [H1 H2 H3 H4 H5]. unfold WriteFile. destruct (w p); by split. Qed.

Lemma daemon_ok_save w d : daemon_ok d ->
  daemon_ok (savePeers w d) /\ daemon_ok (saveGroups w d) /\ daemon_ok (saveProfile w d).
Proof.
  intros H. unfold savePeers, saveGroups, saveProfile. repeat case_match; auto using daemon_ok_WriteFile.
Qed.

Lemma peers_keyed_insert ps k p : peers_keyed ps -> Pubkey p = k -> peers_keyed (<[k := p]> ps).
Proof. intros H Hk k' p'. rewrite lookup_insert_Some. intros [[<- <-]|[_ Hp]]; [done|by apply H]. Qed.

Lemma groups_keyed_insert gs k g : groups_keyed gs -> group_keyed k g -> groups_keyed (<[k := g]> gs).
Proof. intros H Hk k' p'. rewrite lookup_insert_Some. intros [[<- <-]|[_ Hp]]; [done|by apply H]. Qed.

Lemma change_ok d d' : change allowed sender_allowed d d' -> daemon_ok d -> daemon_ok d'.
Proof.
  intros Hc Hd. destruct Hc; try (apply daemon_ok_save); try (by apply daemon_ok_WriteFile); try done;
    destruct Hd as [H1 H2 H3 H4 H5]; try (by split).
  - split; try done. by apply Enqueue_ok.
  - unfold processQueue. pose proof (process_pass_ok queue_send dok rok (queue d) (engine d) H4) as Hq.
    destruct (process_pass _ _ _ _ _) as [[q t] os]. by split.
  - split; try done. intros t' [= <-]. by apply apply_table_ids, H5.
  - split; try done. intros k h. cbn [pendingHellos set_hellos]. rewrite lookup_insert_Some.
    intros [[<- <-]|[_ Hk]]; [done|by apply H3].
  - split; try done. intros k' h. cbn [pendingHellos set_hellos]. rewrite lookup_delete_Some. intros [_ Hk]. by apply H3.
  - split; try done. by apply peers_keyed_insert.
  - split; try done. apply peers_keyed_insert; [done|]. cbn [Pubkey]. by apply H1.
  - split; try done. intros k' p' Hp. cbn [peers set_peers] in Hp. apply lookup_delete_Some in Hp as [_ Hp]. by apply H1.
  - split; try done. apply groups_keyed_insert; auto.
  - split; try done. intros k' p' Hp. cbn [groups set_groups] in Hp. apply lookup_delete_Some in Hp as [_ Hp]. by apply H2.
Qed.

Lemma change_identity d d' :
  change allowed sender_allowed d d' -> identity d' = identity d /\ d_authToken d' = d_authToken d.
Proof.
  destruct 1; unfold processQueue, savePeers, saveGroups, saveProfile, WriteFile; repeat case_match; done.
Qed.

End Invariants.

(** What start-up leaves is keyed if the files were. *)
Lemma RunDaemon_ok {T} {TR : Transport T} {C : CryptoLib} {J : Json} w args z res force fs qdb tdb
    (mk : DNSClientEngine -> T) dok rid rtok d :
  RunDaemon w args z res force fs qdb tdb mk dok rid rtok = Ok d ->
  (forall ps, fs !! peersPath ≫= json_peers = Some ps -> peers_keyed ps) ->
  (forall gs, fs !! groupsPath ≫= json_groups = Some gs -> groups_keyed gs) ->
  (forall q, qdb = Some q -> queue_ok q) -> (forall t, tdb = Some t -> NoDup (map te_ID t)) -> daemon_ok d.
Proof.
  intros H Hps Hgs Hq Ht. unfold RunDaemon in H. destruct dok; cbn [check mbind result_bind] in H; [|discriminate].
  apply bind_Ok in H as ([kp fs1] & Hid & H). apply bind_Ok in H as ([tok f] & Htok & H).
  apply bind_Ok in H as (q & Hqq & H).
  assert (same_data fs fs1) as Hs1.
  { destruct (LoadIdentity _); [by injection Hid as <- <-|]. destruct (GenerateKeyPair rid); [|discriminate].
    destruct (SaveIdentity _); [|discriminate]. cbn [or_err mbind result_bind] in Hid.
    destruct (wrote (w _)); [|discriminate]. injection Hid as <- <-. intros p Hp _. by rewrite lookup_insert_ne. }
  cbv zeta in H. set (fs2 := match f with Some _ => _ | None => _ end) in H.
  assert (same_data fs fs2) as Hs2.
  { unfold fs2. intros p H1 H2. destruct f; rewrite ?lookup_insert_ne by done; by apply Hs1. }
  injection H as <-. match goal with |- daemon_ok (loadProfile (loadGroups (loadPeers ?d0))) =>
    destruct (load_all d0 eq_refl eq_refl eq_refl) as (_ & Hi & _ & Hqu & Hp & Hg & _);
    destruct (load_rest d0) as (Hh & _ & Hts) end.
  cbn [files queue pendingHellos transferStore] in *. rewrite (Hs2 peersPath) in Hp by discriminate. rewrite (Hs2 groupsPath) in Hg by discriminate.
  split; rewrite ?Hp, ?Hg, ?Hqu, ?Hh, ?Hts; [..|done].
  - destruct (_ ≫= _) as [ps|]; [by apply Hps|]. intros k p. cbn [default]. by rewrite lookup_empty.
  - destruct (fs !! groupsPath ≫= _) as [gs|]; [by apply Hgs|]. intros k p. cbn [default]. by rewrite lookup_empty.
  - intros k h. by rewrite lookup_empty.
  - apply Hq. destruct qdb; [by injection Hqq as ->|discriminate].
Qed.

(** C5: the daemon's data keeps its types: started on well-keyed files and a
    well-formed queue, after any sequence of calls and background turns - with
    failing writes, and any messages polled - every peer is stored under its own key, every
    group under its id and every member under its key, every pending
    invitation under the hex of its nonce and for the daemon's own key; the
    queue's rows have distinct ids and at most twenty retries, the transfer
    table distinct ids; and the identity and the token are those of the
    start. *)
Theorem daemon_invariant {T} {TR : Transport T} {C : CryptoLib} {L : CryptoLaws C} {F : FileCipher} {J : Json}
    {IO : IterOrder} {O : SqlOrder} w args z res force fs qdb tdb (mk : DNSClientEngine -> T) rid rtok (d0 d : Daemon T) :
  RunDaemon w args z res force fs qdb tdb mk true rid rtok = Ok d0 ->
  (forall ps, fs !! peersPath ≫= json_peers = Some ps -> peers_keyed ps) ->
  (forall gs, fs !! groupsPath ≫= json_groups = Some gs -> groups_keyed gs) ->
  (forall q, qdb = Some q -> queue_ok q) -> (forall t, tdb = Some t -> NoDup (map te_ID t)) ->
  rtc (daemon_step (fun _ => True) (fun _ => True)) d0 d ->
  daemon_ok d /\ identity d = identity d0 /\ d_authToken d = d_authToken d0.
Proof.
  intros Hrun Hps Hgs Hq Ht Hsteps. apply (run_keeps (fun _ => True) (fun _ => True)
    (fun d => daemon_ok d /\ identity d = identity d0 /\ d_authToken d = d_authToken d0) d0 d); [|exact Hsteps|].
  - intros x y Hxy (H1 & <- & <-). split; [by eapply change_ok|]. by eapply change_identity.
  - split; [|done]. by eapply RunDaemon_ok.
Qed.

(** ** What is on disk *)

Section OnDisk.
Context {T : Type} {TR : Transport T} {C : CryptoLib} {F : FileCipher} {J : Json} {IO : IterOrder} {O : SqlOrder}.
Implicit Types d : Daemon T.

(** A file that decodes to [x], or holds what [x] is printed as. *)
Definition stored {A} (decode : option bytes -> A) (print : A -> option bytes) (file : option bytes) (x : A) : Prop :=
  decode file = x \/ (is_Some (print x) /\ file = print x).

Record on_disk d : Prop := {
  od_identity : LoadIdentity (files d !! $"identity.key") = Ok (identity d);
  od_token : files d !! $"auth_token" = Some (d_authToken d);
  od_length : len (d_authToken d) = 64;
  od_peers : stored (fun f => default ∅ (f ≫= json_peers)) marshal_peers (files d !! peersPath) (peers d);
  od_groups : stored (fun f => default ∅ (f ≫= json_groups)) marshal_groups (files d !! groupsPath) (groups d);
  od_profile : files d !! profilePath ≫= json_profile_file = profile d \/
    is_Some (profile d) /\ files d !! profilePath = marshal_profile (profile d)
}.

(** [json.Marshal] of maps and records of strings does not fail. *)
Class JsonTotal : Prop := {
  marshal_peers_total : forall m, is_Some (marshal_peers m);
  marshal_groups_total : forall m, is_Some (marshal_groups m);
  marshal_profile_total : forall m, is_Some (marshal_profile m)
}.

(** Writes to the daemon's own files succeed; no sender's name climbs out of
    its directory. *)
Definition writes_work (w : bytes -> write_result) : Prop := Forall (fun f => w f = Written) own_files.
Definition plain_sender (s : bytes) : Prop := dotdot ∉ Split slash s.

Lemma writes_work_at w f : writes_work w -> f ∈ own_files -> w f = Written.
Proof. intros H Hf. unfold writes_work in H. rewrite Forall_forall in H. by apply H. Qed.

Lemma sender_path_apart dir s suf :
  slash ∉ dir -> dir <> [] -> dir <> [Ascii.ascii_of_nat 46] -> dir <> dotdot -> slash ∉ suf -> (2 < length suf)%nat ->
  Forall (fun f => take (length dir) f <> dir) own_files -> plain_sender s -> JoinPath dir (s ++ suf) ∉ own_files.
Proof.
  intros H1 H2 H3 H4 H5 H6 H7 Hs. destruct (JoinPath_prefix dir (s ++ suf)) as [rest ->]; try done.
  - by apply Split_suffix_dotdot.
  - by apply apart_own.
Qed.

Lemma may_write_apart p : may_write plain_sender p -> p ∉ own_files.
Proof.
  intros [H|(s & Hs & [-> | ->])]; [done|..]; (apply sender_path_apart; try done; try (by apply (bool_decide_unpack _)); simpl; lia).
Qed.

Lemma on_disk_frame d d' :
  files d' = files d -> identity d' = identity d -> d_authToken d' = d_authToken d -> peers d' = peers d ->
  groups d' = groups d -> profile d' = profile d -> on_disk d -> on_disk d'.
Proof. intros Hf Hi Ht Hp Hg Hpr [H1 H2 H3 H4 H5 H6]. split; by rewrite ?Hf, ?Hi, ?Ht, ?Hp, ?Hg, ?Hpr. Qed.

Lemma on_disk_write w p x d : p ∉ own_files -> on_disk d -> on_disk (WriteFile w p x d).
Proof.
  intros Hp [H1 H2 H3 H4 H5 H6]. unfold own_files in Hp.
  repeat (apply not_elem_of_cons in Hp as [? Hp]). unfold WriteFile. destruct (w p); [|done|];
  split; cbn [files set_files identity d_authToken peers groups profile]; rewrite ?lookup_insert_ne by congruence; done.
Qed.

Context {JT : JsonTotal}.

Lemma on_disk_peers w ps d : writes_work w -> on_disk d -> on_disk (savePeers w (set_peers ps d)).
Proof.
  intros Hw [H1 H2 H3 H4 H5 H6]. unfold savePeers, WriteFile. cbn [peers set_peers].
  destruct (marshal_peers_total ps) as [data Hd]. rewrite Hd, (writes_work_at w) by (done || by apply (bool_decide_unpack _)).
  split; cbn [files set_files set_peers identity d_authToken peers groups profile]; rewrite ?lookup_insert_ne by done; try done.
  right. by rewrite lookup_insert_eq, Hd.
Qed.

Lemma on_disk_groups w gs d : writes_work w -> on_disk d -> on_disk (saveGroups w (set_groups gs d)).
Proof.
  intros Hw [H1 H2 H3 H4 H5 H6]. unfold saveGroups, WriteFile. cbn [groups set_groups].
  destruct (marshal_groups_total gs) as [data Hd]. rewrite Hd, (writes_work_at w) by (done || by apply (bool_decide_unpack _)).
  split; cbn [files set_files set_groups identity d_authToken peers groups profile]; rewrite ?lookup_insert_ne by done; try done.
  right. by rewrite lookup_insert_eq, Hd.
Qed.

Lemma on_disk_profile w p d : writes_work w -> on_disk d -> on_disk (saveProfile w (set_profile (Some p) d)).
Proof.
  intros Hw [H1 H2 H3 H4 H5 H6]. unfold saveProfile, WriteFile. cbn [profile set_profile].
  destruct (marshal_profile_total (Some p)) as [data Hd]. rewrite Hd, (writes_work_at w) by (done || by apply (bool_decide_unpack _)).
  split; cbn [files set_files set_profile identity d_authToken peers groups profile]; rewrite ?lookup_insert_ne by done; try done.
  right. split; [by eexists|]. by rewrite lookup_insert_eq, Hd.
Qed.

Lemma change_on_disk d d' : change writes_work plain_sender d d' -> on_disk d -> on_disk d'.
Proof.
  destruct 1; intros Hd; auto using on_disk_peers, on_disk_groups, on_disk_profile, on_disk_write, may_write_apart;
    try (by apply (on_disk_frame d)).
  - unfold processQueue. destruct (process_pass _ _ _ _ _) as [[q t] os]. by apply (on_disk_frame d).
  - replace d with (set_peers (peers d) d) at 1 by (by destruct d). by apply on_disk_peers.
Qed.

End OnDisk.

(** C6: a crash loses nothing that was acknowledged: after any run in which
    the writes to the daemon's own files succeed and no message came from a
    sender whose name climbs out of its directory, stopping the daemon
    after any step and starting it again on its data directory
    gives the same identity, token, peers, groups, profile and queue, as
    far as JSON reads the maps back as they were.  The invitations it had
    pending are gone, and so are the transfers' states. *)
Theorem crash_safe {T} {TR : Transport T} {C : CryptoLib} {L : CryptoLaws C} {F : FileCipher} {J : Json} {JT : JsonTotal}
    {IO : IterOrder} {O : SqlOrder} w args z res force fs qdb tdb (mk : DNSClientEngine -> T) rid rtok (d0 d : Daemon T)
    w2 args2 tdb2 (mk2 : DNSClientEngine -> T) :
  RunDaemon w args z res force fs qdb tdb mk true rid rtok = Ok d0 -> (forall x, rtok = Some x -> length x = 32%nat) ->
  rtc (daemon_step writes_work plain_sender) d0 d ->
  (marshal_peers (peers d) ≫= json_peers = Some (peers d)) -> (marshal_groups (groups d) ≫= json_groups = Some (groups d)) ->
  (forall p, profile d = Some p -> marshal_profile (Some p) ≫= json_profile_file = Some p) ->
  exists d', RunDaemon w2 args2 z res force (files d) (Some (queue d)) tdb2 mk2 true None None = Ok d' /\
    identity d' = identity d /\ d_authToken d' = d_authToken d /\ peers d' = peers d /\ groups d' = groups d /\
    profile d' = profile d /\ queue d' = queue d /\ pendingHellos d' = ∅ /\ transfers d' = ∅.
Proof.
  intros Hrun Hrt Hsteps Hjp Hjg Hjr.
  assert (on_disk d) as [H1 H2 H3 H4 H5 H6].
  { apply (run_keeps writes_work plain_sender on_disk d0 d); [exact change_on_disk|exact Hsteps|].
    destruct (RunDaemon_files _ _ _ _ _ _ _ _ _ _ _ _ _ Hrun Hrt) as (Hid & Htok & Hlen & Hs & Hp & Hg & Hpr).
    split; try done; left; by rewrite Hs. }
  destruct (RunDaemon_reload w2 args2 z res force (files d) (queue d) tdb2 mk2 _ _ H1 H2 H3)
    as (d' & Hr & E1 & E2 & E3 & E4 & E5 & E6 & E7 & E8).
  exists d'. rewrite E1, E2, E3, E4, E5, E6, E7, E8. split; [exact Hr|]. repeat (split; [done|]).
  assert (default ∅ (files d !! peersPath ≫= json_peers) = peers d) as -> by (destruct H4 as [H4|[_ ->]]; [done|by rewrite Hjp]).
  assert (default ∅ (files d !! groupsPath ≫= json_groups) = groups d) as -> by (destruct H5 as [H5|[_ ->]]; [done|by rewrite Hjg]).
  assert (files d !! profilePath ≫= json_profile_file = profile d) as ->; [|done].
  destruct H6 as [H6|[[p Hp] ->]]; [done|]. rewrite Hp. by apply Hjr.
Qed.

(** A save that fails after the file was truncated is not noticed: [AddPeer]
    still answers without error, and a restart then finds no peers at all. *)
Theorem torn_save_loses_peers {T} {J : Json} w nick pk b n data (d : Daemon T) :
  Base64.DecodeString pk = Some b -> len b = KeyLength -> w peersPath = Partial n ->
  marshal_peers (<[pk := mkPeer nick pk]> (peers d)) = Some data -> json_peers (take n data) = None ->
  let '(d', r) := AddPeer w nick pk d in r = Ok tt /\ peers (loadPeers (set_peers ∅ d')) = ∅.
Proof.
  intros Hb Hl Hw Hm Hj. unfold AddPeer, savePeers, WriteFile, loadPeers. rewrite Hb, Hl. change (negb (KeyLength =? KeyLength)) with false.
  cbn iota. cbn [peers set_peers]. rewrite Hm, Hw. cbn [files set_files set_peers]. rewrite lookup_insert_eq. cbn [mbind option_bind].
  by rewrite Hj.
Qed.

(** C28: a peer can overwrite the daemon's own files: a profile update whose
    unsigned first line names the sender [../daemon_peers], sealed by any one
    peer, is written to a path that is the list of peers, so what is on disk afterwards is
    the attacker's biography.  The hypotheses on JSON say that the text reads
    as a profile update and as no group message. *)
Theorem bio_overwrites_peers {C : CryptoLib} {L : CryptoLaws C} {F : FileCipher} {J : Json} {IO : IterOrder}
    w now ss peer pk text nick bio fid key rn {T} {TR : Transport T} (d : Daemon T) :
  length rn = 24%nat -> is_Some (peers d !! peer) -> Base64.DecodeString peer = Some pk ->
  SharedSecret (PrivateKey (identity d)) pk = Ok ss -> newline ∉ text -> starts_object text = true -> 20 < len text ->
  json_group_key text = None -> json_group_msg text = None ->
  json_profile_msg text = Some ($"profile_update", nick, bio, fid, key) -> bio <> [] -> w peersPath = Written ->
  peers d !! $"../daemon_peers" = None ->
  exists ct, EncryptMessage ss ($"../daemon_peers" ++ [newline] ++ text) (Some rn) = Ok (ct, rn) /\
    ((forall p, is_Some (peers d !! p) -> p = peer \/ cannot_open (identity d) (take 24 (rn ++ ct)) (drop 24 (rn ++ ct)) p) ->
     forall id ts seq, let d' := (handle_polled w now (mkPolled id (rn ++ ct) ts seq) d).1 in
       bio_path $"../daemon_peers" = peersPath /\ files d' !! peersPath = Some (marshal_bio bio) /\ peers d' = peers d).
Proof.
  intros Hrn Hpeer Hdec Hss Hnt Hobj Hlen Hgk Hgm Hpm Hbio Hw Hno.
  destruct (spoofed_opens (identity d) peer pk ss $"../daemon_peers" text rn) as (ct & He & Ho); try done.
  { by apply (bool_decide_unpack _). }
  exists ct. split; [done|]. intros Hother id ts seq. cbv zeta. erewrite handle_opened by done.
  unfold act_on, take_group_key, open_group_message. rewrite Hgk, Hgm. replace (10 <? len text) with true by lia.
  rewrite Hobj. cbn [andb]. unfold take_typed. replace (20 <? len text) with true by lia. rewrite Hobj, Hpm. cbn [andb].
  rewrite !bool_decide_eq_true_2, bool_decide_eq_false_2 by done. cbn [andb negb fst]. unfold profile_update. rewrite Hno.
  rewrite decide_False by done. change (JoinPath _ _) with peersPath. unfold WriteFile. rewrite Hw.
  cbn [files set_files peers]. rewrite lookup_insert_eq. split; [reflexivity|]. split; [done|]. apply (savePeers_frame w d).
Qed.

(** ** Closed instances *)

(** A codec that knows one list of peers. *)
Definition one_key : bytes := Base64.EncodeToString (replicate 32 dot).
Definition one_peer : gmap bytes PeerInfoEntry := {[one_key := mkPeer $"Bob" one_key]}.
Definition bio_text : bytes := $"{type:profile_update,bio:x}".
Definition small_json : Json := {|
  json_relays _ := None;
  marshal_peers m := Some (if decide (m = one_peer) then $"P" else $"Q");
  json_peers f := if decide (f = $"P") then Some one_peer else None;
  marshal_groups _ := Some $"G"; json_groups _ := Some ∅; marshal_profile _ := Some $"R"; json_profile_file _ := None;
  json_hello _ := None; json_group_key _ := None; json_group_msg _ := None;
  json_profile_msg t := if decide (t = bio_text) then Some ($"profile_update", [], $"x", [], []) else None;
  json_media_meta _ := None;
  marshal_bio b := b; marshal_sidecar _ _ _ _ s := s; marshal_meta _ := None; json_stream_header _ := None
|}.

Lemma small_json_total : JsonTotal (J := small_json).
Proof. split; intros m; by eexists. Qed.

(** A start-up in an empty directory. *)
Definition first_start : result grpc_error (Daemon Outbox) :=
  RunDaemon (C := toy_crypto) (J := small_json) (fun _ => Written) [] $"zone" [] false ∅ (Some NewOfflineQueue) (Some []) start_outbox
    true (Some (replicate 32 dot)) (Some (replicate 32 colon)).

Lemma first_start_ok : exists d, first_start = Ok d.
Proof.
  destruct first_start as [d|e] eqn:H; [eauto|]. exfalso.
  assert (match first_start with Ok _ => true | Err _ => false end = true) as Hb by (vm_compute; reflexivity).
  rewrite H in Hb. discriminate Hb.
Qed.

Lemma empty_queue_ok : queue_ok NewOfflineQueue.
Proof. split; [apply NoDup_nil_2|apply Forall_nil_2|apply Forall_nil_2]. Qed.

Lemma daemon_invariant_witness : exists d0 d, first_start = Ok d0 /\
  d = processQueue (O := insertion_order) (fun _ => true) true (AddPeer (J := small_json) (fun _ => NotOpened) $"Bob" one_key d0).1 /\ daemon_ok d.
Proof.
  destruct first_start_ok as [d0 H]. exists d0. eexists. split; [exact H|]. split; [reflexivity|].
  refine (proj1 (daemon_invariant (L := toy_crypto_laws) (F := toy_cipher) (J := small_json) (IO := forward_order) (O := insertion_order)
    (fun _ => Written) [] $"zone" [] false ∅ (Some NewOfflineQueue) (Some []) start_outbox (Some (replicate 32 dot))
    (Some (replicate 32 colon)) d0 _ H _ _ _ _ _)).
  - intros ps Hps. discriminate Hps.
  - intros gs Hgs. discriminate Hgs.
  - intros q [= <-]. apply empty_queue_ok.
  - intros t [= <-]. apply NoDup_nil_2.
  - eapply rtc_l; [apply ds_base, (st_add_peer (O := insertion_order)); exact I|]. apply rtc_once, ds_base, st_queue.
Defined.

Lemma crash_safe_witness : exists d0 d d', first_start = Ok d0 /\
  d = (AddPeer (J := small_json) (fun _ => Written) $"Bob" one_key d0).1 /\
  RunDaemon (C := toy_crypto) (J := small_json) (fun _ => NotOpened) [] $"zone" [] false (files d) (Some (queue d)) None start_outbox
    true None None = Ok d' /\ peers d' = one_peer.
Proof.
  destruct first_start_ok as [d0 H]. exists d0.
  pose proof H as Hf. unfold first_start in Hf. pose proof Hf as Hrun.
  apply (RunDaemon_files (L := toy_crypto_laws) (J := small_json)) in Hf; [|by intros x [= <-]]. destruct Hf
    as (_ & _ & _ & _ & Hp & Hg & Hpr).
  set (d := (AddPeer (J := small_json) (fun _ => Written) $"Bob" one_key d0).1).
  assert (peers d = one_peer /\ groups d = ∅ /\ profile d = None) as (Ep & Eg & Er).
  { unfold d, AddPeer, one_key. rewrite Base64Facts.b64_decode_encode. change (negb _) with false. cbn iota. cbn [fst].
    match goal with |- context [savePeers ?w ?x] => destruct (savePeers_frame (J := small_json) w x) as (_ & _ & _ & -> & -> & _ & _ & -> & _) end.
    cbn [peers set_peers groups profile]. rewrite Hp, Hg, Hpr. done. }
  destruct (crash_safe (L := toy_crypto_laws) (F := toy_cipher) (J := small_json) (JT := small_json_total) (IO := forward_order)
    (O := insertion_order) (fun _ => Written) [] $"zone" [] false ∅ (Some NewOfflineQueue) (Some []) start_outbox (Some (replicate 32 dot))
    (Some (replicate 32 colon)) d0 d (fun _ => NotOpened) [] None start_outbox Hrun) as (d' & H1 & _ & _ & H2 & _).
  - by intros x [= <-].
  - apply rtc_once, ds_base, st_add_peer. repeat constructor.
  - rewrite Ep. cbn [marshal_peers json_peers small_json]. by rewrite decide_True.
  - rewrite Eg. reflexivity.
  - rewrite Er. discriminate.
  - exists d, d'. split; [exact H|]. split; [reflexivity|]. split; [exact H1|]. by rewrite H2.
Defined.

Lemma bio_overwrites_peers_witness : exists payload,
  files (handle_polled (C := toy_crypto) (F := toy_cipher) (J := small_json) (IO := forward_order) (fun _ => Written) 5
    (mkPolled $"01234567" payload 1 2) bob).1 !! peersPath = Some $"x".
Proof.
  destruct (bio_overwrites_peers (L := toy_crypto_laws) (F := toy_cipher) (J := small_json) (IO := forward_order) (fun _ => Written) 5
    (Sha256.Sum256 $"point") (myPubkey alice) (PublicKey alice_kp) bio_text [] $"x" [] [] (replicate 24 dot) bob)
    as (ct & _ & H).
  - reflexivity.
  - exists (mkPeer $"Alice" (myPubkey alice)). apply lookup_singleton_eq.
  - apply Base64Facts.b64_decode_encode.
  - vm_compute. reflexivity.
  - by apply (bool_decide_unpack _).
  - reflexivity.
  - reflexivity.
  - reflexivity.
  - reflexivity.
  - reflexivity.
  - discriminate.
  - reflexivity.
  - apply lookup_singleton_None. apply (bool_decide_unpack _). vm_compute. exact I.
  - exists (replicate 24 dot ++ ct). refine (proj1 (proj2 (H _ $"01234567" 1 2))). intros p [x Hx]. left.
    unfold bob, daemon_of in Hx. cbn [peers] in Hx. by apply lookup_singleton_Some in Hx as [<- _].
Defined.
