(* ===== verification/EndToEnd.v ===== *)
(** * Two daemons and a relay

    The daemon's handlers composed with the client engine, the network and
    the relay's store: what one daemon's [SendMessage] reports as sent is what
    the other daemon's [PollMessages] shows.  The daemon's theorems are proved
    against [Transport]; here that interface is tied to the engine of
    [Engine] and [SendParallel] by [EngineTransport]. *)

From S2P Require Import Prelude GoStrings Codec Sha256 Encoding Sequence Store Dns Relay Crypto Engine SendParallel Delivery Queue MediaClient Daemon Messages.

(** ** The transport that is the engine *)

(** A transport state holds the engine's configuration and the world it
    talks to; sending is an outcome of [SendMessage], polling is
    [PollMessages]. *)
Class EngineTransport {DL : DnsLib} {W : Type} {NW : Network W} (ParseIP : bytes -> bool) {T : Type} (TR : Transport T) := {
  net_world : T -> W;
  at_world : W -> T -> T;
  at_world_world : forall w t, net_world (at_world w t) = w;
  at_world_conf : forall w t, eng_conf (at_world w t) = eng_conf t;
  send_engine : forall pt pk t t' id n, eng_send pt pk t = (t', (id, Ok n)) ->
    length id = 8%nat /\ eng_conf t' = eng_conf t /\
    exists ctx_done, SendParallel.SendMessage ctx_done (eng_conf t) pt pk id (net_world t) (net_world t') (Ok (id, n));
  poll_engine : forall pk t w e r, Engine.PollMessages ParseIP (eng_conf t) pk (net_world t) = (w, e, r) ->
    exists t', eng_poll pk t = (t', r) /\ net_world t' = w /\ eng_conf t' = e
}.

(** ** Polling keeps the peers *)

Section KeepsPeers.
Context {T : Type} {TR : Transport T} {C : CryptoLib} {F : FileCipher} {J : Json} {IO : IterOrder} (w : bytes -> write_result) (now : Z).
Implicit Types d : Daemon T.

(** The identity stays, and whoever was a peer still is. *)
Definition keeps_peers d d' : Prop :=
  identity d' = identity d /\ forall k, is_Some (peers d !! k) -> is_Some (peers d' !! k).

#[export] Instance keeps_peers_preorder : PreOrder keeps_peers.
Proof.
  split; [by intros d|]. intros d1 d2 d3 [H1 H2] [G1 G2]. split; [by rewrite G1|]. intros k Hk. by apply G2, H2.
Qed.

Lemma keeps_peers_same d d' : identity d' = identity d -> peers d' = peers d -> keeps_peers d d'.
Proof. intros Hi Hp. split; [done|]. by rewrite Hp. Qed.

Lemma keeps_peers_write p x d : keeps_peers d (WriteFile w p x d).
Proof. apply keeps_peers_same; apply (WriteFile_frame w p x d). Qed.

Lemma keeps_peers_put k e d : keeps_peers d (savePeers w (set_peers (<[k := e]> (peers d)) d)).
Proof.
  destruct (savePeers_frame w (set_peers (<[k := e]> (peers d)) d)) as (_ & _ & Hi & Hp & _). split; [done|].
  rewrite Hp. cbn [peers set_peers]. intros k'. rewrite lookup_insert_is_Some'. by right.
Qed.

Lemma keeps_peers_save d : keeps_peers d (savePeers w d).
Proof. apply keeps_peers_same; apply (savePeers_frame w d). Qed.

Lemma keeps_peers_hello raw st x : keeps_peers st.1.1 (try_hello w raw now st x).1.1.
Proof.
  destruct st as [[d dec] from], x as [hex h]. unfold try_hello.
  destruct (_ <? _); [by apply keeps_peers_same|]. destruct (DecryptHello _ _) as [pt|]; [|reflexivity].
  destruct (json_hello pt) as [[[ty pk] nick]|]; [|reflexivity]. destruct (_ && _); [|reflexivity].
  cbv zeta. cbn [fst]. etrans; [apply (keeps_peers_put pk)|]. by apply keeps_peers_same.
Qed.

Lemma keeps_peers_decrypt raw d : keeps_peers d (decrypt_polled w now raw d).1.1.
Proof.
  assert (keeps_peers d (decrypt_hellos w raw now d).1.1) as Hh.
  { unfold decrypt_hellos. change d with (d, None : option bytes, [] : bytes).1.1 at 1.
    generalize (d, None : option bytes, [] : bytes) as st. generalize (iter_order (map_to_list (pendingHellos d))).
    intros l. induction l as [|x l IH]; intros st; [reflexivity|]. cbn [fold_left].
    etrans; [apply (keeps_peers_hello raw st x)|apply IH]. }
  unfold decrypt_polled. by destruct (decrypt_peers _ _ _ _) as [[[text|] from]|].
Qed.

Lemma keeps_peers_typed pm text from d d' : take_typed w pm text from d = Some d' -> keeps_peers d d'.
Proof.
  unfold take_typed. destruct (_ && _); [|done]. cbv zeta.
  set (media := match json_media_meta text with Some _ => _ | None => _ end).
  assert (media = Some d' -> keeps_peers d d') as Hm.
  { unfold media. destruct (json_media_meta text) as [[[[k m] n] f]|]; [|done]. case_match; [done|]. intros [= <-].
    unfold media_meta. destruct (GetRelays _); [reflexivity|].
    match goal with |- context [let '(d, fileData) := ?e in _] => assert (keeps_peers d e.1) as H1; [|destruct e as [d1 fd]] end.
    { case_decide; [reflexivity|]. destruct (tcp_download _ _ _ _). by apply keeps_peers_same. }
    cbv zeta. cbn [fst] in H1. etrans; [exact H1|]. etrans; apply keeps_peers_write. }
  destruct (json_profile_msg text) as [[[[[ty nick] bio] fid] key]|]; [|exact Hm].
  destruct (_ && _); [intros [= <-]|destruct (_ && _); [intros [= <-]|exact Hm]].
  - unfold profile_update. cbv zeta.
    match goal with |- context [savePeers w ?x] => assert (keeps_peers d (savePeers w x)) as H1 end.
    { destruct (peers d !! from) eqn:Hp; [|apply keeps_peers_save]. case_decide; [apply keeps_peers_save|apply keeps_peers_put]. }
    destruct (decide (bio = [])); [exact H1|]. etrans; [exact H1|apply keeps_peers_write].
  - unfold profile_pic. destruct (GetRelays _); [reflexivity|]. destruct (tcp_download _ _ _ _) as [t [enc|e]]; [|by apply keeps_peers_same].
    destruct (DecryptFile _ _) as [pic|]; [|by apply keeps_peers_same]. case_decide; [by apply keeps_peers_same|].
    etrans; [|apply keeps_peers_write]. by apply keeps_peers_same.
Qed.

Lemma keeps_peers_polled pm d : keeps_peers d (handle_polled w now pm d).1.
Proof.
  unfold handle_polled. destruct (_ <? _); [reflexivity|]. pose proof (keeps_peers_decrypt (pm_Data pm) d) as H1.
  destruct (decrypt_polled _ _ _ _) as [[d1 [text|]] from]; [|exact H1]. cbn [fst] in H1. etrans; [exact H1|]. unfold act_on.
  destruct (take_group_key w text d1) as [d2|] eqn:Hk.
  { revert Hk. unfold take_group_key. repeat case_match; try done. intros [= <-]. unfold store_group_key. cbv zeta.
    match goal with |- context [saveGroups w ?x] => destruct (saveGroups_frame w x) as (_ & _ & Hi & Hp & _) end.
    by apply keeps_peers_same. }
  destruct (open_group_message text d1) as [[text' gid]|]; [|reflexivity].
  destruct (take_typed w pm text' from d1) as [d2|] eqn:Ht; [|reflexivity]. by eapply keeps_peers_typed.
Qed.

Lemma keeps_peers_all pms : forall d, keeps_peers d (handle_all w now pms d).1.
Proof.
  induction pms as [|pm pms IH]; intros d; [reflexivity|]. cbn [handle_all]. pose proof (keeps_peers_polled pm d) as H1.
  destruct (handle_polled w now pm d) as [d1 out]. cbn [fst] in H1. specialize (IH d1).
  destruct (handle_all w now pms d1) as [d2 more]. by etrans.
Qed.

(** What the messages before and after it do not take away. *)
Lemma handle_all_elem pre pm post d m :
  m ∈ (handle_polled w now pm (handle_all w now pre d).1).2 -> m ∈ (handle_all w now (pre ++ pm :: post) d).2.
Proof.
  revert d. induction pre as [|x pre IH]; intros d; cbn [app handle_all fst].
  - intros Hm. destruct (handle_polled w now pm d) as [d1 out]. destruct (handle_all w now post d1) as [d2 more].
    apply elem_of_app. by left.
  - destruct (handle_polled w now x d) as [d1 out]. specialize (IH d1).
    destruct (handle_all w now pre d1) as [d2 o2]. cbn [fst] in *. intros Hm. specialize (IH Hm).
    destruct (handle_all w now (pre ++ pm :: post) d1) as [d3 o3]. apply elem_of_app. by right.
Qed.

End KeepsPeers.

(** ** A text message *)

(** A text that fits: nonce and tag add 40 bytes, the signed frame 179. *)
Lemma chunk_total_fits pt size :
  (0 < size)%nat -> len pt <= 65535 * Z.of_nat size -> Z.of_nat (chunk_total pt size) < 65536.
Proof.
  intros Hs Hl. unfold chunk_total, len in *. rewrite Nat2Z.inj_div. apply Z.div_lt_upper_bound; lia.
Qed.

(** The payload [SendMessage] gives the engine, when the engine takes it. *)
Lemma SendMessage_payload {T} {TR : Transport T} {C : CryptoLib} {L : CryptoLaws C} {IO : IterOrder}
    ra rb rn kb text ok now (da da' : Daemon T) resp :
  length ra = 32%nat -> length rb = 32%nat -> length rn = 24%nat ->
  GenerateKeyPair (Some ra) = Ok (identity da) -> GenerateKeyPair (Some rb) = Ok kb ->
  Messages.SendMessage (Base64.EncodeToString (PublicKey kb)) text [] (Some rn) ok now da = (da', Ok resp) ->
  QueuedFlag resp = false ->
  exists ct id n t, eng_send (rn ++ ct) (Base64.EncodeToString (PublicKey kb)) (engine da) = (t, (id, Ok n)) /\
    engine da' = t /\ MessageId resp = Base64.EncodeToString id /\
    length (rn ++ ct) = (length text + 219)%nat /\
    decrypt_peers kb rn ct [myPubkey da] = Some (Some text, myPubkey da).
Proof.
  intros Hra Hrb Hrn Ha Hb Hsend Hq. unfold Messages.SendMessage in Hsend.
  rewrite bool_decide_eq_true_2 in Hsend by done. cbn [negb] in Hsend. rewrite Base64Facts.b64_decode_encode in Hsend.
  destruct (SharedSecret _ _) as [ss|] eqn:Hss; [|discriminate].
  destruct (EncryptMessage ss _ (Some rn)) as [[ct nonce]|] eqn:Henc; [|discriminate].
  destruct (decrypt_from_sender _ _ _ _ _ _ _ _ _ Hra Hrb Hrn Ha Hb Hss Henc) as [Hn Hdec].
  assert (nonce = rn /\ length ct = (length text + 195)%nat) as [-> Hct].
  { pose proof (GenerateKeyPair_signing _ _ Ha) as Hsig. apply GenerateKeyPair_inv in Ha as (_ & Hpa & _); [|done].
    unfold EncryptMessage in Henc. destruct (NewX ss); [|discriminate]. injection Henc as <- <-. split; [done|].
    rewrite Seal_length, signed_length by done. lia. }
  destruct (eng_send _ _ _) as [t [id [n|err]]] eqn:He.
  - injection Hsend as <- <-. exists ct, id, n, t. rewrite length_app, Hrn, Hct. repeat split; try done. lia.
  - destruct (Enqueue _ _ _ _ _) as [q [i|]]; [|discriminate]. injection Hsend as <- <-. discriminate Hq.
Qed.

(** C1: end to end: Alice's daemon sends a text to Bob over the relay both
    use, and [SendMessage] answers that it was sent and not queued; then, once
    the network has recovered, Bob's daemon, which has Alice as a peer, polls,
    and what it reports holds that text, byte for byte, from Alice and with
    the id Alice was told - whatever the interleaving of Alice's goroutines,
    the losses, the other clients and collections of the relay during the
    sending and afterwards ([later]), and the other messages waiting for Bob,
    as long as: the text does not begin with an opening brace (Bob's daemon
    takes such a text for one of its own JSON messages if it reads as one) and
    is short enough for 65535 chunks with its 219 bytes of framing; the relay
    is the only one either of them uses and is configured by its IP address; no
    other client uses the same random id and Bob has not fetched it before;
    less time passes than the relay keeps a message; and no other peer's key
    opens this one. *)
Theorem end_to_end {DL : DnsLib} {DB} {SS : SequenceSource DB} {IO : IterOrder} {C : CryptoLib} {L : CryptoLaws C}
    {F : FileCipher} {J : Json} z addr host port ParseIP
    {TA TB} {TRA : Transport TA} {TRB : Transport TB}
    {EA : EngineTransport (NW := relay_network (DB := DB) z) ParseIP TRA} {EB : EngineTransport (NW := relay_network (DB := DB) z) ParseIP TRB}
    w ra rb rn text ok now now' t0 T later (da da' : Daemon TA) (db : Daemon TB) resp :
  zone_ok z -> zone (conf da) = z -> zone (conf db) = z ->
  discoverActiveRelays (conf da) = [addr] -> discoverActiveRelays (conf db) = [addr] ->
  SplitHostPort addr = Some (host, port) -> ParseIP host = true ->
  length ra = 32%nat -> length rb = 32%nat -> length rn = 24%nat ->
  GenerateKeyPair (Some ra) = Ok (identity da) -> GenerateKeyPair (Some rb) = Ok (identity db) ->
  len text + 219 <= 65535 * Z.of_nat (effective_size (chunkSize (conf da))) ->
  starts_object text = false -> is_Some (peers db !! myPubkey da) ->
  Messages.SendMessage (myPubkey db) text [] (Some rn) ok now da = (da', Ok resp) -> QueuedFlag resp = false ->
  (forall id, MessageId resp = Base64.EncodeToString id ->
     (id ∉ fetched (conf db)) /\ open_for z id (Sha256.Sum256 (myPubkey db)) t0 T (net_world (EngineTransport := EA) (engine da)) /\
     Forall (spares z id) later) ->
  clock (net_world (EngineTransport := EA) (engine da')) + waits later <= t0 + T ->
  let w2 := recovered (visits z later (net_world (EngineTransport := EA) (engine da'))) in
  let db1 := set_engine (at_world (EngineTransport := EB) w2 (engine db)) db in
  (forall t polled pre pm post, eng_poll (myPubkey db) (engine db1) = (t, Ok polled) -> polled = (pre ++ pm :: post) ->
     MessageId resp = Base64.EncodeToString (pm_MsgID pm) ->
     forall p, is_Some (peers (handle_all w now' pre (set_engine t db1)).1 !! p) ->
       p = myPubkey da \/ cannot_open (identity db) (take 24 (pm_Data pm)) (drop 24 (pm_Data pm)) p) ->
  exists id db' out m, MessageId resp = Base64.EncodeToString id /\
    Messages.PollMessages w now' db1 = (db', Ok out) /\ m ∈ out /\
    rm_MessageId m = Hex.EncodeToString id /\ rm_Plaintext m = text /\ rm_FromPeer m = myPubkey da /\ rm_GroupId m = [].
Proof.
  intros Hz Hza Hzb Hra Hrb Haddr Hip Lra Lrb Lrn Ha Hb Hfit Htext Hpeer Hsend Hq Hfresh Htime w2 db1 Honly.
  destruct (SendMessage_payload _ _ _ _ _ _ _ _ _ _ Lra Lrb Lrn Ha Hb Hsend Hq)
    as (ct & id & n & t & He & Ht & Hmid & Hlen & Hdec).
  destruct (Hfresh id Hmid) as (Hnew & Hopen & Hlater). apply (send_engine (EngineTransport := EA)) in He as (Lid & _ & ctx & He). rewrite <- Ht in He.
  assert (rn ++ ct <> [] /\ myPubkey db <> []) as [Hne Hpk].
  { split; [intros E; rewrite E in Hlen; simpl in Hlen; lia|]. apply b64_not_nil.
    apply GenerateKeyPair_inv in Hb as (_ & Hl & _); [|done]. by destruct (PublicKey _). }
  destruct (sent_received z addr host port ParseIP ctx (conf da) (conf db) (rn ++ ct) (myPubkey db) id t0 T
    (net_world (EngineTransport := EA) (engine da)) (net_world (EngineTransport := EA) (engine da')) (id, n) later) as (s & e' & polled & _ & Hpoll & Hin); try done.
  { apply chunk_total_fits; [apply effective_size_pos|]. unfold len in *. rewrite Hlen. lia. }
  set (pm := mkPolled id (rn ++ ct) _ _) in Hin.
  assert (eng_conf (engine db1) = conf db /\ net_world (EngineTransport := EB) (engine db1) = w2) as [Hc1 Hw1]
    by (split; [apply at_world_conf|apply at_world_world]).
  fold w2 in Hpoll. rewrite <- Hc1 in Hpoll. rewrite <- Hw1 in Hpoll at 1. apply (poll_engine (EngineTransport := EB)) in Hpoll as (t' & Hpoll & _ & _).
  apply list_elem_of_split in Hin as (pre & post & Hsplit). specialize (Honly t' polled pre pm post Hpoll Hsplit Hmid).
  pose proof (keeps_peers_all w now' pre (set_engine t' db1)) as [Hi Hp].
  pose proof (handle_all_elem w now' pre pm post (set_engine t' db1) (received pm text (myPubkey da) [])) as Hm.
  set (dp := (handle_all w now' pre (set_engine t' db1)).1) in *. unfold pm in Hm, Hsplit.
  rewrite (handle_text w now' dp rn ct (myPubkey da) text (myPubkey da) id) in Hm; try done.
  - specialize (Hm (list_elem_of_here _ _)). rewrite <- Hsplit in Hm. unfold Messages.PollMessages.
    change (myPubkey db1) with (myPubkey db). rewrite Hpoll. destruct (handle_all w now' polled (set_engine t' db1)) as [db' out].
    exists id, db', out. eexists. split; [done|]. split; [done|]. split; [exact Hm|]. done.
  - by apply Hp.
  - by rewrite Hi.
  - intros p Hpp. rewrite Hi. by apply Honly.
Qed.

(** ** A client that runs its goroutines in turn *)

Section Client.
Context {DL : DnsLib} {DB : Type} {SS : SequenceSource DB} {IO : IterOrder} (z : bytes) (ParseIP : bytes -> bool).

(** The engine, the world, and the random message ids to come. *)
Record Client := mkClient { cl_conf : DNSClientEngine; cl_world : RelayWorld DB; cl_ids : list bytes }.

Definition client_send (pt pk : bytes) (t : Client) : Client * (bytes * result bytes Z) :=
  match cl_ids t with
  | [] => (t, ([], Err $"rand"))
  | id :: rest =>
      let e := cl_conf t in
      let cs := ChunkMessage id pt (chunkSize e) pk in
      let rs := discoverActiveRelays e in
      if (length id =? 8)%nat && bool_decide (cs <> []) && bool_decide (rs <> []) then
        match send_in_turn (NW := relay_network z) e cs rs (seq 0 (length cs * length rs)) (cl_world t) with
        | Some (w', Ok _) => (mkClient e w' rest, (id, Ok (len cs)))
        | Some (w', Err _) => (mkClient e w' rest, (id, Err $"undelivered"))
        | None => (t, (id, Err $"schedule"))
        end
      else (t, (id, Err $"refused"))
  end.

#[export] Instance client_transport : Transport Client := {|
  eng_conf := cl_conf;
  eng_set_conf e t := mkClient e (cl_world t) (cl_ids t);
  eng_send := client_send;
  eng_poll pk t :=
    let '(w, e, r) := Engine.PollMessages (NW := relay_network z) ParseIP (cl_conf t) pk (cl_world t) in
    (mkClient e w (cl_ids t), r);
  tcp_upload _ _ data name mime mt t := (t, Err UploadFailed);
  tcp_download _ _ _ t := (t, Err DownloadFailed)
|}.

(** Its outcomes are outcomes of the engine. *)
#[export] Instance client_is_engine : EngineTransport (NW := relay_network z) ParseIP client_transport.
Proof.
  refine {| net_world := cl_world; at_world w t := mkClient (cl_conf t) w (cl_ids t) |}; try done.
  - intros pt pk t t' id n. cbn [eng_send client_transport]. unfold client_send. destruct (cl_ids t) as [|i rest]; [discriminate|].
    cbv zeta. destruct ((_ =? _)%nat) eqn:Hl; [|discriminate]. apply Nat.eqb_eq in Hl.
    destruct (bool_decide _) eqn:Hc; [|discriminate]. apply bool_decide_eq_true in Hc.
    destruct (bool_decide (discoverActiveRelays _ <> _)) eqn:Hr; [|discriminate]. apply bool_decide_eq_true in Hr.
    cbn [andb]. destruct (send_in_turn _ _ _ _ _) as [[w' [u|]]|] eqn:Hs; try discriminate. intros [= <- <- <-].
    split; [done|]. split; [done|]. exists (fun _ => false). unfold SendParallel.SendMessage. cbn [eng_conf client_transport cl_world].
    replace (0 <? len (discoverActiveRelays (cl_conf t))) with true by (by destruct (discoverActiveRelays (cl_conf t))).
    exists (Ok tt). split; [|done]. destruct u. by eapply send_in_turn_sound.
  - intros pk t w e r Hp. cbn [eng_conf client_transport] in Hp. cbn [eng_poll client_transport]. rewrite Hp. by eexists.
Defined.

End Client.
Arguments Client DB : clear implicits.
Arguments mkClient {DB}.

(** ** Closed instances *)

Definition net_daemon (kp : KeyPair) (ps : gmap bytes PeerInfoEntry) (w : RelayWorld (gmap bytes bytes)) (ids : list bytes)
    : Daemon (Client (gmap bytes bytes)) :=
  mkDaemon (mkClient (NewDNSClientEngine [relay_a] demo_zone) w ids) (NewDetector false 1) NewOfflineQueue kp
    ps ∅ ∅ ∅ None (replicate 64 dot) None ∅.
Definition net_alice := net_daemon alice_kp ∅ lossy_world [$"01234567"].
Definition net_bob := net_daemon bob_kp {[myPubkey net_alice := mkPeer $"Alice" (myPubkey net_alice)]} lossy_world [].
Local Abbreviation demo_transport :=
  (client_transport (DL := simple_dns_lib) (IO := forward_order) demo_zone (fun _ => true)).
Local Abbreviation demo_engine :=
  (client_is_engine (DL := simple_dns_lib) (IO := forward_order) demo_zone (fun _ => true)).
Local Abbreviation alice_sends :=
  (Messages.SendMessage (TR := demo_transport) (C := toy_crypto) (IO := forward_order) (myPubkey net_bob) $"hi Bob" []
    (Some (replicate 24 dot)) true 3 net_alice).
Local Abbreviation bob_after da :=
  (set_engine (at_world (EngineTransport := demo_engine) (recovered (visits (DL := simple_dns_lib) (IO := forward_order) demo_zone
     other_traffic (net_world (EngineTransport := demo_engine) (engine da)))) (engine net_bob)) net_bob).

(** Alice's message is sent, and it is all there is for Bob. *)
Lemma demo_exchange : exists da' resp x t,
  alice_sends = (da', Ok resp) /\ QueuedFlag resp = false /\
  clock (net_world (EngineTransport := demo_engine) (engine da')) = 3605 * second /\ MessageId resp = Base64.EncodeToString $"01234567" /\
  eng_poll (Transport := demo_transport) (myPubkey net_bob) (engine (bob_after da')) = (t, Ok [x]).
Proof.
  assert (match alice_sends with
          | (da', Ok resp) => negb (QueuedFlag resp) && (clock (net_world (EngineTransport := demo_engine) (engine da')) =? 3605 * second) && bool_decide (MessageId resp = Base64.EncodeToString $"01234567") &&
              match (eng_poll (Transport := demo_transport) (myPubkey net_bob) (engine (bob_after da'))).2 with
              | Ok [_] => true | _ => false end
          | _ => false end = true) as H by (vm_compute; reflexivity).
  destruct alice_sends as [da' [resp|e]]; [|discriminate H].
  apply andb_prop in H as [H H3]. apply andb_prop in H as [H H2]. apply andb_prop in H as [H1 H4]. apply Z.eqb_eq in H4. apply bool_decide_eq_true in H2.
  destruct (eng_poll _ _) as [t [[|x [|? ?]]|]] eqn:Hp; try discriminate H3.
  exists da', resp, x, t. split; [done|]. split; [by destruct (QueuedFlag resp)|]. split; [exact H4|]. split; [done|exact Hp].
Qed.

Lemma end_to_end_witness : exists da' resp db' out m,
  alice_sends = (da', Ok resp) /\
  Messages.PollMessages (TR := demo_transport) (C := toy_crypto) (F := toy_cipher) (J := no_json) (IO := forward_order)
    (fun _ => Written) 9 (bob_after da') = (db', Ok out) /\ m ∈ out /\
  rm_Plaintext m = $"hi Bob" /\ rm_FromPeer m = myPubkey net_alice.
Proof.
  destruct demo_exchange as (da' & resp & x & t & Hs & Hq & Hclock & Hid & Hp).
  destruct (end_to_end (DL := simple_dns_lib) (IO := forward_order) (L := toy_crypto_laws) (F := toy_cipher) (J := no_json)
    demo_zone relay_a $"10.0.0.1" $"53" (fun _ => true) (EA := demo_engine) (EB := demo_engine) (fun _ => Written) (replicate 32 (Ascii.ascii_of_nat 97))
    (replicate 32 (Ascii.ascii_of_nat 98)) (replicate 24 dot) $"hi Bob" true 3 9 (5 * second) DefaultTTL other_traffic net_alice da' net_bob resp
    demo_zone_ok eq_refl eq_refl eq_refl eq_refl eq_refl eq_refl eq_refl eq_refl eq_refl eq_refl eq_refl)
    as (id & db' & out & m & _ & H1 & H2 & _ & H3 & H4 & _).
  - vm_compute. discriminate.
  - reflexivity.
  - exists (mkPeer $"Alice" (myPubkey net_alice)). apply lookup_singleton_eq.
  - exact Hs.
  - exact Hq.
  - intros id Hi. rewrite Hid in Hi. apply Base64Facts.b64_encode_inj in Hi as <-. split; [apply not_elem_of_empty|].
    split; [apply lossy_open|apply other_traffic_spares].
  - rewrite Hclock. vm_compute. discriminate.
  - intros t0 polled pre pm post Hp0 Hsplit _ p.
    rewrite Hp in Hp0. injection Hp0 as <- <-. destruct pre as [|y pre]; [|by destruct pre].
    cbn [handle_all fst peers set_engine]. intros [e He]. left. unfold net_bob, net_daemon in He. cbn [peers] in He. by apply lookup_singleton_Some in He as [<- _].
  - exists da', resp, db', out, m. split; [exact Hs|]. split; [exact H1|]. split; [exact H2|]. split; [exact H3|exact H4].
Defined.
