(* ===== verification/Entry.v ===== *)
(** * Starting the program (cmd/relayd/main.go, mobile, cmd/gomobile, mobileso)

    The command line with the part of package [flag] and [strconv] it uses,
    and the entry points of the embedded daemon.  All of them end in one call
    of [RunDaemon], the relay in [RunServer]. *)

From S2P Require Import Prelude GoStrings Codec Sequence Store RateLimit Dns Relay Crypto Engine Queue MediaClient Daemon.

(** ** [strconv] *)

Definition ParseBool (s : bytes) : option bool :=
  if bool_decide (s ∈ [$"1"; $"t"; $"T"; $"TRUE"; $"true"; $"True"]) then Some true
  else if bool_decide (s ∈ [$"0"; $"f"; $"F"; $"FALSE"; $"false"; $"False"]) then Some false
  else None.

Definition underscore : byte := Ascii.ascii_of_nat 95.
Definition zero : byte := Ascii.ascii_of_nat 48.
Definition is_digit (c : byte) : bool := (48 <=? byte_val c) && (byte_val c <=? 57).
Definition is_letter (last : Z) (c : byte) : bool :=
  let l := byte_val (to_lower c) in (97 <=? l) && (l <=? last).

Definition digit_of (c : byte) : option Z :=
  if is_digit c then Some (byte_val c - 48)
  else if is_letter 122 c then Some (byte_val (to_lower c) - 87) else None.

(** The loop of [ParseUint] in base 0: underscores are skipped here. *)
Fixpoint parse_uint (base acc : Z) (s : bytes) : option Z :=
  match s with
  | [] => Some acc
  | c :: rest =>
      if decide (c = underscore) then parse_uint base acc rest
      else d ← digit_of c; if base <=? d then None else parse_uint base (acc * base + d) rest
  end.

(** The base a number announces, and its digits. *)
Definition base_prefix (s : bytes) : Z * bytes :=
  match s with
  | c0 :: rest =>
      if decide (c0 = zero) then
        match rest with
        | c1 :: _ :: _ =>
            let l := byte_val (to_lower c1) in
            if l =? 98 then (2, tail rest) else if l =? 111 then (8, tail rest) else if l =? 120 then (16, tail rest) else (8, rest)
        | _ => (8, rest)
        end
      else (10, s)
  | [] => (10, s)
  end.

(** [underscoreOK]: an underscore only between digits, or after the prefix. *)
Inductive saw := SawStart | SawDigit | SawUnderscore | SawOther.
Fixpoint underscores (hex : bool) (i : saw) (s : bytes) : bool :=
  match s with
  | [] => match i with SawUnderscore => false | _ => true end
  | c :: rest =>
      if is_digit c || hex && is_letter 102 c then underscores hex SawDigit rest
      else if decide (c = underscore) then
        match i with SawDigit => underscores hex SawUnderscore rest | _ => false end
      else match i with SawUnderscore => false | _ => underscores hex SawOther rest end
  end.
Definition underscoreOK (s : bytes) : bool :=
  match s with
  | c0 :: c1 :: rest =>
      let l := byte_val (to_lower c1) in
      if decide (c0 = zero) then
        if (l =? 98) || (l =? 111) || (l =? 120) then underscores (l =? 120) SawDigit rest else underscores false SawStart s
      else underscores false SawStart s
  | _ => underscores false SawStart s
  end.

Definition ParseUint (s : bytes) : option Z :=
  if decide (s = []) then None
  else
    let '(base, ds) := base_prefix s in
    n ← parse_uint base 0 ds;
    if bool_decide (underscore ∈ s) && negb (underscoreOK s) then None
    else if n <? 2 ^ 64 then Some n else None.

(** [strconv.ParseInt(s, 0, 64)]. *)
Definition ParseInt (s : bytes) : option Z :=
  let '(neg, ds) := match s with
    | c :: rest => if decide (c = minus) then (true, rest) else if decide (c = plus) then (false, rest) else (false, s)
    | [] => (false, s)
    end in
  n ← ParseUint ds;
  let z := if (neg : bool) then - n else n in
  if (- 2 ^ 63 <=? z) && (z <? 2 ^ 63) then Some z else None.

(** ** Package [flag] *)

Inductive flag_error := BadSyntax | NotDefined | Help | NeedsArgument | InvalidValue.

Definition equals : byte := Ascii.ascii_of_nat 61.

Section FlagSet.
Context {S : Type}.
(** The defined flags: whether a flag is boolean, and its [Set]. *)
Context (formal : bytes -> option (bool * (bytes -> S -> option S))).

(** The name of a flag argument, without its dashes; [None] when the
    argument is not a flag. *)
Inductive arg_kind := NotFlag | Terminator | Flag (name : bytes).
Definition classify (s : bytes) : arg_kind :=
  match s with
  | c0 :: c1 :: rest =>
      if decide (c0 = minus) then
        if decide (c1 = minus) then match rest with [] => Terminator | _ => Flag rest end
        else Flag (c1 :: rest)
      else NotFlag
  | _ => NotFlag
  end.

(** [FlagSet.Parse]: parsing stops at the first argument that is not a flag,
    or after [--]. *)
Fixpoint Parse (args : list bytes) (s : S) : result flag_error S :=
  match args with
  | [] => Ok s
  | a :: rest =>
      match classify a with
      | NotFlag | Terminator => Ok s
      | Flag name =>
          if bool_decide (head name = None) || bool_decide (head name = Some minus) || bool_decide (head name = Some equals)
          then Err BadSyntax
          else
            let '(name, value) := match SplitN equals 2 name with n :: v :: _ => (n, Some v) | _ => (name, None) end in
            match formal name with
            | None => Err (if bool_decide (name = $"help") || bool_decide (name = $"h") then Help else NotDefined)
            | Some (true, Set_) =>
                match Set_ (default $"true" value) s with Some s => Parse rest s | None => Err InvalidValue end
            | Some (false, Set_) =>
                match value with
                | Some v => match Set_ v s with Some s => Parse rest s | None => Err InvalidValue end
                | None =>
                    match rest with
                    | [] => Err NeedsArgument
                    | v :: rest => match Set_ v s with Some s => Parse rest s | None => Err InvalidValue end
                    end
                end
            end
      end
  end.

End FlagSet.

(** ** The command line *)

Record ServerFlags := mkServerFlags { s_addr : bytes; s_zone : bytes; s_db : bytes; s_media_port : bytes }.
Record ClientFlags := mkClientFlags {
  c_grpc_port : Z; c_zone : bytes; c_data_dir : bytes; c_force_blackout : bool; c_dns_resolver : bytes; c_relays : list bytes
}.

Definition server_defaults : ServerFlags := mkServerFlags $":53" $"msg.local-domain" $"/var/lib/relayd" $"9877".
Definition client_defaults : ClientFlags := mkClientFlags 9876 $"msg.local-domain" [] false $"8.8.8.8:53" [].

Definition serverCmd (name : bytes) : option (bool * (bytes -> ServerFlags -> option ServerFlags)) :=
  if decide (name = $"addr") then Some (false, fun v f => Some (mkServerFlags v (s_zone f) (s_db f) (s_media_port f)))
  else if decide (name = $"zone") then Some (false, fun v f => Some (mkServerFlags (s_addr f) v (s_db f) (s_media_port f)))
  else if decide (name = $"db") then Some (false, fun v f => Some (mkServerFlags (s_addr f) (s_zone f) v (s_media_port f)))
  else if decide (name = $"media-port") then Some (false, fun v f => Some (mkServerFlags (s_addr f) (s_zone f) (s_db f) v))
  else None.

(** [relayList.Set] appends. *)
Definition relayList_Set (value : bytes) (r : list bytes) : list bytes := r ++ [value].

Definition clientCmd (name : bytes) : option (bool * (bytes -> ClientFlags -> option ClientFlags)) :=
  if decide (name = $"grpc-port") then Some (false, fun v f => p ← ParseInt v;
    Some (mkClientFlags p (c_zone f) (c_data_dir f) (c_force_blackout f) (c_dns_resolver f) (c_relays f)))
  else if decide (name = $"zone") then Some (false, fun v f =>
    Some (mkClientFlags (c_grpc_port f) v (c_data_dir f) (c_force_blackout f) (c_dns_resolver f) (c_relays f)))
  else if decide (name = $"data-dir") then Some (false, fun v f =>
    Some (mkClientFlags (c_grpc_port f) (c_zone f) v (c_force_blackout f) (c_dns_resolver f) (c_relays f)))
  else if decide (name = $"force-blackout") then Some (true, fun v f => b ← ParseBool v;
    Some (mkClientFlags (c_grpc_port f) (c_zone f) (c_data_dir f) b (c_dns_resolver f) (c_relays f)))
  else if decide (name = $"dns-resolver") then Some (false, fun v f =>
    Some (mkClientFlags (c_grpc_port f) (c_zone f) (c_data_dir f) (c_force_blackout f) v (c_relays f)))
  else if decide (name = $"relay") then Some (false, fun v f =>
    Some (mkClientFlags (c_grpc_port f) (c_zone f) (c_data_dir f) (c_force_blackout f) (c_dns_resolver f)
      (relayList_Set v (c_relays f))))
  else None.

(** What [main] goes on to do, or the code it exits with. *)
Inductive command := Exit (code : Z) | Server (f : ServerFlags) | Client (f : ClientFlags).

(** [flag.ExitOnError]. *)
Definition exit_code (e : flag_error) : Z := match e with Help => 0 | _ => 2 end.

Definition main (args : list bytes) : command :=
  match args with
  | _ :: mode :: rest =>
      if decide (mode = $"server") then
        match Parse serverCmd rest server_defaults with Ok f => Server f | Err e => Exit (exit_code e) end
      else if decide (mode = $"client") then
        match Parse clientCmd rest client_defaults with Ok f => Client f | Err e => Exit (exit_code e) end
      else Exit 1
  | _ => Exit 1
  end.

(** ** Calls of [RunDaemon] *)

Record DaemonCall := mkCall {
  dc_grpcPort : Z; dc_relays : list bytes; dc_zone : bytes; dc_dataDir : bytes; dc_force : bool; dc_resolver : bytes
}.

(** [runClient] up to the call, or the exit code; [home] is
    [os.UserHomeDir]. *)
Definition runClient (home : option bytes) (f : ClientFlags) : result Z DaemonCall :=
  dir ← (if decide (c_data_dir f = []) then (fun h => h ++ $"/.config/relayd") <$> or_err 1 home else Ok (c_data_dir f));
  Ok (mkCall (c_grpc_port f) (c_relays f) (c_zone f) dir (c_force_blackout f) (c_dns_resolver f)).

(** mobile/bridge.go, cmd/gomobile/bridge.go *)
Definition StartDaemon (grpcPort : Z) (relayList zone forceBlackout dataDir dnsResolver : bytes) : DaemonCall :=
  mkCall grpcPort (parse_relay_list relayList) zone dataDir (bool_decide (forceBlackout = $"true")) dnsResolver.
Definition StartEmbedded (grpcPort : Z) (relays zone forceBlackout dataDir dnsResolver : bytes) : DaemonCall :=
  mkCall grpcPort (split_relay_list relays) zone dataDir (bool_decide (forceBlackout = $"true")) dnsResolver.

(** A Java string: null, or its bytes, which the JVM may fail to provide. *)
Inductive jstring := JNull | JString (utf : option bytes).
Definition jstringToCString (js : jstring) : bytes :=
  match js with JNull => [] | JString None => [] | JString (Some s) => s end.

(** mobileso: the port for peers and the bootstrap addresses are not used. *)
Definition GoBridge_startDaemon (grpcPort : Z) (relayList zone forceBlackout dataDir : jstring) (p2pPort : Z)
    (bootstrapAddrs dnsResolver : jstring) : DaemonCall :=
  StartDaemon grpcPort (jstringToCString relayList) (jstringToCString zone) (jstringToCString forceBlackout)
    (jstringToCString dataDir) (jstringToCString dnsResolver).

(** The daemon a call starts: [open_dir] gives the files and databases of a
    directory. *)
Definition start_call {T : Type} {C : CryptoLib} {J : Json} (w : bytes -> write_result)
    (open_dir : bytes -> gmap bytes bytes * option OfflineQueue * option transfers_table * bool)
    (make_engine : DNSClientEngine -> T) (rid rtoken : option bytes) (c : DaemonCall) : result grpc_error (Daemon T) :=
  let '(fs, q, t, ok) := open_dir (dc_dataDir c) in
  RunDaemon w (dc_relays c) (dc_zone c) (dc_resolver c) (dc_force c) fs q t make_engine ok rid rtoken.

(** ** What a relay listens on *)

(** The sockets of [RunServer]: the address of the command line and the
    fallback port, by datagram and by stream. *)
Definition RunServer_sockets (addr : bytes) : list (bytes * bytes) :=
  [(addr, $"udp"); (addr, $"tcp"); ($":5353", $"udp"); ($":5353", $"tcp")].
(** The media server, when a port is given. *)
Definition startMediaServer_addr (mediaPort : bytes) : option bytes :=
  if decide (mediaPort = []) then None else Some ($":" ++ mediaPort).
(** [runServer]: the relay that serves and its sockets, or the exit code;
    [dir_ok] is whether the data directory can be created, [seq] the sequence
    database when it opens. *)
Definition run_relay {DB : Type} (dir_ok : bool) (seq : option DB) (f : ServerFlags)
    : result Z (RelayState DB * list (bytes * bytes) * option bytes) :=
  _ ← check dir_ok 1;
  Ok (runServer seq, RunServer_sockets (s_addr f), startMediaServer_addr (s_media_port f)).

(** ** Lemmas *)

(** The digits of a number: parsing them gives the number back. *)
Lemma digit_val v : 0 <= v < 10 -> byte_val (digit v) = 48 + v.
Proof. intros Hv. unfold digit. rewrite byte_val_of. apply Z.mod_small. lia. Qed.

Lemma digit_other v c n : byte_val c = n -> 0 <= v < 10 -> n <> 48 + v -> digit v <> c.
Proof. intros <- Hv Hc E. apply Hc. rewrite <- E. by apply digit_val. Qed.

Lemma parse_digit v base acc rest :
  0 <= v < 10 -> v < base -> parse_uint base acc (digit v :: rest) = parse_uint base (acc * base + v) rest.
Proof.
  intros Hv Hb. cbn [parse_uint]. rewrite decide_False by (apply (digit_other _ underscore 95 eq_refl); lia).
  unfold digit_of, is_digit. rewrite digit_val by done. replace ((48 <=? 48 + v) && (48 + v <=? 57)) with true by lia.
  cbn [mbind option_bind]. replace (48 + v - 48) with v by lia. by replace (base <=? v) with false by lia.
Qed.

Lemma digits_eq fuel n acc : digits (S fuel) n acc =
  if n / 10 =? 0 then digit (n mod 10) :: acc else digits fuel (n / 10) (digit (n mod 10) :: acc).
Proof. done. Qed.

Lemma digits_spec fuel : forall n acc, 0 <= n < 10 ^ Z.of_nat (S fuel) ->
  exists c ds, digits (S fuel) n acc = (c :: ds) ++ acc /\ Forall (fun x => exists v, 0 <= v < 10 /\ x = digit v) (c :: ds) /\
    (forall a rest, parse_uint 10 a ((c :: ds) ++ rest) = parse_uint 10 (a * 10 ^ len (c :: ds) + n) rest) /\
    (0 < n -> c <> zero) /\ (n = 0 -> c = zero /\ ds = []).
Proof.
  induction fuel as [|fuel IH]; intros n acc Hn.
  all: pose proof (Z.mod_pos_bound n 10 ltac:(lia)) as Hm; pose proof (Z.div_mod n 10 ltac:(lia)) as Hdm; rewrite digits_eq;
    destruct (Z.eqb_spec (n / 10) 0) as [H0|H0].
  1, 3: exists (digit (n mod 10)), []; (split; [done|]); (split; [apply Forall_singleton; eauto|]); split;
    [intros a rest; cbn [app]; rewrite parse_digit by lia; f_equal; change (len [digit (n mod 10)]) with 1; lia
    |split; [intros Hp; apply (digit_other _ zero 48 eq_refl); lia|intros ->; done]].
  - exfalso. apply H0, Z.div_small. simpl in Hn. lia.
  - assert (0 <= n / 10 < 10 ^ Z.of_nat (S fuel)) as Hq.
    { split; [by apply Z.div_pos; lia|]. apply Z.div_lt_upper_bound; [lia|].
      rewrite <- Z.pow_succ_r by lia. replace (Z.succ (Z.of_nat (S fuel))) with (Z.of_nat (S (S fuel))) by lia. apply Hn. }
    destruct (IH (n / 10) (digit (n mod 10) :: acc) Hq) as (c & ds & -> & Hall & Hp & Hz & _).
    exists c, (ds ++ [digit (n mod 10)]). split; [by rewrite <- !app_comm_cons, <- app_assoc|]. split; [|split; [|split]].
    + rewrite app_comm_cons. apply Forall_app. split; [done|]. apply Forall_singleton. eauto.
    + intros a rest. rewrite app_comm_cons, <- app_assoc. rewrite Hp. cbn [app]. rewrite parse_digit by lia. f_equal.
      replace (len (c :: ds ++ [digit (n mod 10)])) with (len (c :: ds) + 1) by (unfold len; cbn [length]; rewrite length_app; simpl; lia).
      rewrite Z.pow_add_r by (pose proof (len_nonneg (c :: ds)); lia). lia.
    + intros _. apply Hz. lia.
    + intros ->. done.
Qed.

Lemma not_underscore l : Forall (fun x => exists v, 0 <= v < 10 /\ x = digit v) l -> underscore ∉ l.
Proof.
  rewrite Forall_forall. intros H Hin. destruct (H _ Hin) as (v & Hv & E). symmetry in E. revert E.
  apply (digit_other _ underscore 95 eq_refl); lia.
Qed.

Lemma ParseUint_digits n : 0 <= n < 2 ^ 64 -> ParseUint (digits 20 n []) = Some n.
Proof.
  intros Hn. destruct (digits_spec 19 n []) as (c & ds & -> & Hall & Hp & Hz & H0); [simpl; lia|]. rewrite app_nil_r.
  unfold ParseUint. rewrite decide_False by done. apply not_underscore in Hall.
  rewrite (bool_decide_eq_false_2 (underscore ∈ c :: ds)) by done. cbn [andb].
  destruct (decide (n = 0)) as [->|Hne].
  - destruct H0 as [-> ->]; [done|]. done.
  - unfold base_prefix. rewrite decide_False by (apply Hz; lia). specialize (Hp 0 []). rewrite app_nil_r in Hp.
    rewrite Hp. cbn [parse_uint mbind option_bind]. by replace (0 * 10 ^ len (c :: ds) + n <? 2 ^ 64) with true by lia.
Qed.

Lemma ParseInt_Itoa z : - 2 ^ 63 <= z < 2 ^ 63 -> ParseInt (Itoa z) = Some z.
Proof.
  intros Hz. unfold Itoa, ParseInt. destruct (Z.ltb_spec z 0).
  - rewrite decide_True by done. rewrite ParseUint_digits by lia. cbn [mbind option_bind].
    replace ((- 2 ^ 63 <=? - - z) && (- - z <? 2 ^ 63)) with true by lia. f_equal. lia.
  - pose proof (ParseUint_digits z ltac:(lia)) as Hp. destruct (digits_spec 19 z []) as (c & ds & E & Hall & _); [simpl; lia|].
    rewrite E in Hp |- *. rewrite app_nil_r in Hp |- *. apply Forall_cons in Hall as [(v & Hv & ->) _].
    rewrite (decide_False (P := digit v = minus)) by (apply (digit_other _ minus 45 eq_refl); lia).
    rewrite (decide_False (P := digit v = plus)) by (apply (digit_other _ plus 43 eq_refl); lia). rewrite Hp. cbn [mbind option_bind].
    by replace ((- 2 ^ 63 <=? z) && (z <? 2 ^ 63)) with true by lia.
Qed.

Section ParseLemmas.
Context {S : Type} (formal : bytes -> option (bool * (bytes -> S -> option S))).

Definition plain_name (name : bytes) : Prop :=
  (bool_decide (head name = None) || bool_decide (head name = Some minus) || bool_decide (head name = Some equals)) = false.

(** A flag that is not boolean takes the next argument, whatever it is. *)
Lemma Parse_next a v rest name set s s' :
  classify a = Flag name -> plain_name name -> equals ∉ name -> formal name = Some (false, set) -> set v s = Some s' ->
  Parse formal (a :: v :: rest) s = Parse formal rest s'.
Proof.
  intros Hc Hp He Hf Hs. cbn [Parse]. rewrite Hc, Hp. change 2%nat with (Datatypes.S 1).
  rewrite SplitN_nosep by done. by rewrite Hf, Hs.
Qed.

(** With an equals sign the value is in the argument itself. *)
Lemma Parse_inline a v rest name set b s s' :
  classify a = Flag (name ++ equals :: v) -> plain_name (name ++ equals :: v) -> equals ∉ name ->
  formal name = Some (b, set) -> set v s = Some s' ->
  Parse formal (a :: rest) s = Parse formal rest s'.
Proof.
  intros Hc Hp He Hf Hs. cbn [Parse]. rewrite Hc, Hp, (SplitN_app equals 0), SplitN_1 by done. rewrite Hf.
  destruct b; cbn [default from_option id]; by rewrite Hs.
Qed.

End ParseLemmas.

(** Arguments that spell out a set of flags. *)
Definition client_args (f : ClientFlags) : list bytes :=
  [$"relayd"; $"client"; $"--grpc-port"; Itoa (c_grpc_port f); $"--zone"; c_zone f; $"--data-dir"; c_data_dir f;
   $"--force-blackout=" ++ (if c_force_blackout f then $"true" else $"false"); $"--dns-resolver"; c_dns_resolver f] ++
  concat (map (fun r => [$"--relay"; r]) (c_relays f)).
Definition server_args (f : ServerFlags) : list bytes :=
  [$"relayd"; $"server"; $"-addr=" ++ s_addr f; $"-zone=" ++ s_zone f; $"-db=" ++ s_db f; $"-media-port=" ++ s_media_port f].

Lemma Parse_relays rs : forall p z d b r acc,
  Parse clientCmd (concat (map (fun r => [$"--relay"; r]) rs)) (mkClientFlags p z d b r acc) =
    Ok (mkClientFlags p z d b r (acc ++ rs)).
Proof.
  induction rs as [|x rs IH]; intros p z d b r acc; [by rewrite app_nil_r|]. cbn [map concat app].
  erewrite (Parse_next clientCmd $"--relay" x _ $"relay"); [|reflexivity|reflexivity|by apply (bool_decide_unpack _)|reflexivity|reflexivity].
  cbn [c_grpc_port c_zone c_data_dir c_force_blackout c_dns_resolver c_relays]. rewrite IH. unfold relayList_Set.
  by rewrite <- app_assoc.
Qed.

(** C26: the command line says what it means: the arguments that spell out a
    client's flags are parsed to exactly those flags, for every port of
    [int64], every zone, directory and resolver - whatever characters they
    hold - either choice of blackout, and every list of relays in its order;
    and the same for a server's flags written with equals signs. *)
Theorem cli_roundtrip f g :
  - 2 ^ 63 <= c_grpc_port f < 2 ^ 63 -> main (client_args f) = Client f /\ main (server_args g) = Server g.
Proof.
  intros Hp. split.
  - destruct f as [p z d b r rs]. cbn [c_grpc_port] in Hp. unfold main, client_args. cbn [app c_grpc_port c_zone c_data_dir c_force_blackout c_dns_resolver c_relays].
    rewrite decide_False by discriminate. rewrite decide_True by done.
    erewrite (Parse_next clientCmd $"--grpc-port"); [|reflexivity|reflexivity|by apply (bool_decide_unpack _)|reflexivity|cbv beta; by rewrite ParseInt_Itoa].
    erewrite (Parse_next clientCmd $"--zone"); [|reflexivity|reflexivity|by apply (bool_decide_unpack _)|reflexivity|reflexivity].
    erewrite (Parse_next clientCmd $"--data-dir"); [|reflexivity|reflexivity|by apply (bool_decide_unpack _)|reflexivity|reflexivity].
    erewrite (Parse_inline clientCmd _ (if b then $"true" else $"false") _ $"force-blackout" _ true);
      [|destruct b; reflexivity|destruct b; reflexivity|by apply (bool_decide_unpack _)|reflexivity|destruct b; reflexivity].
    erewrite (Parse_next clientCmd $"--dns-resolver"); [|reflexivity|reflexivity|by apply (bool_decide_unpack _)|reflexivity|reflexivity].
    cbn [c_grpc_port c_zone c_data_dir c_force_blackout c_dns_resolver c_relays client_defaults]. rewrite Parse_relays.
    by destruct b.
  - destruct g as [a z d m]. unfold main, server_args. cbn [s_addr s_zone s_db s_media_port]. rewrite decide_True by done.
    erewrite (Parse_inline serverCmd _ a _ $"addr" _ false); [|reflexivity|reflexivity|by apply (bool_decide_unpack _)|reflexivity|reflexivity].
    erewrite (Parse_inline serverCmd _ z _ $"zone" _ false); [|reflexivity|reflexivity|by apply (bool_decide_unpack _)|reflexivity|reflexivity].
    erewrite (Parse_inline serverCmd _ d _ $"db" _ false); [|reflexivity|reflexivity|by apply (bool_decide_unpack _)|reflexivity|reflexivity].
    erewrite (Parse_inline serverCmd _ m _ $"media-port" _ false); [|reflexivity|reflexivity|by apply (bool_decide_unpack _)|reflexivity|reflexivity].
    done.
Qed.

(** A relay address as it stands in a comma-separated list. *)
Definition plain_relay (r : bytes) : Prop := r <> [] /\ (comma ∉ r) /\ TrimSpace r = r.

Lemma relay_lists rs : Forall plain_relay rs -> parse_relay_list (Join comma rs) = rs /\ split_relay_list (Join comma rs) = rs.
Proof.
  intros Hall. unfold parse_relay_list, split_relay_list. destruct rs as [|r rs]; [by rewrite !decide_True|].
  assert (Join comma (r :: rs) <> []) as Hne by (apply Join_not_nil, Exists_cons_hd; by apply Forall_inv in Hall as [? _]).
  rewrite !decide_False, Split_Join by (done || (eapply Forall_impl; [exact Hall|]; intros x (_ & Hx & _); exact Hx)).
  split; [|done]. clear Hne. induction Hall as [|x l (Hx & _ & Ht) Hall IH]; [done|]. cbn [map]. rewrite Ht, filter_cons_True by done.
  by rewrite IH.
Qed.

(** C27: all entry points start the same daemon, except for an empty data
    directory.  For relay addresses without commas or blanks around them, the
    mobile library's [StartDaemon], the embedded [StartEmbedded] and the
    Android entry point, given the same settings, make the same call of
    [RunDaemon], with the directory they were given.  The command line makes
    that call too when a directory is given; without one, which is its default
    and which the others pass on as it is, it uses [.config/relayd] below the
    home directory, or exits with code 1 when there is no home directory. *)
Theorem entry_points_agree port rs zone (force : bool) dir resolver p2p boot home :
  Forall plain_relay rs ->
  let list := Join comma rs in
  let fb := if force then $"true" else $"false" in
  let call d := mkCall port rs zone d force resolver in
  StartDaemon port list zone fb dir resolver = call dir /\
  StartEmbedded port list zone fb dir resolver = call dir /\
  GoBridge_startDaemon port (JString (Some list)) (JString (Some zone)) (JString (Some fb)) (JString (Some dir)) p2p boot
    (JString (Some resolver)) = call dir /\
  runClient home (mkClientFlags port zone dir force resolver rs) =
    match dir, home with
    | _ :: _, _ => Ok (call dir)
    | [], Some h => Ok (call (h ++ $"/.config/relayd"))
    | [], None => Err 1
    end.
Proof.
  intros Hrs. cbv zeta. destruct (relay_lists rs Hrs) as [H1 H2].
  assert (bool_decide ((if force then $"true" else $"false") = $"true") = force) as Hb by (by destruct force).
  unfold GoBridge_startDaemon, StartDaemon, StartEmbedded, runClient. cbn [jstringToCString c_data_dir].
  rewrite H1, H2, Hb. repeat (split; [done|]). by destruct dir, home.
Qed.

(** The media port is fixed on the client's side: the address a daemon
    uploads to is the relay's media socket exactly when the relay was started
    with the default port, whatever port the daemon knows the relay by. *)
Theorem media_port_fixed addr token host port mediaPort :
  SplitHostPort addr = Some (host, port) ->
  (exists sock, startMediaServer_addr mediaPort = Some sock /\ relayAddr (NewTCPTransport addr token) = host ++ sock) <->
  mediaPort = $"9877".
Proof.
  intros Ha. unfold NewTCPTransport, startMediaServer_addr. rewrite Ha. cbn [relayAddr]. split.
  - intros (sock & Hs & E). case_decide; [discriminate|]. injection Hs as <-. apply app_inv_head in E.
    symmetry. exact (f_equal tail E).
  - intros ->. eexists. split; [reflexivity|done].
Qed.

(** ** Closed instances *)
Lemma cli_roundtrip_witness :
  main (client_args (mkClientFlags 9876 $"-z" $"/data" true $"1.1.1.1:53" [$"203.0.113.1:53"; $"-x=y"])) =
    Client (mkClientFlags 9876 $"-z" $"/data" true $"1.1.1.1:53" [$"203.0.113.1:53"; $"-x=y"]).
Proof.
  refine (proj1 (cli_roundtrip (mkClientFlags 9876 $"-z" $"/data" true $"1.1.1.1:53" [$"203.0.113.1:53"; $"-x=y"]) server_defaults _)).
  cbn [c_grpc_port]. lia.
Defined.

(** Without a directory: the bridges pass the empty one on, the command line
    does not. *)
Lemma entry_points_agree_witness :
  StartDaemon 9876 $"a:53,b:53" $"zone" $"true" [] $"r" = mkCall 9876 [$"a:53"; $"b:53"] $"zone" [] true $"r" /\
  runClient (Some $"/home/me") (mkClientFlags 9876 $"zone" [] true $"r" [$"a:53"; $"b:53"]) =
    Ok (mkCall 9876 [$"a:53"; $"b:53"] $"zone" $"/home/me/.config/relayd" true $"r").
Proof.
  destruct (entry_points_agree 9876 [$"a:53"; $"b:53"] $"zone" true [] $"r" 0 JNull (Some $"/home/me")) as (H1 & _ & _ & H2);
    [|split; [exact H1|exact H2]].
  repeat apply Forall_cons_2; [..|apply Forall_nil_2]; (split; [discriminate|]); split; try reflexivity; by apply (bool_decide_unpack _).
Defined.
