(* ===== verification/MediaFlow.v ===== *)
(** * A file from one daemon to another

    [SendMedia] of one daemon, the relay's media server, and the handling of
    the announcement by the other daemon, composed: the file that is saved is
    the file that was sent.  Other calls run while the sender waits, and the
    HTTP exchanges of both may be lost. *)

From S2P Require Import Prelude GoStrings Codec Sha256 Encoding Dns Relay Crypto Engine Queue MediaClient Daemon Messages Transfers.

(** ** The transport that is the HTTP client *)

(** A transport state reaches the media server of a relay, over a network and
    a disk that may fail; uploads and downloads are the calls of [TCPTransport]
    on it, with keys and nonces of the right size when there is randomness.
    Sending a message leaves the server alone, and a send that succeeds is
    added to a history of what was sent, and to whom. *)
Class MediaTransport {F : FileCipher} (decode_file_id : bytes -> option bytes) {T : Type} (TR : Transport T) := {
  media_host : T -> MediaHost;
  sent_log : T -> list (bytes * bytes);
  upload_media : forall relay tok data name mime mt t t' r, tcp_upload relay tok data name mime mt t = (t', r) ->
    sent_log t' = sent_log t /\
    exists msgID now rkey rnonce, (forall k, rkey = Some k -> length k = 32%nat) /\
      (forall n, rnonce = Some n -> length n = gcm_nonce_size) /\
      TCP_SendChunks host_do decode_file_id (NewTCPTransport relay tok) msgID data name mime mt now rkey rnonce
        (media_host t) = (media_host t', r);
  download_media : forall relay tok id t t' r, tcp_download relay tok id t = (t', r) ->
    DownloadFile host_do (NewTCPTransport relay tok) id (media_host t) = (media_host t', r);
  send_keeps_host : forall payload peer t, media_host (eng_send payload peer t).1 = media_host t;
  send_logged : forall payload peer t t' mid n, eng_send payload peer t = (t', (mid, Ok n)) ->
    sent_log t' = sent_log t ++ [(payload, peer)]
}.

(** ** Messages without a signature *)
Section Unsigned.
Context {C : CryptoLib} {L : CryptoLaws C}.

Lemma shared_agrees ra rb ka kb ss :
  length ra = 32%nat -> length rb = 32%nat -> GenerateKeyPair (Some ra) = Ok ka -> GenerateKeyPair (Some rb) = Ok kb ->
  SharedSecret (PrivateKey ka) (PublicKey kb) = Ok ss -> SharedSecret (PrivateKey kb) (PublicKey ka) = Ok ss /\ length ss = 32%nat.
Proof.
  intros Hra Hrb Ha Hb Hss. apply GenerateKeyPair_inv in Ha as (Hla & Hpa & Hxa); [|done].
  apply GenerateKeyPair_inv in Hb as (Hlb & Hpb & Hxb); [|done]. apply SharedSecret_Ok in Hss as (_ & _ & Hss).
  split; [|by eapply X25519_length]. apply SharedSecret_Ok. rewrite <- (X25519_agree _ _ _ _ Hxa Hxb). done.
Qed.

(** A sealed text of one line opens as it is, from the peer whose key opened
    it. *)
Lemma unsigned_opens kp peer pk ss text rn ct nonce :
  length rn = 24%nat -> length ss = 32%nat -> Base64.DecodeString peer = Some pk -> SharedSecret (PrivateKey kp) pk = Ok ss ->
  newline ∉ text -> text <> [] -> EncryptMessage ss text (Some rn) = Ok (ct, nonce) ->
  nonce = rn /\ decrypt_peers kp rn ct [peer] = Some (Some text, peer).
Proof.
  intros Hrn Hl Hdec Hss Hnt Hne He. unfold EncryptMessage in He. rewrite NewX_true in He by done. injection He as <- <-.
  split; [done|]. cbn [decrypt_peers]. rewrite Hdec, Hss. unfold DecryptMessage. rewrite NewX_true by done.
  unfold len at 1. rewrite Hrn. cbn [check mbind result_bind]. change (Z.of_nat 24 =? NonceLength) with true. cbn [check].
  rewrite (proj2 (Open_iff ss rn text _ Hl Hrn) eq_refl). cbn [or_err mbind result_bind].
  unfold ParseSignedPayload. change 4%nat with (S 3). rewrite SplitN_nosep by done. cbn iota. unfold opened.
  by rewrite decide_False.
Qed.

End Unsigned.

(** ** Sending *)

Section Flow.
Context {C : CryptoLib} {L : CryptoLaws C} {F : FileCipher} {FL : FileCipherLaws F} {J : Json} {IO : IterOrder}.
Context (decode_file_id : bytes -> option bytes).

(** What a successful [SendMedia] did, around what the other calls did. *)
Lemma SendMedia_sent {T} {TR : Transport T} up send peer data name mime nanos millis rand ok (d d' : Daemon T) resp :
  SendMedia up send peer data name mime nanos millis rand ok d = (d', Ok resp) ->
  exists relay t1 meta d1 ct nonce t2 mid n d2,
    tcp_upload relay (d_authToken d) data name mime MediaTypeFile (engine d) = (t1, Ok meta) /\
    engine d1 = t1 /\ identity d1 = identity d /\
    seal_meta peer (stamp_meta (format_x nanos) millis meta) rand (up d1) = Ok (ct, nonce) /\
    eng_send (nonce ++ ct) peer (engine (up d1)) = (t2, (mid, Ok n)) /\
    engine d2 = t2 /\ engine d' = engine (send d2).
Proof.
  unfold SendMedia. cbv zeta. change (conf (set_transfers _ d)) with (conf d).
  destruct (GetRelays (conf d)) as [|relay rl]; [discriminate|].
  match goal with |- context [tcp_upload relay ?tok data name mime MediaTypeFile ?e] =>
    change tok with (d_authToken d); change e with (engine d) end.
  destruct (tcp_upload _ _ _ _ _ _ _) as [t1 [meta|e]] eqn:Hu; [|discriminate].
  match goal with |- context [up ?x] => set (d1 := x) end.
  match goal with |- context [seal_meta peer ?m rand ?x] => change (seal_meta peer m rand x) with (seal_meta peer m rand (up d1)) end.
  destruct (seal_meta _ _ _ _) as [[ct nonce]|e] eqn:Hseal; [|discriminate].
  match goal with |- context [eng_send ?p peer ?e] => change e with (engine (up d1)) end.
  destruct (eng_send _ _ _) as [t2 [mid [n|e]]] eqn:He; [|discriminate].
  match goal with |- context [send ?x] => set (d2 := x) end. intros [= <- <-].
  exists relay, t1, meta, d1, ct, nonce, t2, mid, n, d2. repeat (split; [done|]). by rewrite store_update_engine.
Qed.

(** Reading an announcement back: the decoders see its own fields, and none
    of the other messages'. *)
Definition reads_back (meta : MediaMessage) : Prop :=
  forall j, marshal_meta meta = Some j ->
    (newline ∉ j) /\ starts_object j = true /\ 20 < len j /\
    json_media_meta j = Some (FileKeyB64 meta, MimeType meta, FileName meta, FileID meta) /\
    (forall ty i k e n, json_group_key j = Some (ty, i, k, e, n) -> ty = []) /\
    (forall g e m, json_group_msg j = Some (g, e, m) -> g = []) /\
    (forall ty a b f k, json_profile_msg j = Some (ty, a, b, f, k) -> ty = []).

(** An announcement is acted on as one. *)
Lemma act_on_meta {T} {TR : Transport T} w pm from meta j (d : Daemon T) :
  reads_back meta -> marshal_meta meta = Some j -> FileKeyB64 meta <> [] ->
  act_on w pm j from d = (media_meta w pm from (FileKeyB64 meta) (MimeType meta) (FileName meta) (FileID meta) d, []).
Proof.
  intros Hr Hj Hk. destruct (Hr j Hj) as (_ & Hobj & Hlen & Hm & Hgk & Hgm & Hpm).
  unfold act_on, take_group_key, open_group_message. replace (10 <? len j) with true by lia. rewrite Hobj. cbn [andb].
  assert (match json_group_key j with
          | Some (ty, groupID, keyB64, epoch, n) => if bool_decide (ty = $"group_key") && negb (bool_decide (keyB64 = []))
              then Some (store_group_key w groupID keyB64 n epoch d) else None
          | None => None end = None) as ->
    by (destruct (json_group_key j) as [[[[[ty i] k] e] n]|]; [by rewrite (Hgk _ _ _ _ _ eq_refl)|done]).
  destruct (json_group_msg j) as [[[g e] x]|]; [rewrite (Hgm _ _ _ eq_refl), bool_decide_eq_true_2 by done; cbn [negb andb]|];
    unfold take_typed; replace (20 <? len j) with true by lia; rewrite Hobj, Hm, (bool_decide_eq_false_2 (FileKeyB64 meta = [])) by done;
    cbn [andb]; (destruct (json_profile_msg j) as [[[[[ty a] b] f] k]|]; [by rewrite (Hpm _ _ _ _ _ eq_refl)|done]).
Qed.

(** The file of an announcement that is at the relay: unless the download is
    lost, it is opened and written. *)
Lemma media_meta_saves {T} {TR : Transport T} {M : MediaTransport decode_file_id TR} w pm from key mime name x enc ts data (d : Daemon T) :
  GetRelays (conf d) <> [] -> x <> [] -> host_dir (media_host (engine d)) !! Hex.EncodeToString x = Some (enc, ts) ->
  admits (media_host (engine d)) (d_authToken d) -> DecryptFile key enc = Ok data ->
  let d' := media_meta w pm from (Base64.EncodeToString key) mime name (Hex.EncodeToString x) d in
  let path := JoinPath $"media_received" (Hex.EncodeToString (pm_MsgID pm) ++ extension mime) in
  let saved := if next_lost (media_host (engine d)) then [] else data in
  (w path = Written -> files d' !! path = Some saved) /\
  (w (path ++ $".meta") = Written -> files d' !! (path ++ $".meta") =
     Some (marshal_sidecar mime name from (Itoa (pm_Timestamp pm)) (match saved with [] => $"failed" | _ => $"complete" end))).
Proof.
  intros Hr Hx Hd Ha Hdec. cbv zeta. unfold media_meta. destruct (GetRelays (conf d)) as [|relay rl]; [done|].
  rewrite decide_False by (intros E%(f_equal length); rewrite HexFacts.hex_encode_length in E; by destruct x).
  destruct (tcp_download relay (d_authToken d) _ (engine d)) as [t r] eqn:Hdl.
  apply (download_media (MediaTransport := M)) in Hdl. rewrite (DownloadFile_there _ _ _ enc ts Hx Hd) in Hdl by exact Ha.
  apply pair_eq in Hdl as [_ <-]. set (path := JoinPath _ _). set (lost := next_lost _). clearbody lost.
  assert (path <> path ++ $".meta") as Hne by (intros E%(f_equal length); rewrite length_app in E; simpl in E; lia).
  match goal with |- context [WriteFile w path (default [] ?fd) _] =>
    assert (fd = opened (if lost then [] else data)) as -> end.
  { destruct lost; [done|]. by rewrite Base64Facts.b64_decode_partial_encode, Hdec. }
  assert (forall v, default [] (opened v) = v) as -> by (intros v; unfold opened; by case_decide).
  assert (forall v, match opened v with Some _ => $"complete" | None => $"failed" end = match v with [] => $"failed" | _ => $"complete" end) as ->
    by (intros [|? ?]; done).
  set (saved := if lost then [] else data). set (side := marshal_sidecar _ _ _ _ _).
  split; intros Hw; unfold WriteFile.
  - rewrite Hw. cbn [files set_files]. by rewrite lookup_insert_eq.
  - rewrite Hw. destruct (w path); cbn [files set_files]; rewrite 1?(lookup_insert_ne _ path) by done; by rewrite lookup_insert_eq.
Qed.

(** What the calls that run meanwhile leave: the identity, what the relay
    holds, and what was sent. *)
Definition keeps_sending {T} {TR : Transport T} {M : MediaTransport decode_file_id TR} (f : Daemon T -> Daemon T) : Prop :=
  forall d, identity (f d) = identity d /\ host_dir (media_host (engine d)) ⊆ host_dir (media_host (engine (f d))) /\
    sent_log (engine d) `prefix_of` sent_log (engine (f d)).

(** What is at the relay and in the history when [SendMedia] succeeded. *)
Lemma SendMedia_stored {T} {TR : Transport T} {M : MediaTransport decode_file_id TR} up send peer data name mime nanos millis rand ok
    (d d' : Daemon T) resp :
  (forall id, decode_file_id (Media.upload_body (Hex.EncodeToString id)) = Some (Hex.EncodeToString id)) ->
  keeps_sending up -> keeps_sending send ->
  SendMedia up send peer data name mime nanos millis rand ok d = (d', Ok resp) ->
  exists msgID now key nonce0 ct nonce pre post ts,
    let enc := nonce0 ++ gcm_Seal key nonce0 data in
    let fid := Hex.EncodeToString (Sha256.Sum256 enc) in
    length key = 32%nat /\ length nonce0 = gcm_nonce_size /\
    host_dir (media_host (engine d')) !! fid = Some (enc, ts) /\
    seal_meta peer (stamp_meta (format_x nanos) millis (build_meta msgID data name mime key fid MediaTypeFile now)) rand d = Ok (ct, nonce) /\
    sent_log (engine d') = sent_log (engine d) ++ pre ++ (nonce ++ ct, peer) :: post.
Proof.
  intros Hdec Hup Hsd Hsend.
  apply SendMedia_sent in Hsend as (relay & t1 & meta & d1 & ct & nonce & t2 & mid & n & d2 & Hu & E1 & Ei & Hseal & He & E2 & E3).
  apply (upload_media (MediaTransport := M)) in Hu as (Hlog1 & msgID & now & rkey & rnonce & Lk & Ln & Hu).
  apply (TCP_SendChunks_stored decode_file_id Hdec) in Hu as (key & nonce0 & -> & -> & Hdir & ->).
  destruct (Hup d1) as (Ui & Ud & [pre Up]). destruct (Hsd d2) as (_ & Sd & [post Sp]).
  pose proof (send_keeps_host (MediaTransport := M) (nonce ++ ct) peer (engine (up d1))) as Hhost.
  pose proof (send_logged (MediaTransport := M) _ _ _ _ _ _ He) as Hlog2. rewrite He in Hhost. cbn [fst] in Hhost.
  exists msgID, now, key, nonce0, ct, nonce, pre, post, (host_now (media_host (engine d))). cbv zeta.
  split; [by apply Lk|]. split; [by apply Ln|]. split; [|split].
  - rewrite E3. eapply lookup_weaken; [|exact Sd]. rewrite E2, Hhost. eapply lookup_weaken; [|exact Ud].
    rewrite E1, Hdir. apply lookup_insert_eq.
  - revert Hseal. unfold seal_meta. by rewrite Ui, Ei.
  - rewrite E3, Sp, E2, Hlog2, Up, E1, Hlog1. rewrite <- !app_assoc. done.
Qed.

End Flow.


(** A relay with a media token of its own refuses every daemon: the token a
    daemon presents is the one that guards its local interface, which no
    setting of the daemon changes. *)
Theorem media_token_refused {C : CryptoLib} {F : FileCipher} {J : Json} decode_file_id
    {T} {TR : Transport T} {M : MediaTransport decode_file_id TR} up send
    peer data name mime nanos millis rand ok (d : Daemon T) :
  ~ admits (media_host (engine d)) (d_authToken d) ->
  forall resp, (SendMedia up send peer data name mime nanos millis rand ok d).2 <> Ok resp.
Proof.
  intros Hno resp E. destruct (SendMedia _ _ _ _ _ _ _ _ _ _ _) as [d' r] eqn:Hs. cbn [snd] in E. subst r.
  apply SendMedia_sent in Hs as (relay & t1 & meta & d1 & ct & nonce & t2 & mid & n & d2 & Hup & _).
  apply (upload_media (MediaTransport := M)) in Hup as (_ & msgID & now & rkey & rnonce & Lk & Ln & Hup).
  by apply TCP_SendChunks_admitted in Hup.
Qed.

(** ** Closed instances *)

(** A client of one media server, and what it has sent. *)
Record HostClient := mkHostClient { hc_conf : DNSClientEngine; hc_host : MediaHost; hc_sent : list (bytes * bytes) }.

#[local] Instance host_transport : Transport HostClient := {|
  eng_conf := hc_conf;
  eng_set_conf e t := mkHostClient e (hc_host t) (hc_sent t);
  eng_send payload peer t := (mkHostClient (hc_conf t) (hc_host t) (hc_sent t ++ [(payload, peer)]), ($"01234567", Ok 1));
  eng_poll _ t := (t, Ok []);
  tcp_upload relay tok data name mime mt t :=
    let '(h, r) := TCP_SendChunks (F := toy_cipher) host_do strip_file_id (NewTCPTransport relay tok) $"76543210" data name mime mt 5
                     (Some (replicate 32 dot)) (Some (replicate 12 colon)) (hc_host t) in (mkHostClient (hc_conf t) h (hc_sent t), r);
  tcp_download relay tok id t :=
    let '(h, r) := DownloadFile host_do (NewTCPTransport relay tok) id (hc_host t) in (mkHostClient (hc_conf t) h (hc_sent t), r)
|}.

#[local] Instance host_transport_media : MediaTransport (F := toy_cipher) strip_file_id host_transport.
Proof.
  refine {| media_host := hc_host; sent_log := hc_sent |}; try done.
  - intros relay tok data name mime mt t t' r. cbn [tcp_upload host_transport].
    destruct (TCP_SendChunks _ _ _ _ _ _ _ _ _ _ _ _) as [h r'] eqn:E. intros [= <- <-]. split; [done|].
    exists $"76543210", 5, (Some (replicate 32 dot)), (Some (replicate 12 colon)).
    split; [by intros k [= <-]|]. split; [by intros k [= <-]|]. done.
  - intros relay tok fid t t' r. cbn [tcp_download host_transport].
    destruct (DownloadFile _ _ _ _) as [h r'] eqn:E. intros [= <- <-]. done.
  - by intros payload peer t t' mid n [= <- <- <-].
Defined.

(** A codec for announcements of one file. *)
Definition meta_head : bytes := lbrace :: replicate 20 dot.
Definition file_json : Json := {|
  json_relays _ := None; marshal_peers _ := None; json_peers _ := None; marshal_groups _ := None;
  json_groups _ := None; marshal_profile _ := None; json_profile_file _ := None; json_hello _ := None;
  json_group_key _ := None; json_group_msg _ := None; json_profile_msg _ := None;
  json_media_meta j := match Split colon (drop 21 j) with
    | [k; i] => key ← Hex.DecodeString k; fid ← Hex.DecodeString i; Some (key, $"image/png", $"a.png", fid)
    | _ => None end;
  marshal_bio b := b; marshal_sidecar mime name from ts status := status ++ name;
  marshal_meta m := Some (meta_head ++ Hex.EncodeToString (FileKeyB64 m) ++ colon :: Hex.EncodeToString (FileID m));
  json_stream_header _ := None
|}.

Lemma file_json_reads_back meta : FileName meta = $"a.png" -> MimeType meta = $"image/png" -> reads_back (J := file_json) meta.
Proof.
  intros Hn Hm j Hj. cbn [marshal_meta file_json] in Hj. apply (inj Some) in Hj as <-.
  assert (forall s, colon ∉ Hex.EncodeToString s) as Hc
    by (intros s; apply HexFacts.hex_notin; intros b3 b2 b1 b0; destruct b3, b2, b1, b0; vm_compute; discriminate).
  assert (forall s, newline ∉ Hex.EncodeToString s) as Hl
    by (intros s; apply HexFacts.hex_notin; intros b3 b2 b1 b0; destruct b3, b2, b1, b0; vm_compute; discriminate).
  split; [|split; [done|split; [|split; [|done]]]].
  - intros H. rewrite !elem_of_app, elem_of_cons in H. destruct H as [H|[H|[H|H]]]; [|by apply Hl in H|done|by apply Hl in H]. revert H. by apply (bool_decide_unpack _).
  - rewrite len_app. change (len meta_head) with 21. pose proof (len_nonneg (Hex.EncodeToString (FileKeyB64 meta) ++ colon :: Hex.EncodeToString (FileID meta))). lia.
  - cbn [json_media_meta file_json]. change 21%nat with (length meta_head). rewrite drop_app_length, Split_app, Split_nosep by done.
    rewrite !HexFacts.hex_decode_encode. cbn [mbind option_bind]. by rewrite Hn, Hm.
Qed.

Definition host_daemon (kp : KeyPair) (ps : gmap bytes PeerInfoEntry) (token : bytes) (h : MediaHost) : Daemon HostClient :=
  mkDaemon (mkHostClient (NewDNSClientEngine [$"10.0.0.1:53"] $"zone") h []) (NewDetector false 1) NewOfflineQueue kp
    ps ∅ ∅ ∅ None token None ∅.
Definition host_alice := host_daemon alice_kp ∅ (replicate 64 dot) (mkHost ∅ 7 [] [None]).

(** Bob, at the relay as Alice left it, where the disk has failed since. *)
Definition host_bob (dir : Media.dir) :=
  host_daemon bob_kp {[myPubkey host_alice := mkPeer $"Alice" (myPubkey host_alice)]} (replicate 64 colon)
    (mkHost dir 8 [] [Some (DiskFault NotOpened)]).

Local Abbreviation alice_sends_file :=
  (SendMedia (TR := host_transport) (C := toy_crypto) (J := file_json) (fun d => (CancelSend (format_x 255) d).1) id (myPubkey (host_bob ∅))
    $"picture" $"a.png" $"image/png" 255 0 (Some (replicate 24 dot)) true host_alice).

Lemma cancel_keeps_sending id : keeps_sending (T := HostClient) strip_file_id (M := host_transport_media) (fun d => (CancelSend id d).1).
Proof. intros d. destruct (CancelSend_only id d) as [x ->]. by split. Qed.

